(** * I/O buffer management: a shallow embedding of kernel/mm/iobuf.c

    The development follows the source file function by function.  Integers
    are [Z] with the wrap-around of their C type written out, structures are
    records, the calls into the rest of the kernel (physical allocator, pool,
    page cache, address space) are answered by the [Kernel] state and logged
    in call order, and [ASSERT] ends the run. *)

From Stdlib Require Import ZArith List Lia Bool.
From stdpp Require Import base option list.

Open Scope Z_scope.

(** ** The machine *)

(** Modelled from the spec: the kernel headers (minoca/kernel.h, mmp.h) are
    not part of the sources, so the constants they fix are fields of a
    machine description: the width of [UINTN] and of pointers, the page
    shift returned by [MmPageShift()], the first kernel address
    [KERNEL_VA_START], the bound [MAX_IO_VECTOR_COUNT] and the value of
    [INVALID_PHYSICAL_ADDRESS]. *)
Class Machine : Type := {
  UINTN_BITS : Z;
  MmPageShift : Z;
  KERNEL_VA_START : Z;
  MAX_IO_VECTOR_COUNT : Z;
  INVALID_PHYSICAL_ADDRESS : Z;
  UINTN_BITS_range : 32 <= UINTN_BITS <= 64;
  MmPageShift_range : 0 < MmPageShift < 32;
  KERNEL_VA_START_range : 0 < KERNEL_VA_START < 2 ^ UINTN_BITS;
  MAX_IO_VECTOR_COUNT_range : 0 < MAX_IO_VECTOR_COUNT < 2 ^ UINTN_BITS;
  INVALID_PHYSICAL_ADDRESS_range : 0 <= INVALID_PHYSICAL_ADDRESS < 2 ^ 64
}.

(** Modelled from the spec: a 32-bit machine with the 4 KiB pages of the
    spec's scenarios (section 8), the kernel in the upper half of the
    address space, and a zero invalid physical address (the value a blank,
    zero-filled fragment holds where the source asserts
    [Fragment->PhysicalAddress == INVALID_PHYSICAL_ADDRESS]). *)
Definition Machine32 : Machine.
Proof.
  refine {| UINTN_BITS := 32;
            MmPageShift := 12;
            KERNEL_VA_START := 0x80000000;
            MAX_IO_VECTOR_COUNT := 1024;
            INVALID_PHYSICAL_ADDRESS := 0 |}; lia.
Defined.

(** Modelled from the spec: the same on a 64-bit machine, the kernel in the
    upper half of the canonical addresses. *)
Definition Machine64 : Machine.
Proof.
  refine {| UINTN_BITS := 64;
            MmPageShift := 12;
            KERNEL_VA_START := 0xFFFF800000000000;
            MAX_IO_VECTOR_COUNT := 1024;
            INVALID_PHYSICAL_ADDRESS := 0 |}; lia.
Defined.

(** ** Status codes *)

Inductive KSTATUS : Type :=
| STATUS_SUCCESS
| STATUS_INVALID_PARAMETER
| STATUS_INSUFFICIENT_RESOURCES
| STATUS_ACCESS_VIOLATION
| STATUS_BUFFER_TOO_SMALL
| STATUS_NO_MEMORY
| STATUS_INCORRECT_BUFFER_SIZE
| STATUS_TRY_AGAIN
| STATUS_UNSUCCESSFUL.

Definition KSUCCESS (Status : KSTATUS) : bool :=
  match Status with STATUS_SUCCESS => true | _ => false end.

Inductive RUNLEVEL : Type := RunLevelLow | RunLevelDispatch | RunLevelHigh.

(** ** Flags (lines 40-106) *)

Definition IO_BUFFER_FLAG_MEMORY_OWNED : Z := 0x00000001.
Definition IO_BUFFER_FLAG_STRUCTURE_NOT_OWNED : Z := 0x00000002.
Definition IO_BUFFER_FLAG_MEMORY_LOCKED : Z := 0x00000004.
Definition IO_BUFFER_FLAG_NON_PAGED : Z := 0x00000008.
Definition IO_BUFFER_FLAG_PAGE_CACHE_BACKED : Z := 0x00000010.
Definition IO_BUFFER_FLAG_FRAGMENT : Z := 0x00000020.
Definition IO_BUFFER_FLAG_USER_MODE : Z := 0x00000040.
Definition IO_BUFFER_FLAG_MAPPED : Z := 0x00000080.
Definition IO_BUFFER_FLAG_VIRTUALLY_CONTIGUOUS : Z := 0x00000100.
Definition IO_BUFFER_FLAG_UNMAP_ON_FREE : Z := 0x00000200.
Definition IO_BUFFER_FLAG_EXTENDABLE : Z := 0x00000400.
Definition LOCAL_IO_VECTOR_COUNT : Z := 8.

(** [(Flags & Flag) != 0] *)
Definition flag_set (Flags Flag : Z) : bool := negb (Z.land Flags Flag =? 0).

(** ** Structures

    The struct declarations are in the absent headers; the fields are the ones
    iobuf.c reads and writes.  Each record lives in a module of its own, as
    the members of a C struct live in a name space of their own: the local
    variables of the functions below keep their source names. *)

(** [IO_BUFFER_FRAGMENT] *)
Module Frag.
Record t : Type := mk {
  VirtualAddress : Z;
  PhysicalAddress : Z;
  Size : Z
}.
Definition set_VirtualAddress (v : Z) (f : t) : t :=
  mk v (PhysicalAddress f) (Size f).
Definition set_PhysicalAddress (v : Z) (f : t) : t :=
  mk (VirtualAddress f) v (Size f).
Definition set_Size (v : Z) (f : t) : t :=
  mk (VirtualAddress f) (PhysicalAddress f) v.
(** A zero-filled fragment ([RtlZeroMemory]). *)
Definition zero : t := mk 0 0 0.
End Frag.

(** [PAGE_CACHE_ENTRY]: a (non-null) pointer to an entry of the page cache,
    with what [IoGetPageCacheEntryPhysicalAddress] and
    [IoGetPageCacheEntryVirtualAddress] return for it.  A slot of a buffer's
    table holds [Some] entry or [None] for [NULL]. *)
Module Pce.
Record t : Type := mk {
  Pointer : Z;
  PhysicalAddress : Z;
  VirtualAddress : Z
}.
End Pce.

(** [IO_BUFFER].  [Fragment] is the fragment table (all its slots, in use or
    not); the members of [Internal] are flattened; [PageCacheEntries] is
    [None] for a null table pointer. *)
Module Io.
Record t : Type := mk {
  Fragment : list Frag.t;
  FragmentCount : Z;
  Flags : Z;
  TotalSize : Z;
  CurrentOffset : Z;
  MaxFragmentCount : Z;
  PageCount : Z;
  PageCacheEntries : option (list (option Pce.t))
}.
Definition set_Fragment (v : list Frag.t) (b : t) : t :=
  mk v (FragmentCount b) (Flags b) (TotalSize b) (CurrentOffset b)
     (MaxFragmentCount b) (PageCount b) (PageCacheEntries b).
Definition set_FragmentCount (v : Z) (b : t) : t :=
  mk (Fragment b) v (Flags b) (TotalSize b) (CurrentOffset b)
     (MaxFragmentCount b) (PageCount b) (PageCacheEntries b).
Definition set_Flags (v : Z) (b : t) : t :=
  mk (Fragment b) (FragmentCount b) v (TotalSize b) (CurrentOffset b)
     (MaxFragmentCount b) (PageCount b) (PageCacheEntries b).
Definition set_TotalSize (v : Z) (b : t) : t :=
  mk (Fragment b) (FragmentCount b) (Flags b) v (CurrentOffset b)
     (MaxFragmentCount b) (PageCount b) (PageCacheEntries b).
Definition set_CurrentOffset (v : Z) (b : t) : t :=
  mk (Fragment b) (FragmentCount b) (Flags b) (TotalSize b) v
     (MaxFragmentCount b) (PageCount b) (PageCacheEntries b).
Definition set_PageCacheEntries (v : option (list (option Pce.t))) (b : t) : t :=
  mk (Fragment b) (FragmentCount b) (Flags b) (TotalSize b) (CurrentOffset b)
     (MaxFragmentCount b) (PageCount b) v.
End Io.

Notation IO_BUFFER_FRAGMENT := Frag.t.
Notation PAGE_CACHE_ENTRY := Pce.t.
Notation IO_BUFFER := Io.t.

(** [IO_VECTOR] *)
Module Vec.
Record t : Type := mk { Data : Z; Length : Z }.
End Vec.
Notation IO_VECTOR := Vec.t.

(** ** The rest of the kernel *)

(** The calls iobuf.c makes into its collaborators, as they are logged. *)
Inductive Event : Type :=
| CallMmpAllocatePhysicalPages (PageCount Alignment : Z)
| CallMmFreePhysicalPage (PhysicalAddress : Z)
| CallMmpUnlockPhysicalPages (PhysicalAddress PageCount : Z)
| CallIoPageCacheEntryAddReference (PageCacheEntry : PAGE_CACHE_ENTRY)
| CallIoPageCacheEntryReleaseReference (PageCacheEntry : PAGE_CACHE_ENTRY)
| CallMmpFreeAccountingRanges (Fragments : list IO_BUFFER_FRAGMENT)
    (PageCacheEntries : option (list (option PAGE_CACHE_ENTRY)))
| CallMmpAllocateAddressRange (Size Alignment : Z)
| CallMmpMapRange (VirtualAddress Size PhysicalRunAlignment PhysicalRunSize : Z)
    (WriteThrough NonCached : bool)
| CallMmpFreeAccountingRange (VirtualAddress Size : Z)
| CallMmCopyFromUserMode (VectorCount : Z)
| CallMmFreeNonPagedPool
| CallMmFreePagedPool.

(** What the collaborators answer, and the log of the calls made so far
    (oldest first). *)
Record Kernel : Type := mkKernel {
  Log : list Event;
  (** [KeGetRunLevel()] *)
  RunLevel : RUNLEVEL;
  (** the answers of the next calls of [MmpAllocatePhysicalPages]; an
      exhausted allocator answers [INVALID_PHYSICAL_ADDRESS] *)
  PhysicalPages : list Z;
  (** how many more pool allocations succeed *)
  PoolAvailable : nat;
  (** the status of [MmCopyFromUserMode] *)
  UserCopy : KSTATUS;
  (** the status and the address [MmpAllocateAddressRange] answers *)
  AddressRange : KSTATUS * Z;
  (** the status of [MmpMapRange] *)
  MapRange : KSTATUS;
  (** [MmpVirtualToPhysical] *)
  PageTable : Z -> Z
}.

Definition set_Log (v : list Event) (k : Kernel) : Kernel :=
  mkKernel v (RunLevel k) (PhysicalPages k) (PoolAvailable k) (UserCopy k)
           (AddressRange k) (MapRange k) (PageTable k).
Definition set_PhysicalPages (v : list Z) (k : Kernel) : Kernel :=
  mkKernel (Log k) (RunLevel k) v (PoolAvailable k) (UserCopy k)
           (AddressRange k) (MapRange k) (PageTable k).
Definition set_PoolAvailable (v : nat) (k : Kernel) : Kernel :=
  mkKernel (Log k) (RunLevel k) (PhysicalPages k) v (UserCopy k)
           (AddressRange k) (MapRange k) (PageTable k).

(** ** The monad of kernel code

    A computation reads and updates the [Kernel]; [None] is a run ended by a
    failed [ASSERT] or by an access outside a table. *)
Definition Mm (A : Type) : Type := Kernel -> option (A * Kernel).

Definition ret {A : Type} (a : A) : Mm A := fun k => Some (a, k).

Definition bind {A B : Type} (m : Mm A) (f : A -> Mm B) : Mm B :=
  fun k => match m k with
           | Some (a, k') => f a k'
           | None => None
           end.

Definition stop {A : Type} : Mm A := fun _ => None.


Notation "x <- c1 ;; c2" := (bind c1 (fun x => c2))
  (at level 100, c1 at next level, right associativity).
Notation "c1 ;; c2" := (bind c1 (fun _ => c2))
  (at level 100, right associativity).

(** Modelled from the spec: the [ASSERT] macro of the kernel headers.
    Section 7 of the spec: asserts guard "cannot happen" conditions and are
    not a form of error signalling.  A run on which an assertion fails is
    ended. *)
Definition ASSERT (Condition : bool) : Mm unit :=
  fun k => if Condition then Some (tt, k) else None.

(** A call into a collaborator that answers nothing. *)
Definition call (e : Event) : Mm unit :=
  fun k => Some (tt, set_Log (Log k ++ [e]) k).

(** [Table[Index]], read and written; an access outside the table ends the
    run. *)
Definition read {A : Type} (Table : list A) (Index : Z) : Mm A :=
  fun k => match Table !! Z.to_nat Index with
           | Some a => Some (a, k)
           | None => None
           end.

Definition write {A : Type} (Table : list A) (Index : Z) (a : A) : Mm (list A) :=
  fun k => if (Z.to_nat Index <? length Table)%nat
           then Some (<[Z.to_nat Index := a]> Table, k)
           else None.

Section IoBuffer.

Context {machine : Machine}.

(** [MmPageSize()]: the page size goes with the page shift. *)
Definition MmPageSize : Z := 2 ^ MmPageShift.

(** ** Integer types *)

Definition UINTN (x : Z) : Z := x mod 2 ^ UINTN_BITS.
Definition ULONG (x : Z) : Z := x mod 2 ^ 32.
Definition ULONGLONG (x : Z) : Z := x mod 2 ^ 64.

(** [PHYSICAL_ADDRESS] is a [ULONGLONG]; [PVOID] arithmetic is [UINTN]
    arithmetic. *)
Definition MAX_ULONG : Z := 2 ^ 32 - 1.
Definition MAX_ULONGLONG : Z := 2 ^ 64 - 1.
Definition NULL : Z := 0.

(** Modelled from the spec: the alignment macros of the kernel headers.  The
    spec reads them as rounding to a multiple (section 4.1: ceil(size/page)
    pages; section 4.6: "round down to page").  The value is the unbounded
    one: each use truncates it to the C type of its operands. *)
Definition ALIGN_RANGE_DOWN (Value Size : Z) : Z := Value - Value mod Size.
Definition ALIGN_RANGE_UP (Value Size : Z) : Z :=
  ALIGN_RANGE_DOWN (Value + Size - 1) Size.
Definition IS_ALIGNED (Value Size : Z) : bool :=
  ALIGN_RANGE_DOWN Value Size =? Value.
Definition REMAINDER (Value Size : Z) : Z := Value mod Size.

(** ** Size and cursor (lines 2630-2753) *)

Definition MmGetIoBufferSize (IoBuffer : IO_BUFFER) : Z :=
  UINTN (Io.TotalSize IoBuffer - Io.CurrentOffset IoBuffer).

Definition MmGetIoBufferCurrentOffset (IoBuffer : IO_BUFFER) : Z :=
  Io.CurrentOffset IoBuffer.

Definition MmIoBufferIncrementOffset (IoBuffer : IO_BUFFER)
    (OffsetIncrement : Z) : Mm IO_BUFFER :=
  let IoBuffer :=
    Io.set_CurrentOffset
      (UINTN (Io.CurrentOffset IoBuffer + OffsetIncrement)) IoBuffer in
  ASSERT (Io.CurrentOffset IoBuffer <=? Io.TotalSize IoBuffer) ;;
  ret IoBuffer.

Definition MmIoBufferDecrementOffset (IoBuffer : IO_BUFFER)
    (OffsetDecrement : Z) : Mm IO_BUFFER :=
  let IoBuffer :=
    Io.set_CurrentOffset
      (UINTN (Io.CurrentOffset IoBuffer - OffsetDecrement)) IoBuffer in
  ASSERT (Io.CurrentOffset IoBuffer <=? Io.TotalSize IoBuffer) ;;
  ret IoBuffer.

(** A caller's sequence of cursor moves. *)
Inductive CursorCall : Type :=
| Advance (OffsetIncrement : Z)
| Rewind (OffsetDecrement : Z).

Fixpoint CursorCalls (calls : list CursorCall) (IoBuffer : IO_BUFFER)
    : Mm IO_BUFFER :=
  match calls with
  | [] => ret IoBuffer
  | Advance n :: rest =>
      IoBuffer <- MmIoBufferIncrementOffset IoBuffer n ;;
      CursorCalls rest IoBuffer
  | Rewind n :: rest =>
      IoBuffer <- MmIoBufferDecrementOffset IoBuffer n ;;
      CursorCalls rest IoBuffer
  end.

(** ** Physical address at an offset (lines 2755-2808) *)

(** The [for] loop over the fragments in use: [n] iterations are left,
    [FragmentIndex] counts up from 0 to [FragmentCount]. *)
Fixpoint MmGetIoBufferPhysicalAddress_loop (n : nat) (IoBuffer : IO_BUFFER)
    (IoBufferOffset FragmentIndex FragmentStart : Z) : Mm Z :=
  match n with
  | O => ret INVALID_PHYSICAL_ADDRESS
  | S n' =>
      Fragment <- read (Io.Fragment IoBuffer) FragmentIndex ;;
      let FragmentEnd := UINTN (FragmentStart + Frag.Size Fragment) in
      if (FragmentStart <=? IoBufferOffset) && (IoBufferOffset <? FragmentEnd)
      then
        let PhysicalAddress := Frag.PhysicalAddress Fragment in
        ret (ULONGLONG (PhysicalAddress + UINTN (IoBufferOffset - FragmentStart)))
      else
        MmGetIoBufferPhysicalAddress_loop n' IoBuffer IoBufferOffset
          (FragmentIndex + 1) FragmentEnd
  end.

Definition MmGetIoBufferPhysicalAddress (IoBuffer : IO_BUFFER)
    (IoBufferOffset : Z) : Mm Z :=
  let IoBufferOffset := UINTN (IoBufferOffset + Io.CurrentOffset IoBuffer) in
  MmGetIoBufferPhysicalAddress_loop (Z.to_nat (Io.FragmentCount IoBuffer))
    IoBuffer IoBufferOffset 0 0.

(** ** Calls that answer *)

Definition KeGetRunLevel : Mm RUNLEVEL := fun k => Some (RunLevel k, k).

(** [MmpAllocatePhysicalPages]: the allocator answers with the next page it
    holds, or [INVALID_PHYSICAL_ADDRESS] when it holds none. *)
Definition MmpAllocatePhysicalPages (PageCount Alignment : Z) : Mm Z :=
  fun k =>
    let k := set_Log (Log k ++ [CallMmpAllocatePhysicalPages PageCount Alignment]) k in
    match PhysicalPages k with
    | PhysicalAddress :: rest => Some (PhysicalAddress, set_PhysicalPages rest k)
    | [] => Some (INVALID_PHYSICAL_ADDRESS, k)
    end.

(** [MmAllocatePagedPool] and [MmAllocateNonPagedPool]: [true] for a
    non-null answer. *)
Definition MmAllocatePagedPool : Mm bool :=
  fun k =>
    match PoolAvailable k with
    | S n => Some (true, set_PoolAvailable n k)
    | O => Some (false, k)
    end.

Definition MmAllocateNonPagedPool : Mm bool := MmAllocatePagedPool.

Definition MmCopyFromUserMode (VectorCount : Z) : Mm KSTATUS :=
  fun k => Some (UserCopy k, set_Log (Log k ++ [CallMmCopyFromUserMode VectorCount]) k).

Definition MmpAllocateAddressRange (Size Alignment : Z) : Mm (KSTATUS * Z) :=
  fun k => Some (AddressRange k,
                 set_Log (Log k ++ [CallMmpAllocateAddressRange Size Alignment]) k).

Definition MmpMapRange (VirtualAddress Size PhysicalRunAlignment PhysicalRunSize : Z)
    (WriteThrough NonCached : bool) : Mm KSTATUS :=
  fun k => Some (MapRange k,
                 set_Log (Log k ++ [CallMmpMapRange VirtualAddress Size
                                      PhysicalRunAlignment PhysicalRunSize
                                      WriteThrough NonCached]) k).

Definition MmpVirtualToPhysical (VirtualAddress : Z) : Mm Z :=
  fun k => Some (PageTable k VirtualAddress, k).

(** ** Release (lines 2814-2991, 3158-3406) *)

(** [MmpUnmapIoBuffer].  The walk of lines 3213-3399 reads the fragments in
    use and, for a cache-backed buffer, the page cache entries, and hands the
    virtual ranges that are not the page cache's to [MmpFreeAccountingRange]
    with [UNMAP_FLAG_SEND_INVALIDATE_IPI] alone: it frees no physical page
    and writes nothing to the buffer.  It is logged as one call with what it
    read; the buffer changes by the flags cleared at lines 3401-3403. *)
Definition MmpUnmapIoBuffer (IoBuffer : IO_BUFFER) : Mm IO_BUFFER :=
  ASSERT (flag_set (Io.Flags IoBuffer) IO_BUFFER_FLAG_UNMAP_ON_FREE) ;;
  PageCacheEntries <-
    (if flag_set (Io.Flags IoBuffer) IO_BUFFER_FLAG_PAGE_CACHE_BACKED
     then ASSERT (bool_decide (is_Some (Io.PageCacheEntries IoBuffer))) ;;
          ret (Io.PageCacheEntries IoBuffer)
     else ret None) ;;
  call (CallMmpFreeAccountingRanges
          (take (Z.to_nat (Io.FragmentCount IoBuffer)) (Io.Fragment IoBuffer))
          PageCacheEntries) ;;
  ret (Io.set_Flags
         (Z.land (Io.Flags IoBuffer)
            (Z.lnot (Z.lor IO_BUFFER_FLAG_MAPPED
                       (Z.lor IO_BUFFER_FLAG_UNMAP_ON_FREE
                              IO_BUFFER_FLAG_VIRTUALLY_CONTIGUOUS))))
         IoBuffer).

(** The page loop of an owned or cache-backed buffer (lines 2893-2937).
    [PageCacheEntries] is the pointer that walks the table (the slots not yet
    read), [PageCacheEntry] the entry last read. *)
Fixpoint MmpReleaseIoBufferResources_pages (n : nat) (Flags : Z)
    (Fragment : IO_BUFFER_FRAGMENT) (PageIndex : Z)
    (PageCacheEntries : option (list (option PAGE_CACHE_ENTRY)))
    (PageCacheEntry : option PAGE_CACHE_ENTRY) (PhysicalAddress : Z)
    : Mm (option (list (option PAGE_CACHE_ENTRY)) * option PAGE_CACHE_ENTRY) :=
  match n with
  | O => ret (PageCacheEntries, PageCacheEntry)
  | S n' =>
      x <- match PageCacheEntries with
           | Some Entries =>
               Entry <- read Entries 0 ;;
               ret (Some (tail Entries), Entry)
           | None => ret (None, PageCacheEntry)
           end ;;
      let PageCacheEntries := fst x in
      let PageCacheEntry := snd x in
      match PageCacheEntry with
      | Some Entry =>
          ASSERT (ULONGLONG (Frag.PhysicalAddress Fragment
                             + UINTN (PageIndex * MmPageSize))
                  =? Pce.PhysicalAddress Entry) ;;
          call (CallIoPageCacheEntryReleaseReference Entry) ;;
          MmpReleaseIoBufferResources_pages n' Flags Fragment (PageIndex + 1)
            PageCacheEntries PageCacheEntry
            (ULONGLONG (PhysicalAddress + MmPageSize))
      | None =>
          if flag_set Flags IO_BUFFER_FLAG_MEMORY_OWNED then
            call (CallMmFreePhysicalPage PhysicalAddress) ;;
            MmpReleaseIoBufferResources_pages n' Flags Fragment (PageIndex + 1)
              PageCacheEntries PageCacheEntry
              (ULONGLONG (PhysicalAddress + MmPageSize))
          else
            ASSERT (flag_set Flags IO_BUFFER_FLAG_PAGE_CACHE_BACKED) ;;
            ASSERT false ;;
            MmpReleaseIoBufferResources_pages n' Flags Fragment (PageIndex + 1)
              PageCacheEntries PageCacheEntry PhysicalAddress
      end
  end.

(** The fragment loop of an owned or cache-backed buffer (lines 2876-2938). *)
Fixpoint MmpReleaseIoBufferResources_fragments (n : nat) (Flags : Z)
    (IoBuffer : IO_BUFFER) (FragmentIndex : Z)
    (PageCacheEntries : option (list (option PAGE_CACHE_ENTRY)))
    (PageCacheEntry : option PAGE_CACHE_ENTRY) : Mm unit :=
  match n with
  | O => ret tt
  | S n' =>
      Fragment <- read (Io.Fragment IoBuffer) FragmentIndex ;;
      ASSERT (IS_ALIGNED (Frag.Size Fragment) MmPageSize) ;;
      ASSERT (IS_ALIGNED (Frag.PhysicalAddress Fragment) MmPageSize) ;;
      let PageCount := Z.shiftr (Frag.Size Fragment) MmPageShift in
      let PhysicalAddress := Frag.PhysicalAddress Fragment in
      x <- MmpReleaseIoBufferResources_pages (Z.to_nat PageCount) Flags
             Fragment 0 PageCacheEntries PageCacheEntry PhysicalAddress ;;
      MmpReleaseIoBufferResources_fragments n' Flags IoBuffer
        (FragmentIndex + 1) (fst x) (snd x)
  end.

(** The page loop of a locked buffer (lines 2975-2986). *)
Fixpoint MmpReleaseIoBufferResources_unlock_pages (n : nat)
    (PageCacheEntries : list (option PAGE_CACHE_ENTRY))
    (CacheEntryIndex PhysicalAddress : Z) : Mm Z :=
  match n with
  | O => ret CacheEntryIndex
  | S n' =>
      PageCacheEntry <- read PageCacheEntries CacheEntryIndex ;;
      match PageCacheEntry with
      | Some Entry => call (CallIoPageCacheEntryReleaseReference Entry)
      | None => call (CallMmpUnlockPhysicalPages PhysicalAddress 1)
      end ;;
      MmpReleaseIoBufferResources_unlock_pages n' PageCacheEntries
        (UINTN (CacheEntryIndex + 1)) (ULONGLONG (PhysicalAddress + MmPageSize))
  end.

(** The fragment loop of a locked buffer (lines 2959-2987). *)
Fixpoint MmpReleaseIoBufferResources_unlock (n : nat) (IoBuffer : IO_BUFFER)
    (PageCacheEntries : list (option PAGE_CACHE_ENTRY))
    (FragmentIndex CacheEntryIndex : Z) : Mm unit :=
  match n with
  | O => ret tt
  | S n' =>
      Fragment <- read (Io.Fragment IoBuffer) FragmentIndex ;;
      let PageOffset := ULONG (REMAINDER (Frag.PhysicalAddress Fragment) MmPageSize) in
      let Size := UINTN (Frag.Size Fragment + PageOffset) in
      let Size := UINTN (ALIGN_RANGE_UP Size MmPageSize) in
      let PageCount := Z.shiftr Size MmPageShift in
      let PhysicalAddress := ULONGLONG (Frag.PhysicalAddress Fragment - PageOffset) in
      CacheEntryIndex <-
        MmpReleaseIoBufferResources_unlock_pages (Z.to_nat PageCount)
          PageCacheEntries CacheEntryIndex PhysicalAddress ;;
      MmpReleaseIoBufferResources_unlock n' IoBuffer PageCacheEntries
        (FragmentIndex + 1) CacheEntryIndex
  end.

Definition MmpReleaseIoBufferResources (IoBuffer : IO_BUFFER) : Mm IO_BUFFER :=
  let Flags := Io.Flags IoBuffer in
  let IoBuffer := Io.set_CurrentOffset 0 IoBuffer in
  IoBuffer <-
    (if flag_set Flags IO_BUFFER_FLAG_UNMAP_ON_FREE
     then MmpUnmapIoBuffer IoBuffer
     else ret IoBuffer) ;;
  (if flag_set Flags IO_BUFFER_FLAG_MEMORY_OWNED
      || flag_set Flags IO_BUFFER_FLAG_PAGE_CACHE_BACKED
   then
     MmpReleaseIoBufferResources_fragments
       (Z.to_nat (Io.FragmentCount IoBuffer)) Flags IoBuffer 0
       (Io.PageCacheEntries IoBuffer) None
   else if negb (flag_set Flags IO_BUFFER_FLAG_MEMORY_OWNED)
           && flag_set Flags IO_BUFFER_FLAG_MEMORY_LOCKED
   then
     ASSERT (0 <? Io.PageCount IoBuffer) ;;
     ASSERT (bool_decide (is_Some (Io.PageCacheEntries IoBuffer))) ;;
     match Io.PageCacheEntries IoBuffer with
     | Some PageCacheEntries =>
         MmpReleaseIoBufferResources_unlock
           (Z.to_nat (Io.FragmentCount IoBuffer)) IoBuffer PageCacheEntries 0 0
     | None => stop
     end
   else ret tt) ;;
  ret IoBuffer.

(** [MmFreeIoBuffer] (lines 1185-1225): what is left of the structure when it
    is the caller's, nothing when it went back to its pool. *)
Definition MmFreeIoBuffer (IoBuffer : IO_BUFFER) : Mm (option IO_BUFFER) :=
  let Flags := Io.Flags IoBuffer in
  IoBuffer <- MmpReleaseIoBufferResources IoBuffer ;;
  if Z.land Flags IO_BUFFER_FLAG_STRUCTURE_NOT_OWNED =? 0 then
    (if flag_set Flags IO_BUFFER_FLAG_NON_PAGED
     then call CallMmFreeNonPagedPool
     else call CallMmFreePagedPool) ;;
    ret None
  else ret (Some IoBuffer).

(** [RtlZeroMemory] over the first [Count] slots of a table; a count past
    the table ends the run. *)
Definition RtlZeroMemory {A : Type} (Table : list A) (Count : Z) (zero : A)
    : Mm (list A) :=
  if (Z.to_nat Count <=? length Table)%nat
  then ret (replicate (Z.to_nat Count) zero ++ drop (Z.to_nat Count) Table)
  else stop.

(** [MmResetIoBuffer] (lines 1227-1286).  The fragment table is a list, so
    [ASSERT(IoBuffer->Fragment != NULL)] holds. *)
Definition MmResetIoBuffer (IoBuffer : IO_BUFFER) : Mm IO_BUFFER :=
  ASSERT (Z.land (Io.Flags IoBuffer) IO_BUFFER_FLAG_USER_MODE =? 0) ;;
  IoBuffer <- MmpReleaseIoBufferResources IoBuffer ;;
  Fragment <- RtlZeroMemory (Io.Fragment IoBuffer) (Io.FragmentCount IoBuffer)
                Frag.zero ;;
  let IoBuffer := Io.set_Fragment Fragment IoBuffer in
  let IoBuffer := Io.set_FragmentCount 0 IoBuffer in
  let IoBuffer := Io.set_TotalSize 0 IoBuffer in
  let IoBuffer := Io.set_CurrentOffset 0 IoBuffer in
  let IoBuffer :=
    Io.set_Flags
      (Z.land (Io.Flags IoBuffer)
         (Z.lnot (Z.lor IO_BUFFER_FLAG_UNMAP_ON_FREE
                    (Z.lor IO_BUFFER_FLAG_MAPPED
                           IO_BUFFER_FLAG_VIRTUALLY_CONTIGUOUS))))
      IoBuffer in
  match Io.PageCacheEntries IoBuffer with
  | Some PageCacheEntries =>
      PageCacheEntries <- RtlZeroMemory PageCacheEntries (Io.PageCount IoBuffer) None ;;
      ret (Io.set_PageCacheEntries (Some PageCacheEntries) IoBuffer)
  | None => ret IoBuffer
  end.

(** ** Buffers from an I/O vector (lines 871-1058) *)

(** The locals of the fill loop: [Fragment] and [PreviousFragment] point into
    the fragment table and are kept as indices ([None] for [NULL]). *)
Record VectorLoop : Type := mkVectorLoop {
  vl_Table : list IO_BUFFER_FRAGMENT;
  vl_TotalSize : Z;
  vl_FragmentIndex : Z;
  vl_PreviousFragment : option Z;
  vl_Fragment : Z
}.

(** "Add this as a new fragment" (lines 1029-1035). *)
Definition MmCreateIoBufferFromVector_add (Vector : IO_VECTOR) (s : VectorLoop)
    : Mm VectorLoop :=
  Fragment <- read (vl_Table s) (vl_Fragment s) ;;
  Table <- write (vl_Table s) (vl_Fragment s)
             (Frag.set_Size (Vec.Length Vector)
                (Frag.set_VirtualAddress (Vec.Data Vector) Fragment)) ;;
  ret (mkVectorLoop Table (vl_TotalSize s) (UINTN (vl_FragmentIndex s + 1))
         (Some (vl_Fragment s)) (vl_Fragment s + 1)).

(** The loop of lines 992-1038; [inl] is the [goto] of line 1005. *)
Fixpoint MmCreateIoBufferFromVector_loop (n : nat) (IoVector : list IO_VECTOR)
    (VectorIndex : Z) (s : VectorLoop)
    : Mm (KSTATUS * VectorLoop + VectorLoop) :=
  match n with
  | O => ret (inr s)
  | S n' =>
      Vector <- read IoVector VectorIndex ;;
      let Address := Vec.Data Vector in
      let Size := Vec.Length Vector in
      if (KERNEL_VA_START <=? Address)
         || (KERNEL_VA_START <? UINTN (Address + Size))
         || (UINTN (Address + Size) <? Address)
      then ret (inl (STATUS_ACCESS_VIOLATION, s))
      else if Size =? 0 then
        MmCreateIoBufferFromVector_loop n' IoVector (VectorIndex + 1) s
      else
        s <-
          match vl_PreviousFragment s with
          | Some Index =>
              PreviousFragment <- read (vl_Table s) Index ;;
              if UINTN (Frag.VirtualAddress PreviousFragment
                        + Frag.Size PreviousFragment) =? Address
              then
                Table <- write (vl_Table s) Index
                           (Frag.set_Size
                              (UINTN (Frag.Size PreviousFragment + Vec.Length Vector))
                              PreviousFragment) ;;
                ret (mkVectorLoop Table (vl_TotalSize s) (vl_FragmentIndex s)
                       (vl_PreviousFragment s) (vl_Fragment s))
              else MmCreateIoBufferFromVector_add Vector s
          | None => MmCreateIoBufferFromVector_add Vector s
          end ;;
        let s := mkVectorLoop (vl_Table s)
                   (UINTN (vl_TotalSize s + Vec.Length Vector))
                   (vl_FragmentIndex s) (vl_PreviousFragment s) (vl_Fragment s) in
        MmCreateIoBufferFromVector_loop n' IoVector (VectorIndex + 1) s
  end.

(** The exit path of lines 1044-1057. *)
Definition MmCreateIoBufferFromVector_end (Status : KSTATUS)
    (IoBuffer : option IO_BUFFER) (AllocatedVector : bool)
    : Mm (KSTATUS * option IO_BUFFER) :=
  IoBuffer <-
    (if negb (KSUCCESS Status) then
       match IoBuffer with
       | Some Buffer => MmFreeIoBuffer Buffer ;; ret None
       | None => ret None
       end
     else ret IoBuffer) ;;
  (if AllocatedVector then call CallMmFreePagedPool else ret tt) ;;
  ret (Status, IoBuffer).

(** [Vector] is the array the caller's pointer designates, [*NewIoBuffer]
    the second component of the answer. *)
Definition MmCreateIoBufferFromVector (Vector : list IO_VECTOR)
    (VectorInKernelMode : bool) (VectorCount : Z)
    : Mm (KSTATUS * option IO_BUFFER) :=
  Level <- KeGetRunLevel ;;
  ASSERT (match Level with RunLevelLow => true | _ => false end) ;;
  if (MAX_IO_VECTOR_COUNT <? VectorCount) || (VectorCount =? 0) then
    MmCreateIoBufferFromVector_end STATUS_INVALID_PARAMETER None false
  else
    (** [inl]: the copy of a user mode vector failed; [inr]: the vector to
        read and whether it was allocated *)
    Copy <-
      (if negb VectorInKernelMode then
         Allocated <-
           (if VectorCount <? LOCAL_IO_VECTOR_COUNT then ret (Some false)
            else
              AllocatedVector <- MmAllocatePagedPool ;;
              ret (if (AllocatedVector : bool) then Some true else None)) ;;
         match Allocated with
         | None => ret (inl (STATUS_INSUFFICIENT_RESOURCES, false))
         | Some AllocatedVector =>
             Status <- MmCopyFromUserMode VectorCount ;;
             if negb (KSUCCESS Status) then ret (inl (Status, AllocatedVector))
             else ret (inr (Vector, AllocatedVector))
         end
       else ret (inr (Vector, false))) ;;
    match Copy with
    | inl (Status, AllocatedVector) =>
        MmCreateIoBufferFromVector_end Status None AllocatedVector
    | inr (IoVector, AllocatedVector) =>
        Pool <- MmAllocatePagedPool ;;
        if negb Pool then
          MmCreateIoBufferFromVector_end STATUS_INSUFFICIENT_RESOURCES None
            AllocatedVector
        else
          let IoBuffer :=
            Io.mk (replicate (Z.to_nat VectorCount) Frag.zero) 0
              (Z.lor IO_BUFFER_FLAG_USER_MODE IO_BUFFER_FLAG_MAPPED)
              0 0 VectorCount 0 None in
          r <- MmCreateIoBufferFromVector_loop (Z.to_nat VectorCount) IoVector 0
                 (mkVectorLoop (Io.Fragment IoBuffer) 0 0 None 0) ;;
          match r with
          | inl (Status, s) =>
              let IoBuffer := Io.set_Fragment (vl_Table s) IoBuffer in
              MmCreateIoBufferFromVector_end Status (Some IoBuffer) AllocatedVector
          | inr s =>
              let IoBuffer := Io.set_Fragment (vl_Table s) IoBuffer in
              let IoBuffer := Io.set_TotalSize (vl_TotalSize s) IoBuffer in
              let IoBuffer := Io.set_FragmentCount (vl_FragmentIndex s) IoBuffer in
              MmCreateIoBufferFromVector_end STATUS_SUCCESS (Some IoBuffer)
                AllocatedVector
          end
    end.

(** ** Uninitialized buffers (lines 492-559) *)

(** [NULL] is [None].  The tables hold [PageCount] zero-filled slots each. *)
Definition MmAllocateUninitializedIoBuffer (Size : Z) (CacheBacked : bool)
    : Mm (option IO_BUFFER) :=
  let Size := UINTN (ALIGN_RANGE_UP Size MmPageSize) in
  let PageCount := Z.shiftr Size MmPageShift in
  IoBuffer <- MmAllocateNonPagedPool ;;
  if negb IoBuffer then ret None
  else
    let IoBuffer :=
      Io.mk (replicate (Z.to_nat PageCount) Frag.zero) 0
        (Z.lor IO_BUFFER_FLAG_NON_PAGED IO_BUFFER_FLAG_EXTENDABLE)
        0 0 PageCount PageCount None in
    if CacheBacked then
      let IoBuffer :=
        Io.set_Flags
          (Z.lor (Io.Flags IoBuffer)
             (Z.lor IO_BUFFER_FLAG_PAGE_CACHE_BACKED IO_BUFFER_FLAG_MEMORY_LOCKED))
          IoBuffer in
      ret (Some (Io.set_PageCacheEntries
                   (Some (replicate (Z.to_nat PageCount) None)) IoBuffer))
    else ret (Some IoBuffer).

(** ** Extension (lines 3460-3649) *)

(** Lines 3565-3587 and, for one page, lines 3609-3631: the [Bytes] just
    allocated at [PhysicalAddress] grow the fragment [Fragment] points to or
    open the next one.  [Fragment] and [FragmentIndex] move together and are
    the one index. *)
Definition MmpExtendIoBuffer_attach (IoBuffer : IO_BUFFER)
    (FragmentIndex PhysicalAddress Bytes : Z) : Mm (IO_BUFFER * Z) :=
  Fragment <- read (Io.Fragment IoBuffer) FragmentIndex ;;
  if (Frag.VirtualAddress Fragment =? NULL)
     && (ULONGLONG (Frag.PhysicalAddress Fragment + Frag.Size Fragment)
         =? PhysicalAddress)
  then
    ASSERT (negb (Frag.Size Fragment =? 0)) ;;
    Table <- write (Io.Fragment IoBuffer) FragmentIndex
               (Frag.set_Size (UINTN (Frag.Size Fragment + Bytes)) Fragment) ;;
    ret (Io.set_Fragment Table IoBuffer, FragmentIndex)
  else
    let FragmentIndex :=
      if negb (Io.FragmentCount IoBuffer =? 0)
      then UINTN (FragmentIndex + 1) else FragmentIndex in
    ASSERT (FragmentIndex <? Io.MaxFragmentCount IoBuffer) ;;
    Fragment <- read (Io.Fragment IoBuffer) FragmentIndex ;;
    ASSERT (Frag.VirtualAddress Fragment =? NULL) ;;
    ASSERT (Frag.PhysicalAddress Fragment =? INVALID_PHYSICAL_ADDRESS) ;;
    ASSERT (Frag.Size Fragment =? 0) ;;
    Table <- write (Io.Fragment IoBuffer) FragmentIndex
               (Frag.set_Size Bytes
                  (Frag.set_PhysicalAddress PhysicalAddress Fragment)) ;;
    ret (Io.set_FragmentCount (UINTN (Io.FragmentCount IoBuffer + 1))
           (Io.set_Fragment Table IoBuffer),
         FragmentIndex).

(** The page loop of lines 3597-3634; a status other than success is the
    [goto] of line 3601. *)
Fixpoint MmpExtendIoBuffer_pages (n : nat) (IoBuffer : IO_BUFFER)
    (Alignment FragmentIndex : Z) : Mm (KSTATUS * IO_BUFFER) :=
  match n with
  | O => ret (STATUS_SUCCESS, IoBuffer)
  | S n' =>
      PhysicalAddress <- MmpAllocatePhysicalPages 1 Alignment ;;
      if PhysicalAddress =? INVALID_PHYSICAL_ADDRESS
      then ret (STATUS_NO_MEMORY, IoBuffer)
      else
        x <- MmpExtendIoBuffer_attach IoBuffer FragmentIndex PhysicalAddress
               MmPageSize ;;
        let IoBuffer := fst x in
        let FragmentIndex := snd x in
        let IoBuffer :=
          Io.set_TotalSize (UINTN (Io.TotalSize IoBuffer + MmPageSize)) IoBuffer in
        MmpExtendIoBuffer_pages n' IoBuffer Alignment FragmentIndex
  end.

Definition MmpExtendIoBuffer (IoBuffer : IO_BUFFER)
    (MinimumPhysicalAddress MaximumPhysicalAddress Alignment Size : Z)
    (PhysicallyContiguous : bool) : Mm (KSTATUS * IO_BUFFER) :=
  ASSERT (flag_set (Io.Flags IoBuffer) IO_BUFFER_FLAG_EXTENDABLE) ;;
  let PageShift := MmPageShift in
  let PageSize := MmPageSize in
  ASSERT ((MinimumPhysicalAddress =? 0)
          && ((MaximumPhysicalAddress =? MAX_ULONG)
              || (MaximumPhysicalAddress =? MAX_ULONGLONG))) ;;
  let AvailableFragments :=
    UINTN (Io.MaxFragmentCount IoBuffer - Io.FragmentCount IoBuffer) in
  let PageCount := Z.shiftr (UINTN (ALIGN_RANGE_UP Size PageSize)) PageShift in
  if AvailableFragments <? PageCount then ret (STATUS_BUFFER_TOO_SMALL, IoBuffer)
  else
    let FragmentIndex := Io.FragmentCount IoBuffer in
    let FragmentIndex :=
      if negb (FragmentIndex =? 0) then FragmentIndex - 1 else FragmentIndex in
    r <-
      (if PhysicallyContiguous then
         PhysicalAddress <- MmpAllocatePhysicalPages PageCount Alignment ;;
         if PhysicalAddress =? INVALID_PHYSICAL_ADDRESS
         then ret (STATUS_NO_MEMORY, IoBuffer)
         else
           x <- MmpExtendIoBuffer_attach IoBuffer FragmentIndex PhysicalAddress
                  (UINTN (Z.shiftl PageCount PageShift)) ;;
           let IoBuffer := fst x in
           ret (STATUS_SUCCESS,
                Io.set_TotalSize
                  (UINTN (Io.TotalSize IoBuffer
                          + UINTN (Z.shiftl PageCount PageShift)))
                  IoBuffer)
       else
         MmpExtendIoBuffer_pages (Z.to_nat PageCount) IoBuffer Alignment
           FragmentIndex) ;;
    let Status := fst r in
    let IoBuffer := snd r in
    if negb (KSUCCESS Status) then ret (Status, IoBuffer)
    else
      let IoBuffer :=
        Io.set_Flags (Z.land (Io.Flags IoBuffer) (Z.lnot IO_BUFFER_FLAG_MAPPED))
          IoBuffer in
      let IoBuffer :=
        Io.set_Flags (Z.lor (Io.Flags IoBuffer) IO_BUFFER_FLAG_MEMORY_OWNED)
          IoBuffer in
      ret (STATUS_SUCCESS, IoBuffer).

(** ** Appending a page (lines 2373-2518) *)

Definition MmIoBufferAppendPage (IoBuffer : IO_BUFFER)
    (PageCacheEntry : option PAGE_CACHE_ENTRY)
    (VirtualAddress PhysicalAddress : Z) : Mm IO_BUFFER :=
  let PageSize := MmPageSize in
  ASSERT (flag_set (Io.Flags IoBuffer) IO_BUFFER_FLAG_EXTENDABLE) ;;
  ASSERT (match PageCacheEntry with
          | None => true
          | Some _ => PhysicalAddress =? INVALID_PHYSICAL_ADDRESS
          end) ;;
  ASSERT (match PageCacheEntry with
          | None => true
          | Some _ => bool_decide (is_Some (Io.PageCacheEntries IoBuffer))
          end) ;;
  ASSERT (Io.FragmentCount IoBuffer <? Io.MaxFragmentCount IoBuffer) ;;
  ASSERT (IS_ALIGNED (Io.TotalSize IoBuffer) PageSize) ;;
  let FragmentIndex :=
    if negb (Io.FragmentCount IoBuffer =? 0)
    then Io.FragmentCount IoBuffer - 1 else 0 in
  let PhysicalAddress :=
    match PageCacheEntry with
    | Some Entry => Pce.PhysicalAddress Entry
    | None => PhysicalAddress
    end in
  let VirtualAddress :=
    match PageCacheEntry with
    | Some Entry => Pce.VirtualAddress Entry
    | None => VirtualAddress
    end in
  Fragment <- read (Io.Fragment IoBuffer) FragmentIndex ;;
  IoBuffer <-
    (if (ULONGLONG (Frag.PhysicalAddress Fragment + Frag.Size Fragment)
         =? PhysicalAddress)
        && (((VirtualAddress =? NULL) && (Frag.VirtualAddress Fragment =? NULL))
            || ((negb (VirtualAddress =? NULL)
                 && negb (Frag.VirtualAddress Fragment =? NULL))
                && (UINTN (Frag.VirtualAddress Fragment + Frag.Size Fragment)
                    =? VirtualAddress)))
     then
       ASSERT (Frag.Size Fragment <? UINTN (Frag.Size Fragment + PageSize)) ;;
       Table <- write (Io.Fragment IoBuffer) FragmentIndex
                  (Frag.set_Size (UINTN (Frag.Size Fragment + PageSize)) Fragment) ;;
       ret (Io.set_Fragment Table IoBuffer)
     else
       let FragmentIndex :=
         if negb (Io.FragmentCount IoBuffer =? 0)
         then FragmentIndex + 1 else FragmentIndex in
       Fragment <- read (Io.Fragment IoBuffer) FragmentIndex ;;
       ASSERT (Frag.PhysicalAddress Fragment =? INVALID_PHYSICAL_ADDRESS) ;;
       ASSERT (Frag.VirtualAddress Fragment =? NULL) ;;
       ASSERT (Frag.Size Fragment =? 0) ;;
       Table <- write (Io.Fragment IoBuffer) FragmentIndex
                  (Frag.mk VirtualAddress PhysicalAddress PageSize) ;;
       ret (Io.set_FragmentCount (UINTN (Io.FragmentCount IoBuffer + 1))
              (Io.set_Fragment Table IoBuffer))) ;;
  IoBuffer <-
    match PageCacheEntry with
    | Some Entry =>
        ASSERT (Io.FragmentCount IoBuffer <=? Io.PageCount IoBuffer) ;;
        let PageIndex := Z.shiftr (Io.TotalSize IoBuffer) MmPageShift in
        ASSERT (PageIndex <? Io.PageCount IoBuffer) ;;
        match Io.PageCacheEntries IoBuffer with
        | Some PageCacheEntries =>
            Slot <- read PageCacheEntries PageIndex ;;
            ASSERT (bool_decide (Slot = None)) ;;
            ASSERT (flag_set (Io.Flags IoBuffer) IO_BUFFER_FLAG_PAGE_CACHE_BACKED) ;;
            call (CallIoPageCacheEntryAddReference Entry) ;;
            PageCacheEntries <- write PageCacheEntries PageIndex (Some Entry) ;;
            ret (Io.set_PageCacheEntries (Some PageCacheEntries) IoBuffer)
        | None => stop
        end
    | None => ret IoBuffer
    end ;;
  ret (Io.set_TotalSize (UINTN (Io.TotalSize IoBuffer + PageSize)) IoBuffer).

(** ** Non-paged buffers (lines 171-437) *)

(** "Otherwise, add a new fragment" (lines 390-398). *)
Definition MmAllocateNonPagedIoBuffer_add (IoBuffer : IO_BUFFER)
    (FragmentIndex CurrentAddress PhysicalAddress : Z) : Mm (IO_BUFFER * Z) :=
  Table <- write (Io.Fragment IoBuffer) FragmentIndex
             (Frag.mk CurrentAddress PhysicalAddress MmPageSize) ;;
  ret (Io.set_FragmentCount (UINTN (Io.FragmentCount IoBuffer + 1))
         (Io.set_Fragment Table IoBuffer),
       UINTN (FragmentIndex + 1)).

(** The page loop of lines 372-402. *)
Fixpoint MmAllocateNonPagedIoBuffer_pages (n : nat) (IoBuffer : IO_BUFFER)
    (CurrentAddress FragmentIndex : Z) : Mm IO_BUFFER :=
  match n with
  | O => ret IoBuffer
  | S n' =>
      PhysicalAddress <- MmpVirtualToPhysical CurrentAddress ;;
      ASSERT (negb (PhysicalAddress =? INVALID_PHYSICAL_ADDRESS)) ;;
      x <-
        (if negb (Io.FragmentCount IoBuffer =? 0) then
           Previous <- read (Io.Fragment IoBuffer) (FragmentIndex - 1) ;;
           if ULONGLONG (Frag.PhysicalAddress Previous + Frag.Size Previous)
              =? PhysicalAddress
           then
             Table <- write (Io.Fragment IoBuffer) (FragmentIndex - 1)
                        (Frag.set_Size (UINTN (Frag.Size Previous + MmPageSize))
                           Previous) ;;
             ret (Io.set_Fragment Table IoBuffer, FragmentIndex)
           else
             MmAllocateNonPagedIoBuffer_add IoBuffer FragmentIndex CurrentAddress
               PhysicalAddress
         else
           MmAllocateNonPagedIoBuffer_add IoBuffer FragmentIndex CurrentAddress
             PhysicalAddress) ;;
      MmAllocateNonPagedIoBuffer_pages n' (fst x)
        (UINTN (CurrentAddress + MmPageSize)) (snd x)
  end.

(** [NULL] is [None]. *)
Definition MmAllocateNonPagedIoBuffer
    (MinimumPhysicalAddress MaximumPhysicalAddress Alignment Size : Z)
    (PhysicallyContiguous WriteThrough NonCached : bool)
    : Mm (option IO_BUFFER) :=
  let PageShift := MmPageShift in
  let PageSize := MmPageSize in
  let Alignment :=
    if Alignment =? 0 then PageSize
    else UINTN (ALIGN_RANGE_UP Alignment PageSize) in
  let AlignedSize := UINTN (ALIGN_RANGE_UP Size Alignment) in
  let PageCount := Z.shiftr AlignedSize PageShift in
  ASSERT ((MinimumPhysicalAddress =? 0)
          && ((MaximumPhysicalAddress =? MAX_ULONG)
              || (MaximumPhysicalAddress =? MAX_ULONGLONG))) ;;
  let FragmentCount := if PhysicallyContiguous then 1 else PageCount in
  Pool <- MmAllocateNonPagedPool ;;
  if negb Pool then ret None
  else
    let IoBuffer :=
      Io.mk (replicate (Z.to_nat FragmentCount) Frag.zero) 0 0 AlignedSize 0
        FragmentCount PageCount (Some (replicate (Z.to_nat PageCount) None)) in
    Range <- MmpAllocateAddressRange AlignedSize PageSize ;;
    let VirtualAddress := snd Range in
    if negb (KSUCCESS (fst Range)) then
      (if negb (VirtualAddress =? NULL)
       then call (CallMmpFreeAccountingRange VirtualAddress AlignedSize)
       else ret tt) ;;
      call CallMmFreeNonPagedPool ;;
      ret None
    else
      let PhysicalRunAlignment := Alignment in
      let PhysicalRunSize :=
        if PhysicallyContiguous then AlignedSize else PhysicalRunAlignment in
      Status <- MmpMapRange VirtualAddress AlignedSize PhysicalRunAlignment
                  PhysicalRunSize WriteThrough NonCached ;;
      if negb (KSUCCESS Status) then
        (if negb (VirtualAddress =? NULL)
         then call (CallMmpFreeAccountingRange VirtualAddress AlignedSize)
         else ret tt) ;;
        call CallMmFreeNonPagedPool ;;
        ret None
      else
        IoBuffer <-
          (if PhysicallyContiguous then
             PhysicalAddress <- MmpVirtualToPhysical VirtualAddress ;;
             ASSERT (negb (PhysicalAddress =? INVALID_PHYSICAL_ADDRESS)) ;;
             Table <- write (Io.Fragment IoBuffer) 0
                        (Frag.mk VirtualAddress PhysicalAddress AlignedSize) ;;
             ret (Io.set_Fragment Table (Io.set_FragmentCount 1 IoBuffer))
           else
             ASSERT (Io.FragmentCount IoBuffer =? 0) ;;
             IoBuffer <- MmAllocateNonPagedIoBuffer_pages (Z.to_nat PageCount)
                           IoBuffer VirtualAddress 0 ;;
             ASSERT (Io.FragmentCount IoBuffer <=? PageCount) ;;
             ret IoBuffer) ;;
        ret (Some (Io.set_Flags
                     (Z.lor IO_BUFFER_FLAG_NON_PAGED
                        (Z.lor IO_BUFFER_FLAG_UNMAP_ON_FREE
                           (Z.lor IO_BUFFER_FLAG_MEMORY_OWNED
                              (Z.lor IO_BUFFER_FLAG_MEMORY_LOCKED
                                 (Z.lor IO_BUFFER_FLAG_MAPPED
                                    IO_BUFFER_FLAG_VIRTUALLY_CONTIGUOUS)))))
                     IoBuffer)).

(** ** Validation (lines 2058-2272) *)

(** The walk of lines 2167-2215; the answer is [AllocateIoBuffer].  Every
    iteration moves [FragmentIndex] one slot further, and a read past the
    table ends the run: [n], one more than the slots of the table, never runs
    out. *)
Fixpoint MmValidateIoBuffer_walk (n : nat) (Buffer : IO_BUFFER)
    (MinimumPhysicalAddress MaximumPhysicalAddress Alignment : Z)
    (PhysicallyContiguous : bool)
    (BufferOffset CurrentOffset EndOffset FragmentIndex PhysicalAddressEnd : Z)
    : Mm bool :=
  match n with
  | O => stop
  | S n' =>
      if negb (BufferOffset <? EndOffset) then ret false
      else
        Fragment <- read (Io.Fragment Buffer) FragmentIndex ;;
        if UINTN (CurrentOffset + Frag.Size Fragment) <=? BufferOffset then
          MmValidateIoBuffer_walk n' Buffer MinimumPhysicalAddress
            MaximumPhysicalAddress Alignment PhysicallyContiguous BufferOffset
            (UINTN (CurrentOffset + Frag.Size Fragment)) EndOffset
            (FragmentIndex + 1) PhysicalAddressEnd
        else
          let FragmentOffset := UINTN (BufferOffset - CurrentOffset) in
          let PhysicalAddressStart :=
            ULONGLONG (Frag.PhysicalAddress Fragment + FragmentOffset) in
          if PhysicallyContiguous
             && negb (PhysicalAddressEnd =? INVALID_PHYSICAL_ADDRESS)
             && negb (PhysicalAddressStart =? PhysicalAddressEnd)
          then ret true
          else
            let FragmentSize := UINTN (Frag.Size Fragment - FragmentOffset) in
            if negb (IS_ALIGNED PhysicalAddressStart Alignment)
               || negb (IS_ALIGNED FragmentSize Alignment)
            then ret true
            else
              let PhysicalAddressEnd :=
                ULONGLONG (PhysicalAddressStart + FragmentSize) in
              ASSERT (PhysicalAddressStart <? PhysicalAddressEnd) ;;
              if (PhysicalAddressStart <? MinimumPhysicalAddress)
                 || (MaximumPhysicalAddress <? PhysicalAddressEnd)
              then ret true
              else
                let BufferOffset := UINTN (BufferOffset + FragmentSize) in
                let CurrentOffset := UINTN (CurrentOffset + Frag.Size Fragment) in
                ASSERT (BufferOffset =? CurrentOffset) ;;
                MmValidateIoBuffer_walk n' Buffer MinimumPhysicalAddress
                  MaximumPhysicalAddress Alignment PhysicallyContiguous
                  BufferOffset CurrentOffset EndOffset (FragmentIndex + 1)
                  PhysicalAddressEnd
  end.

(** What a call leaves behind: the status, the buffer [*IoBuffer] pointed to
    on entry as the call leaves it, and the buffer allocated in its place
    when [*IoBuffer] was redirected (line 2267). *)
Record Validated : Type := mkValidated {
  v_Status : KSTATUS;
  v_Buffer : option IO_BUFFER;
  v_NewBuffer : option IO_BUFFER
}.

(** The exit path of lines 2253-2271. *)
Definition MmValidateIoBuffer_end (AllocateIoBuffer : bool) (Status : KSTATUS)
    (Buffer : IO_BUFFER)
    (MinimumPhysicalAddress MaximumPhysicalAddress Alignment SizeInBytes : Z)
    (PhysicallyContiguous : bool) : Mm Validated :=
  if AllocateIoBuffer then
    New <- MmAllocateNonPagedIoBuffer MinimumPhysicalAddress
             MaximumPhysicalAddress Alignment SizeInBytes PhysicallyContiguous
             false false ;;
    match New with
    | None => ret (mkValidated STATUS_INSUFFICIENT_RESOURCES (Some Buffer) None)
    | Some New => ret (mkValidated Status (Some Buffer) (Some New))
    end
  else ret (mkValidated Status (Some Buffer) None).

Definition MmValidateIoBuffer
    (MinimumPhysicalAddress MaximumPhysicalAddress Alignment SizeInBytes : Z)
    (PhysicallyContiguous : bool) (IoBuffer : option IO_BUFFER) : Mm Validated :=
  match IoBuffer with
  | None => ret (mkValidated STATUS_INVALID_PARAMETER None None)
  | Some Buffer =>
      let finish AllocateIoBuffer Status Buffer :=
        MmValidateIoBuffer_end AllocateIoBuffer Status Buffer
          MinimumPhysicalAddress MaximumPhysicalAddress Alignment SizeInBytes
          PhysicallyContiguous in
      if (Z.land (Io.Flags Buffer) IO_BUFFER_FLAG_EXTENDABLE =? 0)
         && (Io.TotalSize Buffer <? UINTN (Io.CurrentOffset Buffer + SizeInBytes))
      then finish false STATUS_BUFFER_TOO_SMALL Buffer
      else if flag_set (Io.Flags Buffer) IO_BUFFER_FLAG_USER_MODE
      then finish true STATUS_SUCCESS Buffer
      else
        let BufferOffset := Io.CurrentOffset Buffer in
        AllocateIoBuffer <-
          (if negb (BufferOffset =? Io.TotalSize Buffer) then
             let EndOffset := UINTN (BufferOffset + SizeInBytes) in
             let EndOffset :=
               if Io.TotalSize Buffer <? EndOffset
               then Io.TotalSize Buffer else EndOffset in
             MmValidateIoBuffer_walk (S (length (Io.Fragment Buffer))) Buffer
               MinimumPhysicalAddress MaximumPhysicalAddress Alignment
               PhysicallyContiguous BufferOffset 0 EndOffset 0
               INVALID_PHYSICAL_ADDRESS
           else ret false) ;;
        if (AllocateIoBuffer : bool) then finish true STATUS_SUCCESS Buffer
        else if flag_set (Io.Flags Buffer) IO_BUFFER_FLAG_EXTENDABLE
                && (Io.TotalSize Buffer
                    <? UINTN (Io.CurrentOffset Buffer + SizeInBytes))
        then
          if PhysicallyContiguous
             && negb (Io.CurrentOffset Buffer =? Io.TotalSize Buffer)
          then finish true STATUS_SUCCESS Buffer
          else
            let ExtensionSize :=
              UINTN (UINTN (Io.CurrentOffset Buffer + SizeInBytes)
                     - Io.TotalSize Buffer) in
            r <- MmpExtendIoBuffer Buffer MinimumPhysicalAddress
                   MaximumPhysicalAddress Alignment ExtensionSize
                   PhysicallyContiguous ;;
            finish false (fst r) (snd r)
        else finish false STATUS_SUCCESS Buffer
  end.

End IoBuffer.

(** * Properties: the notions the statements use *)

Section Notions.

Context {machine : Machine}.

(** The fragments in use: the first [FragmentCount] slots of the table. *)
Definition FragmentsInUse (IoBuffer : IO_BUFFER) : list IO_BUFFER_FRAGMENT :=
  take (Z.to_nat (Io.FragmentCount IoBuffer)) (Io.Fragment IoBuffer).

(** The sum of the sizes of a list of fragments. *)
Fixpoint SizeOfFragments (l : list IO_BUFFER_FRAGMENT) : Z :=
  match l with
  | [] => 0
  | f :: l => Frag.Size f + SizeOfFragments l
  end.

(** The physical pages a fragment describes: the page at its physical
    address and the whole pages that follow, in [PHYSICAL_ADDRESS]
    arithmetic. *)
Definition FragmentPages (f : IO_BUFFER_FRAGMENT) : list Z :=
  map (fun i => ULONGLONG (Frag.PhysicalAddress f + Z.of_nat i * MmPageSize))
      (seq 0 (Z.to_nat (Z.shiftr (Frag.Size f) MmPageShift))).

(** The pages of a buffer, fragment after fragment: page [j] of the buffer is
    the [j]-th of this list. *)
Definition BufferPages (IoBuffer : IO_BUFFER) : list Z :=
  flat_map FragmentPages (FragmentsInUse IoBuffer).

(** The slot of the page cache entry table that goes with page [j]: empty
    when the buffer has no table. *)
Definition PageCacheSlot (IoBuffer : IO_BUFFER) (j : nat)
    : option PAGE_CACHE_ENTRY :=
  match Io.PageCacheEntries IoBuffer with
  | Some Entries => default None (Entries !! j)
  | None => None
  end.

(** The calls that act on a page. *)
Definition PageAction (e : Event) : bool :=
  match e with
  | CallMmFreePhysicalPage _
  | CallMmpUnlockPhysicalPages _ _
  | CallIoPageCacheEntryReleaseReference _ => true
  | _ => false
  end.

(** What the release of an owned buffer does page by page, as the slots go
    by. *)
Fixpoint OwnedPageCalls (Slots : option (list (option PAGE_CACHE_ENTRY)))
    (Pages : list Z) : list Event :=
  match Pages with
  | [] => []
  | PhysicalAddress :: Pages =>
      match Slots with
      | Some (Some Entry :: _) => CallIoPageCacheEntryReleaseReference Entry
      | _ => CallMmFreePhysicalPage PhysicalAddress
      end :: OwnedPageCalls (option_map tail Slots) Pages
  end.

(** The flags [MmResetIoBuffer] clears. *)
Definition ResetFlags : Z :=
  Z.lor IO_BUFFER_FLAG_UNMAP_ON_FREE
    (Z.lor IO_BUFFER_FLAG_MAPPED IO_BUFFER_FLAG_VIRTUALLY_CONTIGUOUS).

(** *** The cursor *)

(** The moves [calls] stay inside a buffer of [Total] bytes whose cursor
    stands at [Cursor]: no advance goes past the end, no rewind before the
    start. *)
Fixpoint CursorStays (calls : list CursorCall) (Cursor Total : Z) : bool :=
  match calls with
  | [] => true
  | Advance n :: rest =>
      (0 <=? n) && (Cursor + n <=? Total)
      && CursorStays rest (Cursor + n) Total
  | Rewind n :: rest =>
      (0 <=? n) && (n <=? Cursor) && CursorStays rest (Cursor - n) Total
  end.

(** Where the cursor stands after them. *)
Fixpoint CursorAfter (calls : list CursorCall) (Cursor : Z) : Z :=
  match calls with
  | [] => Cursor
  | Advance n :: rest => CursorAfter rest (Cursor + n)
  | Rewind n :: rest => CursorAfter rest (Cursor - n)
  end.

(** *** Buffers from vectors *)

(** The fragment an I/O vector entry opens: its address and length, and no
    physical address. *)
Definition VectorFragment (Vector : IO_VECTOR) : IO_BUFFER_FRAGMENT :=
  Frag.mk (Vec.Data Vector) 0 (Vec.Length Vector).

(** One more entry on the fragments built so far (newest first): an empty
    entry is skipped, an entry that starts where the previous fragment ends
    is merged into it, any other entry opens a fragment. *)
Definition CoalesceVector (Newest : list IO_BUFFER_FRAGMENT)
    (Vector : IO_VECTOR) : list IO_BUFFER_FRAGMENT :=
  if Vec.Length Vector =? 0 then Newest
  else
    match Newest with
    | Previous :: Older =>
        if Frag.VirtualAddress Previous + Frag.Size Previous =? Vec.Data Vector
        then Frag.set_Size (Frag.Size Previous + Vec.Length Vector) Previous
               :: Older
        else VectorFragment Vector :: Newest
    | [] => [VectorFragment Vector]
    end.

(** The fragments of a vector array, in order. *)
Definition VectorFragments (Vector : list IO_VECTOR) : list IO_BUFFER_FRAGMENT :=
  rev (fold_left CoalesceVector Vector []).

(** The sum of the entry lengths. *)
Fixpoint VectorLength (Vector : list IO_VECTOR) : Z :=
  match Vector with
  | [] => 0
  | v :: Vector => Vec.Length v + VectorLength Vector
  end.

(** An entry whose range lies in user space: what lines 1000-1002 check. *)
Definition ValidVector (Vector : IO_VECTOR) : Prop :=
  0 <= Vec.Data Vector < KERNEL_VA_START /\
  0 <= Vec.Length Vector /\
  Vec.Data Vector + Vec.Length Vector <= KERNEL_VA_START.

(** The locals of the fill loop once the fragments [Newest] (newest first)
    are built in a table of [N] slots and [Total] bytes are counted. *)
Definition VectorLoopOf (N : nat) (Newest : list IO_BUFFER_FRAGMENT)
    (Total : Z) : VectorLoop :=
  mkVectorLoop
    (rev Newest ++ replicate (N - length Newest) Frag.zero)
    (UINTN Total)
    (Z.of_nat (length Newest))
    (match Newest with
     | [] => None
     | _ :: _ => Some (Z.of_nat (length Newest) - 1)
     end)
    (Z.of_nat (length Newest)).

(** The buffer of a vector array: its fragments first in a table of one slot
    per entry, the lengths summed in a [UINTN]. *)
Definition VectorBuffer (Vector : list IO_VECTOR) : IO_BUFFER :=
  Io.mk
    (VectorFragments Vector
     ++ replicate (length Vector - length (VectorFragments Vector)) Frag.zero)
    (Z.of_nat (length (VectorFragments Vector)))
    (Z.lor IO_BUFFER_FLAG_USER_MODE IO_BUFFER_FLAG_MAPPED)
    (UINTN (VectorLength Vector))
    0
    (Z.of_nat (length Vector))
    0
    None.

(** A fragment of a user mode range. *)
Definition UserFragment (f : IO_BUFFER_FRAGMENT) : Prop :=
  Frag.PhysicalAddress f = 0 /\
  0 <= Frag.VirtualAddress f /\ 0 < Frag.Size f /\
  Frag.VirtualAddress f + Frag.Size f <= KERNEL_VA_START.

(** *** Non-paged buffers *)

(** The alignment [MmAllocateNonPagedIoBuffer] works with, a whole number of
    pages, the size it allocates, a whole number of alignments, and the size
    of the physical runs it asks the mapper for. *)
Definition RunAlignment (Alignment : Z) : Z :=
  if Alignment =? 0 then MmPageSize else ALIGN_RANGE_UP Alignment MmPageSize.

Definition AlignedSize (Alignment Size : Z) : Z :=
  ALIGN_RANGE_UP Size (RunAlignment Alignment).

Definition RunSize (Alignment Size : Z) (PhysicallyContiguous : bool) : Z :=
  if PhysicallyContiguous then AlignedSize Alignment Size
  else RunAlignment Alignment.

(** The flags of a buffer from [MmAllocateNonPagedIoBuffer]. *)
Definition NonPagedFlags : Z :=
  Z.lor IO_BUFFER_FLAG_NON_PAGED
    (Z.lor IO_BUFFER_FLAG_UNMAP_ON_FREE
       (Z.lor IO_BUFFER_FLAG_MEMORY_OWNED
          (Z.lor IO_BUFFER_FLAG_MEMORY_LOCKED
             (Z.lor IO_BUFFER_FLAG_MAPPED IO_BUFFER_FLAG_VIRTUALLY_CONTIGUOUS)))).

(** One more page on the fragments built so far (newest first): a page that
    starts at the physical end of the previous fragment is merged into it,
    any other page opens a fragment. *)
Definition CoalescePage (k : Kernel) (Newest : list IO_BUFFER_FRAGMENT)
    (CurrentAddress : Z) : list IO_BUFFER_FRAGMENT :=
  let PhysicalAddress := PageTable k CurrentAddress in
  match Newest with
  | Previous :: Older =>
      if Frag.PhysicalAddress Previous + Frag.Size Previous =? PhysicalAddress
      then Frag.set_Size (Frag.Size Previous + MmPageSize) Previous :: Older
      else Frag.mk CurrentAddress PhysicalAddress MmPageSize :: Newest
  | [] => [Frag.mk CurrentAddress PhysicalAddress MmPageSize]
  end.

(** The addresses of the [n] pages that follow page [i] of the range at
    [VirtualAddress], and the fragments of the first [n] pages, in order. *)
Definition PageAddresses (VirtualAddress : Z) (i n : nat) : list Z :=
  map (fun j => VirtualAddress + Z.of_nat j * MmPageSize) (seq i n).

Definition PageFragments (k : Kernel) (VirtualAddress : Z) (n : nat)
    : list IO_BUFFER_FRAGMENT :=
  rev (fold_left (CoalescePage k) (PageAddresses VirtualAddress 0 n) []).

(** The buffer with the fragments [Newest] (newest first) in its table of
    [N] slots. *)
Definition PagesBuffer (IoBuffer : IO_BUFFER) (N : nat)
    (Newest : list IO_BUFFER_FRAGMENT) : IO_BUFFER :=
  Io.set_FragmentCount (Z.of_nat (length Newest))
    (Io.set_Fragment (rev Newest ++ replicate (N - length Newest) Frag.zero)
       IoBuffer).

(** The buffer [MmAllocateNonPagedIoBuffer] builds over the range at
    [VirtualAddress]. *)
Definition NonPagedBuffer (k : Kernel) (Alignment Size : Z)
    (PhysicallyContiguous : bool) (VirtualAddress : Z) : IO_BUFFER :=
  let PageCount := AlignedSize Alignment Size / MmPageSize in
  let Fragments :=
    if PhysicallyContiguous
    then [Frag.mk VirtualAddress (PageTable k VirtualAddress)
            (AlignedSize Alignment Size)]
    else PageFragments k VirtualAddress (Z.to_nat PageCount) in
  let MaxFragmentCount := if PhysicallyContiguous then 1 else PageCount in
  Io.mk
    (Fragments
     ++ replicate (Z.to_nat MaxFragmentCount - length Fragments) Frag.zero)
    (Z.of_nat (length Fragments))
    NonPagedFlags
    (AlignedSize Alignment Size)
    0
    MaxFragmentCount
    PageCount
    (Some (replicate (Z.to_nat PageCount) None)).

(** The pool, the address space and the mapper all answer the allocation. *)
Definition AllocationSucceeds (k : Kernel) : bool :=
  negb (Nat.eqb (PoolAvailable k) 0)
  && KSUCCESS (fst (AddressRange k)) && KSUCCESS (MapRange k).

(** The calls of an allocation that goes through. *)
Definition NonPagedCalls (Alignment Size : Z) (PhysicallyContiguous : bool)
    (VirtualAddress : Z) : list Event :=
  [CallMmpAllocateAddressRange (AlignedSize Alignment Size) MmPageSize;
   CallMmpMapRange VirtualAddress (AlignedSize Alignment Size)
     (RunAlignment Alignment) (RunSize Alignment Size PhysicallyContiguous)
     false false].

(** What the mapper is asked for: over the pages of [Size] bytes at
    [VirtualAddress] the page table holds physical pages, in runs of
    [PhysicalRunSize] bytes that start on a multiple of
    [PhysicalRunAlignment] and are contiguous inside. *)
Definition PhysicalRuns (k : Kernel)
    (VirtualAddress Size PhysicalRunAlignment PhysicalRunSize : Z) : Prop :=
  forall Page : Z,
    0 <= Page -> Page * MmPageSize < Size ->
    let Offset := Page * MmPageSize in
    let PhysicalAddress := PageTable k (VirtualAddress + Offset) in
    PhysicalAddress <> INVALID_PHYSICAL_ADDRESS /\
    0 <= PhysicalAddress /\ PhysicalAddress + MmPageSize < 2 ^ 64 /\
    (Offset mod PhysicalRunSize = 0 ->
     PhysicalAddress mod PhysicalRunAlignment = 0) /\
    (Offset mod PhysicalRunSize <> 0 ->
     PhysicalAddress
     = PageTable k (VirtualAddress + Offset - MmPageSize) + MmPageSize).

(** The state of the page walk after [i] pages. *)
Definition PagesWalked (k : Kernel) (VirtualAddress Alignment : Z) (i : nat)
    (Newest : list IO_BUFFER_FRAGMENT) : Prop :=
  (length Newest <= i)%nat /\
  SizeOfFragments Newest = Z.of_nat i * MmPageSize /\
  Forall (fun f => Frag.PhysicalAddress f mod Alignment = 0 /\ 0 <= Frag.Size f)
    Newest /\
  match Newest with
  | [] => i = 0%nat
  | Previous :: Older =>
      Forall (fun f => Frag.Size f mod Alignment = 0) Older /\
      Frag.PhysicalAddress Previous + Frag.Size Previous
      = PageTable k (VirtualAddress + (Z.of_nat i - 1) * MmPageSize)
        + MmPageSize
  end.

(** A fragment within a physical range, as lines 2202-2203 compare it, and a
    fragment aligned, as lines 2191-2192 do. *)
Definition WithinPhysicalRange
    (MinimumPhysicalAddress MaximumPhysicalAddress : Z)
    (f : IO_BUFFER_FRAGMENT) : Prop :=
  MinimumPhysicalAddress <= Frag.PhysicalAddress f /\
  Frag.PhysicalAddress f + Frag.Size f <= MaximumPhysicalAddress.

Definition AlignedFragment (Alignment : Z) (f : IO_BUFFER_FRAGMENT) : Prop :=
  IS_ALIGNED (Frag.PhysicalAddress f) Alignment = true /\
  IS_ALIGNED (Frag.Size f) Alignment = true.

End Notions.

(** * Scenarios on the 32-bit machine *)

(** A kernel at low run level whose pool holds out, whose address space
    answers the range at 0xC0000000, whose page table maps every address
    onto itself, and whose physical allocator is exhausted. *)
Definition Kernel32 : Kernel :=
  mkKernel [] RunLevelLow [] 4 STATUS_SUCCESS (STATUS_SUCCESS, 0xC0000000)
    STATUS_SUCCESS (fun VirtualAddress => VirtualAddress).

(** A buffer of three pages in two fragments, the cursor half way through
    the first page. *)
Definition TwoFragments : IO_BUFFER :=
  Io.mk [Frag.mk 0 0x10000 0x1000; Frag.mk 0 0x30000 0x2000] 2
    IO_BUFFER_FLAG_MEMORY_LOCKED 0x3000 0x800 2 3 None.

(** An entry of the page cache for the physical page 0x31000. *)
Definition CachedPage : PAGE_CACHE_ENTRY := Pce.mk 0xC1000040 0x31000 0.

(** An owned buffer of three pages, the last of which the page cache holds. *)
Definition OwnedBuffer : IO_BUFFER :=
  Io.mk [Frag.mk 0xC0000000 0x10000 0x1000; Frag.mk 0xC0001000 0x30000 0x2000] 2
    (Z.lor IO_BUFFER_FLAG_MEMORY_OWNED
       (Z.lor IO_BUFFER_FLAG_NON_PAGED
          (Z.lor IO_BUFFER_FLAG_MAPPED IO_BUFFER_FLAG_UNMAP_ON_FREE)))
    0x3000 0x1000 2 3 (Some [None; None; Some CachedPage]).

(** What the release of [OwnedBuffer] calls: the unmapping, then one call a
    page. *)
Definition OwnedBufferRelease : list Event :=
  [CallMmpFreeAccountingRanges (Io.Fragment OwnedBuffer) None;
   CallMmFreePhysicalPage 0x10000;
   CallMmFreePhysicalPage 0x30000;
   CallIoPageCacheEntryReleaseReference CachedPage].

(** The vector array of scenario 3. *)
Definition Scenario3 : list IO_VECTOR :=
  [Vec.mk 0x1000 100; Vec.mk 0x1064 200; Vec.mk 0x2000 50].

(** An array of two entries, each the whole of user space. *)
Definition TwoHalves : list IO_VECTOR :=
  [Vec.mk 0 0x80000000; Vec.mk 0 0x80000000].

(** An array of one empty entry at the first kernel address. *)
Definition EmptyKernelVector : list IO_VECTOR := [Vec.mk 0x80000000 0].

(** An array of two empty entries in user space. *)
Definition EmptyUserVector : list IO_VECTOR := [Vec.mk 0x1000 0; Vec.mk 0 0].

(** What [MmAllocateUninitializedIoBuffer] answers for 4096 bytes, one slot,
    and for 8192 bytes backed by the page cache, two slots. *)
Definition OneSlot : IO_BUFFER :=
  Io.mk [Frag.zero] 0
    (Z.lor IO_BUFFER_FLAG_NON_PAGED IO_BUFFER_FLAG_EXTENDABLE) 0 0 1 1 None.

Definition TwoSlots : IO_BUFFER :=
  Io.mk [Frag.zero; Frag.zero] 0
    (Z.lor IO_BUFFER_FLAG_NON_PAGED IO_BUFFER_FLAG_EXTENDABLE) 0 0 2 2 None.

Definition TwoCachedSlots : IO_BUFFER :=
  Io.mk [Frag.zero; Frag.zero] 0
    (Z.lor (Z.lor IO_BUFFER_FLAG_NON_PAGED IO_BUFFER_FLAG_EXTENDABLE)
       (Z.lor IO_BUFFER_FLAG_PAGE_CACHE_BACKED IO_BUFFER_FLAG_MEMORY_LOCKED))
    0 0 2 2 (Some [None; None]).

(** [TwoCachedSlots] without the flag PAGE_CACHE_BACKED. *)
Definition TwoUnflaggedSlots : IO_BUFFER :=
  Io.mk [Frag.zero; Frag.zero] 0
    (Z.lor (Z.lor IO_BUFFER_FLAG_NON_PAGED IO_BUFFER_FLAG_EXTENDABLE)
       IO_BUFFER_FLAG_MEMORY_LOCKED)
    0 0 2 2 (Some [None; None]).

(** A physical allocator that holds the one page 0x10000. *)
Definition OnePageLeft : Kernel :=
  mkKernel [] RunLevelLow [0x10000] 3 STATUS_SUCCESS (STATUS_SUCCESS, 0xC0000000)
    STATUS_SUCCESS (fun VirtualAddress => VirtualAddress).

(** [TwoSlots] after the first of two pages was attached. *)
Definition HalfExtended : IO_BUFFER :=
  Io.mk [Frag.mk 0 0x10000 4096; Frag.zero] 1
    (Z.lor IO_BUFFER_FLAG_NON_PAGED IO_BUFFER_FLAG_EXTENDABLE) 4096 0 2 2 None.

(** A buffer over two pages of user memory at 0x1000, as
    [MmCreateIoBuffer] wraps them without locking. *)
Definition UserBuffer : IO_BUFFER :=
  Io.mk [Frag.mk 0x1000 0 0x2000] 1
    (Z.lor IO_BUFFER_FLAG_USER_MODE IO_BUFFER_FLAG_MAPPED) 0x2000 0 1 0 None.

(** A kernel of the 64-bit machine whose address space answers the range at
    0xFFFF800000100000 and whose mapper backs it with the physical page at
    4 GiB. *)
Definition HighMemory : Kernel :=
  mkKernel [] RunLevelLow [] 4 STATUS_SUCCESS
    (STATUS_SUCCESS, 0xFFFF800000100000) STATUS_SUCCESS (fun _ => 0x100000000).

(** The one-page buffer [MmAllocateNonPagedIoBuffer] builds on
    [HighMemory]. *)
Definition HighBuffer : IO_BUFFER :=
  Io.mk [Frag.mk 0xFFFF800000100000 0x100000000 0x1000] 1 NonPagedFlags
    0x1000 0 1 1 (Some [None]).

(** * The rest of iobuf.c *)

Section IoBufferRest.

Context {machine : Machine}.

(** ** Initialization in the caller's storage (lines 1060-1183)

    The structure is the caller's: the call answers what it leaves there.
    The fragment table is the one fragment [Internal.Fragment] of the
    structure, the page cache entry table its one slot
    [Internal.PageCacheEntry]. *)
Definition MmInitializeIoBuffer
    (VirtualAddress PhysicalAddress SizeInBytes : Z)
    (CacheBacked MemoryLocked : bool) : Mm IO_BUFFER :=
  let Address := VirtualAddress in
  let PageSize := MmPageSize in
  ASSERT (UINTN (UINTN (ALIGN_RANGE_UP (UINTN (Address + SizeInBytes)) PageSize)
                 - UINTN (ALIGN_RANGE_DOWN Address PageSize))
          <=? PageSize) ;;
  let IoBuffer :=
    Io.mk [Frag.zero] 0 IO_BUFFER_FLAG_STRUCTURE_NOT_OWNED 0 0 1 0 None in
  let IoBuffer :=
    if CacheBacked then
      Io.mk (Io.Fragment IoBuffer) (Io.FragmentCount IoBuffer)
        (Z.lor (Io.Flags IoBuffer)
           (Z.lor IO_BUFFER_FLAG_PAGE_CACHE_BACKED
              (Z.lor IO_BUFFER_FLAG_EXTENDABLE IO_BUFFER_FLAG_MEMORY_LOCKED)))
        (Io.TotalSize IoBuffer) (Io.CurrentOffset IoBuffer)
        (Io.MaxFragmentCount IoBuffer) 1 (Some [None])
    else IoBuffer in
  let IoBuffer :=
    if MemoryLocked
    then Io.set_Flags (Z.lor (Io.Flags IoBuffer) IO_BUFFER_FLAG_MEMORY_LOCKED)
           IoBuffer
    else IoBuffer in
  x <-
    (if negb (VirtualAddress =? NULL) then
       let IoBuffer :=
         Io.set_Flags
           (Z.lor (Io.Flags IoBuffer)
              (Z.lor IO_BUFFER_FLAG_MAPPED IO_BUFFER_FLAG_VIRTUALLY_CONTIGUOUS))
           IoBuffer in
       if PhysicalAddress =? INVALID_PHYSICAL_ADDRESS then
         PhysicalAddress <- MmpVirtualToPhysical VirtualAddress ;;
         ASSERT (negb (PhysicalAddress =? INVALID_PHYSICAL_ADDRESS)) ;;
         ret (IoBuffer, PhysicalAddress)
       else ret (IoBuffer, PhysicalAddress)
     else ret (IoBuffer, PhysicalAddress)) ;;
  let IoBuffer := fst x in
  let PhysicalAddress := snd x in
  if negb (PhysicalAddress =? INVALID_PHYSICAL_ADDRESS) then
    ASSERT (negb (SizeInBytes =? 0)) ;;
    let IoBuffer := Io.set_TotalSize SizeInBytes IoBuffer in
    Table <- write (Io.Fragment IoBuffer) 0
               (Frag.mk VirtualAddress PhysicalAddress SizeInBytes) ;;
    ret (Io.set_FragmentCount 1 (Io.set_Fragment Table IoBuffer))
  else ret IoBuffer.

(** ** Validation for cached I/O (lines 2274-2371) *)


(** ** Page cache entries of a buffer (lines 2520-2629) *)

Definition MmSetIoBufferPageCacheEntry (IoBuffer : IO_BUFFER)
    (IoBufferOffset : Z) (PageCacheEntry : PAGE_CACHE_ENTRY) : Mm IO_BUFFER :=
  let IoBufferOffset := UINTN (IoBufferOffset + Io.CurrentOffset IoBuffer) in
  ASSERT (IS_ALIGNED IoBufferOffset MmPageSize) ;;
  ASSERT (Z.land (Io.Flags IoBuffer) IO_BUFFER_FLAG_USER_MODE =? 0) ;;
  let PageIndex := Z.shiftr IoBufferOffset MmPageShift in
  ASSERT (PageIndex <? Io.PageCount IoBuffer) ;;
  match Io.PageCacheEntries IoBuffer with
  | Some PageCacheEntries =>
      Slot <- read PageCacheEntries PageIndex ;;
      ASSERT (bool_decide (Slot = None)) ;;
      PhysicalAddress <- MmGetIoBufferPhysicalAddress IoBuffer IoBufferOffset ;;
      ASSERT (PhysicalAddress =? Pce.PhysicalAddress PageCacheEntry) ;;
      call (CallIoPageCacheEntryAddReference PageCacheEntry) ;;
      PageCacheEntries <- write PageCacheEntries PageIndex (Some PageCacheEntry) ;;
      ret (Io.set_Flags
             (Z.lor (Io.Flags IoBuffer) IO_BUFFER_FLAG_PAGE_CACHE_BACKED)
             (Io.set_PageCacheEntries (Some PageCacheEntries) IoBuffer))
  | None => stop
  end.

Definition MmGetIoBufferPageCacheEntry (IoBuffer : IO_BUFFER)
    (IoBufferOffset : Z) : Mm (option PAGE_CACHE_ENTRY) :=
  if Z.land (Io.Flags IoBuffer) IO_BUFFER_FLAG_PAGE_CACHE_BACKED =? 0
  then ret None
  else
    let IoBufferOffset := UINTN (IoBufferOffset + Io.CurrentOffset IoBuffer) in
    ASSERT (IS_ALIGNED IoBufferOffset MmPageSize) ;;
    ASSERT (Z.land (Io.Flags IoBuffer) IO_BUFFER_FLAG_USER_MODE =? 0) ;;
    let PageIndex := Z.shiftr IoBufferOffset MmPageShift in
    ASSERT (PageIndex <? Io.PageCount IoBuffer) ;;
    match Io.PageCacheEntries IoBuffer with
    | Some PageCacheEntries => read PageCacheEntries PageIndex
    | None => stop
    end.

(** ** Is the buffer mapped? (lines 3408-3458) *)

(** The [for] loop: [VirtualAddress] is where a virtually contiguous buffer
    has its next fragment. *)
Fixpoint MmpIsIoBufferMapped_loop (n : nat) (IoBuffer : IO_BUFFER)
    (VirtuallyContiguous : bool) (FragmentIndex VirtualAddress : Z) : Mm bool :=
  match n with
  | O => ret true
  | S n' =>
      Fragment <- read (Io.Fragment IoBuffer) FragmentIndex ;;
      if (Frag.VirtualAddress Fragment =? NULL)
         || (VirtuallyContiguous
             && negb (VirtualAddress =? Frag.VirtualAddress Fragment))
      then ret false
      else
        MmpIsIoBufferMapped_loop n' IoBuffer VirtuallyContiguous
          (FragmentIndex + 1) (UINTN (VirtualAddress + Frag.Size Fragment))
  end.

Definition MmpIsIoBufferMapped (IoBuffer : IO_BUFFER)
    (VirtuallyContiguous : bool) : Mm bool :=
  ASSERT (1 <=? Io.FragmentCount IoBuffer) ;;
  First <- read (Io.Fragment IoBuffer) 0 ;;
  MmpIsIoBufferMapped_loop (Z.to_nat (Io.FragmentCount IoBuffer)) IoBuffer
    VirtuallyContiguous 0 (Frag.VirtualAddress First).

End IoBufferRest.

Section NotionsRest.

Context {machine : Machine}.

(** The fragments [l] follow one another in virtual memory from
    [VirtualAddress] on, in pointer arithmetic. *)
Definition VirtuallyAdjacent (VirtualAddress : Z)
    (l : list IO_BUFFER_FRAGMENT) : Prop :=
  forall (j : nat) (f : IO_BUFFER_FRAGMENT),
    l !! j = Some f ->
    Frag.VirtualAddress f
    = UINTN (VirtualAddress + SizeOfFragments (take j l)).

(** What [MmpIsIoBufferMapped] looks for in the fragments [l]. *)
Definition FragmentsMapped (VirtuallyContiguous : bool) (VirtualAddress : Z)
    (l : list IO_BUFFER_FRAGMENT) : Prop :=
  Forall (fun f => Frag.VirtualAddress f <> NULL) l /\
  (VirtuallyContiguous = true -> VirtuallyAdjacent VirtualAddress l).

(** The calls that give a structure back to its pool. *)
Definition PoolCall (e : Event) : bool :=
  match e with
  | CallMmFreeNonPagedPool | CallMmFreePagedPool => true
  | _ => false
  end.

(** The calls that release what a buffer holds: pages, locks, references
    and virtual ranges. *)
Definition ReleaseCall (e : Event) : bool :=
  match e with
  | CallMmFreePhysicalPage _
  | CallMmpUnlockPhysicalPages _ _
  | CallIoPageCacheEntryReleaseReference _
  | CallMmpFreeAccountingRanges _ _ => true
  | _ => false
  end.

(** A computation that does nothing to the kernel but log calls, each of
    them a [P]. *)
Definition Logs (P : Event -> Prop) {A : Type} (m : Mm A) : Prop :=
  forall (k : Kernel) (r : A) (k' : Kernel),
    m k = Some (r, k') ->
    exists calls, k' = set_Log (Log k ++ calls) k /\ Forall P calls.

(** The physical pages a fragment touches, from the page of its first byte
    to the page of its last one: a locked fragment need not start on a page
    boundary. *)
Definition TouchedPages (f : IO_BUFFER_FRAGMENT) : list Z :=
  let First := Frag.PhysicalAddress f / MmPageSize in
  let Next :=
    (Frag.PhysicalAddress f + Frag.Size f + MmPageSize - 1) / MmPageSize in
  map (fun i => (First + Z.of_nat i) * MmPageSize)
      (seq 0 (Z.to_nat (Next - First))).

(** What the release of a locked buffer does page by page, as the slots go
    by. *)
Fixpoint UnlockPageCalls (Slots : list (option PAGE_CACHE_ENTRY))
    (Pages : list Z) : list Event :=
  match Pages with
  | [] => []
  | PhysicalAddress :: Pages =>
      match Slots with
      | Some Entry :: _ => CallIoPageCacheEntryReleaseReference Entry
      | _ => CallMmpUnlockPhysicalPages PhysicalAddress 1
      end :: UnlockPageCalls (tail Slots) Pages
  end.

End NotionsRest.


(** * Mapping *)

(** The bits of a [MapFlags] word, by name, in the order they are or-ed
    in. *)
Inductive MAP_FLAG : Type :=
| MAP_FLAG_PRESENT
| MAP_FLAG_GLOBAL
| MAP_FLAG_WRITE_THROUGH
| MAP_FLAG_CACHE_DISABLE.

(** The calls of the mapping code into the mapper and the page cache, and of
    the zeroing and copying code into the runtime library and the copies
    from and to user mode, which the [Kernel] has no entry for. *)
Inductive MemoryCall : Type :=
| CallMmpMapPage (PhysicalAddress VirtualAddress : Z) (MapFlags : list MAP_FLAG)
| CallIoSetPageCacheEntryVirtualAddress (PageCacheEntry : PAGE_CACHE_ENTRY)
    (VirtualAddress : Z)
| CallRtlZeroMemory (Buffer Bytes : Z)
| CallRtlCopyMemory (Destination Source Bytes : Z)
| CallMmCopyToUserMode (UserModePointer KernelModePointer Size : Z)
| CallMmCopyFromUserModeBytes (KernelModePointer UserModePointer Size : Z).

(** The log of these calls, oldest first.  A call is kept with the number of
    calls the [Kernel] had logged when it was made, which places it among
    them. *)
Definition MemoryLog : Type := list (nat * MemoryCall).

Definition memcall (c : MemoryCall) (Calls : MemoryLog) : Mm MemoryLog :=
  fun k => Some (Calls ++ [(length (Log k), c)], k).

(** What a mapping routine leaves behind: its status, the buffer and the
    log of the mapping calls. *)
Record Mapped : Type := mkMapped {
  m_Status : KSTATUS;
  m_IoBuffer : IO_BUFFER;
  m_Calls : MemoryLog
}.

Section Mapping.

Context {machine : Machine}.

(** ** [MmpMapIoBufferFragments] (lines 2993-3157) *)

(** The sums of lines 3053-3059 and 3095-3101: the sizes of [n] fragments
    from [FragmentIndex] on, added to [Size]. *)
Fixpoint MmpMapIoBufferFragments_size (n : nat) (IoBuffer : IO_BUFFER)
    (FragmentIndex Size : Z) : Mm Z :=
  match n with
  | O => ret Size
  | S n' =>
      Fragment <- read (Io.Fragment IoBuffer) FragmentIndex ;;
      MmpMapIoBufferFragments_size n' IoBuffer (UINTN (FragmentIndex + 1))
        (UINTN (Size + Frag.Size Fragment))
  end.

(** The [while] loop of lines 3116-3148 answers [VirtualAddress] and
    [PageIndex] as it leaves them.  [n] bounds the rounds: the size is
    asserted to be a number of pages in the first round, and that many
    rounds bring it to 0. *)
Fixpoint MmpMapIoBufferFragments_pages (n : nat) (MapFlags : list MAP_FLAG)
    (PageCacheEntries : option (list (option PAGE_CACHE_ENTRY)))
    (PhysicalAddress VirtualAddress FragmentSize PageIndex : Z)
    (Calls : MemoryLog) : Mm (Z * Z * MemoryLog) :=
  if FragmentSize =? 0 then ret (VirtualAddress, PageIndex, Calls)
  else
    match n with
    | O => stop
    | S n' =>
        ASSERT (IS_ALIGNED PhysicalAddress MmPageSize) ;;
        ASSERT (IS_ALIGNED FragmentSize MmPageSize) ;;
        Calls <- memcall (CallMmpMapPage PhysicalAddress VirtualAddress MapFlags)
                  Calls ;;
        x <-
          match PageCacheEntries with
          | Some Entries =>
              PageCacheEntry <- read Entries PageIndex ;;
              Calls <-
                match PageCacheEntry with
                | Some Entry =>
                    memcall (CallIoSetPageCacheEntryVirtualAddress Entry
                               VirtualAddress) Calls
                | None => ret Calls
                end ;;
              ret (UINTN (PageIndex + 1), Calls)
          | None => ret (PageIndex, Calls)
          end ;;
        MmpMapIoBufferFragments_pages n' MapFlags PageCacheEntries
          (ULONGLONG (PhysicalAddress + MmPageSize))
          (UINTN (VirtualAddress + MmPageSize))
          (UINTN (FragmentSize - MmPageSize)) (fst x) (snd x)
    end.

(** The [for] loop of lines 3107-3149. *)
Fixpoint MmpMapIoBufferFragments_map (n : nat) (MapFlags : list MAP_FLAG)
    (PageCacheEntries : option (list (option PAGE_CACHE_ENTRY)))
    (IoBuffer : IO_BUFFER) (FragmentIndex VirtualAddress PageIndex : Z)
    (Calls : MemoryLog) : Mm (IO_BUFFER * MemoryLog) :=
  match n with
  | O => ret (IoBuffer, Calls)
  | S n' =>
      Fragment <- read (Io.Fragment IoBuffer) FragmentIndex ;;
      Table <- write (Io.Fragment IoBuffer) FragmentIndex
                 (Frag.set_VirtualAddress VirtualAddress Fragment) ;;
      let IoBuffer := Io.set_Fragment Table IoBuffer in
      let PhysicalAddress := Frag.PhysicalAddress Fragment in
      let FragmentSize := Frag.Size Fragment in
      x <- MmpMapIoBufferFragments_pages
             (Z.to_nat (Z.shiftr FragmentSize MmPageShift)) MapFlags
             PageCacheEntries PhysicalAddress VirtualAddress FragmentSize
             PageIndex Calls ;;
      MmpMapIoBufferFragments_map n' MapFlags PageCacheEntries IoBuffer
        (UINTN (FragmentIndex + 1)) (fst (fst x)) (snd (fst x)) (snd x)
  end.

Definition MmpMapIoBufferFragments (IoBuffer : IO_BUFFER)
    (FragmentStart FragmentCount : Z) (MapFlags : list MAP_FLAG)
    (Calls : MemoryLog) : Mm Mapped :=
  ASSERT (negb (FragmentCount =? 0)) ;;
  ASSERT (UINTN (FragmentStart + FragmentCount) <=? Io.FragmentCount IoBuffer) ;;
  let PageShift := MmPageShift in
  let PageSize := MmPageSize in
  (** the rounds of a loop from [FragmentStart] up to
      [FragmentStart + FragmentCount] *)
  let Rounds := Z.to_nat (UINTN (FragmentStart + FragmentCount) - FragmentStart) in
  Size <- MmpMapIoBufferFragments_size Rounds IoBuffer FragmentStart 0 ;;
  ASSERT (negb (Size =? 0)) ;;
  ASSERT (IS_ALIGNED Size PageSize) ;;
  Range <- MmpAllocateAddressRange Size PageSize ;;
  let Status := fst Range in
  let VirtualAddress := snd Range in
  if negb (KSUCCESS Status) then ret (mkMapped Status IoBuffer Calls)
  else
    ASSERT (KERNEL_VA_START <=? VirtualAddress) ;;
    x <-
      (if flag_set (Io.Flags IoBuffer) IO_BUFFER_FLAG_PAGE_CACHE_BACKED then
         ASSERT (bool_decide (is_Some (Io.PageCacheEntries IoBuffer))) ;;
         PageOffset <- MmpMapIoBufferFragments_size (Z.to_nat FragmentStart)
                         IoBuffer 0 0 ;;
         ASSERT (IS_ALIGNED PageOffset PageSize) ;;
         ret (Io.PageCacheEntries IoBuffer, Z.shiftr PageOffset PageShift)
       else ret (None, 0)) ;;
    let PageCacheEntries := fst x in
    let PageIndex := snd x in
    r <- MmpMapIoBufferFragments_map Rounds MapFlags PageCacheEntries IoBuffer
           FragmentStart VirtualAddress PageIndex Calls ;;
    ret (mkMapped Status (fst r) (snd r)).

(** ** [MmMapIoBuffer] (lines 1289-1500) *)

(** The locals of the loop of lines 1429-1469. *)
Record MapLoop : Type := mkMapLoop {
  ml_IoBuffer : IO_BUFFER;
  ml_FragmentIndex : Z;
  ml_MapRequired : bool;
  ml_MapFragmentStart : Z;
  ml_Calls : MemoryLog
}.

(** The loop of lines 1429-1469; [inl] is the [goto] of line 1452. *)
Fixpoint MmMapIoBuffer_loop (n : nat) (MapFlags : list MAP_FLAG) (s : MapLoop)
    : Mm (Mapped + MapLoop) :=
  match n with
  | O => ret (inr s)
  | S n' =>
      let IoBuffer := ml_IoBuffer s in
      let FragmentIndex := ml_FragmentIndex s in
      Fragment <- read (Io.Fragment IoBuffer) FragmentIndex ;;
      if negb (Frag.VirtualAddress Fragment =? NULL) then
        if negb (ml_MapRequired s) then
          MmMapIoBuffer_loop n' MapFlags
            (mkMapLoop IoBuffer (UINTN (FragmentIndex + 1)) (ml_MapRequired s)
               (ml_MapFragmentStart s) (ml_Calls s))
        else
          let FragmentCount := UINTN (FragmentIndex - ml_MapFragmentStart s) in
          r <- MmpMapIoBufferFragments IoBuffer (ml_MapFragmentStart s)
                 FragmentCount MapFlags (ml_Calls s) ;;
          if negb (KSUCCESS (m_Status r)) then ret (inl r)
          else
            MmMapIoBuffer_loop n' MapFlags
              (mkMapLoop (m_IoBuffer r) (UINTN (FragmentIndex + 1)) false
                 (ml_MapFragmentStart s) (m_Calls r))
      else
        let s :=
          if negb (ml_MapRequired s)
          then mkMapLoop IoBuffer FragmentIndex true FragmentIndex (ml_Calls s)
          else s in
        MmMapIoBuffer_loop n' MapFlags
          (mkMapLoop (ml_IoBuffer s) (UINTN (FragmentIndex + 1))
             (ml_MapRequired s) (ml_MapFragmentStart s) (ml_Calls s))
  end.

(** [*IoBuffer] as the call leaves it is the second component of the
    answer. *)
Definition MmMapIoBuffer (IoBuffer : IO_BUFFER)
    (WriteThrough NonCached VirtuallyContiguous : bool) (Calls : MemoryLog)
    : Mm Mapped :=
  ASSERT (1 <=? Io.FragmentCount IoBuffer) ;;
  let IoBufferFlags := Io.Flags IoBuffer in
  (** [Some]: the buffer is mapped as asked, as lines 1347-1378 leave it *)
  Done <-
    (if VirtuallyContiguous then
       if flag_set IoBufferFlags IO_BUFFER_FLAG_VIRTUALLY_CONTIGUOUS then
         IsMapped <- MmpIsIoBufferMapped IoBuffer true ;;
         ASSERT IsMapped ;;
         ret (Some IoBuffer)
       else
         IsMapped <- MmpIsIoBufferMapped IoBuffer true ;;
         if (IsMapped : bool) then
           ret (Some (Io.set_Flags
                        (Z.lor (Io.Flags IoBuffer)
                           IO_BUFFER_FLAG_VIRTUALLY_CONTIGUOUS) IoBuffer))
         else ret None
     else
       if flag_set IoBufferFlags IO_BUFFER_FLAG_MAPPED then
         IsMapped <- MmpIsIoBufferMapped IoBuffer false ;;
         ASSERT IsMapped ;;
         ret (Some IoBuffer)
       else
         IsMapped <- MmpIsIoBufferMapped IoBuffer false ;;
         if (IsMapped : bool) then
           ret (Some (Io.set_Flags
                        (Z.lor (Io.Flags IoBuffer) IO_BUFFER_FLAG_MAPPED)
                        IoBuffer))
         else ret None) ;;
  match Done with
  | Some IoBuffer => ret (mkMapped STATUS_SUCCESS IoBuffer Calls)
  | None =>
      ASSERT (Z.land (Io.Flags IoBuffer) IO_BUFFER_FLAG_USER_MODE =? 0) ;;
      let MapFlags := [MAP_FLAG_PRESENT; MAP_FLAG_GLOBAL] in
      let MapFlags :=
        if WriteThrough then MapFlags ++ [MAP_FLAG_WRITE_THROUGH]
        else MapFlags in
      let MapFlags :=
        if NonCached then MapFlags ++ [MAP_FLAG_CACHE_DISABLE] else MapFlags in
      (** [inl]: [goto MapIoBufferEnd] with a status that is no success *)
      r <-
        (if VirtuallyContiguous then
           IoBuffer <-
             (if flag_set (Io.Flags IoBuffer) IO_BUFFER_FLAG_MAPPED
              then MmpUnmapIoBuffer IoBuffer
              else ret IoBuffer) ;;
           r <- MmpMapIoBufferFragments IoBuffer 0 (Io.FragmentCount IoBuffer)
                  MapFlags Calls ;;
           if negb (KSUCCESS (m_Status r)) then ret (inl r)
           else
             let IoBuffer := m_IoBuffer r in
             ret (inr (Io.set_Flags
                         (Z.lor (Io.Flags IoBuffer)
                            IO_BUFFER_FLAG_VIRTUALLY_CONTIGUOUS) IoBuffer,
                       m_Calls r))
         else
           l <- MmMapIoBuffer_loop (Z.to_nat (Io.FragmentCount IoBuffer))
                  MapFlags (mkMapLoop IoBuffer 0 false 0 Calls) ;;
           match l with
           | inl r => ret (inl r)
           | inr s =>
               if ml_MapRequired s then
                 let FragmentCount :=
                   UINTN (ml_FragmentIndex s - ml_MapFragmentStart s) in
                 r <- MmpMapIoBufferFragments (ml_IoBuffer s)
                        (ml_MapFragmentStart s) FragmentCount MapFlags
                        (ml_Calls s) ;;
                 if negb (KSUCCESS (m_Status r)) then ret (inl r)
                 else ret (inr (m_IoBuffer r, m_Calls r))
               else ret (inr (ml_IoBuffer s, ml_Calls s))
           end) ;;
      match r with
      | inl r => ret r
      | inr (IoBuffer, Calls) =>
          ret (mkMapped STATUS_SUCCESS
                 (Io.set_Flags
                    (Z.lor (Io.Flags IoBuffer)
                       (Z.lor IO_BUFFER_FLAG_UNMAP_ON_FREE IO_BUFFER_FLAG_MAPPED))
                    IoBuffer)
                 Calls)
      end
  end.

End Mapping.

Section NotionsMapping.

Context {machine : Machine}.

(** The fragments [l] mapped one after the other from [VirtualAddress] on,
    in pointer arithmetic. *)
Fixpoint MappedAt (VirtualAddress : Z) (l : list IO_BUFFER_FRAGMENT)
    : list IO_BUFFER_FRAGMENT :=
  match l with
  | [] => []
  | f :: l =>
      Frag.set_VirtualAddress VirtualAddress f
        :: MappedAt (UINTN (VirtualAddress + Frag.Size f)) l
  end.

(** What the mapping of the pages [Pages] from [VirtualAddress] on calls,
    page by page, as the slots of the page cache entry table go by. *)
Fixpoint MapPageCalls (MapFlags : list MAP_FLAG)
    (Slots : list (option PAGE_CACHE_ENTRY)) (VirtualAddress : Z)
    (Pages : list Z) : list MemoryCall :=
  match Pages with
  | [] => []
  | PhysicalAddress :: Pages =>
      CallMmpMapPage PhysicalAddress VirtualAddress MapFlags
        :: match Slots with
           | Some Entry :: _ =>
               [CallIoSetPageCacheEntryVirtualAddress Entry VirtualAddress]
           | _ => []
           end
        ++ MapPageCalls MapFlags (tail Slots)
             (UINTN (VirtualAddress + MmPageSize)) Pages
  end.

(** A fragment of whole pages, as lines 3122-3123 assert it, its fields
    within their types. *)
Definition WholePages (f : IO_BUFFER_FRAGMENT) : Prop :=
  0 <= Frag.PhysicalAddress f < 2 ^ 64 /\
  Frag.PhysicalAddress f mod MmPageSize = 0 /\
  0 <= Frag.Size f < 2 ^ UINTN_BITS /\
  Frag.Size f mod MmPageSize = 0.

(** The [MapFlags] of [MmMapIoBuffer] (lines 1391-1398). *)
Definition MapFlagsOf (WriteThrough NonCached : bool) : list MAP_FLAG :=
  [MAP_FLAG_PRESENT; MAP_FLAG_GLOBAL]
  ++ (if WriteThrough then [MAP_FLAG_WRITE_THROUGH] else [])
  ++ (if NonCached then [MAP_FLAG_CACHE_DISABLE] else []).

(** The slots of the page cache entry table that go with the pages of a
    buffer: none unless the buffer is backed by the page cache. *)
Definition PageCacheSlots (IoBuffer : IO_BUFFER)
    : list (option PAGE_CACHE_ENTRY) :=
  if flag_set (Io.Flags IoBuffer) IO_BUFFER_FLAG_PAGE_CACHE_BACKED
  then default [] (Io.PageCacheEntries IoBuffer)
  else [].

(** The page a call maps, with the address it is mapped at, and the page
    cache entry a call tells an address, with that address. *)
Definition MappedPage (c : nat * MemoryCall) : option (Z * Z) :=
  match snd c with
  | CallMmpMapPage PhysicalAddress VirtualAddress _ =>
      Some (PhysicalAddress, VirtualAddress)
  | _ => None
  end.

Definition ToldEntry (c : nat * MemoryCall) : option (PAGE_CACHE_ENTRY * Z) :=
  match snd c with
  | CallIoSetPageCacheEntryVirtualAddress PageCacheEntry VirtualAddress =>
      Some (PageCacheEntry, VirtualAddress)
  | _ => None
  end.

(** A fragment as a mapping leaves it: the same memory, an address, and
    the address it had when it had one. *)
Definition MappedFragment (f f' : IO_BUFFER_FRAGMENT) : Prop :=
  Frag.PhysicalAddress f' = Frag.PhysicalAddress f /\
  Frag.Size f' = Frag.Size f /\
  Frag.VirtualAddress f' <> NULL /\
  (Frag.VirtualAddress f <> NULL ->
   Frag.VirtualAddress f' = Frag.VirtualAddress f).

(** The fragments without an address. *)
Definition Unmapped (l : list IO_BUFFER_FRAGMENT) : list IO_BUFFER_FRAGMENT :=
  List.filter (fun f => Frag.VirtualAddress f =? NULL) l.

(** The three flags of a mapping. *)
Definition MappingFlags : Z :=
  Z.lor IO_BUFFER_FLAG_MAPPED
    (Z.lor IO_BUFFER_FLAG_UNMAP_ON_FREE IO_BUFFER_FLAG_VIRTUALLY_CONTIGUOUS).

End NotionsMapping.

Section NotionsCached.

Context {machine : Machine}.


End NotionsCached.


(** * Zeroing and copying *)

Section Contents.

Context {machine : Machine}.

(** [MmCopyToUserMode] and [MmCopyFromUserMode], the collaborators that copy
    bytes between kernel and user addresses, as the copying code calls them:
    the call is logged with its arguments and answers [UserCopy], the one
    status the kernel has for copies across that boundary.  The second is
    named [MmCopyFromUserModeBytes] beside the [MmCopyFromUserMode] of the
    vector code, which logs the count of the vector. *)
Definition MmCopyToUserMode (UserModePointer KernelModePointer Size : Z)
    (Calls : MemoryLog) : Mm (KSTATUS * MemoryLog) :=
  Calls <- memcall (CallMmCopyToUserMode UserModePointer KernelModePointer
                      Size) Calls ;;
  fun k => Some ((UserCopy k, Calls), k).

Definition MmCopyFromUserModeBytes (KernelModePointer UserModePointer Size : Z)
    (Calls : MemoryLog) : Mm (KSTATUS * MemoryLog) :=
  Calls <- memcall (CallMmCopyFromUserModeBytes KernelModePointer
                      UserModePointer Size) Calls ;;
  fun k => Some ((UserCopy k, Calls), k).

(** What these routines leave behind: the status, the buffer and the log
    of the calls. *)
Record Touched : Type := mkTouched {
  t_Status : KSTATUS;
  t_IoBuffer : IO_BUFFER;
  t_Calls : MemoryLog
}.

(** Lines 1577-1585, 1795-1801 and 1922-1928: the extension of a buffer
    that [End], the offset the operation ends at, lies past. *)
Definition ExtendTo (IoBuffer : IO_BUFFER) (End : Z)
    : Mm (KSTATUS * IO_BUFFER) :=
  let ExtensionSize := UINTN (End - Io.TotalSize IoBuffer) in
  MmpExtendIoBuffer IoBuffer 0 MAX_ULONGLONG 0 ExtensionSize false.

(** ** [MmZeroIoBuffer] (lines 1738-1848) *)

(** The [while] loop of lines 1819-1845.  [n] bounds the rounds: each round
    moves [FragmentIndex] on by one, and the round that finds it at
    [FragmentCount] returns. *)
Fixpoint MmZeroIoBuffer_loop (n : nat) (IoBuffer : IO_BUFFER)
    (Offset ByteCount FragmentIndex CurrentOffset : Z) (Calls : MemoryLog)
    : Mm (KSTATUS * MemoryLog) :=
  if ByteCount =? 0 then ret (STATUS_SUCCESS, Calls)
  else
    match n with
    | O => stop
    | S n' =>
        if Io.FragmentCount IoBuffer <=? FragmentIndex
        then ret (STATUS_INCORRECT_BUFFER_SIZE, Calls)
        else
          Fragment <- read (Io.Fragment IoBuffer) FragmentIndex ;;
          let FragmentIndex := UINTN (FragmentIndex + 1) in
          if UINTN (CurrentOffset + Frag.Size Fragment) <=? Offset then
            MmZeroIoBuffer_loop n' IoBuffer Offset ByteCount FragmentIndex
              (UINTN (CurrentOffset + Frag.Size Fragment)) Calls
          else
            let ZeroSize := Frag.Size Fragment in
            let FragmentOffset := 0 in
            let FragmentOffset :=
              if CurrentOffset <? Offset then UINTN (Offset - CurrentOffset)
              else FragmentOffset in
            let ZeroSize :=
              if CurrentOffset <? Offset then UINTN (ZeroSize - FragmentOffset)
              else ZeroSize in
            let ZeroSize :=
              if ByteCount <? ZeroSize then ByteCount else ZeroSize in
            Calls <- memcall (CallRtlZeroMemory
                                (UINTN (Frag.VirtualAddress Fragment
                                        + FragmentOffset)) ZeroSize) Calls ;;
            MmZeroIoBuffer_loop n' IoBuffer Offset (UINTN (ByteCount - ZeroSize))
              FragmentIndex (UINTN (CurrentOffset + Frag.Size Fragment)) Calls
    end.

Definition MmZeroIoBuffer (IoBuffer : IO_BUFFER) (Offset ByteCount : Z)
    (Calls : MemoryLog) : Mm Touched :=
  let Offset := UINTN (Offset + Io.CurrentOffset IoBuffer) in
  ASSERT (Z.land (Io.Flags IoBuffer) IO_BUFFER_FLAG_USER_MODE =? 0) ;;
  ASSERT (flag_set (Io.Flags IoBuffer) IO_BUFFER_FLAG_EXTENDABLE
          || (UINTN (Offset + ByteCount) <=? Io.TotalSize IoBuffer)) ;;
  x <-
    (if flag_set (Io.Flags IoBuffer) IO_BUFFER_FLAG_EXTENDABLE
        && (Io.TotalSize IoBuffer <? UINTN (Offset + ByteCount))
     then ExtendTo IoBuffer (UINTN (Offset + ByteCount))
     else ret (STATUS_SUCCESS, IoBuffer)) ;;
  let Status := fst x in
  let IoBuffer := snd x in
  if negb (KSUCCESS Status) then ret (mkTouched Status IoBuffer Calls)
  else
    r <- MmMapIoBuffer IoBuffer false false false Calls ;;
    let IoBuffer := m_IoBuffer r in
    if negb (KSUCCESS (m_Status r))
    then ret (mkTouched (m_Status r) IoBuffer (m_Calls r))
    else
      z <- MmZeroIoBuffer_loop (S (Z.to_nat (Io.FragmentCount IoBuffer)))
             IoBuffer Offset ByteCount 0 0 (m_Calls r) ;;
      ret (mkTouched (fst z) IoBuffer (snd z)).

(** ** [MmCopyIoBufferData] (lines 1852-2009) *)

(** The [while] loop of lines 1942-2006, with the same bound on its
    rounds.  [Status] is the variable of that name, which a copy between
    kernel addresses leaves as it is. *)
Fixpoint MmCopyIoBufferData_loop (n : nat) (IoBuffer : IO_BUFFER)
    (ToIoBuffer : bool) (Status : KSTATUS)
    (Buffer Offset Size FragmentIndex CurrentOffset : Z)
    (Calls : MemoryLog) : Mm (KSTATUS * MemoryLog) :=
  if Size =? 0 then ret (STATUS_SUCCESS, Calls)
  else
    match n with
    | O => stop
    | S n' =>
        if Io.FragmentCount IoBuffer <=? FragmentIndex
        then ret (STATUS_INCORRECT_BUFFER_SIZE, Calls)
        else
          Fragment <- read (Io.Fragment IoBuffer) FragmentIndex ;;
          let FragmentIndex := UINTN (FragmentIndex + 1) in
          if UINTN (CurrentOffset + Frag.Size Fragment) <=? Offset then
            MmCopyIoBufferData_loop n' IoBuffer ToIoBuffer Status Buffer Offset
              Size FragmentIndex (UINTN (CurrentOffset + Frag.Size Fragment)) Calls
          else
            let CopySize := Frag.Size Fragment in
            let CopyOffset := 0 in
            let CopyOffset :=
              if CurrentOffset <? Offset then UINTN (Offset - CurrentOffset)
              else CopyOffset in
            let CopySize :=
              if CurrentOffset <? Offset then UINTN (CopySize - CopyOffset)
              else CopySize in
            let CopySize := if Size <? CopySize then Size else CopySize in
            let Address := UINTN (Frag.VirtualAddress Fragment + CopyOffset) in
            x <-
              (if ToIoBuffer then
                 if flag_set (Io.Flags IoBuffer) IO_BUFFER_FLAG_USER_MODE
                 then MmCopyToUserMode Address Buffer CopySize Calls
                 else
                   Calls <- memcall (CallRtlCopyMemory Address Buffer CopySize)
                              Calls ;;
                   ret (Status, Calls)
               else
                 if flag_set (Io.Flags IoBuffer) IO_BUFFER_FLAG_USER_MODE
                 then MmCopyFromUserModeBytes Buffer Address CopySize Calls
                 else
                   Calls <- memcall (CallRtlCopyMemory Buffer Address CopySize)
                              Calls ;;
                   ret (Status, Calls)) ;;
            let Status := fst x in
            let Calls := snd x in
            if negb (KSUCCESS Status) then ret (Status, Calls)
            else
              MmCopyIoBufferData_loop n' IoBuffer ToIoBuffer Status
                (UINTN (Buffer + CopySize)) Offset (UINTN (Size - CopySize))
                FragmentIndex (UINTN (CurrentOffset + Frag.Size Fragment)) Calls
    end.

Definition MmCopyIoBufferData (IoBuffer : IO_BUFFER)
    (Buffer Offset Size : Z) (ToIoBuffer : bool) (Calls : MemoryLog)
    : Mm Touched :=
  ASSERT (KERNEL_VA_START <=? Buffer) ;;
  let Offset := UINTN (Offset + Io.CurrentOffset IoBuffer) in
  ASSERT (ToIoBuffer || (UINTN (Offset + Size) <=? Io.TotalSize IoBuffer)) ;;
  ASSERT (negb ToIoBuffer
          || flag_set (Io.Flags IoBuffer) IO_BUFFER_FLAG_EXTENDABLE
          || (UINTN (Offset + Size) <=? Io.TotalSize IoBuffer)) ;;
  x <-
    (if ToIoBuffer
        && flag_set (Io.Flags IoBuffer) IO_BUFFER_FLAG_EXTENDABLE
        && (Io.TotalSize IoBuffer <? UINTN (Offset + Size))
     then ExtendTo IoBuffer (UINTN (Offset + Size))
     else ret (STATUS_SUCCESS, IoBuffer)) ;;
  let Status := fst x in
  let IoBuffer := snd x in
  if negb (KSUCCESS Status) then ret (mkTouched Status IoBuffer Calls)
  else
    r <- MmMapIoBuffer IoBuffer false false false Calls ;;
    let IoBuffer := m_IoBuffer r in
    if negb (KSUCCESS (m_Status r))
    then ret (mkTouched (m_Status r) IoBuffer (m_Calls r))
    else
      z <- MmCopyIoBufferData_loop (S (Z.to_nat (Io.FragmentCount IoBuffer)))
             IoBuffer ToIoBuffer (m_Status r) Buffer Offset Size 0 0
             (m_Calls r) ;;
      ret (mkTouched (fst z) IoBuffer (snd z)).

(** ** [MmCopyIoBuffer] (lines 1502-1734) *)

(** What [MmCopyIoBuffer] leaves behind: the status, the two buffers and
    the log of the calls.  The buffers are taken as two objects. *)
Record Copied : Type := mkCopied {
  c_Status : KSTATUS;
  c_Destination : IO_BUFFER;
  c_Source : IO_BUFFER;
  c_Calls : MemoryLog
}.

(** The [for] loops of lines 1620-1635 and 1642-1653, which look for the
    fragment that holds [Offset].  [Fragment] is the pointer to a fragment,
    as the index of the fragment in the table, [None] for [NULL]; the
    answer is the pointer, [FragmentIndex] and the offset, which is an
    offset into the fragment once the fragment is found.  [n] bounds the
    rounds, one for each fragment in use. *)
Fixpoint MmCopyIoBuffer_find (n : nat) (IoBuffer : IO_BUFFER)
    (Offset FragmentIndex FragmentOffset : Z) (Fragment : option Z)
    : Mm (option Z * Z * Z) :=
  if FragmentIndex <? Io.FragmentCount IoBuffer then
    match n with
    | O => stop
    | S n' =>
        f <- read (Io.Fragment IoBuffer) FragmentIndex ;;
        if Offset <? UINTN (FragmentOffset + Frag.Size f)
        then ret (Some FragmentIndex, FragmentIndex,
                  UINTN (Offset - FragmentOffset))
        else MmCopyIoBuffer_find n' IoBuffer Offset (UINTN (FragmentIndex + 1))
               (UINTN (FragmentOffset + Frag.Size f)) (Some FragmentIndex)
    end
  else ret (Fragment, FragmentIndex, FragmentOffset).

(** [Fragment->Size] through a pointer the loop has just moved on by one:
    the size in the slot it points to, in use or not.  When the pointer has
    left the table the bytes loaded are not the buffer's; the size is taken
    as 0 there.  The loop makes no use of it: a round that follows reads the
    fragment's address with [read], which ends the run. *)
Definition SizeAt (IoBuffer : IO_BUFFER) (Fragment : Z) : Z :=
  match Io.Fragment IoBuffer !! Z.to_nat Fragment with
  | Some f => Frag.Size f
  | None => 0
  end.

(** Lines 1707-1716 and 1718-1727: the bytes of a round leave a fragment,
    and the pointer moves on to the slot after it when none are left, where
    the size is loaded.  The answer is the pointer, the offset into the
    fragment and the bytes left in it. *)
Definition MmCopyIoBuffer_advance (IoBuffer : IO_BUFFER)
    (Fragment FragmentOffset MaxSize BytesThisRound : Z) : Mm (Z * Z * Z) :=
  let FragmentOffset := UINTN (FragmentOffset + BytesThisRound) in
  let MaxSize := UINTN (MaxSize - BytesThisRound) in
  if MaxSize =? 0 then
    f <- read (Io.Fragment IoBuffer) Fragment ;;
    ASSERT (FragmentOffset =? Frag.Size f) ;;
    let Fragment := Fragment + 1 in
    let FragmentOffset := 0 in
    ret (Fragment, FragmentOffset, SizeAt IoBuffer Fragment)
  else ret (Fragment, FragmentOffset, MaxSize).

(** The [while] loop of lines 1664-1730.  Each round but the last moves one
    of the two pointers on, and the round after a pointer has left its
    table ends the run: [n] bounds the rounds by the slots of the two
    tables. *)
Fixpoint MmCopyIoBuffer_loop (n : nat) (Destination Source : IO_BUFFER)
    (Status : KSTATUS) (ByteCount : Z)
    (DestinationFragment DestinationFragmentOffset MaxDestinationSize : Z)
    (SourceFragment SourceFragmentOffset MaxSourceSize : Z)
    (Calls : MemoryLog) : Mm (KSTATUS * MemoryLog) :=
  if ByteCount =? 0 then ret (Status, Calls)
  else
    match n with
    | O => stop
    | S n' =>
        let BytesThisRound :=
          if MaxDestinationSize <? MaxSourceSize then MaxDestinationSize
          else MaxSourceSize in
        let BytesThisRound :=
          if ByteCount <? BytesThisRound then ByteCount
          else BytesThisRound in
        d <- read (Io.Fragment Destination) DestinationFragment ;;
        ASSERT (negb (Frag.VirtualAddress d =? NULL)) ;;
        s <- read (Io.Fragment Source) SourceFragment ;;
        ASSERT (negb (Frag.VirtualAddress s =? NULL)) ;;
        let DestinationVirtualAddress :=
          UINTN (Frag.VirtualAddress d + DestinationFragmentOffset) in
        let SourceVirtualAddress :=
          UINTN (Frag.VirtualAddress s + SourceFragmentOffset) in
        x <-
          (if flag_set (Io.Flags Destination) IO_BUFFER_FLAG_USER_MODE then
             MmCopyToUserMode DestinationVirtualAddress SourceVirtualAddress
               BytesThisRound Calls
           else if flag_set (Io.Flags Source) IO_BUFFER_FLAG_USER_MODE then
             MmCopyFromUserModeBytes DestinationVirtualAddress
               SourceVirtualAddress BytesThisRound Calls
           else
             Calls <- memcall (CallRtlCopyMemory DestinationVirtualAddress
                                 SourceVirtualAddress BytesThisRound) Calls ;;
             ret (STATUS_SUCCESS, Calls)) ;;
        let Status := fst x in
        let Calls := snd x in
        if negb (KSUCCESS Status) then ret (Status, Calls)
        else
          dst <- MmCopyIoBuffer_advance Destination DestinationFragment
                   DestinationFragmentOffset MaxDestinationSize
                   BytesThisRound ;;
          src <- MmCopyIoBuffer_advance Source SourceFragment
                   SourceFragmentOffset MaxSourceSize BytesThisRound ;;
          MmCopyIoBuffer_loop n' Destination Source Status
            (UINTN (ByteCount - BytesThisRound))
            (fst (fst dst)) (snd (fst dst)) (snd dst)
            (fst (fst src)) (snd (fst src)) (snd src) Calls
    end.

Definition MmCopyIoBuffer (Destination : IO_BUFFER) (DestinationOffset : Z)
    (Source : IO_BUFFER) (SourceOffset ByteCount : Z) (Calls : MemoryLog)
    : Mm Copied :=
  let DestinationOffset :=
    UINTN (DestinationOffset + Io.CurrentOffset Destination) in
  let SourceOffset := UINTN (SourceOffset + Io.CurrentOffset Source) in
  ASSERT (UINTN (SourceOffset + ByteCount) <=? Io.TotalSize Source) ;;
  ASSERT (flag_set (Io.Flags Destination) IO_BUFFER_FLAG_EXTENDABLE
          || (UINTN (DestinationOffset + ByteCount)
              <=? Io.TotalSize Destination)) ;;
  x <-
    (if flag_set (Io.Flags Destination) IO_BUFFER_FLAG_EXTENDABLE
        && (Io.TotalSize Destination
            <? UINTN (DestinationOffset + ByteCount))
     then ExtendTo Destination (UINTN (DestinationOffset + ByteCount))
     else ret (STATUS_SUCCESS, Destination)) ;;
  let Status := fst x in
  let Destination := snd x in
  if negb (KSUCCESS Status)
  then ret (mkCopied Status Destination Source Calls)
  else
    ASSERT ((Z.land (Io.Flags Destination) IO_BUFFER_FLAG_USER_MODE =? 0)
            || (Z.land (Io.Flags Source) IO_BUFFER_FLAG_USER_MODE =? 0)) ;;
    r <- MmMapIoBuffer Destination false false false Calls ;;
    let Destination := m_IoBuffer r in
    if negb (KSUCCESS (m_Status r))
    then ret (mkCopied (m_Status r) Destination Source (m_Calls r))
    else
      r <- MmMapIoBuffer Source false false false (m_Calls r) ;;
      let Source := m_IoBuffer r in
      let Status := m_Status r in
      let Calls := m_Calls r in
      if negb (KSUCCESS Status)
      then ret (mkCopied Status Destination Source Calls)
      else
        dst <- MmCopyIoBuffer_find (Z.to_nat (Io.FragmentCount Destination))
                 Destination DestinationOffset 0 0 None ;;
        DestinationFragment <-
          match fst (fst dst) with Some f => ret f | None => stop end ;;
        ASSERT (negb (snd (fst dst) =? Io.FragmentCount Destination)) ;;
        let DestinationFragmentOffset := snd dst in
        src <- MmCopyIoBuffer_find (Z.to_nat (Io.FragmentCount Source))
                 Source SourceOffset 0 0 None ;;
        SourceFragment <-
          match fst (fst src) with Some f => ret f | None => stop end ;;
        ASSERT (negb (snd (fst src) =? Io.FragmentCount Source)) ;;
        let SourceFragmentOffset := snd src in
        d <- read (Io.Fragment Destination) DestinationFragment ;;
        s <- read (Io.Fragment Source) SourceFragment ;;
        let MaxDestinationSize :=
          UINTN (Frag.Size d - DestinationFragmentOffset) in
        let MaxSourceSize := UINTN (Frag.Size s - SourceFragmentOffset) in
        z <- MmCopyIoBuffer_loop
               (S (length (Io.Fragment Destination)
                   + length (Io.Fragment Source)))
               Destination Source Status ByteCount
               DestinationFragment DestinationFragmentOffset
               MaxDestinationSize
               SourceFragment SourceFragmentOffset MaxSourceSize Calls ;;
        ret (mkCopied (fst z) Destination Source (snd z)).

End Contents.

Section NotionsContents.

Context {machine : Machine}.

(** The addresses of the [Bytes] bytes from [Address] on. *)
Definition BytesOf (Address Bytes : Z) : list Z :=
  map (fun i => Address + Z.of_nat i) (seq 0 (Z.to_nat Bytes)).

(** The addresses of the bytes of a buffer with the fragments [l], in the
    order of the buffer. *)
Definition BufferBytes (l : list IO_BUFFER_FRAGMENT) : list Z :=
  flat_map (fun f => BytesOf (Frag.VirtualAddress f) (Frag.Size f)) l.

(** The addresses of the bytes [Offset], ..., [Offset + Bytes - 1] of that
    buffer. *)
Definition BufferRange (l : list IO_BUFFER_FRAGMENT) (Offset Bytes : Z)
    : list Z :=
  take (Z.to_nat Bytes) (drop (Z.to_nat Offset) (BufferBytes l)).

(** The bytes the calls of a log zero, in the order of the calls. *)
Definition ZeroedBytes (Calls : MemoryLog) : list Z :=
  flat_map (fun c => match snd c with
                     | CallRtlZeroMemory Buffer Bytes => BytesOf Buffer Bytes
                     | _ => []
                     end) Calls.

(** The bytes the calls of a log copy, each as the address written and the
    address read, in the order of the calls. *)
Definition CopiedBytes (Calls : MemoryLog) : list (Z * Z) :=
  flat_map (fun c => match snd c with
                     | CallRtlCopyMemory Destination Source Bytes
                     | CallMmCopyToUserMode Destination Source Bytes
                     | CallMmCopyFromUserModeBytes Destination Source Bytes =>
                         zip (BytesOf Destination Bytes) (BytesOf Source Bytes)
                     | _ => []
                     end) Calls.

(** The call that copies [Bytes] bytes to or from a fragment of
    [IoBuffer]. *)
Definition CopyCall (IoBuffer : IO_BUFFER) (ToIoBuffer : bool)
    (Destination Source Bytes : Z) : MemoryCall :=
  if flag_set (Io.Flags IoBuffer) IO_BUFFER_FLAG_USER_MODE then
    if ToIoBuffer then CallMmCopyToUserMode Destination Source Bytes
    else CallMmCopyFromUserModeBytes Destination Source Bytes
  else CallRtlCopyMemory Destination Source Bytes.

(** The bytes a copy of [Size] bytes between the bytes of a buffer from
    [Offset] on and the bytes from [Buffer] on pairs, each as the address
    written and the address read. *)
Definition CopyPairs (l : list IO_BUFFER_FRAGMENT) (ToIoBuffer : bool)
    (Buffer Offset Size : Z) : list (Z * Z) :=
  if ToIoBuffer then zip (BufferRange l Offset Size) (BytesOf Buffer Size)
  else zip (BytesOf Buffer Size) (BufferRange l Offset Size).

(** The call that copies [Bytes] bytes from a fragment of [Source] to a
    fragment of [Destination]. *)
Definition BufferCopyCall (Destination Source : IO_BUFFER)
    (DestinationVirtualAddress SourceVirtualAddress Bytes : Z) : MemoryCall :=
  if flag_set (Io.Flags Destination) IO_BUFFER_FLAG_USER_MODE then
    CallMmCopyToUserMode DestinationVirtualAddress SourceVirtualAddress Bytes
  else if flag_set (Io.Flags Source) IO_BUFFER_FLAG_USER_MODE then
    CallMmCopyFromUserModeBytes DestinationVirtualAddress SourceVirtualAddress
      Bytes
  else CallRtlCopyMemory DestinationVirtualAddress SourceVirtualAddress Bytes.

(** The table of [b] holds the fragments [l] from the slot [Index] on. *)
Definition TableHolds (b : IO_BUFFER) (Index : nat)
    (l : list IO_BUFFER_FRAGMENT) : Prop :=
  forall (j : nat) (f : IO_BUFFER_FRAGMENT),
    l !! j = Some f -> Io.Fragment b !! (Index + j)%nat = Some f.

(** A copy of [Bytes] bytes from [Offset] on stays clear of the end of the
    table of [b]: it ends before the last byte of the fragments in use, or
    the table has a slot after them. *)
Definition ClearOfTableEnd (b : IO_BUFFER) (Offset Bytes : Z) : Prop :=
  Offset + Bytes < SizeOfFragments (FragmentsInUse b) \/
  (Z.to_nat (Io.FragmentCount b) < length (Io.Fragment b))%nat.

(** A fragment in memory: it has an address, and its bytes lie within the
    address space. *)
Definition InMemory (f : IO_BUFFER_FRAGMENT) : Prop :=
  NULL < Frag.VirtualAddress f < 2 ^ UINTN_BITS /\ 0 <= Frag.Size f /\
  Frag.VirtualAddress f + Frag.Size f <= 2 ^ UINTN_BITS.

(** The buffer [MmMapIoBuffer] leaves when it finds every fragment
    mapped. *)
Definition FoundMapped (b : IO_BUFFER) : IO_BUFFER :=
  if flag_set (Io.Flags b) IO_BUFFER_FLAG_MAPPED then b
  else Io.set_Flags (Z.lor (Io.Flags b) IO_BUFFER_FLAG_MAPPED) b.

End NotionsContents.


(** * More scenarios on the 32-bit machine *)

(** Two locked pages in one fragment, with the table of their page cache
    entries, both slots empty. *)
Definition LockedPages : IO_BUFFER :=
  Io.mk [Frag.mk 0 0x30000 0x2000] 1 IO_BUFFER_FLAG_MEMORY_LOCKED 0x2000 0 1 2
    (Some [None; None]).

(** What [MmInitializeIoBuffer] leaves for the 512 bytes at the mapped
    address 0xC0002000. *)
Definition MappedBytes : IO_BUFFER :=
  Io.mk [Frag.mk 0xC0002000 0xC0002000 0x200] 1
    (Z.lor IO_BUFFER_FLAG_STRUCTURE_NOT_OWNED
       (Z.lor IO_BUFFER_FLAG_MAPPED IO_BUFFER_FLAG_VIRTUALLY_CONTIGUOUS))
    0x200 0 1 0 None.

(** An array whose second entry, an empty one, is at the first kernel
    address. *)
Definition PartlyKernelVector : list IO_VECTOR :=
  [Vec.mk 0x1000 100; Vec.mk 0x80000000 0].

(** A physical allocator that holds two pages next to one another. *)
Definition TwoPagesLeft : Kernel :=
  mkKernel [] RunLevelLow [0x10000; 0x11000] 3 STATUS_SUCCESS
    (STATUS_SUCCESS, 0xC0000000) STATUS_SUCCESS
    (fun VirtualAddress => VirtualAddress).

(** [OneSlot] extended by the page 0x10000, and [TwoSlots] extended by the
    two pages of [TwoPagesLeft], which make one fragment. *)
Definition OnePageAttached : IO_BUFFER :=
  Io.mk [Frag.mk 0 0x10000 0x1000] 1
    (Z.lor IO_BUFFER_FLAG_MEMORY_OWNED
       (Z.lor IO_BUFFER_FLAG_NON_PAGED IO_BUFFER_FLAG_EXTENDABLE))
    0x1000 0 1 1 None.

Definition TwoPagesAttached : IO_BUFFER :=
  Io.mk [Frag.mk 0 0x10000 0x2000; Frag.zero] 1
    (Z.lor IO_BUFFER_FLAG_MEMORY_OWNED
       (Z.lor IO_BUFFER_FLAG_NON_PAGED IO_BUFFER_FLAG_EXTENDABLE))
    0x2000 0 2 2 None.

(** [TwoCachedSlots] after the page of [CachedPage] was appended. *)
Definition OneCachedPage : IO_BUFFER :=
  Io.mk [Frag.mk 0 0x31000 0x1000; Frag.zero] 1
    (Z.lor (Z.lor IO_BUFFER_FLAG_NON_PAGED IO_BUFFER_FLAG_EXTENDABLE)
       (Z.lor IO_BUFFER_FLAG_PAGE_CACHE_BACKED IO_BUFFER_FLAG_MEMORY_LOCKED))
    0x1000 0 2 2 (Some [Some CachedPage; None]).

(** [OwnedBuffer] after a reset. *)
Definition OwnedBufferReset : IO_BUFFER :=
  Io.mk [Frag.zero; Frag.zero] 0
    (Z.lor IO_BUFFER_FLAG_MEMORY_OWNED IO_BUFFER_FLAG_NON_PAGED) 0 0 2 3
    (Some [None; None; None]).

(** One locked fragment that starts in the middle of the page 0x30000 and
    ends in the middle of the page 0x31000; the page cache holds the
    second page. *)
Definition LockedAcrossPages : IO_BUFFER :=
  Io.mk [Frag.mk 0 0x30800 0x1000] 1 IO_BUFFER_FLAG_MEMORY_LOCKED 0x1000 0 1 2
    (Some [None; Some CachedPage]).

(** A kernel whose mapper refuses. *)
Definition MapperRefuses : Kernel :=
  mkKernel [] RunLevelLow [] 4 STATUS_SUCCESS (STATUS_SUCCESS, 0xC0000000)
    STATUS_INSUFFICIENT_RESOURCES (fun VirtualAddress => VirtualAddress).

(** A kernel whose address space is full. *)
Definition AddressSpaceFull : Kernel :=
  mkKernel [] RunLevelLow [] 4 STATUS_SUCCESS
    (STATUS_INSUFFICIENT_RESOURCES, 0) STATUS_SUCCESS
    (fun VirtualAddress => VirtualAddress).

(** Two pages mapped apart from one another. *)
Definition MappedApart : IO_BUFFER :=
  Io.mk [Frag.mk 0xC0005000 0x10000 0x1000; Frag.mk 0xC0009000 0x30000 0x1000]
    2
    (Z.lor IO_BUFFER_FLAG_MEMORY_LOCKED
       (Z.lor IO_BUFFER_FLAG_MAPPED IO_BUFFER_FLAG_UNMAP_ON_FREE))
    0x2000 0 2 2 None.

(** [MappedApart] once its ranges are given back. *)
Definition MappedApartGivenBack : IO_BUFFER :=
  Io.mk [Frag.mk 0xC0005000 0x10000 0x1000; Frag.mk 0xC0009000 0x30000 0x1000]
    2 IO_BUFFER_FLAG_MEMORY_LOCKED 0x2000 0 2 2 None.

(** [TwoFragments] mapped at 0xC0000000. *)
Definition TwoFragmentsMapped : IO_BUFFER :=
  Io.mk [Frag.mk 0xC0000000 0x10000 0x1000; Frag.mk 0xC0001000 0x30000 0x2000]
    2 (Z.lor IO_BUFFER_FLAG_MEMORY_LOCKED MappingFlags) 0x3000 0x800 2 3 None.

(** A page with an address and two pages without, and the buffer once the
    two are mapped at 0xC0000000. *)
Definition HalfMapped : IO_BUFFER :=
  Io.mk [Frag.mk 0xC0005000 0x10000 0x1000; Frag.mk 0 0x30000 0x2000] 2
    IO_BUFFER_FLAG_MEMORY_LOCKED 0x3000 0 2 3 None.

Definition HalfMappedMapped : IO_BUFFER :=
  Io.mk [Frag.mk 0xC0005000 0x10000 0x1000; Frag.mk 0xC0000000 0x30000 0x2000]
    2
    (Z.lor IO_BUFFER_FLAG_MEMORY_LOCKED
       (Z.lor IO_BUFFER_FLAG_UNMAP_ON_FREE IO_BUFFER_FLAG_MAPPED))
    0x3000 0 2 3 None.


(** A kernel like [Kernel32] whose copies from and to user mode fail. *)
Definition UserMemoryGone : Kernel :=
  mkKernel [] RunLevelLow [] 4 STATUS_ACCESS_VIOLATION
    (STATUS_SUCCESS, 0xC0000000) STATUS_SUCCESS
    (fun VirtualAddress => VirtualAddress).

(** * Properties: proofs *)

Section Properties.

Context {machine : Machine}.

(** ** Machine arithmetic *)

Lemma UINTN_modulus_pos : 0 < 2 ^ UINTN_BITS.
Proof. pose proof UINTN_BITS_range. apply Z.pow_pos_nonneg; lia. Qed.

Lemma UINTN_range (x : Z) : 0 <= UINTN x < 2 ^ UINTN_BITS.
Proof. apply Z.mod_pos_bound, UINTN_modulus_pos. Qed.

Lemma UINTN_small (x : Z) : 0 <= x < 2 ^ UINTN_BITS -> UINTN x = x.
Proof. apply Z.mod_small. Qed.

Lemma ULONGLONG_range (x : Z) : 0 <= ULONGLONG x < 2 ^ 64.
Proof. apply Z.mod_pos_bound. lia. Qed.

Lemma ULONGLONG_small (x : Z) : 0 <= x < 2 ^ 64 -> ULONGLONG x = x.
Proof. apply Z.mod_small. Qed.

Lemma MmPageSize_pos : 0 < MmPageSize.
Proof. pose proof MmPageShift_range. apply Z.pow_pos_nonneg; lia. Qed.

Lemma MmPageSize_lt_modulus : MmPageSize < 2 ^ UINTN_BITS.
Proof.
  pose proof MmPageShift_range. pose proof UINTN_BITS_range.
  apply Z.pow_lt_mono_r; lia.
Qed.

(** ** Runs of the monad *)

Lemma bind_Some {A B : Type} (m : Mm A) (f : A -> Mm B) (k : Kernel) r :
  bind m f k = Some r <-> exists a k1, m k = Some (a, k1) /\ f a k1 = Some r.
Proof.
  unfold bind. split.
  - destruct (m k) as [[a k1]|]; [eauto | discriminate].
  - intros (a & k1 & -> & H). exact H.
Qed.

Lemma ASSERT_Some (c : bool) (k : Kernel) r :
  ASSERT c k = Some r <-> c = true /\ r = (tt, k).
Proof.
  unfold ASSERT. destruct c; split.
  - intros [= <-]. auto.
  - intros [_ ->]. reflexivity.
  - discriminate.
  - intros [? _]. discriminate.
Qed.

Lemma ret_Some {A : Type} (a : A) (k : Kernel) r :
  ret a k = Some r <-> r = (a, k).
Proof. unfold ret. split; [intros [= <-] | intros ->]; reflexivity. Qed.

Lemma call_Some (e : Event) (k : Kernel) r :
  call e k = Some r <-> r = (tt, set_Log (Log k ++ [e]) k).
Proof. unfold call. split; [intros [= <-] | intros ->]; reflexivity. Qed.

Lemma read_Some {A : Type} (Table : list A) (Index : Z) (k : Kernel) r :
  read Table Index k = Some r <->
  exists a, Table !! Z.to_nat Index = Some a /\ r = (a, k).
Proof.
  unfold read. destruct (Table !! Z.to_nat Index) as [a|]; split.
  - intros [= <-]. eauto.
  - intros (a' & [= <-] & ->). reflexivity.
  - discriminate.
  - intros (a' & [=] & _).
Qed.

Lemma write_Some {A : Type} (Table : list A) (Index : Z) (a : A) (k : Kernel) r :
  write Table Index a k = Some r <->
  (Z.to_nat Index < length Table)%nat /\ r = (<[Z.to_nat Index := a]> Table, k).
Proof.
  unfold write. destruct (Nat.ltb_spec (Z.to_nat Index) (length Table)); split.
  - intros [= <-]. auto.
  - intros [_ ->]. reflexivity.
  - discriminate.
  - intros [? _]. lia.
Qed.

Lemma stop_Some {A : Type} (k : Kernel) (r : A * Kernel) :
  @stop A k = Some r <-> False.
Proof. unfold stop. split; [discriminate | tauto]. Qed.

(** Takes a hypothesis on a completed run apart, step by step. *)
Ltac run_inv H :=
  lazymatch type of H with
  | bind _ _ _ = Some _ =>
      let a := fresh "a" in
      let k := fresh "k" in
      let H1 := fresh "Hrun" in
      apply bind_Some in H; destruct H as (a & k & H1 & H);
      run_inv H1; run_inv H
  | ASSERT _ _ = Some _ =>
      let E := fresh "E" in
      apply ASSERT_Some in H; destruct H as [H E]; simplify_eq
  | ret _ _ = Some _ => apply ret_Some in H; simplify_eq
  | call _ _ = Some _ => apply call_Some in H; simplify_eq
  | stop _ = Some _ => apply stop_Some in H; destruct H
  | read _ _ _ = Some _ =>
      let a := fresh "a" in
      let E := fresh "E" in
      apply read_Some in H; destruct H as (a & H & E); simplify_eq
  | write _ _ _ _ = Some _ =>
      let E := fresh "E" in
      apply write_Some in H; destruct H as [H E]; simplify_eq
  | (if ?c then _ else _) _ = Some _ =>
      let C := fresh "Hif" in
      destruct c eqn:C; run_inv H
  | _ => idtac
  end.

(** ** The cursor *)

Lemma MmIoBufferIncrementOffset_run (b : IO_BUFFER) (n : Z) (k : Kernel) b' k' :
  MmIoBufferIncrementOffset b n k = Some (b', k') <->
  UINTN (Io.CurrentOffset b + n) <= Io.TotalSize b /\
  b' = Io.set_CurrentOffset (UINTN (Io.CurrentOffset b + n)) b /\ k' = k.
Proof.
  unfold MmIoBufferIncrementOffset. rewrite bind_Some. split.
  - intros (a & k1 & H1 & H2). apply ASSERT_Some in H1 as [H1 [= -> <-]].
    apply ret_Some in H2 as [= <- <-]. cbn in H1. apply Z.leb_le in H1. auto.
  - intros (H & -> & ->). exists tt, k. split; [|reflexivity].
    apply ASSERT_Some. split; [|reflexivity]. cbn. apply Z.leb_le, H.
Qed.

Lemma MmIoBufferDecrementOffset_run (b : IO_BUFFER) (n : Z) (k : Kernel) b' k' :
  MmIoBufferDecrementOffset b n k = Some (b', k') <->
  UINTN (Io.CurrentOffset b - n) <= Io.TotalSize b /\
  b' = Io.set_CurrentOffset (UINTN (Io.CurrentOffset b - n)) b /\ k' = k.
Proof.
  unfold MmIoBufferDecrementOffset. rewrite bind_Some. split.
  - intros (a & k1 & H1 & H2). apply ASSERT_Some in H1 as [H1 [= -> <-]].
    apply ret_Some in H2 as [= <- <-]. cbn in H1. apply Z.leb_le in H1. auto.
  - intros (H & -> & ->). exists tt, k. split; [|reflexivity].
    apply ASSERT_Some. split; [|reflexivity]. cbn. apply Z.leb_le, H.
Qed.

(** C4, amended.  Cursor law: on a buffer whose cursor stands inside it,
    a sequence of advance and rewind calls that stay inside the buffer (no
    advance by more than what remains, no rewind by more than the cursor)
    runs to its end and calls nothing; the cursor ends where the moves add
    up to, between 0 and the total size, the rest of the buffer is as it
    was, and the size that remains is the total size less the cursor. *)
Theorem cursor_law (calls : list CursorCall) (b : IO_BUFFER) (k : Kernel) :
  Io.TotalSize b < 2 ^ UINTN_BITS ->
  0 <= Io.CurrentOffset b <= Io.TotalSize b ->
  CursorStays calls (Io.CurrentOffset b) (Io.TotalSize b) = true ->
  let b' := Io.set_CurrentOffset (CursorAfter calls (Io.CurrentOffset b)) b in
  CursorCalls calls b k = Some (b', k) /\
  0 <= Io.CurrentOffset b' <= Io.TotalSize b' /\
  Io.TotalSize b' = Io.TotalSize b /\
  MmGetIoBufferSize b' = Io.TotalSize b' - Io.CurrentOffset b'.
Proof.
  revert b.
  induction calls as [|[n|n] rest IH]; intros b Htotal Hcur Hstays;
    cbn [CursorStays CursorAfter CursorCalls] in *.
  - cbv zeta.
    assert (Hb : Io.set_CurrentOffset (Io.CurrentOffset b) b = b)
      by (destruct b; reflexivity).
    rewrite Hb. split; [reflexivity|]. repeat split; try lia.
    unfold MmGetIoBufferSize. apply UINTN_small. lia.
  - apply andb_prop in Hstays as [Hstays Hrest].
    apply andb_prop in Hstays as [Hn Hfit].
    apply Z.leb_le in Hn, Hfit.
    set (b1 := Io.set_CurrentOffset (Io.CurrentOffset b + n) b).
    assert (H1 : MmIoBufferIncrementOffset b n k = Some (b1, k)).
    { apply MmIoBufferIncrementOffset_run.
      rewrite UINTN_small by lia. split; [lia | split; reflexivity]. }
    unfold bind. rewrite H1.
    specialize (IH b1 Htotal ltac:(cbn; lia) Hrest). cbv zeta in IH.
    exact IH.
  - apply andb_prop in Hstays as [Hstays Hrest].
    apply andb_prop in Hstays as [Hn Hfit].
    apply Z.leb_le in Hn, Hfit.
    set (b1 := Io.set_CurrentOffset (Io.CurrentOffset b - n) b).
    assert (H1 : MmIoBufferDecrementOffset b n k = Some (b1, k)).
    { apply MmIoBufferDecrementOffset_run.
      rewrite UINTN_small by lia. split; [lia | split; reflexivity]. }
    unfold bind. rewrite H1.
    specialize (IH b1 Htotal ltac:(cbn; lia) Hrest). cbv zeta in IH.
    exact IH.
Qed.

(** ** The physical address at an offset *)

Lemma SizeOfFragments_nonneg (l : list IO_BUFFER_FRAGMENT) :
  Forall (fun f => 0 <= Frag.Size f) l -> 0 <= SizeOfFragments l.
Proof. induction 1; cbn; lia. Qed.

Lemma SizeOfFragments_app (l1 l2 : list IO_BUFFER_FRAGMENT) :
  SizeOfFragments (l1 ++ l2) = SizeOfFragments l1 + SizeOfFragments l2.
Proof. induction l1; cbn; lia. Qed.

(** The loop on a segment [l] of the table that starts at [FragmentIndex]:
    the fragment that holds the offset answers. *)
Lemma MmGetIoBufferPhysicalAddress_loop_found (b : IO_BUFFER) (Offset : Z)
    (k : Kernel) (l : list IO_BUFFER_FRAGMENT) :
  forall (FragmentIndex FragmentStart : Z) (i : nat) (f : IO_BUFFER_FRAGMENT),
  0 <= FragmentIndex ->
  (forall j g, l !! j = Some g ->
     Io.Fragment b !! (Z.to_nat FragmentIndex + j)%nat = Some g) ->
  Forall (fun f => 0 <= Frag.Size f) l ->
  0 <= FragmentStart ->
  FragmentStart + SizeOfFragments l < 2 ^ UINTN_BITS ->
  l !! i = Some f ->
  FragmentStart + SizeOfFragments (take i l) <= Offset
    < FragmentStart + SizeOfFragments (take i l) + Frag.Size f ->
  MmGetIoBufferPhysicalAddress_loop (length l) b Offset FragmentIndex
    FragmentStart k
  = Some (ULONGLONG (Frag.PhysicalAddress f
                     + (Offset - (FragmentStart + SizeOfFragments (take i l)))),
          k).
Proof.
  induction l as [|g l IH]; intros idx start i f Hidx Hseg Hsizes Hstart Hfit Hi Hoff.
  - discriminate.
  - inversion Hsizes as [|? ? Hg Hl]; subst. cbn in Hfit.
    pose proof (SizeOfFragments_nonneg l Hl) as Hnn.
    cbn [length MmGetIoBufferPhysicalAddress_loop].
    unfold bind at 1. unfold read.
    rewrite <- (Nat.add_0_r (Z.to_nat idx)), (Hseg 0%nat g eq_refl).
    rewrite (UINTN_small (start + Frag.Size g)) by lia.
    destruct i as [|i]; cbn in Hi, Hoff.
    + injection Hi as ->.
      destruct (Z.leb_spec start Offset); [|lia].
      destruct (Z.ltb_spec Offset (start + Frag.Size f)); [|lia].
      cbn. unfold ret. rewrite UINTN_small by lia.
      rewrite (Z.add_0_r start). reflexivity.
    + assert (Ht : 0 <= SizeOfFragments (take i l))
        by (apply SizeOfFragments_nonneg, Forall_take, Hl).
      destruct (Z.ltb_spec Offset (start + Frag.Size g)); [lia|].
      rewrite andb_false_r.
      rewrite (IH (idx + 1) (start + Frag.Size g) i f); try assumption; try lia.
      * cbn [take SizeOfFragments]. rewrite (Z.add_assoc start). reflexivity.
      * intros j h Hj. replace (Z.to_nat (idx + 1) + j)%nat
          with (Z.to_nat idx + S j)%nat by lia. apply Hseg. exact Hj.
Qed.

(** No fragment of the segment holds the offset: the answer is
    [INVALID_PHYSICAL_ADDRESS]. *)
Lemma MmGetIoBufferPhysicalAddress_loop_past (b : IO_BUFFER) (Offset : Z)
    (k : Kernel) (l : list IO_BUFFER_FRAGMENT) :
  forall (FragmentIndex FragmentStart : Z),
  0 <= FragmentIndex ->
  (forall j g, l !! j = Some g ->
     Io.Fragment b !! (Z.to_nat FragmentIndex + j)%nat = Some g) ->
  Forall (fun f => 0 <= Frag.Size f) l ->
  0 <= FragmentStart ->
  FragmentStart + SizeOfFragments l < 2 ^ UINTN_BITS ->
  FragmentStart + SizeOfFragments l <= Offset ->
  MmGetIoBufferPhysicalAddress_loop (length l) b Offset FragmentIndex
    FragmentStart k
  = Some (INVALID_PHYSICAL_ADDRESS, k).
Proof.
  induction l as [|g l IH]; intros idx start Hidx Hseg Hsizes Hstart Hfit Hoff.
  - reflexivity.
  - inversion Hsizes as [|? ? Hg Hl]; subst. cbn in Hfit, Hoff.
    pose proof (SizeOfFragments_nonneg l Hl) as Hnn.
    cbn [length MmGetIoBufferPhysicalAddress_loop].
    unfold bind at 1. unfold read.
    rewrite <- (Nat.add_0_r (Z.to_nat idx)), (Hseg 0%nat g eq_refl).
    rewrite (UINTN_small (start + Frag.Size g)) by lia.
    destruct (Z.ltb_spec Offset (start + Frag.Size g)); [lia|].
    rewrite andb_false_r.
    apply IH; try assumption; try lia.
    intros j h Hj. replace (Z.to_nat (idx + 1) + j)%nat
      with (Z.to_nat idx + S j)%nat by lia. apply Hseg. exact Hj.
Qed.

Lemma FragmentsInUse_length (b : IO_BUFFER) :
  (Z.to_nat (Io.FragmentCount b) <= length (Io.Fragment b))%nat ->
  length (FragmentsInUse b) = Z.to_nat (Io.FragmentCount b).
Proof. intros H. unfold FragmentsInUse. rewrite length_take. lia. Qed.

Lemma FragmentsInUse_lookup (b : IO_BUFFER) (j : nat) (g : IO_BUFFER_FRAGMENT) :
  FragmentsInUse b !! j = Some g -> Io.Fragment b !! j = Some g.
Proof.
  unfold FragmentsInUse. rewrite lookup_take.
  destruct (decide (j < Z.to_nat (Io.FragmentCount b))%nat); [auto | discriminate].
Qed.

(** C3, amended.  On a buffer whose table holds the fragments in use and
    whose fragment sizes add up within a [UINTN] (their sum is the total
    size), let [Offset] be the offset plus the cursor as line 2788 adds
    them, in a [UINTN]: the sum itself when it is one, the sum less
    [2 ^ UINTN_BITS] when it is not.  The fragment whose byte range holds
    [Offset] is unique and answers its physical address plus the distance
    from the start of its range; an [Offset] at or past the end of the last
    fragment answers [INVALID_PHYSICAL_ADDRESS]. *)
Theorem physical_address_at (b : IO_BUFFER) (IoBufferOffset : Z) (k : Kernel)
    (Htable : (Z.to_nat (Io.FragmentCount b) <= length (Io.Fragment b))%nat)
    (Hsizes : Forall (fun f => 0 <= Frag.Size f) (FragmentsInUse b))
    (Hfit : SizeOfFragments (FragmentsInUse b) < 2 ^ UINTN_BITS) :
  let Offset := UINTN (IoBufferOffset + Io.CurrentOffset b) in
  let FragmentStart := fun i => SizeOfFragments (take i (FragmentsInUse b)) in
  (forall i f,
     FragmentsInUse b !! i = Some f ->
     FragmentStart i <= Offset < FragmentStart i + Frag.Size f ->
     MmGetIoBufferPhysicalAddress b IoBufferOffset k
     = Some (ULONGLONG (Frag.PhysicalAddress f + (Offset - FragmentStart i)), k)
     /\ (forall j g,
          FragmentsInUse b !! j = Some g ->
          FragmentStart j <= Offset < FragmentStart j + Frag.Size g ->
          j = i)) /\
  (SizeOfFragments (FragmentsInUse b) <= Offset ->
   MmGetIoBufferPhysicalAddress b IoBufferOffset k
   = Some (INVALID_PHYSICAL_ADDRESS, k)).
Proof.
  intros Offset FragmentStart.
  unfold MmGetIoBufferPhysicalAddress. fold Offset.
  rewrite <- (FragmentsInUse_length b Htable).
  split.
  - intros i f Hi Hoff. split.
    + rewrite (MmGetIoBufferPhysicalAddress_loop_found b Offset k
                 (FragmentsInUse b) 0 0 i f); try assumption; try lia.
      * reflexivity.
      * intros j g Hj. cbn. apply FragmentsInUse_lookup, Hj.
    + intros j g Hj Hoffj.
      assert (Hmono : forall (l : list IO_BUFFER_FRAGMENT) (p q : nat) h,
                 Forall (fun f => 0 <= Frag.Size f) l ->
                 l !! p = Some h -> (p < q)%nat ->
                 SizeOfFragments (take p l) + Frag.Size h
                 <= SizeOfFragments (take q l)).
      { clear. induction l as [|a l IH]; intros p q h Hs Hp Hpq.
        - discriminate.
        - inversion Hs as [|? ? Ha Hl]; subst.
          destruct q as [|q]; [lia|]. destruct p as [|p]; cbn in *.
          + injection Hp as ->.
            assert (0 <= SizeOfFragments (take q l))
              by (apply SizeOfFragments_nonneg, Forall_take, Hl).
            lia.
          + specialize (IH p q h Hl Hp ltac:(lia)). lia. }
      destruct (Nat.lt_trichotomy j i) as [Hlt|[Heq|Hgt]]; [|exact Heq|].
      * pose proof (Hmono _ j i g Hsizes Hj Hlt). unfold FragmentStart in *. lia.
      * pose proof (Hmono _ i j f Hsizes Hi Hgt). unfold FragmentStart in *. lia.
  - intros Hoff.
    apply (MmGetIoBufferPhysicalAddress_loop_past b Offset k
             (FragmentsInUse b) 0 0); try assumption; try lia.
    intros j g Hj. cbn. apply FragmentsInUse_lookup, Hj.
Qed.

(** ** Release and reset *)

Lemma flag_cleared_twice (Flags : Z) :
  Z.land (Z.land Flags (Z.lnot 896)) (Z.lnot 896) = Z.land Flags (Z.lnot 896).
Proof. rewrite <- Z.land_assoc, Z.land_diag. reflexivity. Qed.

Lemma flag_set_kept (Flags Mask Flag : Z) :
  Z.land (Z.lnot Mask) Flag = Flag ->
  flag_set (Z.land Flags (Z.lnot Mask)) Flag = flag_set Flags Flag.
Proof.
  intros H. unfold flag_set. rewrite <- Z.land_assoc, H. reflexivity.
Qed.

Lemma flag_set_cleared (Flags Mask Flag : Z) :
  Z.land (Z.lnot Mask) Flag = 0 ->
  flag_set (Z.land Flags (Z.lnot Mask)) Flag = false.
Proof.
  intros H. unfold flag_set. rewrite <- Z.land_assoc, H, Z.land_0_r. reflexivity.
Qed.

Lemma MmpUnmapIoBuffer_run (b : IO_BUFFER) (k : Kernel) b' k' :
  MmpUnmapIoBuffer b k = Some (b', k') ->
  b' = Io.set_Flags (Z.land (Io.Flags b) (Z.lnot 896)) b /\
  exists e, PageAction e = false /\ Log k' = Log k ++ [e].
Proof.
  unfold MmpUnmapIoBuffer. intros H.
  apply bind_Some in H as ([] & k1 & H1 & H).
  apply ASSERT_Some in H1 as [_ [= ->]].
  apply bind_Some in H as (entries & k2 & H2 & H).
  assert (k2 = k) as ->.
  { destruct (flag_set (Io.Flags b) IO_BUFFER_FLAG_PAGE_CACHE_BACKED).
    - apply bind_Some in H2 as ([] & k3 & H3 & H2).
      apply ASSERT_Some in H3 as [_ [= ->]].
      apply ret_Some in H2 as [= _ ->]. reflexivity.
    - apply ret_Some in H2 as [= _ ->]. reflexivity. }
  apply bind_Some in H as ([] & k3 & H3 & H).
  apply call_Some in H3 as [= ->]. apply ret_Some in H as [= -> ->].
  split; [reflexivity|]. eexists. split; [|reflexivity]. reflexivity.
Qed.

Lemma RtlZeroMemory_run {A : Type} (Table : list A) (Count : Z) (zero : A)
    (k : Kernel) t k' :
  RtlZeroMemory Table Count zero k = Some (t, k') ->
  t = replicate (Z.to_nat Count) zero ++ drop (Z.to_nat Count) Table /\ k' = k.
Proof.
  unfold RtlZeroMemory.
  destruct (Z.to_nat Count <=? length Table)%nat; [|discriminate].
  intros [= <- <-]. auto.
Qed.

(** What a completed release leaves of the buffer: the cursor is reset and,
    when the buffer was to be unmapped on free, the three mapping flags are
    cleared. *)
Lemma MmpReleaseIoBufferResources_buffer (b : IO_BUFFER) (k : Kernel) b' k' :
  MmpReleaseIoBufferResources b k = Some (b', k') ->
  b' = Io.set_Flags
         (if flag_set (Io.Flags b) IO_BUFFER_FLAG_UNMAP_ON_FREE
          then Z.land (Io.Flags b) (Z.lnot 896) else Io.Flags b)
         (Io.set_CurrentOffset 0 b).
Proof.
  unfold MmpReleaseIoBufferResources. intros H.
  apply bind_Some in H as (b1 & k1 & H1 & H).
  apply bind_Some in H as ([] & k2 & _ & H).
  apply ret_Some in H as [= -> ->].
  destruct (flag_set (Io.Flags b) IO_BUFFER_FLAG_UNMAP_ON_FREE).
  - apply MmpUnmapIoBuffer_run in H1 as [-> _]. reflexivity.
  - apply ret_Some in H1 as [= -> ->]. destruct b; reflexivity.
Qed.

(** C9.  A completed reset clears exactly the flags UNMAP_ON_FREE, MAPPED and
    VIRTUALLY_CONTIGUOUS: every other flag, among them MEMORY_OWNED (whose
    pages the reset has just released), is as before.  It zeroes the fragment
    count, the total size, the cursor, the slots of the fragment table that
    were in use and the [PageCount] slots of the page cache entry table, and
    leaves the capacities [MaxFragmentCount] and [PageCount] alone; a table
    whose unused slots were blank is blank throughout. *)
Theorem reset_frame (b : IO_BUFFER) (k : Kernel) b' k' :
  MmResetIoBuffer b k = Some (b', k') ->
  Io.Flags b' = Z.land (Io.Flags b) (Z.lnot ResetFlags) /\
  (forall Flag,
     In Flag [IO_BUFFER_FLAG_UNMAP_ON_FREE; IO_BUFFER_FLAG_MAPPED;
              IO_BUFFER_FLAG_VIRTUALLY_CONTIGUOUS] ->
     flag_set (Io.Flags b') Flag = false) /\
  (forall Flag,
     In Flag [IO_BUFFER_FLAG_MEMORY_OWNED; IO_BUFFER_FLAG_STRUCTURE_NOT_OWNED;
              IO_BUFFER_FLAG_MEMORY_LOCKED; IO_BUFFER_FLAG_NON_PAGED;
              IO_BUFFER_FLAG_PAGE_CACHE_BACKED; IO_BUFFER_FLAG_USER_MODE;
              IO_BUFFER_FLAG_EXTENDABLE; IO_BUFFER_FLAG_FRAGMENT] ->
     flag_set (Io.Flags b') Flag = flag_set (Io.Flags b) Flag) /\
  Io.FragmentCount b' = 0 /\
  Io.TotalSize b' = 0 /\
  Io.CurrentOffset b' = 0 /\
  Io.Fragment b'
  = replicate (Z.to_nat (Io.FragmentCount b)) Frag.zero
    ++ drop (Z.to_nat (Io.FragmentCount b)) (Io.Fragment b) /\
  ((forall f, In f (drop (Z.to_nat (Io.FragmentCount b)) (Io.Fragment b)) ->
              f = Frag.zero) ->
   forall f, In f (Io.Fragment b') -> f = Frag.zero) /\
  Io.PageCacheEntries b'
  = option_map
      (fun Entries => replicate (Z.to_nat (Io.PageCount b)) None
                      ++ drop (Z.to_nat (Io.PageCount b)) Entries)
      (Io.PageCacheEntries b) /\
  Io.MaxFragmentCount b' = Io.MaxFragmentCount b /\
  Io.PageCount b' = Io.PageCount b.
Proof.
  unfold MmResetIoBuffer. intros H.
  apply bind_Some in H as ([] & k1 & H1 & H).
  apply ASSERT_Some in H1 as [_ [= ->]].
  apply bind_Some in H as (b1 & k2 & H2 & H).
  apply MmpReleaseIoBufferResources_buffer in H2. subst b1.
  apply bind_Some in H as (t & k3 & H3 & H).
  apply RtlZeroMemory_run in H3 as [-> ->]. cbn in H |- *.
  assert (Hflags : Io.Flags b' = Z.land (Io.Flags b) (Z.lnot ResetFlags)
                   /\ Io.FragmentCount b' = 0 /\ Io.TotalSize b' = 0
                   /\ Io.CurrentOffset b' = 0
                   /\ Io.Fragment b'
                      = replicate (Z.to_nat (Io.FragmentCount b)) Frag.zero
                        ++ drop (Z.to_nat (Io.FragmentCount b)) (Io.Fragment b)
                   /\ Io.PageCacheEntries b'
                      = option_map
                          (fun Entries =>
                             replicate (Z.to_nat (Io.PageCount b)) None
                             ++ drop (Z.to_nat (Io.PageCount b)) Entries)
                          (Io.PageCacheEntries b)
                   /\ Io.MaxFragmentCount b' = Io.MaxFragmentCount b
                   /\ Io.PageCount b' = Io.PageCount b).
  { change (Z.lnot ResetFlags) with (Z.lnot 896).
    change (Z.lor IO_BUFFER_FLAG_UNMAP_ON_FREE
              (Z.lor IO_BUFFER_FLAG_MAPPED IO_BUFFER_FLAG_VIRTUALLY_CONTIGUOUS))
      with 896 in H.
    assert (Hf : Z.land
                   (if flag_set (Io.Flags b) IO_BUFFER_FLAG_UNMAP_ON_FREE
                    then Z.land (Io.Flags b) (Z.lnot 896) else Io.Flags b)
                   (Z.lnot 896)
                 = Z.land (Io.Flags b) (Z.lnot 896)).
    { destruct (flag_set _ _); [apply flag_cleared_twice | reflexivity]. }
    rewrite Hf in H. clear Hf.
    destruct (Io.PageCacheEntries b) as [Entries|] eqn:HE.
    - apply bind_Some in H as (t & k4 & H4 & H).
      apply RtlZeroMemory_run in H4 as [-> ->].
      apply ret_Some in H as [= -> ->]. cbn. repeat split; auto.
    - apply ret_Some in H as [= -> ->]. cbn. repeat split; auto. }
  destruct Hflags as (Hfl & Hcount & Htotal & Hcur & Htab & Hpce & Hmax & Hpc).
  rewrite Hfl, Htab.
  repeat split; try assumption.
  - intros Flag HF. cbn in HF.
    destruct HF as [<-|[<-|[<-|[]]]]; apply flag_set_cleared; reflexivity.
  - intros Flag HF. cbn in HF.
    destruct HF as [<-|[<-|[<-|[<-|[<-|[<-|[<-|[<-|[]]]]]]]]];
      apply flag_set_kept; reflexivity.
  - intros Hblank f Hf. apply in_app_or in Hf as [Hf|Hf].
    + apply list_elem_of_In, elem_of_replicate in Hf as [-> _]. reflexivity.
    + apply Hblank, Hf.
Qed.

(** ** The pages of an owned buffer *)

Lemma PageAction_filter_app (l1 l2 : list Event) :
  List.filter PageAction (l1 ++ l2)
  = List.filter PageAction l1 ++ List.filter PageAction l2.
Proof. apply List.filter_app. Qed.

Lemma drop_tail {A : Type} (n : nat) (l : list A) :
  drop n (tail l) = drop (S n) l.
Proof. destruct l; [cbn; rewrite drop_nil|]; reflexivity. Qed.

Lemma option_map_drop_tail {A : Type} (n : nat) (Slots : option (list A)) :
  option_map (drop n) (option_map tail Slots) = option_map (drop (S n)) Slots.
Proof. destruct Slots; cbn; [rewrite drop_tail|]; reflexivity. Qed.

Lemma OwnedPageCalls_app (Pages1 Pages2 : list Z) :
  forall Slots,
  OwnedPageCalls Slots (Pages1 ++ Pages2)
  = OwnedPageCalls Slots Pages1
    ++ OwnedPageCalls (option_map (drop (length Pages1)) Slots) Pages2.
Proof.
  induction Pages1 as [|pa Pages1 IH]; intros Slots.
  - cbn. destruct Slots; cbn; [rewrite drop_0|]; reflexivity.
  - cbn. rewrite IH, option_map_drop_tail. reflexivity.
Qed.

Lemma OwnedPageCalls_length (Pages : list Z) :
  forall Slots, length (OwnedPageCalls Slots Pages) = length Pages.
Proof.
  induction Pages as [|pa Pages IH]; intros Slots; [reflexivity|].
  cbn. rewrite IH. reflexivity.
Qed.

(** Page by page: a slot that holds an entry has its reference released, an
    empty slot or a missing table has the page freed. *)
Lemma OwnedPageCalls_lookup (Pages : list Z) :
  forall Slots (j : nat) (pa : Z),
  Pages !! j = Some pa ->
  OwnedPageCalls Slots Pages !! j
  = Some (match Slots with
          | Some Entries =>
              match default None (Entries !! j) with
              | Some Entry => CallIoPageCacheEntryReleaseReference Entry
              | None => CallMmFreePhysicalPage pa
              end
          | None => CallMmFreePhysicalPage pa
          end).
Proof.
  induction Pages as [|p Pages IH]; intros Slots j pa Hj; [discriminate|].
  destruct j as [|j].
  - injection Hj as ->. destruct Slots as [[|[e|] t]|]; reflexivity.
  - cbn in Hj. cbn. rewrite (IH _ j pa Hj).
    destruct Slots as [[|e t]|]; reflexivity.
Qed.

Lemma ULONGLONG_add_idemp (a b : Z) :
  ULONGLONG (ULONGLONG a + b) = ULONGLONG (a + b).
Proof. unfold ULONGLONG. apply Zplus_mod_idemp_l. Qed.

(** The pages from a physical address on. *)
Lemma pages_from_step (pa : Z) (n : nat) :
  0 <= pa < 2 ^ 64 ->
  map (fun i => ULONGLONG (pa + Z.of_nat i * MmPageSize)) (seq 0 (S n))
  = pa :: map (fun i => ULONGLONG (ULONGLONG (pa + MmPageSize)
                                   + Z.of_nat i * MmPageSize)) (seq 0 n).
Proof.
  intros Hpa. cbn [seq map]. f_equal.
  - rewrite Z.add_0_r. apply ULONGLONG_small, Hpa.
  - rewrite <- seq_shift, map_map. apply map_ext. intros i.
    rewrite ULONGLONG_add_idemp. f_equal. lia.
Qed.

(** The page loop of a fragment of an owned buffer. *)
Lemma MmpReleaseIoBufferResources_pages_owned (Flags : Z)
    (Fragment : IO_BUFFER_FRAGMENT) (n : nat) :
  forall (PageIndex : Z) Slots Entry (PhysicalAddress : Z) (k : Kernel) r k',
  flag_set Flags IO_BUFFER_FLAG_MEMORY_OWNED = true ->
  (Slots = None -> Entry = None) ->
  0 <= PhysicalAddress < 2 ^ 64 ->
  MmpReleaseIoBufferResources_pages n Flags Fragment PageIndex Slots Entry
    PhysicalAddress k = Some (r, k') ->
  exists calls,
    Log k' = Log k ++ calls /\
    List.filter PageAction calls
    = OwnedPageCalls Slots
        (map (fun i => ULONGLONG (PhysicalAddress + Z.of_nat i * MmPageSize))
           (seq 0 n)) /\
    fst r = option_map (drop n) Slots /\
    (fst r = None -> snd r = None).
Proof.
  induction n as [|n IH]; intros idx Slots Entry pa k r k' Hown Hnone Hpa Hrun.
  - apply ret_Some in Hrun as [= -> ->]. exists []. cbn.
    rewrite app_nil_r. repeat split; auto.
    destruct Slots; cbn; [rewrite drop_0|]; reflexivity.
  - cbn [MmpReleaseIoBufferResources_pages] in Hrun.
    apply bind_Some in Hrun as ([Slots1 Entry1] & k1 & H1 & Hrun).
    cbn [fst snd] in Hrun.
    assert (Hstep : k1 = k /\ (Slots1 = None -> Entry1 = None) /\
              Slots1 = option_map tail Slots /\
              match Slots with
              | Some (Some Entry :: _) => CallIoPageCacheEntryReleaseReference Entry
              | _ => CallMmFreePhysicalPage pa
              end
              = match Entry1 with
                | Some e => CallIoPageCacheEntryReleaseReference e
                | None => CallMmFreePhysicalPage pa
                end).
    { destruct Slots as [t|].
      - apply bind_Some in H1 as (e & k2 & H2 & H1).
        apply read_Some in H2 as (e' & He & [= -> ->]).
        apply ret_Some in H1 as [= -> -> ->].
        destruct t as [|e0 t]; [discriminate|]. injection He as ->.
        split; [reflexivity|]. split; [discriminate|]. split; [reflexivity|].
        destruct e' as [e|]; reflexivity.
      - apply ret_Some in H1 as [= -> -> ->]. rewrite (Hnone eq_refl).
        repeat split; auto. }
    destruct Hstep as (-> & Hnone1 & HS1 & Hcall).
    rewrite (pages_from_step pa n Hpa). cbn [OwnedPageCalls].
    rewrite Hcall, <- HS1.
    assert (Hnext : forall k2 e,
              PageAction e = true ->
              k2 = set_Log (Log k ++ [e]) k ->
              MmpReleaseIoBufferResources_pages n Flags Fragment (idx + 1)
                Slots1 Entry1 (ULONGLONG (pa + MmPageSize)) k2 = Some (r, k') ->
              exists calls,
                Log k' = Log k ++ calls /\
                List.filter PageAction calls
                = e :: OwnedPageCalls Slots1
                         (map (fun i => ULONGLONG (ULONGLONG (pa + MmPageSize)
                                                   + Z.of_nat i * MmPageSize))
                            (seq 0 n)) /\
                fst r = option_map (drop (S n)) Slots /\
                (fst r = None -> snd r = None)).
    { intros k2 e He -> Hrest.
      apply IH in Hrest as (calls & Hlog & Hfilter & Hfst & Hsnd);
        [|assumption|assumption|apply ULONGLONG_range].
      exists (e :: calls). cbn [Log set_Log] in Hlog.
      rewrite Hlog, <- app_assoc. split; [reflexivity|].
      split; [cbn; rewrite He, Hfilter; reflexivity|].
      split; [|exact Hsnd].
      rewrite Hfst, HS1. apply option_map_drop_tail. }
    destruct Entry1 as [e|].
    + apply bind_Some in Hrun as ([] & k2 & H2 & Hrun).
      apply ASSERT_Some in H2 as [_ [= ->]].
      apply bind_Some in Hrun as ([] & k2 & H2 & Hrun).
      apply call_Some in H2 as [= ->].
      eapply Hnext in Hrun; [exact Hrun | reflexivity | reflexivity].
    + rewrite Hown in Hrun.
      apply bind_Some in Hrun as ([] & k2 & H2 & Hrun).
      apply call_Some in H2 as [= ->].
      eapply Hnext in Hrun; [exact Hrun | reflexivity | reflexivity].
Qed.

Lemma FragmentPages_length (f : IO_BUFFER_FRAGMENT) :
  length (FragmentPages f)
  = Z.to_nat (Z.shiftr (Frag.Size f) MmPageShift).
Proof. unfold FragmentPages. rewrite length_map, length_seq. reflexivity. Qed.

(** The fragment loop of an owned buffer, on the [n] slots of the table from
    [FragmentIndex] on. *)
Lemma MmpReleaseIoBufferResources_fragments_owned (Flags : Z) (b : IO_BUFFER)
    (n : nat) :
  forall (FragmentIndex : Z) Slots Entry (k : Kernel) r k',
  flag_set Flags IO_BUFFER_FLAG_MEMORY_OWNED = true ->
  (Slots = None -> Entry = None) ->
  0 <= FragmentIndex ->
  Forall (fun f => 0 <= Frag.PhysicalAddress f < 2 ^ 64)
    (take n (drop (Z.to_nat FragmentIndex) (Io.Fragment b))) ->
  MmpReleaseIoBufferResources_fragments n Flags b FragmentIndex Slots Entry k
  = Some (r, k') ->
  exists calls,
    Log k' = Log k ++ calls /\
    List.filter PageAction calls
    = OwnedPageCalls Slots
        (flat_map FragmentPages
           (take n (drop (Z.to_nat FragmentIndex) (Io.Fragment b)))).
Proof.
  induction n as [|n IH]; intros idx Slots Entry k r k' Hown Hnone Hidx Hpa Hrun.
  - apply ret_Some in Hrun as [= -> ->]. exists []. cbn.
    rewrite app_nil_r. auto.
  - cbn [MmpReleaseIoBufferResources_fragments] in Hrun.
    apply bind_Some in Hrun as (f & k1 & H1 & Hrun).
    apply read_Some in H1 as (f' & Hf & [= -> ->]).
    apply bind_Some in Hrun as ([] & k1 & H1 & Hrun).
    apply ASSERT_Some in H1 as [_ [= ->]].
    apply bind_Some in Hrun as ([] & k1 & H1 & Hrun).
    apply ASSERT_Some in H1 as [_ [= ->]].
    apply bind_Some in Hrun as ([Slots1 Entry1] & k1 & H1 & Hrun).
    rewrite (drop_S _ _ _ Hf) in Hpa |- *. cbn [take flat_map] in Hpa |- *.
    inversion Hpa as [|? ? Hpaf Hrest]; subst.
    apply MmpReleaseIoBufferResources_pages_owned in H1
      as (calls1 & Hlog1 & Hfilter1 & Hfst & Hsnd); try assumption.
    cbn [fst snd] in Hfst, Hsnd, Hrun. subst Slots1.
    replace (S (Z.to_nat idx)) with (Z.to_nat (idx + 1)) in Hrest |- * by lia.
    apply IH in Hrun as (calls2 & Hlog2 & Hfilter2); try assumption; try lia.
    exists (calls1 ++ calls2).
    rewrite Hlog2, Hlog1, <- app_assoc. split; [reflexivity|].
    rewrite PageAction_filter_app, Hfilter1, Hfilter2, OwnedPageCalls_app.
    rewrite FragmentPages_length. reflexivity.
Qed.

(** What a completed release of an owned buffer calls, page by page. *)
Lemma MmpReleaseIoBufferResources_owned (b : IO_BUFFER) (k : Kernel) b' k' :
  flag_set (Io.Flags b) IO_BUFFER_FLAG_MEMORY_OWNED = true ->
  Forall (fun f => 0 <= Frag.PhysicalAddress f < 2 ^ 64) (FragmentsInUse b) ->
  MmpReleaseIoBufferResources b k = Some (b', k') ->
  exists calls,
    Log k' = Log k ++ calls /\
    List.filter PageAction calls
    = OwnedPageCalls (Io.PageCacheEntries b) (BufferPages b).
Proof.
  intros Hown Hpa Hrun. unfold MmpReleaseIoBufferResources in Hrun.
  apply bind_Some in Hrun as (b1 & k1 & H1 & Hrun).
  apply bind_Some in Hrun as ([] & k2 & H2 & Hrun).
  apply ret_Some in Hrun as [= -> ->].
  rewrite Hown in H2. cbn [orb] in H2.
  assert (Hb1 : Io.Fragment b1 = Io.Fragment b
                /\ Io.FragmentCount b1 = Io.FragmentCount b
                /\ Io.PageCacheEntries b1 = Io.PageCacheEntries b
                /\ exists calls0, Log k1 = Log k ++ calls0
                                  /\ List.filter PageAction calls0 = []).
  { destruct (flag_set (Io.Flags b) IO_BUFFER_FLAG_UNMAP_ON_FREE).
    - apply MmpUnmapIoBuffer_run in H1 as (-> & e & He & Hlog).
      repeat split. exists [e]. split; [exact Hlog|]. cbn. rewrite He.
      reflexivity.
    - apply ret_Some in H1 as [= -> ->]. repeat split. exists [].
      rewrite app_nil_r. auto. }
  destruct Hb1 as (Htab & Hcnt & Hpce & calls0 & Hlog0 & Hfilter0).
  rewrite Hcnt, Hpce in H2.
  apply MmpReleaseIoBufferResources_fragments_owned in H2
    as (calls & Hlog & Hfilter); try assumption; try lia; try reflexivity.
  - exists (calls0 ++ calls). rewrite Hlog, Hlog0, <- app_assoc.
    split; [reflexivity|].
    rewrite PageAction_filter_app, Hfilter0, Hfilter, Htab. reflexivity.
  - rewrite Htab. exact Hpa.
Qed.

(** C2.  During the free of a buffer whose flags include MEMORY_OWNED (its
    physical addresses being [PHYSICAL_ADDRESS] values), the calls that act
    on pages are one per page of every fragment, in order: for page [j], the
    reference of the entry in slot [j] of the page cache entry table is
    released, and the page is not freed, when that slot holds an entry; the
    physical page is freed when the slot is empty or there is no table. *)
Theorem free_owned_pages (b : IO_BUFFER) (k : Kernel) r k' :
  flag_set (Io.Flags b) IO_BUFFER_FLAG_MEMORY_OWNED = true ->
  Forall (fun f => 0 <= Frag.PhysicalAddress f < 2 ^ 64) (FragmentsInUse b) ->
  MmFreeIoBuffer b k = Some (r, k') ->
  exists calls,
    Log k' = Log k ++ calls /\
    length (List.filter PageAction calls) = length (BufferPages b) /\
    forall (j : nat) (PhysicalAddress : Z),
      BufferPages b !! j = Some PhysicalAddress ->
      List.filter PageAction calls !! j
      = Some (match PageCacheSlot b j with
              | Some Entry => CallIoPageCacheEntryReleaseReference Entry
              | None => CallMmFreePhysicalPage PhysicalAddress
              end).
Proof.
  intros Hown Hpa Hrun. unfold MmFreeIoBuffer in Hrun.
  apply bind_Some in Hrun as (b1 & k1 & H1 & Hrun).
  apply MmpReleaseIoBufferResources_owned in H1
    as (calls & Hlog & Hfilter); try assumption.
  assert (Hend : exists calls1, Log k' = Log k1 ++ calls1
                                /\ List.filter PageAction calls1 = []).
  { destruct (Z.land (Io.Flags b) IO_BUFFER_FLAG_STRUCTURE_NOT_OWNED =? 0).
    - apply bind_Some in Hrun as ([] & k2 & H2 & Hrun).
      apply ret_Some in Hrun as [= -> ->].
      destruct (flag_set (Io.Flags b) IO_BUFFER_FLAG_NON_PAGED);
        apply call_Some in H2 as [= ->]; eexists; split; reflexivity.
    - apply ret_Some in Hrun as [= -> ->]. exists []. rewrite app_nil_r. auto. }
  destruct Hend as (calls1 & Hlog1 & Hfilter1).
  exists (calls ++ calls1). rewrite Hlog1, Hlog, <- app_assoc.
  split; [reflexivity|].
  rewrite PageAction_filter_app, Hfilter1, app_nil_r, Hfilter.
  split; [apply OwnedPageCalls_length|].
  intros j pa Hj. rewrite (OwnedPageCalls_lookup _ _ j pa Hj).
  unfold PageCacheSlot. destruct (Io.PageCacheEntries b); reflexivity.
Qed.

(** ** Extension *)

Lemma ALIGN_RANGE_UP_pages (Size : Z) :
  0 <= Size -> Size + MmPageSize <= 2 ^ UINTN_BITS ->
  Z.shiftr (UINTN (ALIGN_RANGE_UP Size MmPageSize)) MmPageShift
  = (Size + MmPageSize - 1) / MmPageSize.
Proof.
  intros Hsize Hfit. pose proof MmPageSize_pos as Hpos.
  pose proof MmPageShift_range as Hshift.
  unfold ALIGN_RANGE_UP, ALIGN_RANGE_DOWN.
  pose proof (Z.mod_pos_bound (Size + MmPageSize - 1) MmPageSize Hpos) as Hmod.
  rewrite UINTN_small by lia.
  rewrite Z.shiftr_div_pow2 by lia. fold MmPageSize.
  rewrite (Z.div_mod (Size + MmPageSize - 1) MmPageSize) at 1 by lia.
  replace (MmPageSize * ((Size + MmPageSize - 1) / MmPageSize)
           + (Size + MmPageSize - 1) mod MmPageSize
           - (Size + MmPageSize - 1) mod MmPageSize)
    with (((Size + MmPageSize - 1) / MmPageSize) * MmPageSize) by lia.
  apply Z.div_mul. lia.
Qed.

(** C7.  On an EXTENDABLE buffer (no more fragments in use than the table
    has slots), an extension by [Size] bytes, whose rounding up to whole
    pages is a [UINTN], counts [ceil(Size / page size)] pages; when they
    outnumber the free slots of the fragment table the call answers
    STATUS_BUFFER_TOO_SMALL with the buffer as it was and the kernel as it
    was: no physical page has been asked for.  The range is the only one
    the routine accepts. *)
Theorem extension_too_small (b : IO_BUFFER)
    (MinimumPhysicalAddress MaximumPhysicalAddress Alignment Size : Z)
    (PhysicallyContiguous : bool) (k : Kernel) :
  let PageCount := (Size + MmPageSize - 1) / MmPageSize in
  flag_set (Io.Flags b) IO_BUFFER_FLAG_EXTENDABLE = true ->
  MinimumPhysicalAddress = 0 ->
  MaximumPhysicalAddress = MAX_ULONG \/ MaximumPhysicalAddress = MAX_ULONGLONG ->
  0 <= Io.FragmentCount b <= Io.MaxFragmentCount b ->
  Io.MaxFragmentCount b < 2 ^ UINTN_BITS ->
  0 <= Size -> Size + MmPageSize <= 2 ^ UINTN_BITS ->
  Io.MaxFragmentCount b - Io.FragmentCount b < PageCount ->
  MmpExtendIoBuffer b MinimumPhysicalAddress MaximumPhysicalAddress Alignment
    Size PhysicallyContiguous k
  = Some ((STATUS_BUFFER_TOO_SMALL, b), k).
Proof.
  intros PageCount Hext -> Hmax Hcount Hslots Hsize Hfit Hfew.
  unfold MmpExtendIoBuffer. rewrite Hext.
  assert (Hrange : ((0 =? 0) && ((MaximumPhysicalAddress =? MAX_ULONG)
                                 || (MaximumPhysicalAddress =? MAX_ULONGLONG)))
                   = true).
  { destruct Hmax as [-> | ->]; cbn; [|rewrite orb_true_r]; reflexivity. }
  unfold bind at 1. unfold ASSERT at 1.
  unfold bind at 1. rewrite Hrange. unfold ASSERT at 1.
  rewrite (ALIGN_RANGE_UP_pages Size Hsize Hfit).
  rewrite UINTN_small by lia. fold PageCount.
  destruct (Z.ltb_spec (Io.MaxFragmentCount b - Io.FragmentCount b) PageCount);
    [reflexivity | lia].
Qed.

(** ** Appending a page *)

(** C8, amended.  A completed append of a page (the buffer is then
    EXTENDABLE) grows the total size by one page, in [UINTN] arithmetic: by
    exactly one page when the sum is a [UINTN].  It leaves the flags as they
    are.  With a page cache entry, the buffer that was given had a table of
    page cache entries and carried PAGE_CACHE_BACKED already, which the call
    asserts and does not set; the one call the append makes acquires a
    reference to the entry, and the entry is stored in the slot
    [TotalSize / page size] of the table, which was empty.  Without an entry
    the table is as it was and no call is made. *)
Theorem append_page (b : IO_BUFFER) (PageCacheEntry : option PAGE_CACHE_ENTRY)
    (VirtualAddress PhysicalAddress : Z) (k : Kernel) b' k' :
  MmIoBufferAppendPage b PageCacheEntry VirtualAddress PhysicalAddress k
  = Some (b', k') ->
  flag_set (Io.Flags b) IO_BUFFER_FLAG_EXTENDABLE = true /\
  Io.TotalSize b' = UINTN (Io.TotalSize b + MmPageSize) /\
  (0 <= Io.TotalSize b -> Io.TotalSize b + MmPageSize < 2 ^ UINTN_BITS ->
   Io.TotalSize b' = Io.TotalSize b + MmPageSize) /\
  Io.Flags b' = Io.Flags b /\
  match PageCacheEntry with
  | Some Entry =>
      let PageIndex := Z.to_nat (Io.TotalSize b / MmPageSize) in
      Log k' = Log k ++ [CallIoPageCacheEntryAddReference Entry] /\
      (exists Entries,
         Io.PageCacheEntries b = Some Entries /\
         Entries !! PageIndex = Some None /\
         Io.PageCacheEntries b' = Some (<[PageIndex := Some Entry]> Entries)) /\
      PageCacheSlot b' PageIndex = Some Entry /\
      flag_set (Io.Flags b) IO_BUFFER_FLAG_PAGE_CACHE_BACKED = true
  | None =>
      Log k' = Log k /\ Io.PageCacheEntries b' = Io.PageCacheEntries b
  end.
Proof.
  intros Hrun. unfold MmIoBufferAppendPage in Hrun.
  pose proof MmPageShift_range as Hshift. pose proof MmPageSize_pos as Hpos.
  apply bind_Some in Hrun as ([] & k1 & H1 & Hrun).
  apply ASSERT_Some in H1 as [Hext [= ->]].
  do 4 (apply bind_Some in Hrun as ([] & k1 & H1 & Hrun);
        apply ASSERT_Some in H1 as [_ [= ->]]).
  apply bind_Some in Hrun as (f & k1 & H1 & Hrun).
  apply read_Some in H1 as (f' & Hf & [= -> ->]).
  apply bind_Some in Hrun as (b1 & k1 & H1 & Hrun).
  assert (Hb1 : k1 = k /\ Io.Flags b1 = Io.Flags b
                /\ Io.TotalSize b1 = Io.TotalSize b
                /\ Io.PageCacheEntries b1 = Io.PageCacheEntries b).
  { run_inv H1; cbn; auto. }
  destruct Hb1 as (-> & Hflags & Htotal & Hpce). clear H1.
  apply bind_Some in Hrun as (b2 & k2 & H2 & Hrun).
  apply ret_Some in Hrun as [= -> ->]. cbn [Io.TotalSize Io.Flags Io.set_TotalSize].
  destruct PageCacheEntry as [Entry|].
  - rewrite Htotal, Hpce in H2.
    apply bind_Some in H2 as ([] & k1 & H1 & H2).
    apply ASSERT_Some in H1 as [_ [= ->]].
    apply bind_Some in H2 as ([] & k1 & H1 & H2).
    apply ASSERT_Some in H1 as [_ [= ->]].
    destruct (Io.PageCacheEntries b) as [Entries|] eqn:HE;
      [|apply stop_Some in H2; destruct H2].
    apply bind_Some in H2 as (Slot & k1 & H1 & H2).
    apply read_Some in H1 as (Slot' & HSlot & [= -> ->]).
    apply bind_Some in H2 as ([] & k1 & H1 & H2).
    apply ASSERT_Some in H1 as [HNone [= ->]].
    apply bool_decide_eq_true in HNone. subst Slot'.
    apply bind_Some in H2 as ([] & k1 & H1 & H2).
    apply ASSERT_Some in H1 as [Hpcb [= ->]].
    apply bind_Some in H2 as ([] & k1 & H1 & H2).
    apply call_Some in H1 as [= ->].
    apply bind_Some in H2 as (Entries' & k1 & H1 & H2).
    apply write_Some in H1 as [Hlen [= -> ->]].
    apply ret_Some in H2 as [= -> ->].
    rewrite Z.shiftr_div_pow2 in * by lia. fold MmPageSize in *.
    cbn. rewrite Htotal, Hflags. rewrite Hflags in Hpcb.
    split; [exact Hext|]. split; [reflexivity|].
    split; [intros; apply UINTN_small; lia|]. split; [reflexivity|].
    split; [reflexivity|].
    split; [exists Entries; auto|].
    split; [|exact Hpcb].
    unfold PageCacheSlot. cbn.
    rewrite list_lookup_insert_eq by exact Hlen. reflexivity.
  - apply ret_Some in H2 as [= -> ->]. rewrite Htotal, Hflags.
    split; [exact Hext|]. split; [reflexivity|].
    split; [intros; apply UINTN_small; lia|]. auto.
Qed.

(** ** Buffers from vectors *)

Lemma CoalesceVector_user (Newest : list IO_BUFFER_FRAGMENT) (v : IO_VECTOR) :
  Forall UserFragment Newest -> ValidVector v ->
  Forall UserFragment (CoalesceVector Newest v) /\
  (length (CoalesceVector Newest v) <= S (length Newest))%nat /\
  SizeOfFragments (CoalesceVector Newest v)
  = SizeOfFragments Newest + Vec.Length v.
Proof.
  intros HN (Hdata & Hlen & Hend). unfold CoalesceVector.
  destruct (Z.eqb_spec (Vec.Length v) 0) as [->|Hnz].
  - split; [assumption|]. split; lia.
  - assert (Hnew : UserFragment (VectorFragment v))
      by (unfold UserFragment; cbn; lia).
    destruct Newest as [|p Older].
    + split; [constructor; assumption|]. split; cbn; lia.
    + inversion HN as [|? ? (Hpa & Hva & Hsz & Hpend) HO]; subst.
      destruct (Z.eqb_spec (Frag.VirtualAddress p + Frag.Size p) (Vec.Data v))
        as [Heq|Hne].
      * split; [|split; cbn; lia].
        constructor; [|assumption]. unfold UserFragment. cbn. lia.
      * split; [|split; cbn; lia].
        constructor; assumption.
Qed.

Lemma fold_CoalesceVector_user (Vector : list IO_VECTOR) :
  forall Newest,
  Forall UserFragment Newest -> Forall ValidVector Vector ->
  Forall UserFragment (fold_left CoalesceVector Vector Newest) /\
  (length (fold_left CoalesceVector Vector Newest)
   <= length Newest + length Vector)%nat /\
  SizeOfFragments (fold_left CoalesceVector Vector Newest)
  = SizeOfFragments Newest + VectorLength Vector.
Proof.
  induction Vector as [|v Vector IH]; intros Newest HN HV.
  - cbn. split; [assumption|]. split; lia.
  - inversion HV as [|? ? Hv HV']; subst.
    destruct (CoalesceVector_user Newest v HN Hv) as (H1 & H2 & H3).
    destruct (IH _ H1 HV') as (H4 & H5 & H6).
    cbn. split; [assumption|]. split; lia.
Qed.

Lemma SizeOfFragments_rev (l : list IO_BUFFER_FRAGMENT) :
  SizeOfFragments (rev l) = SizeOfFragments l.
Proof.
  induction l as [|f l IH]; [reflexivity|].
  cbn. rewrite SizeOfFragments_app, IH. cbn. lia.
Qed.

Lemma UINTN_add_idemp (a b : Z) : UINTN (UINTN a + b) = UINTN (a + b).
Proof. unfold UINTN. apply Zplus_mod_idemp_l. Qed.

(** "Add this as a new fragment", on the state the loop is in. *)
Lemma MmCreateIoBufferFromVector_add_run (N : nat)
    (Newest : list IO_BUFFER_FRAGMENT) (Total : Z) (v : IO_VECTOR) (k : Kernel) :
  Z.of_nat N < 2 ^ UINTN_BITS ->
  (length Newest < N)%nat ->
  MmCreateIoBufferFromVector_add v (VectorLoopOf N Newest Total) k
  = Some (VectorLoopOf N (VectorFragment v :: Newest) Total, k).
Proof.
  intros HN Hroom. unfold MmCreateIoBufferFromVector_add, VectorLoopOf.
  cbn [vl_Table vl_Fragment vl_TotalSize vl_FragmentIndex].
  unfold bind at 1. unfold read. rewrite Nat2Z.id.
  assert (Hzeros : replicate (N - length Newest) Frag.zero
                   = Frag.zero :: replicate (N - S (length Newest)) Frag.zero).
  { replace (N - length Newest)%nat with (S (N - S (length Newest))) by lia.
    reflexivity. }
  rewrite Hzeros.
  rewrite (list_lookup_middle (rev Newest)) by (rewrite length_rev; reflexivity).
  unfold bind at 1. unfold write. rewrite Nat2Z.id.
  rewrite length_app, length_rev. cbn [length].
  destruct (Nat.ltb_spec (length Newest)
              (length Newest + S (length (replicate (N - S (length Newest))
                                            Frag.zero)))); [|lia].
  unfold ret. do 2 f_equal.
  rewrite (UINTN_small (Z.of_nat (length Newest) + 1)) by lia.
  f_equal.
  - rewrite <- (length_rev Newest) at 1.
    rewrite <- (Nat.add_0_r (length (rev Newest))), insert_app_r.
    cbn. rewrite <- app_assoc. reflexivity.
  - cbn [length]. lia.
  - cbn [length]. f_equal. lia.
  - cbn [length]. lia.
Qed.

(** The fill loop on valid entries: it builds the fragments of the entries
    and counts their lengths. *)
Lemma MmCreateIoBufferFromVector_loop_run (IoVector : list IO_VECTOR) (N : nat)
    (k : Kernel) (rest : list IO_VECTOR) :
  forall (VectorIndex : Z) (Newest : list IO_BUFFER_FRAGMENT) (Total : Z),
  Z.of_nat N < 2 ^ UINTN_BITS ->
  0 <= VectorIndex ->
  (forall j v, rest !! j = Some v ->
               IoVector !! (Z.to_nat VectorIndex + j)%nat = Some v) ->
  Forall ValidVector rest ->
  Forall UserFragment Newest ->
  (length Newest + length rest <= N)%nat ->
  MmCreateIoBufferFromVector_loop (length rest) IoVector VectorIndex
    (VectorLoopOf N Newest Total) k
  = Some (inr (VectorLoopOf N (fold_left CoalesceVector rest Newest)
                 (Total + VectorLength rest)), k).
Proof.
  pose proof KERNEL_VA_START_range as HK.
  induction rest as [|v rest IH]; intros idx Newest Total HN Hidx Hseg HV HU Hroom.
  - cbn. rewrite Z.add_0_r. reflexivity.
  - inversion HV as [|? ? Hv HV']; subst.
    pose proof Hv as (Hdata & Hlen & Hend).
    cbn [length MmCreateIoBufferFromVector_loop fold_left VectorLength].
    unfold bind at 1. unfold read.
    rewrite <- (Nat.add_0_r (Z.to_nat idx)), (Hseg 0%nat v eq_refl).
    rewrite (UINTN_small (Vec.Data v + Vec.Length v)) by lia.
    destruct (Z.leb_spec KERNEL_VA_START (Vec.Data v)); [lia|].
    destruct (Z.ltb_spec KERNEL_VA_START (Vec.Data v + Vec.Length v)); [lia|].
    destruct (Z.ltb_spec (Vec.Data v + Vec.Length v) (Vec.Data v)); [lia|].
    cbn [orb].
    assert (Hseg' : forall j w, rest !! j = Some w ->
                      IoVector !! (Z.to_nat (idx + 1) + j)%nat = Some w).
    { intros j w Hj. replace (Z.to_nat (idx + 1) + j)%nat
        with (Z.to_nat idx + S j)%nat by lia. apply Hseg. exact Hj. }
    cbn [length] in Hroom.
    destruct (CoalesceVector_user Newest v HU Hv) as (HU' & Hlen' & _).
    remember (CoalesceVector Newest v) as Built eqn:HB.
    unfold CoalesceVector in HB.
    destruct (Z.eqb_spec (Vec.Length v) 0) as [Hz|Hnz].
    + subst Built. rewrite Hz, Z.add_0_l.
      apply IH; try assumption; try lia.
    + assert (Hstep : forall Newest',
                (length Newest' + length rest <= N)%nat ->
                Forall UserFragment Newest' ->
                MmCreateIoBufferFromVector_loop (length rest) IoVector (idx + 1)
                  {| vl_Table := vl_Table (VectorLoopOf N Newest' Total);
                     vl_TotalSize :=
                       UINTN (vl_TotalSize (VectorLoopOf N Newest' Total)
                              + Vec.Length v);
                     vl_FragmentIndex :=
                       vl_FragmentIndex (VectorLoopOf N Newest' Total);
                     vl_PreviousFragment :=
                       vl_PreviousFragment (VectorLoopOf N Newest' Total);
                     vl_Fragment := vl_Fragment (VectorLoopOf N Newest' Total) |}
                  k
                = Some (inr (VectorLoopOf N (fold_left CoalesceVector rest Newest')
                               (Total + (Vec.Length v + VectorLength rest))), k)).
      { intros Newest' Hroom' HU''.
        rewrite Z.add_assoc.
        rewrite <- (IH (idx + 1) Newest' (Total + Vec.Length v));
          try assumption; try lia.
        unfold VectorLoopOf. cbn. rewrite UINTN_add_idemp. reflexivity. }
      destruct Newest as [|p Older].
      * subst Built. cbn [VectorLoopOf vl_PreviousFragment].
        unfold bind at 1.
        rewrite (MmCreateIoBufferFromVector_add_run N [] Total v k HN)
          by (cbn; lia).
        apply Hstep; [cbn in *; lia | assumption].
      * inversion HU as [|? ? (Hpa & Hva & Hsz & Hpend) HO]; subst.
        cbn [VectorLoopOf vl_PreviousFragment vl_Table length rev].
        unfold bind at 1. unfold bind at 1. unfold read.
        replace (Z.to_nat (Z.of_nat (S (length Older)) - 1))
          with (length Older) by lia.
        rewrite <- app_assoc. cbn [app].
        rewrite (list_lookup_middle (rev Older))
          by (rewrite length_rev; reflexivity).
        rewrite (UINTN_small (Frag.VirtualAddress p + Frag.Size p)) by lia.
        destruct (Z.eqb_spec (Frag.VirtualAddress p + Frag.Size p) (Vec.Data v))
          as [Heq|Hne].
        -- unfold bind at 1. unfold write.
           replace (Z.to_nat (Z.of_nat (S (length Older)) - 1))
             with (length Older) by lia.
           rewrite length_app, length_rev. cbn [length].
           destruct (Nat.ltb_spec (length Older)
                       (length Older
                        + S (length (replicate (N - S (length Older))
                                       Frag.zero)))); [|lia].
           unfold ret.
           rewrite (UINTN_small (Frag.Size p + Vec.Length v)) by lia.
           rewrite <- (length_rev Older) at 1.
           rewrite <- (Nat.add_0_r (length (rev Older))), insert_app_r.
           cbn [insert list_insert].
           specialize (Hstep (Frag.set_Size (Frag.Size p + Vec.Length v) p
                                :: Older)).
           cbn [VectorLoopOf vl_PreviousFragment vl_Table vl_TotalSize
                vl_FragmentIndex vl_Fragment length rev] in Hstep.
           rewrite <- app_assoc in Hstep. cbn [app] in Hstep.
           apply Hstep; [cbn in *; lia | assumption].
        -- rewrite (MmCreateIoBufferFromVector_add_run N (p :: Older) Total v k HN)
             by (cbn in *; lia).
           apply Hstep; [cbn in *; lia | assumption].
Qed.

(** On a valid vector array, with a pool that is not exhausted and a user
    mode array that can be read, the call answers the buffer of the array. *)
Lemma MmCreateIoBufferFromVector_valid (Vector : list IO_VECTOR)
    (VectorInKernelMode : bool) (k : Kernel) :
  RunLevel k = RunLevelLow ->
  (0 < length Vector)%nat ->
  Z.of_nat (length Vector) <= MAX_IO_VECTOR_COUNT ->
  Forall ValidVector Vector ->
  (VectorInKernelMode = false -> UserCopy k = STATUS_SUCCESS) ->
  (2 <= PoolAvailable k)%nat ->
  exists k',
    MmCreateIoBufferFromVector Vector VectorInKernelMode
      (Z.of_nat (length Vector)) k
    = Some ((STATUS_SUCCESS, Some (VectorBuffer Vector)), k').
Proof.
  intros Hlevel Hcount Hmax Hvalid Hcopy Hpool.
  pose proof MAX_IO_VECTOR_COUNT_range as HM.
  unfold MmCreateIoBufferFromVector.
  unfold bind at 1. unfold KeGetRunLevel. rewrite Hlevel.
  unfold bind at 1. unfold ASSERT at 1.
  destruct (Z.ltb_spec MAX_IO_VECTOR_COUNT (Z.of_nat (length Vector))); [lia|].
  destruct (Z.eqb_spec (Z.of_nat (length Vector)) 0); [lia|]. cbn [orb].
  assert (Hloop : forall k1,
            MmCreateIoBufferFromVector_loop (Z.to_nat (Z.of_nat (length Vector)))
              Vector 0
              (mkVectorLoop
                 (replicate (Z.to_nat (Z.of_nat (length Vector))) Frag.zero)
                 0 0 None 0) k1
            = Some (inr (VectorLoopOf (length Vector)
                           (fold_left CoalesceVector Vector [])
                           (0 + VectorLength Vector)), k1)).
  { intros k1. rewrite Nat2Z.id.
    rewrite <- (MmCreateIoBufferFromVector_loop_run Vector (length Vector) k1
                  Vector 0 [] 0); try assumption; try lia.
    - unfold VectorLoopOf. cbn. rewrite Nat.sub_0_r. reflexivity.
    - intros j v Hj. exact Hj.
    - constructor.
    - cbn. lia. }
  assert (Hbuffer :
            Io.set_FragmentCount
              (vl_FragmentIndex (VectorLoopOf (length Vector)
                                   (fold_left CoalesceVector Vector [])
                                   (0 + VectorLength Vector)))
              (Io.set_TotalSize
                 (vl_TotalSize (VectorLoopOf (length Vector)
                                  (fold_left CoalesceVector Vector [])
                                  (0 + VectorLength Vector)))
                 (Io.set_Fragment
                    (vl_Table (VectorLoopOf (length Vector)
                                 (fold_left CoalesceVector Vector [])
                                 (0 + VectorLength Vector)))
                    (Io.mk (replicate (Z.to_nat (Z.of_nat (length Vector)))
                              Frag.zero)
                       0 (Z.lor IO_BUFFER_FLAG_USER_MODE IO_BUFFER_FLAG_MAPPED)
                       0 0 (Z.of_nat (length Vector)) 0 None)))
            = VectorBuffer Vector).
  { unfold VectorBuffer, VectorFragments, VectorLoopOf. cbn.
    rewrite length_rev. reflexivity. }
  assert (Hfinish : forall (AllocatedVector : bool) k1,
            (1 <= PoolAvailable k1)%nat ->
            exists k',
              bind MmAllocatePagedPool
                (fun Pool : bool =>
                   if negb Pool
                   then MmCreateIoBufferFromVector_end
                          STATUS_INSUFFICIENT_RESOURCES None AllocatedVector
                   else
                     let IoBuffer :=
                       Io.mk (replicate (Z.to_nat (Z.of_nat (length Vector)))
                                Frag.zero)
                         0 (Z.lor IO_BUFFER_FLAG_USER_MODE IO_BUFFER_FLAG_MAPPED)
                         0 0 (Z.of_nat (length Vector)) 0 None in
                     r <- MmCreateIoBufferFromVector_loop
                            (Z.to_nat (Z.of_nat (length Vector))) Vector 0
                            (mkVectorLoop (Io.Fragment IoBuffer) 0 0 None 0) ;;
                     match r with
                     | inl (Status, s) =>
                         let IoBuffer := Io.set_Fragment (vl_Table s) IoBuffer in
                         MmCreateIoBufferFromVector_end Status (Some IoBuffer)
                           AllocatedVector
                     | inr s =>
                         let IoBuffer := Io.set_Fragment (vl_Table s) IoBuffer in
                         let IoBuffer :=
                           Io.set_TotalSize (vl_TotalSize s) IoBuffer in
                         let IoBuffer :=
                           Io.set_FragmentCount (vl_FragmentIndex s) IoBuffer in
                         MmCreateIoBufferFromVector_end STATUS_SUCCESS
                           (Some IoBuffer) AllocatedVector
                     end) k1
              = Some ((STATUS_SUCCESS, Some (VectorBuffer Vector)), k')).
  { intros AllocatedVector k1 Hk1.
    unfold bind at 1. unfold MmAllocatePagedPool.
    destruct (PoolAvailable k1) as [|n1] eqn:Hn1; [lia|].
    cbn [negb]. cbv zeta. unfold bind at 1. cbn [Io.Fragment].
    rewrite Hloop. rewrite Hbuffer.
    unfold MmCreateIoBufferFromVector_end. cbn [KSUCCESS negb].
    destruct AllocatedVector; eexists; reflexivity. }
  destruct VectorInKernelMode.
  - cbn [negb]. unfold bind at 1. unfold ret at 1.
    apply Hfinish. lia.
  - cbn [negb]. specialize (Hcopy eq_refl).
    destruct (Z.ltb_spec (Z.of_nat (length Vector)) LOCAL_IO_VECTOR_COUNT).
    + unfold bind at 1. unfold bind at 1. unfold ret at 1.
      unfold bind at 1. unfold MmCopyFromUserMode at 1. rewrite Hcopy.
      cbn [KSUCCESS negb]. unfold ret at 1.
      apply Hfinish. cbn. lia.
    + unfold bind at 1. unfold bind at 1. unfold bind at 1.
      unfold MmAllocatePagedPool at 1.
      destruct (PoolAvailable k) as [|n1] eqn:Hn1; [lia|].
      unfold ret at 1. unfold bind at 1. unfold MmCopyFromUserMode at 1.
      cbn [UserCopy set_PoolAvailable]. rewrite Hcopy.
      cbn [KSUCCESS negb]. unfold ret at 1.
      apply Hfinish. cbn. lia.
Qed.

Lemma VectorBuffer_FragmentsInUse (Vector : list IO_VECTOR) :
  FragmentsInUse (VectorBuffer Vector) = VectorFragments Vector.
Proof.
  unfold FragmentsInUse, VectorBuffer. cbn. rewrite Nat2Z.id.
  rewrite take_app_length. reflexivity.
Qed.

(** C5, amended.  For every valid vector array (0 < count <=
    MAX_IO_VECTOR_COUNT, every range within user space), the pool holding
    out and a user mode array being readable, the call succeeds with a user
    mode, mapped buffer whose fragments are those of the array with the
    empty entries skipped and each entry that starts at the virtual end of
    the previous fragment merged into it; the fragment sizes add up to the
    sum of the entry lengths, and the total size is that sum as the [UINTN]
    line 1037 adds it up in: the sum itself whenever it is a [UINTN]. *)
Theorem create_from_vector (Vector : list IO_VECTOR)
    (VectorInKernelMode : bool) (k : Kernel) :
  RunLevel k = RunLevelLow ->
  (0 < length Vector)%nat ->
  Z.of_nat (length Vector) <= MAX_IO_VECTOR_COUNT ->
  Forall ValidVector Vector ->
  (VectorInKernelMode = false -> UserCopy k = STATUS_SUCCESS) ->
  (2 <= PoolAvailable k)%nat ->
  exists b k',
    MmCreateIoBufferFromVector Vector VectorInKernelMode
      (Z.of_nat (length Vector)) k
    = Some ((STATUS_SUCCESS, Some b), k') /\
    FragmentsInUse b = VectorFragments Vector /\
    Io.FragmentCount b = Z.of_nat (length (VectorFragments Vector)) /\
    SizeOfFragments (FragmentsInUse b) = VectorLength Vector /\
    Io.TotalSize b = UINTN (VectorLength Vector) /\
    (VectorLength Vector < 2 ^ UINTN_BITS ->
     Io.TotalSize b = VectorLength Vector) /\
    Io.Flags b = Z.lor IO_BUFFER_FLAG_USER_MODE IO_BUFFER_FLAG_MAPPED.
Proof.
  intros Hlevel Hcount Hmax Hvalid Hcopy Hpool.
  destruct (MmCreateIoBufferFromVector_valid Vector VectorInKernelMode k)
    as (k' & Hrun); try assumption.
  exists (VectorBuffer Vector), k'. split; [exact Hrun|].
  destruct (fold_CoalesceVector_user Vector [] ltac:(constructor) Hvalid)
    as (_ & _ & Hsum).
  assert (Hsize : SizeOfFragments (VectorFragments Vector) = VectorLength Vector).
  { unfold VectorFragments. rewrite SizeOfFragments_rev, Hsum. reflexivity. }
  rewrite VectorBuffer_FragmentsInUse.
  repeat (split; [reflexivity || exact Hsize|]).
  split; [|reflexivity].
  intros Hfit. cbn. apply UINTN_small. split; [|exact Hfit].
  clear -Hvalid. induction Hvalid as [|v l (_ & Hl & _) _ IH]; cbn; lia.
Qed.

(** C10, amended.  For every vector array with a valid count whose entries
    all have length zero and an address below KERNEL_VA_START (the address is
    checked before the empty entry is skipped), the pool holding out and a
    user mode array being readable, the call succeeds with a buffer that has
    no fragment, a total size of 0 and the flags USER_MODE and MAPPED. *)
Theorem create_from_empty_vector (Vector : list IO_VECTOR)
    (VectorInKernelMode : bool) (k : Kernel) :
  RunLevel k = RunLevelLow ->
  (0 < length Vector)%nat ->
  Z.of_nat (length Vector) <= MAX_IO_VECTOR_COUNT ->
  Forall (fun v => Vec.Length v = 0 /\ 0 <= Vec.Data v < KERNEL_VA_START)
    Vector ->
  (VectorInKernelMode = false -> UserCopy k = STATUS_SUCCESS) ->
  (2 <= PoolAvailable k)%nat ->
  exists b k',
    MmCreateIoBufferFromVector Vector VectorInKernelMode
      (Z.of_nat (length Vector)) k
    = Some ((STATUS_SUCCESS, Some b), k') /\
    Io.FragmentCount b = 0 /\
    FragmentsInUse b = [] /\
    Io.TotalSize b = 0 /\
    Io.Flags b = Z.lor IO_BUFFER_FLAG_USER_MODE IO_BUFFER_FLAG_MAPPED.
Proof.
  intros Hlevel Hcount Hmax Hempty Hcopy Hpool.
  assert (Hvalid : Forall ValidVector Vector).
  { eapply Forall_impl; [exact Hempty|]. intros v Hv. cbn in Hv.
    unfold ValidVector. lia. }
  destruct (MmCreateIoBufferFromVector_valid Vector VectorInKernelMode k)
    as (k' & Hrun); try assumption.
  exists (VectorBuffer Vector), k'. split; [exact Hrun|].
  assert (Hnone : fold_left CoalesceVector Vector [] = []
                  /\ VectorLength Vector = 0).
  { clear -Hempty. induction Hempty as [|v l [Hl _] _ [IH1 IH2]];
      [split; reflexivity|].
    cbn. unfold CoalesceVector at 2. rewrite Hl. cbn. split; [exact IH1 | lia]. }
  destruct Hnone as [Hfold Hlen].
  rewrite VectorBuffer_FragmentsInUse.
  unfold VectorBuffer, VectorFragments. rewrite Hfold, Hlen. cbn.
  repeat split.
Qed.

(** ** Non-paged buffers *)

Lemma ALIGN_RANGE_UP_multiple (Value Size : Z) :
  0 < Size -> ALIGN_RANGE_UP Value Size mod Size = 0.
Proof.
  intros Hpos. unfold ALIGN_RANGE_UP, ALIGN_RANGE_DOWN.
  rewrite Zminus_mod, Z.mod_mod, Z.sub_diag by lia. apply Z.mod_0_l. lia.
Qed.

Lemma ALIGN_RANGE_UP_bounds (Value Size : Z) :
  0 < Size -> Value <= ALIGN_RANGE_UP Value Size < Value + Size.
Proof.
  intros Hpos. unfold ALIGN_RANGE_UP, ALIGN_RANGE_DOWN.
  pose proof (Z.mod_pos_bound (Value + Size - 1) Size Hpos). lia.
Qed.

Lemma multiple_trans (x a b : Z) :
  0 < a -> 0 < b -> x mod a = 0 -> a mod b = 0 -> x mod b = 0.
Proof.
  intros Ha Hb Hx Hab.
  apply Z.mod_divide in Hx; [|lia]. apply Z.mod_divide in Hab; [|lia].
  apply Z.mod_divide; [lia|]. exact (Z.divide_trans _ _ _ Hab Hx).
Qed.

Lemma multiple_sub (x y a : Z) :
  0 < a -> x mod a = 0 -> y mod a = 0 -> (x - y) mod a = 0.
Proof.
  intros Ha Hx Hy.
  apply Z.mod_divide in Hx; [|lia]. apply Z.mod_divide in Hy; [|lia].
  apply Z.mod_divide; [lia|]. apply Z.divide_sub_r; assumption.
Qed.

Lemma multiple_add (x y a : Z) :
  0 < a -> x mod a = 0 -> y mod a = 0 -> (x + y) mod a = 0.
Proof.
  intros Ha Hx Hy.
  apply Z.mod_divide in Hx; [|lia]. apply Z.mod_divide in Hy; [|lia].
  apply Z.mod_divide; [lia|]. apply Z.divide_add_r; assumption.
Qed.

Lemma IS_ALIGNED_multiple (Value Size : Z) :
  IS_ALIGNED Value Size = true <-> Value mod Size = 0.
Proof.
  unfold IS_ALIGNED, ALIGN_RANGE_DOWN. rewrite Z.eqb_eq. lia.
Qed.

Lemma RunAlignment_pages (Alignment : Z) :
  0 <= Alignment ->
  0 < RunAlignment Alignment /\
  Alignment <= RunAlignment Alignment /\
  RunAlignment Alignment mod MmPageSize = 0.
Proof.
  intros Hal. pose proof MmPageSize_pos as Hpos. unfold RunAlignment.
  destruct (Z.eqb_spec Alignment 0) as [->|Hnz].
  - split; [lia|]. split; [lia|]. apply Z_mod_same_full.
  - pose proof (ALIGN_RANGE_UP_bounds Alignment MmPageSize Hpos).
    split; [lia|]. split; [lia|]. apply ALIGN_RANGE_UP_multiple, Hpos.
Qed.

Lemma AlignedSize_pages (Alignment Size : Z) :
  0 <= Alignment -> 0 < Size ->
  Size <= AlignedSize Alignment Size /\
  AlignedSize Alignment Size mod RunAlignment Alignment = 0 /\
  AlignedSize Alignment Size
  = AlignedSize Alignment Size / MmPageSize * MmPageSize /\
  0 < AlignedSize Alignment Size / MmPageSize.
Proof.
  intros Hal Hsize. pose proof MmPageSize_pos as Hpos.
  destruct (RunAlignment_pages Alignment Hal) as (Hrun & _ & Hpages).
  pose proof (ALIGN_RANGE_UP_bounds Size (RunAlignment Alignment) Hrun) as Hb.
  pose proof (ALIGN_RANGE_UP_multiple Size (RunAlignment Alignment) Hrun) as Hm.
  fold (AlignedSize Alignment Size) in Hb, Hm.
  assert (Hp : AlignedSize Alignment Size mod MmPageSize = 0)
    by (apply (multiple_trans _ (RunAlignment Alignment)); assumption || lia).
  split; [lia|]. split; [exact Hm|].
  assert (Hnz : MmPageSize <> 0) by lia.
  pose proof (Z.div_mod (AlignedSize Alignment Size) MmPageSize Hnz) as Hd.
  rewrite Hp, Z.add_0_r, Z.mul_comm in Hd.
  split; [exact Hd|].
  clear Hm Hp. set (q := AlignedSize Alignment Size / MmPageSize) in *.
  destruct (Z.lt_ge_cases 0 q) as [Hq | Hq]; [exact Hq|].
  pose proof (Z.mul_nonpos_nonneg _ _ Hq (Z.lt_le_incl _ _ Hpos)). lia.
Qed.

Lemma SizeOfFragments_multiple (Alignment : Z) (l : list IO_BUFFER_FRAGMENT) :
  0 < Alignment ->
  Forall (fun f => Frag.Size f mod Alignment = 0) l ->
  SizeOfFragments l mod Alignment = 0.
Proof.
  intros Hpos. induction 1 as [|f l Hf _ IH]; cbn.
  - apply Z.mod_0_l. lia.
  - apply multiple_add; assumption.
Qed.

Lemma SizeOfFragments_bound (l : list IO_BUFFER_FRAGMENT) (f : IO_BUFFER_FRAGMENT) :
  Forall (fun f => 0 <= Frag.Size f) l -> In f l ->
  Frag.Size f <= SizeOfFragments l.
Proof.
  induction 1 as [|g l Hg Hl IH]; intros Hin; [destruct Hin|].
  pose proof (SizeOfFragments_nonneg l Hl).
  destruct Hin as [-> | Hin]; cbn; [lia | specialize (IH Hin); lia].
Qed.

Lemma page_offset_next (i n : nat) :
  (i < n)%nat ->
  0 <= Z.of_nat i * MmPageSize /\
  Z.of_nat i * MmPageSize + MmPageSize <= Z.of_nat n * MmPageSize.
Proof. intros Hi. pose proof MmPageSize_pos. nia. Qed.

(** One page further in the walk. *)
Lemma PagesWalked_step (k : Kernel) (VirtualAddress Alignment : Z) (n i : nat)
    (Newest : list IO_BUFFER_FRAGMENT) :
  0 < Alignment ->
  PhysicalRuns k VirtualAddress (Z.of_nat n * MmPageSize) Alignment Alignment ->
  (i < n)%nat ->
  PagesWalked k VirtualAddress Alignment i Newest ->
  PagesWalked k VirtualAddress Alignment (S i)
    (CoalescePage k Newest (VirtualAddress + Z.of_nat i * MmPageSize)).
Proof.
  intros Hal Hruns Hi (Hlen & Hsum & Hall & Hhead).
  pose proof MmPageSize_pos as Hpos.
  destruct (page_offset_next i n Hi) as [Hlo Hhi].
  destruct (Hruns (Z.of_nat i) ltac:(lia) ltac:(lia))
    as (_ & Hpa & _ & Hstart & Hinside).
  cbv zeta in Hstart, Hinside.
  assert (Hnext : (Z.of_nat (S i) - 1) * MmPageSize = Z.of_nat i * MmPageSize)
    by (f_equal; lia).
  unfold PagesWalked, CoalescePage. rewrite Hnext.
  destruct Newest as [|p Older].
  - subst i. cbn [length SizeOfFragments Frag.Size Frag.PhysicalAddress].
    split; [lia|]. split; [lia|].
    split; [|split; [constructor | reflexivity]].
    constructor; [|constructor]. cbn. split; [|lia].
    apply Hstart. apply Z.mod_0_l. lia.
  - destruct Hhead as [Holder Hend].
    inversion Hall as [|? ? [Hp Hpsize] Hall']; subst.
    cbn [SizeOfFragments] in Hsum.
    destruct (Z.eqb_spec (Frag.PhysicalAddress p + Frag.Size p)
                (PageTable k (VirtualAddress + Z.of_nat i * MmPageSize)))
      as [Heq|Hne].
    + cbn [length SizeOfFragments Frag.set_Size Frag.Size Frag.PhysicalAddress]
        in *.
      split; [lia|]. split; [lia|].
      split; [|split; [exact Holder | lia]].
      constructor; [|exact Hall']. cbn. split; [exact Hp | lia].
    + assert (Hrun : (Z.of_nat i * MmPageSize) mod Alignment = 0).
      { destruct (Z.eq_dec ((Z.of_nat i * MmPageSize) mod Alignment) 0)
          as [Hz|Hnz]; [exact Hz|].
        exfalso. apply Hne. rewrite Hend, (Hinside Hnz). do 2 f_equal. lia. }
      cbn [length SizeOfFragments Frag.Size Frag.PhysicalAddress] in *.
      split; [lia|]. split; [lia|].
      split; [|split; [|reflexivity]].
      * constructor; [|exact Hall]. cbn. split; [apply Hstart, Hrun | lia].
      * constructor; [|exact Holder].
        replace (Frag.Size p)
          with (Z.of_nat i * MmPageSize - SizeOfFragments Older) by lia.
        apply multiple_sub; [exact Hal | exact Hrun |].
        apply SizeOfFragments_multiple; assumption.
Qed.

(** At the end of a run the newest fragment is whole as well. *)
Lemma PagesWalked_sizes (k : Kernel) (VirtualAddress Alignment : Z) (i : nat)
    (Newest : list IO_BUFFER_FRAGMENT) :
  0 < Alignment ->
  (Z.of_nat i * MmPageSize) mod Alignment = 0 ->
  PagesWalked k VirtualAddress Alignment i Newest ->
  Forall (fun f => Frag.Size f mod Alignment = 0) Newest.
Proof.
  intros Hal Hrun (_ & Hsum & _ & Hhead).
  destruct Newest as [|p Older]; [constructor|].
  destruct Hhead as [Holder _]. cbn [SizeOfFragments] in Hsum.
  constructor; [|exact Holder].
  replace (Frag.Size p)
    with (Z.of_nat i * MmPageSize - SizeOfFragments Older) by lia.
  apply multiple_sub; [exact Hal | exact Hrun |].
  apply SizeOfFragments_multiple; assumption.
Qed.

Lemma insert_rev_middle {A : Type} (l : list A) (x y : A) (rest : list A) :
  <[length l := y]> (rev l ++ x :: rest) = rev l ++ y :: rest.
Proof.
  rewrite <- (length_rev l), <- (Nat.add_0_r (length (rev l))), insert_app_r.
  reflexivity.
Qed.

(** "Otherwise, add a new fragment", on the state the walk is in. *)
Lemma MmAllocateNonPagedIoBuffer_add_run (IoBuffer : IO_BUFFER) (N : nat)
    (Newest : list IO_BUFFER_FRAGMENT) (CurrentAddress PhysicalAddress : Z)
    (k : Kernel) :
  (length Newest < N)%nat ->
  Z.of_nat (length Newest) + 1 < 2 ^ UINTN_BITS ->
  MmAllocateNonPagedIoBuffer_add (PagesBuffer IoBuffer N Newest)
    (Z.of_nat (length Newest)) CurrentAddress PhysicalAddress k
  = Some ((PagesBuffer IoBuffer N
             (Frag.mk CurrentAddress PhysicalAddress MmPageSize :: Newest),
           Z.of_nat (length Newest) + 1), k).
Proof.
  intros Hroom Hfit. unfold MmAllocateNonPagedIoBuffer_add, PagesBuffer.
  cbn [Io.Fragment Io.set_Fragment Io.set_FragmentCount Io.FragmentCount].
  unfold bind at 1. unfold write. rewrite Nat2Z.id.
  rewrite length_app, length_rev, length_replicate.
  destruct (Nat.ltb_spec (length Newest) (length Newest + (N - length Newest)));
    [|lia].
  unfold ret. rewrite (UINTN_small (Z.of_nat (length Newest) + 1)) by lia.
  assert (Hzeros : replicate (N - length Newest) Frag.zero
                   = Frag.zero :: replicate (N - S (length Newest)) Frag.zero).
  { replace (N - length Newest)%nat with (S (N - S (length Newest))) by lia.
    reflexivity. }
  rewrite Hzeros, insert_rev_middle.
  cbn [length rev]. rewrite <- app_assoc. cbn [app].
  do 3 f_equal. unfold Io.set_FragmentCount, Io.set_Fragment. cbn.
  f_equal. lia.
Qed.

(** The page walk builds the fragments of the pages it reads. *)
Lemma MmAllocateNonPagedIoBuffer_pages_run (IoBuffer : IO_BUFFER) (N n : nat)
    (VirtualAddress Alignment : Z) (k : Kernel) :
  0 < Alignment ->
  0 <= VirtualAddress ->
  VirtualAddress + Z.of_nat n * MmPageSize <= 2 ^ UINTN_BITS ->
  Z.of_nat n * MmPageSize < 2 ^ UINTN_BITS ->
  (n <= N)%nat ->
  PhysicalRuns k VirtualAddress (Z.of_nat n * MmPageSize) Alignment Alignment ->
  forall (m i : nat) (Newest : list IO_BUFFER_FRAGMENT),
  (i + m = n)%nat ->
  PagesWalked k VirtualAddress Alignment i Newest ->
  MmAllocateNonPagedIoBuffer_pages m (PagesBuffer IoBuffer N Newest)
    (UINTN (VirtualAddress + Z.of_nat i * MmPageSize))
    (Z.of_nat (length Newest)) k
  = Some (PagesBuffer IoBuffer N
            (fold_left (CoalescePage k) (PageAddresses VirtualAddress i m)
               Newest),
          k) /\
  PagesWalked k VirtualAddress Alignment n
    (fold_left (CoalescePage k) (PageAddresses VirtualAddress i m) Newest).
Proof.
  intros Hal Hva Hend Hfit HN Hruns. pose proof MmPageSize_pos as Hpos.
  induction m as [|m IH]; intros i Newest Him Hinv.
  - cbn. replace n with i by lia. split; [reflexivity | exact Hinv].
  - assert (Hi : (i < n)%nat) by lia.
    destruct (page_offset_next i n Hi) as [Hlo Hhi].
    pose proof (PagesWalked_step k VirtualAddress Alignment n i Newest
                  Hal Hruns Hi Hinv) as Hstep.
    destruct (IH (S i) _ ltac:(lia) Hstep) as [IHrun IHinv].
    unfold PageAddresses in *. cbn [seq map fold_left].
    split; [|exact IHinv]. rewrite <- IHrun. clear IHrun IHinv IH.
    destruct (Hruns (Z.of_nat i) ltac:(lia) ltac:(lia))
      as (Hvalid & Hpa & Hpa' & _ & _).
    cbv zeta in Hvalid, Hpa, Hpa'.
    destruct Hinv as (Hlen & Hsum & Hall & Hhead).
    cbn [MmAllocateNonPagedIoBuffer_pages].
    unfold bind at 1. unfold MmpVirtualToPhysical.
    rewrite (UINTN_small (VirtualAddress + Z.of_nat i * MmPageSize)) by lia.
    unfold bind at 1. unfold ASSERT at 1.
    destruct (Z.eqb_spec
                (PageTable k (VirtualAddress + Z.of_nat i * MmPageSize))
                INVALID_PHYSICAL_ADDRESS) as [Heq|_]; [contradiction|].
    cbn [negb].
    assert (Hnext : UINTN (VirtualAddress + Z.of_nat i * MmPageSize + MmPageSize)
                    = UINTN (VirtualAddress + Z.of_nat (S i) * MmPageSize))
      by (f_equal; lia).
    rewrite Hnext.
    assert (Hcount : Z.of_nat (length Newest) + 1 < 2 ^ UINTN_BITS) by nia.
    pose proof (MmAllocateNonPagedIoBuffer_add_run IoBuffer N Newest
                  (VirtualAddress + Z.of_nat i * MmPageSize)
                  (PageTable k (VirtualAddress + Z.of_nat i * MmPageSize)) k
                  ltac:(lia) Hcount) as Hadd.
    unfold CoalescePage.
    destruct Newest as [|p Older].
    + unfold bind at 1. unfold PagesBuffer at 1.
      cbn [Io.FragmentCount Io.set_FragmentCount Io.set_Fragment].
      cbn [length] in Hadd |- *. change (Z.of_nat 0) with 0 in Hadd |- *.
      cbn [Z.eqb negb]. rewrite Hadd. reflexivity.
    + destruct Hhead as [_ Hprev].
      pose proof (Forall_inv Hall) as [_ Hpsize].
      pose proof (Forall_inv_tail Hall) as Hall'.
      assert (Hbound : Frag.Size p <= Z.of_nat i * MmPageSize).
      { rewrite <- Hsum. cbn [SizeOfFragments].
        pose proof (SizeOfFragments_nonneg Older) as Hnn.
        assert (0 <= SizeOfFragments Older); [|lia].
        apply Hnn. eapply Forall_impl; [exact Hall'|]. cbn. intros f Hf. tauto. }
      cbn [length] in Hlen.
      destruct (page_offset_next (i - 1) n ltac:(lia)) as [Hlo' Hhi'].
      destruct (Hruns (Z.of_nat (i - 1)) ltac:(lia) ltac:(lia))
        as (_ & Hq & Hq' & _ & _).
      cbv zeta in Hq, Hq'.
      replace (Z.of_nat (i - 1)) with (Z.of_nat i - 1) in Hq, Hq' by lia.
      unfold bind at 1. unfold PagesBuffer at 1.
      cbn [Io.FragmentCount Io.set_FragmentCount Io.set_Fragment].
      destruct (Z.eqb_spec (Z.of_nat (length (p :: Older))) 0) as [Hz|_];
        [cbn [length] in Hz; lia|].
      cbn [negb]. unfold bind at 1. unfold read.
      unfold PagesBuffer at 1.
      cbn [Io.Fragment Io.set_FragmentCount Io.set_Fragment length rev].
      replace (Z.to_nat (Z.of_nat (S (length Older)) - 1))
        with (length Older) by lia.
      rewrite <- app_assoc. cbn [app].
      rewrite (list_lookup_middle (rev Older))
        by (rewrite length_rev; reflexivity).
      rewrite (ULONGLONG_small (Frag.PhysicalAddress p + Frag.Size p)) by lia.
      destruct (Z.eqb_spec (Frag.PhysicalAddress p + Frag.Size p)
                  (PageTable k (VirtualAddress + Z.of_nat i * MmPageSize)))
        as [Heq|Hne].
      * unfold bind at 1. unfold write. unfold PagesBuffer at 1.
        cbn [Io.Fragment Io.set_FragmentCount Io.set_Fragment length rev].
        replace (Z.to_nat (Z.of_nat (S (length Older)) - 1))
          with (length Older) by lia.
        rewrite <- app_assoc. cbn [app].
        rewrite length_app, length_rev. cbn [length].
        destruct (Nat.ltb_spec (length Older)
                    (length Older
                     + S (length (replicate (N - S (length Older))
                                    Frag.zero)))); [|lia].
        unfold ret. rewrite (UINTN_small (Frag.Size p + MmPageSize)) by lia.
        cbn [fst snd]. unfold PagesBuffer.
        cbn [Io.Fragment Io.set_FragmentCount Io.set_Fragment length rev
             Io.FragmentCount Io.Flags Io.TotalSize Io.CurrentOffset
             Io.MaxFragmentCount Io.PageCount Io.PageCacheEntries].
        rewrite <- !app_assoc. cbn [app]. rewrite insert_rev_middle.
        reflexivity.
      * cbn [length] in Hadd. rewrite Hadd. cbn [fst snd length].
        f_equal. lia.
Qed.


(** The allocation of a non-paged buffer: it answers [NULL] when the pool,
    the address space or the mapper refuses, and otherwise the buffer of the
    pages the mapper has put in the page table. *)
Lemma MmAllocateNonPagedIoBuffer_run
    (MaximumPhysicalAddress Alignment Size : Z) (PhysicallyContiguous : bool)
    (k : Kernel) :
  MaximumPhysicalAddress = MAX_ULONG \/ MaximumPhysicalAddress = MAX_ULONGLONG ->
  0 <= Alignment -> RunAlignment Alignment < 2 ^ UINTN_BITS ->
  0 < Size -> AlignedSize Alignment Size < 2 ^ UINTN_BITS ->
  (AllocationSucceeds k = true ->
   0 <= snd (AddressRange k) /\
   snd (AddressRange k) + AlignedSize Alignment Size <= 2 ^ UINTN_BITS /\
   PhysicalRuns k (snd (AddressRange k)) (AlignedSize Alignment Size)
     (RunAlignment Alignment) (RunSize Alignment Size PhysicallyContiguous)) ->
  exists k',
    MmAllocateNonPagedIoBuffer 0 MaximumPhysicalAddress Alignment Size
      PhysicallyContiguous false false k
    = Some (if AllocationSucceeds k
            then Some (NonPagedBuffer k Alignment Size PhysicallyContiguous
                         (snd (AddressRange k)))
            else None, k') /\
    (AllocationSucceeds k = true ->
     Log k' = Log k ++ NonPagedCalls Alignment Size PhysicallyContiguous
                         (snd (AddressRange k))).
Proof.
  intros Hmax Hal Halfit Hsize Hfit Henv.
  pose proof MmPageSize_pos as Hpos. pose proof MmPageShift_range as Hshift.
  destruct (RunAlignment_pages Alignment Hal) as (Hrun & _ & Hrunpages).
  destruct (AlignedSize_pages Alignment Size Hal Hsize)
    as (Hge & Hmult & Hpages & Hcount).
  unfold MmAllocateNonPagedIoBuffer.
  assert (Halign : (if Alignment =? 0 then MmPageSize
                    else UINTN (ALIGN_RANGE_UP Alignment MmPageSize))
                   = RunAlignment Alignment).
  { unfold RunAlignment in *. destruct (Alignment =? 0); [reflexivity|].
    apply UINTN_small. lia. }
  rewrite Halign. fold (AlignedSize Alignment Size).
  rewrite (UINTN_small (AlignedSize Alignment Size)) by lia.
  rewrite Z.shiftr_div_pow2 by lia. fold MmPageSize.
  set (AS := AlignedSize Alignment Size) in *.
  set (PageCount := AS / MmPageSize) in *.
  assert (Hrange : ((0 =? 0) && ((MaximumPhysicalAddress =? MAX_ULONG)
                                 || (MaximumPhysicalAddress =? MAX_ULONGLONG)))
                   = true).
  { destruct Hmax as [-> | ->]; cbn; [|rewrite orb_true_r]; reflexivity. }
  rewrite Hrange. unfold bind at 1. unfold ASSERT at 1.
  unfold bind at 1. unfold MmAllocateNonPagedPool, MmAllocatePagedPool.
  unfold AllocationSucceeds in *.
  destruct (PoolAvailable k) as [|pool] eqn:Hpool.
  { cbn. eexists. split; [reflexivity | discriminate]. }
  cbn [negb Nat.eqb andb]. cbv zeta.
  unfold bind at 1. unfold MmpAllocateAddressRange.
  cbn [AddressRange set_PoolAvailable set_Log Log].
  destruct (AddressRange k) as [RangeStatus VirtualAddress] eqn:Hrangeanswer.
  cbn [fst snd] in *.
  destruct (KSUCCESS RangeStatus) eqn:Hrs.
  2:{ cbn [negb andb].
      destruct (negb (VirtualAddress =? NULL)); cbn; eexists;
        (split; [reflexivity | discriminate]). }
  cbn [negb andb]. unfold bind at 1. unfold MmpMapRange.
  cbn [MapRange set_PoolAvailable set_Log Log].
  destruct (KSUCCESS (MapRange k)) eqn:Hms.
  2:{ cbn [negb andb].
      destruct (negb (VirtualAddress =? NULL)); cbn; eexists;
        (split; [reflexivity | discriminate]). }
  cbn [negb]. destruct (Henv eq_refl) as (Hva & Hend & Hruns).
  set (k2 := set_Log _ _).
  assert (Hlog : Log k2 = Log k ++ NonPagedCalls Alignment Size
                                     PhysicallyContiguous VirtualAddress).
  { subst k2. cbn [Log set_Log]. rewrite <- app_assoc. reflexivity. }
  assert (Htable : PageTable k2 = PageTable k) by reflexivity.
  unfold NonPagedBuffer. fold AS. fold PageCount.
  destruct PhysicallyContiguous.
  - destruct (Hruns 0 ltac:(lia) ltac:(lia)) as (Hvalid & _).
    cbv zeta in Hvalid. rewrite Z.mul_0_l, Z.add_0_r in Hvalid.
    unfold bind at 1. unfold bind at 1. unfold MmpVirtualToPhysical.
    rewrite Htable. unfold bind at 1. unfold ASSERT at 1.
    destruct (Z.eqb_spec (PageTable k VirtualAddress) INVALID_PHYSICAL_ADDRESS)
      as [Heq|_]; [contradiction|].
    cbn [negb]. exists k2. split; [reflexivity | intros _; exact Hlog].
  - assert (Hruns2 : PhysicalRuns k2 VirtualAddress
                        (Z.of_nat (Z.to_nat PageCount) * MmPageSize)
                        (RunAlignment Alignment) (RunAlignment Alignment)).
    { rewrite Z2Nat.id by lia. rewrite <- Hpages. exact Hruns. }
    assert (Hstart : PagesWalked k2 VirtualAddress (RunAlignment Alignment)
                       0 []).
    { unfold PagesWalked. cbn. repeat split; auto. }
    match goal with
    | |- context [MmAllocateNonPagedIoBuffer_pages _ ?b _ _] => set (B0 := b)
    end.
    destruct (MmAllocateNonPagedIoBuffer_pages_run B0 (Z.to_nat PageCount)
                (Z.to_nat PageCount) VirtualAddress (RunAlignment Alignment) k2
                Hrun Hva
                ltac:(rewrite Z2Nat.id by lia; rewrite <- Hpages; exact Hend)
                ltac:(rewrite Z2Nat.id by lia; rewrite <- Hpages; exact Hfit)
                (Nat.le_refl _) Hruns2 (Z.to_nat PageCount) 0%nat []
                eq_refl Hstart) as [Hloop Hwalked].
    assert (HB0 : PagesBuffer B0 (Z.to_nat PageCount) [] = B0).
    { unfold PagesBuffer, B0. cbn. rewrite Nat.sub_0_r. reflexivity. }
    rewrite HB0 in Hloop. cbn [length] in Hloop.
    change (Z.of_nat 0) with 0 in Hloop.
    rewrite Z.mul_0_l, Z.add_0_r, (UINTN_small VirtualAddress) in Hloop by lia.
    unfold bind at 1. unfold bind at 1. unfold ASSERT at 1.
    cbn [Io.FragmentCount B0 Z.eqb]. unfold bind at 1. rewrite Hloop.
    unfold bind at 1. unfold ASSERT at 1.
    destruct Hwalked as (Hlen & _).
    unfold PagesBuffer at 1. cbn [Io.FragmentCount Io.set_FragmentCount].
    match goal with
    | |- context [Z.of_nat ?l <=? PageCount] =>
        destruct (Z.leb_spec (Z.of_nat l) PageCount); [|lia]
    end.
    exists k2. split; [|intros _; exact Hlog].
    unfold ret. do 3 f_equal.
    unfold PagesBuffer, PageFragments, B0, NonPagedFlags. cbn.
    rewrite length_rev. reflexivity.
Qed.

Lemma PagesWalked_all (k : Kernel) (VirtualAddress Alignment : Z) (n : nat) :
  0 < Alignment ->
  PhysicalRuns k VirtualAddress (Z.of_nat n * MmPageSize) Alignment Alignment ->
  forall (m i : nat) (Newest : list IO_BUFFER_FRAGMENT),
  (i + m = n)%nat ->
  PagesWalked k VirtualAddress Alignment i Newest ->
  PagesWalked k VirtualAddress Alignment n
    (fold_left (CoalescePage k) (PageAddresses VirtualAddress i m) Newest).
Proof.
  intros Hal Hruns. induction m as [|m IH]; intros i Newest Him Hinv.
  - cbn. replace n with i by lia. exact Hinv.
  - unfold PageAddresses in *. cbn [seq map fold_left].
    apply IH; [lia|]. apply (PagesWalked_step k _ _ n); assumption || lia.
Qed.

Lemma NonPagedBuffer_FragmentsInUse (k : Kernel) (Alignment Size : Z)
    (PhysicallyContiguous : bool) (VirtualAddress : Z) :
  FragmentsInUse (NonPagedBuffer k Alignment Size PhysicallyContiguous
                    VirtualAddress)
  = if PhysicallyContiguous
    then [Frag.mk VirtualAddress (PageTable k VirtualAddress)
            (AlignedSize Alignment Size)]
    else PageFragments k VirtualAddress
           (Z.to_nat (AlignedSize Alignment Size / MmPageSize)).
Proof.
  unfold FragmentsInUse, NonPagedBuffer. cbn. rewrite Nat2Z.id.
  rewrite take_app_length. reflexivity.
Qed.

(** The fragments of a non-paged buffer add up to its size and are aligned,
    start and size, when the page table holds the runs the mapper is asked
    for. *)
Lemma NonPagedBuffer_aligned (k : Kernel) (Alignment Size : Z)
    (PhysicallyContiguous : bool) (VirtualAddress : Z) :
  0 <= Alignment -> 0 < Size ->
  PhysicalRuns k VirtualAddress (AlignedSize Alignment Size)
    (RunAlignment Alignment) (RunSize Alignment Size PhysicallyContiguous) ->
  let Fragments :=
    FragmentsInUse (NonPagedBuffer k Alignment Size PhysicallyContiguous
                      VirtualAddress) in
  SizeOfFragments Fragments = AlignedSize Alignment Size /\
  Forall (fun f => Frag.PhysicalAddress f mod RunAlignment Alignment = 0 /\
                   Frag.Size f mod RunAlignment Alignment = 0) Fragments.
Proof.
  intros Hal Hsize Hruns Fragments. subst Fragments.
  pose proof MmPageSize_pos as Hpos.
  destruct (RunAlignment_pages Alignment Hal) as (Hrun & _ & Hrunpages).
  destruct (AlignedSize_pages Alignment Size Hal Hsize)
    as (Hge & Hmult & Hpages & Hcount).
  rewrite NonPagedBuffer_FragmentsInUse.
  destruct PhysicallyContiguous.
  - destruct (Hruns 0 ltac:(lia) ltac:(lia)) as (_ & _ & _ & Hstart & _).
    cbv zeta in Hstart. rewrite Z.mul_0_l, Z.add_0_r in Hstart.
    cbn. split; [lia|]. constructor; [|constructor]. cbn.
    split; [|exact Hmult]. apply Hstart. apply Z.mod_0_l.
    unfold RunSize. lia.
  - set (n := Z.to_nat (AlignedSize Alignment Size / MmPageSize)).
    assert (Hn : Z.of_nat n * MmPageSize = AlignedSize Alignment Size).
    { subst n. rewrite Z2Nat.id by lia. symmetry. exact Hpages. }
    assert (Hstart : PagesWalked k VirtualAddress (RunAlignment Alignment)
                       0 []).
    { unfold PagesWalked. cbn. repeat split; auto. }
    rewrite <- Hn in Hruns.
    pose proof (PagesWalked_all k VirtualAddress (RunAlignment Alignment) n
                  Hrun Hruns n 0%nat [] eq_refl Hstart) as Hwalked.
    pose proof (PagesWalked_sizes k VirtualAddress (RunAlignment Alignment) n
                  _ Hrun ltac:(rewrite Hn; exact Hmult) Hwalked) as Hsizes.
    destruct Hwalked as (_ & Hsum & Hall & _).
    unfold PageFragments. rewrite SizeOfFragments_rev.
    split; [lia|]. apply Forall_rev.
    apply Forall_forall. intros f Hf.
    rewrite Forall_forall in Hall, Hsizes.
    split; [apply (Hall f Hf) | apply (Hsizes f Hf)].
Qed.

(** ** Validation *)

(** C6, amended.  For every buffer carrying USER_MODE whose remaining bytes
    hold the requested size or which is EXTENDABLE, a validation over the
    physical range the allocation accepts (minimum 0, maximum MAX_ULONG or
    MAX_ULONGLONG: line 263 asserts it) returns, with the original buffer as
    it was.  When the pool, the address space and the mapper answer, it
    returns STATUS_SUCCESS with a replacement that is a fresh non-paged
    buffer (the range was reserved and mapped by this call, the flags are
    those of [MmAllocateNonPagedIoBuffer]), whose size is the requested size
    rounded up to the alignment, the alignment rounded up to whole pages;
    whose fragments add up to that size and each start and end on a multiple
    of that alignment, hence of every divisor of it, the page table holding
    the runs the mapper was asked for; and which is one fragment when it is
    to be contiguous.  Otherwise it returns STATUS_INSUFFICIENT_RESOURCES
    and no replacement.  Nothing is said of the bounds of the physical
    range: they do not reach the mapper. *)
Theorem validate_user_buffer (b : IO_BUFFER)
    (MinimumPhysicalAddress MaximumPhysicalAddress Alignment SizeInBytes : Z)
    (PhysicallyContiguous : bool) (k : Kernel) :
  flag_set (Io.Flags b) IO_BUFFER_FLAG_USER_MODE = true ->
  (0 <= Io.CurrentOffset b /\
   Io.CurrentOffset b + SizeInBytes <= Io.TotalSize b /\
   Io.TotalSize b < 2 ^ UINTN_BITS) \/
  flag_set (Io.Flags b) IO_BUFFER_FLAG_EXTENDABLE = true ->
  MinimumPhysicalAddress = 0 ->
  MaximumPhysicalAddress = MAX_ULONG \/ MaximumPhysicalAddress = MAX_ULONGLONG ->
  0 <= Alignment -> RunAlignment Alignment < 2 ^ UINTN_BITS ->
  0 < SizeInBytes -> AlignedSize Alignment SizeInBytes < 2 ^ UINTN_BITS ->
  (AllocationSucceeds k = true ->
   0 <= snd (AddressRange k) /\
   snd (AddressRange k) + AlignedSize Alignment SizeInBytes <= 2 ^ UINTN_BITS /\
   PhysicalRuns k (snd (AddressRange k)) (AlignedSize Alignment SizeInBytes)
     (RunAlignment Alignment)
     (RunSize Alignment SizeInBytes PhysicallyContiguous)) ->
  exists v k',
    MmValidateIoBuffer MinimumPhysicalAddress MaximumPhysicalAddress Alignment
      SizeInBytes PhysicallyContiguous (Some b) k
    = Some (v, k') /\
    v_Buffer v = Some b /\
    if AllocationSucceeds k then
      v_Status v = STATUS_SUCCESS /\
      exists New,
        v_NewBuffer v = Some New /\
        Io.Flags New = NonPagedFlags /\
        Log k' = Log k ++ NonPagedCalls Alignment SizeInBytes
                            PhysicallyContiguous (snd (AddressRange k)) /\
        Io.CurrentOffset New = 0 /\
        Io.TotalSize New = AlignedSize Alignment SizeInBytes /\
        SizeInBytes <= Io.TotalSize New /\
        SizeOfFragments (FragmentsInUse New) = Io.TotalSize New /\
        (forall a, 0 < a -> RunAlignment Alignment mod a = 0 ->
                   Forall (AlignedFragment a) (FragmentsInUse New)) /\
        (PhysicallyContiguous = true ->
         FragmentsInUse New
         = [Frag.mk (snd (AddressRange k))
              (PageTable k (snd (AddressRange k)))
              (AlignedSize Alignment SizeInBytes)])
    else
      v_Status v = STATUS_INSUFFICIENT_RESOURCES /\ v_NewBuffer v = None.
Proof.
  intros Huser Hfits -> Hmax Hal Halfit Hsize Hfit Henv.
  destruct (MmAllocateNonPagedIoBuffer_run MaximumPhysicalAddress Alignment
              SizeInBytes PhysicallyContiguous k Hmax Hal Halfit Hsize Hfit
              Henv) as (k' & Hrun & Hlog).
  destruct (RunAlignment_pages Alignment Hal) as (Hrunpos & _ & _).
  destruct (AlignedSize_pages Alignment SizeInBytes Hal Hsize) as (Hge & _).
  assert (Hsmall : (Z.land (Io.Flags b) IO_BUFFER_FLAG_EXTENDABLE =? 0)
                   && (Io.TotalSize b
                       <? UINTN (Io.CurrentOffset b + SizeInBytes))
                   = false).
  { destruct Hfits as [(Hco & Hroom & Htotal) | Hext].
    - rewrite UINTN_small by lia.
      destruct (Z.ltb_spec (Io.TotalSize b) (Io.CurrentOffset b + SizeInBytes));
        [lia | apply andb_false_r].
    - unfold flag_set in Hext. apply negb_true_iff in Hext. rewrite Hext.
      reflexivity. }
  unfold MmValidateIoBuffer. rewrite Hsmall, Huser.
  unfold MmValidateIoBuffer_end. unfold bind at 1. rewrite Hrun.
  destruct (AllocationSucceeds k) eqn:Hok.
  - specialize (Henv eq_refl) as (_ & _ & Hruns). specialize (Hlog eq_refl).
    destruct (NonPagedBuffer_aligned k Alignment SizeInBytes
                PhysicallyContiguous (snd (AddressRange k)) Hal Hsize Hruns)
      as [Hsum Haligned].
    eexists. exists k'. split; [reflexivity|]. split; [reflexivity|].
    split; [reflexivity|]. eexists. split; [reflexivity|].
    split; [reflexivity|]. split; [exact Hlog|]. split; [reflexivity|].
    split; [reflexivity|]. split; [exact Hge|]. split; [exact Hsum|].
    split.
    + intros a Ha Hdiv. eapply Forall_impl; [exact Haligned|].
      cbn. intros f [Hf1 Hf2]. unfold AlignedFragment.
      rewrite !IS_ALIGNED_multiple.
      split; apply (multiple_trans _ (RunAlignment Alignment)); assumption.
    + intros ->. apply NonPagedBuffer_FragmentsInUse.
  - eexists. exists k'. repeat split; reflexivity.
Qed.

(** ** Extension, when it succeeds *)

Lemma MmpExtendIoBuffer_attach_size (b : IO_BUFFER)
    (FragmentIndex PhysicalAddress Bytes : Z) (k : Kernel) x k' :
  MmpExtendIoBuffer_attach b FragmentIndex PhysicalAddress Bytes k
  = Some (x, k') ->
  Io.TotalSize (fst x) = Io.TotalSize b /\ Io.Flags (fst x) = Io.Flags b.
Proof.
  unfold MmpExtendIoBuffer_attach. intros H.
  apply bind_Some in H as (f & k1 & _ & H).
  destruct ((Frag.VirtualAddress f =? NULL)
            && (ULONGLONG (Frag.PhysicalAddress f + Frag.Size f)
                =? PhysicalAddress)).
  - apply bind_Some in H as ([] & k2 & _ & H).
    apply bind_Some in H as (Table & k3 & _ & H).
    apply ret_Some in H as [= -> _]. split; reflexivity.
  - apply bind_Some in H as ([] & k2 & _ & H).
    apply bind_Some in H as (g & k3 & _ & H).
    apply bind_Some in H as ([] & k4 & _ & H).
    apply bind_Some in H as ([] & k5 & _ & H).
    apply bind_Some in H as ([] & k6 & _ & H).
    apply bind_Some in H as (Table & k7 & _ & H).
    apply ret_Some in H as [= -> _]. split; reflexivity.
Qed.

Lemma MmpExtendIoBuffer_pages_grows (n : nat) :
  forall (b : IO_BUFFER) (Alignment FragmentIndex : Z) (k : Kernel) b' k',
  0 <= Io.TotalSize b ->
  Io.TotalSize b + Z.of_nat n * MmPageSize < 2 ^ UINTN_BITS ->
  MmpExtendIoBuffer_pages n b Alignment FragmentIndex k
  = Some ((STATUS_SUCCESS, b'), k') ->
  Io.TotalSize b' = Io.TotalSize b + Z.of_nat n * MmPageSize /\
  Io.Flags b' = Io.Flags b.
Proof.
  pose proof MmPageSize_pos as Hpos.
  induction n as [|n IH]; intros b Alignment idx k b' k' Hlo Hhi H.
  - cbn in H. apply ret_Some in H as [= -> _]. split; [lia | reflexivity].
  - cbn [MmpExtendIoBuffer_pages] in H.
    apply bind_Some in H as (pa & k1 & _ & H).
    destruct (pa =? INVALID_PHYSICAL_ADDRESS).
    + apply ret_Some in H. discriminate.
    + apply bind_Some in H as (x & k2 & Hattach & H).
      apply MmpExtendIoBuffer_attach_size in Hattach as [Hsize Hflags].
      apply IH in H; cbn [Io.TotalSize Io.set_TotalSize Io.Flags] in *.
      * rewrite Hsize, Hflags in H.
        rewrite (UINTN_small (Io.TotalSize b + MmPageSize)) in H by lia.
        destruct H as [-> ->]. split; [lia | reflexivity].
      * rewrite Hsize. apply UINTN_range.
      * rewrite Hsize, (UINTN_small (Io.TotalSize b + MmPageSize)) by lia. lia.
Qed.

(** The success half of C1: an extension that returns STATUS_SUCCESS has
    grown the total size by [ceil(Size / page size)] pages, cleared MAPPED
    and set MEMORY_OWNED. *)
Lemma extension_grows (b : IO_BUFFER)
    (MinimumPhysicalAddress MaximumPhysicalAddress Alignment Size : Z)
    (PhysicallyContiguous : bool) (k : Kernel) b' k' :
  let PageCount := (Size + MmPageSize - 1) / MmPageSize in
  0 <= Size -> Size + MmPageSize <= 2 ^ UINTN_BITS ->
  0 <= Io.TotalSize b ->
  Io.TotalSize b + PageCount * MmPageSize < 2 ^ UINTN_BITS ->
  MmpExtendIoBuffer b MinimumPhysicalAddress MaximumPhysicalAddress Alignment
    Size PhysicallyContiguous k
  = Some ((STATUS_SUCCESS, b'), k') ->
  Io.TotalSize b' = Io.TotalSize b + PageCount * MmPageSize /\
  Io.Flags b'
  = Z.lor (Z.land (Io.Flags b) (Z.lnot IO_BUFFER_FLAG_MAPPED))
      IO_BUFFER_FLAG_MEMORY_OWNED.
Proof.
  intros PageCount Hsize Hfit Hlo Hhi H.
  pose proof MmPageSize_pos as Hpos. pose proof MmPageShift_range as Hshift.
  assert (Hcount : 0 <= PageCount) by (apply Z.div_pos; lia).
  unfold MmpExtendIoBuffer in H.
  apply bind_Some in H as ([] & k1 & _ & H).
  apply bind_Some in H as ([] & k2 & _ & H).
  rewrite (ALIGN_RANGE_UP_pages Size Hsize Hfit) in H. fold PageCount in H.
  destruct (UINTN (Io.MaxFragmentCount b - Io.FragmentCount b) <? PageCount).
  { apply ret_Some in H. discriminate. }
  apply bind_Some in H as ([Status b1] & k3 & Hbody & H).
  cbn [fst snd] in H.
  destruct Status; cbn [KSUCCESS negb] in H;
    try (apply ret_Some in H; discriminate).
  apply ret_Some in H as [= -> _].
  cbn [Io.TotalSize Io.set_Flags Io.Flags].
  assert (Hb1 : Io.TotalSize b1 = Io.TotalSize b + PageCount * MmPageSize
                /\ Io.Flags b1 = Io.Flags b).
  { destruct PhysicallyContiguous.
    - apply bind_Some in Hbody as (pa & k4 & _ & Hbody).
      destruct (pa =? INVALID_PHYSICAL_ADDRESS).
      + apply ret_Some in Hbody. discriminate.
      + apply bind_Some in Hbody as (x & k5 & Hattach & Hbody).
        apply MmpExtendIoBuffer_attach_size in Hattach as [Hs Hf].
        apply ret_Some in Hbody as [= -> _].
        cbn [Io.TotalSize Io.set_TotalSize Io.Flags]. rewrite Hs, Hf.
        rewrite Z.shiftl_mul_pow2 by lia. fold MmPageSize.
        rewrite (UINTN_small (PageCount * MmPageSize)) by nia.
        rewrite UINTN_small by nia. split; reflexivity.
    - apply MmpExtendIoBuffer_pages_grows in Hbody;
        rewrite ?Z2Nat.id in * by lia; try assumption. }
  destruct Hb1 as [-> ->]. split; reflexivity.
Qed.

(** * More properties of iobuf.c *)

(** ** Is the buffer mapped? *)

Lemma VirtuallyAdjacent_cons (VirtualAddress : Z) (f : IO_BUFFER_FRAGMENT)
    (l : list IO_BUFFER_FRAGMENT) :
  VirtuallyAdjacent VirtualAddress (f :: l) <->
  Frag.VirtualAddress f = UINTN VirtualAddress /\
  VirtuallyAdjacent (UINTN (VirtualAddress + Frag.Size f)) l.
Proof.
  unfold VirtuallyAdjacent. split.
  - intros H. split.
    + rewrite (H 0%nat f eq_refl). cbn. rewrite Z.add_0_r. reflexivity.
    + intros j g Hj. rewrite (H (S j) g Hj). cbn [take SizeOfFragments].
      rewrite UINTN_add_idemp. f_equal. lia.
  - intros [Hf Hl] [|j] g Hj.
    + injection Hj as <-. cbn. rewrite Z.add_0_r. exact Hf.
    + cbn in Hj. rewrite (Hl j g Hj). cbn [take SizeOfFragments].
      rewrite UINTN_add_idemp. f_equal. lia.
Qed.

(** The loop over the fragments [l] of the table from [FragmentIndex] on. *)
Lemma MmpIsIoBufferMapped_loop_run (b : IO_BUFFER) (VirtuallyContiguous : bool)
    (k : Kernel) (l : list IO_BUFFER_FRAGMENT) :
  forall (FragmentIndex VirtualAddress : Z),
  0 <= FragmentIndex ->
  0 <= VirtualAddress < 2 ^ UINTN_BITS ->
  (forall j f, l !! j = Some f ->
               Io.Fragment b !! (Z.to_nat FragmentIndex + j)%nat = Some f) ->
  exists r,
    MmpIsIoBufferMapped_loop (length l) b VirtuallyContiguous FragmentIndex
      VirtualAddress k = Some (r, k) /\
    (r = true <-> FragmentsMapped VirtuallyContiguous VirtualAddress l).
Proof.
  induction l as [|f l IH]; intros idx va Hidx Hva Hseg.
  - exists true. split; [reflexivity|]. split; [|reflexivity].
    intros _. split; [constructor|]. intros _ j g Hj. discriminate.
  - cbn [length MmpIsIoBufferMapped_loop]. unfold bind at 1. unfold read.
    rewrite <- (Nat.add_0_r (Z.to_nat idx)), (Hseg 0%nat f eq_refl).
    assert (Hseg' : forall j g, l !! j = Some g ->
                      Io.Fragment b !! (Z.to_nat (idx + 1) + j)%nat = Some g).
    { intros j g Hj. replace (Z.to_nat (idx + 1) + j)%nat
        with (Z.to_nat idx + S j)%nat by lia. apply Hseg. exact Hj. }
    destruct (IH (idx + 1) (UINTN (va + Frag.Size f)) ltac:(lia)
                (UINTN_range _) Hseg') as (r & Hrun & Hr).
    unfold FragmentsMapped in *.
    destruct (Z.eqb_spec (Frag.VirtualAddress f) NULL) as [Hnull|Hnn].
    + exists false. split; [reflexivity|]. split; [discriminate|].
      intros [Hall _]. apply Forall_inv in Hall. contradiction.
    + cbn [orb]. destruct VirtuallyContiguous.
      * cbn [andb]. destruct (Z.eqb_spec va (Frag.VirtualAddress f)) as [Heq|Hne].
        -- cbn [negb]. exists r. split; [exact Hrun|]. rewrite Hr.
           split.
           ++ intros [Hall Hadj]. split; [constructor; assumption|].
              intros _. apply VirtuallyAdjacent_cons.
              split; [rewrite UINTN_small by lia; auto | auto].
           ++ intros [Hall Hadj]. split; [exact (Forall_inv_tail Hall)|].
              intros _. specialize (Hadj eq_refl).
              apply VirtuallyAdjacent_cons in Hadj. tauto.
        -- cbn [negb]. exists false. split; [reflexivity|].
           split; [discriminate|]. intros [_ Hadj]. specialize (Hadj eq_refl).
           apply VirtuallyAdjacent_cons in Hadj as [Hf _].
           rewrite UINTN_small in Hf by lia. congruence.
      * cbn [andb]. exists r. split; [exact Hrun|]. rewrite Hr.
        split.
        -- intros [Hall _]. split; [constructor; assumption | discriminate].
        -- intros [Hall _]. split; [exact (Forall_inv_tail Hall) | discriminate].
Qed.

(** X1.  [MmpIsIoBufferMapped] on a buffer with at least one fragment (its
    fragments in the table, their addresses pointers) answers TRUE exactly
    when every fragment in use has a virtual address and, for a virtually
    contiguous mapping, each fragment starts where the previous one ends,
    from the address of the first fragment on; it calls nothing. *)
Theorem is_mapped_exactly (b : IO_BUFFER) (VirtuallyContiguous : bool)
    (k : Kernel) :
  1 <= Io.FragmentCount b ->
  (Z.to_nat (Io.FragmentCount b) <= length (Io.Fragment b))%nat ->
  Forall (fun f => 0 <= Frag.VirtualAddress f < 2 ^ UINTN_BITS)
    (FragmentsInUse b) ->
  exists r First,
    head (FragmentsInUse b) = Some First /\
    MmpIsIoBufferMapped b VirtuallyContiguous k = Some (r, k) /\
    (r = true <->
     FragmentsMapped VirtuallyContiguous (Frag.VirtualAddress First)
       (FragmentsInUse b)).
Proof.
  intros Hcount Htable Hptr.
  pose proof (FragmentsInUse_length b Htable) as Hlen.
  destruct (FragmentsInUse b) as [|First l] eqn:Huse; [cbn in Hlen; lia|].
  assert (Hseg : forall j f, (First :: l) !! j = Some f ->
                             Io.Fragment b !! (Z.to_nat 0 + j)%nat = Some f).
  { intros j f Hj. cbn. apply FragmentsInUse_lookup. rewrite Huse. exact Hj. }
  destruct (MmpIsIoBufferMapped_loop_run b VirtuallyContiguous k (First :: l)
              0 (Frag.VirtualAddress First) ltac:(lia) (Forall_inv Hptr) Hseg)
    as (r & Hrun & Hr).
  exists r, First. split; [reflexivity|]. split; [|exact Hr].
  unfold MmpIsIoBufferMapped. unfold bind at 1. unfold ASSERT.
  destruct (Z.leb_spec 1 (Io.FragmentCount b)); [|lia].
  unfold bind at 1. unfold read.
  pose proof (Hseg 0%nat First eq_refl) as Hfirst.
  change (Z.to_nat 0 + 0)%nat with (Z.to_nat 0) in Hfirst. rewrite Hfirst.
  rewrite <- Hlen. exact Hrun.
Qed.

(** ** Page cache entries of a buffer *)

Lemma flag_set_lor (Flags Flag : Z) :
  Flag <> 0 -> flag_set (Z.lor Flags Flag) Flag = true.
Proof.
  intros Hnz. unfold flag_set.
  assert (H : Z.land (Z.lor Flags Flag) Flag = Flag).
  { apply Z.bits_inj'. intros n Hn.
    rewrite Z.land_spec, Z.lor_spec.
    destruct (Z.testbit Flags n), (Z.testbit Flag n); reflexivity. }
  rewrite H. destruct (Z.eqb_spec Flag 0); [contradiction | reflexivity].
Qed.

Lemma MmGetIoBufferPhysicalAddress_loop_kernel (b : IO_BUFFER) (n : nat) :
  forall (Offset FragmentIndex FragmentStart : Z) (k : Kernel) r k',
  MmGetIoBufferPhysicalAddress_loop n b Offset FragmentIndex FragmentStart k
  = Some (r, k') ->
  k' = k.
Proof.
  induction n as [|n IH]; intros Offset idx start k r k' H.
  - apply ret_Some in H as [= _ ->]. reflexivity.
  - cbn [MmGetIoBufferPhysicalAddress_loop] in H.
    apply bind_Some in H as (f & k1 & H1 & H).
    apply read_Some in H1 as (f' & _ & [= -> ->]).
    destruct ((start <=? Offset)
              && (Offset <? UINTN (start + Frag.Size f'))).
    + apply ret_Some in H as [= _ ->]. reflexivity.
    + apply IH in H. exact H.
Qed.

(** X2.  Round trip of the page cache entry of a page: a completed
    [MmSetIoBufferPageCacheEntry] found the slot of the page empty, has taken
    exactly one reference on the entry, has stored it in that slot alone and
    has set PAGE_CACHE_BACKED; [MmGetIoBufferPageCacheEntry] at the same
    offset then returns the entry.  The fragments, the sizes and the cursor
    are as before.  The physical address of the entry is the one
    [MmGetIoBufferPhysicalAddress] gives for the offset the cursor is already
    added to (line 2571 hands it that offset, and it adds the cursor
    again). *)
Theorem page_cache_entry_set_get (b : IO_BUFFER) (IoBufferOffset : Z)
    (PageCacheEntry : PAGE_CACHE_ENTRY) (k : Kernel) b' k' :
  MmSetIoBufferPageCacheEntry b IoBufferOffset PageCacheEntry k
  = Some (b', k') ->
  let PageIndex :=
    Z.to_nat (Z.shiftr (UINTN (IoBufferOffset + Io.CurrentOffset b))
                MmPageShift) in
  Log k' = Log k ++ [CallIoPageCacheEntryAddReference PageCacheEntry] /\
  (exists PageCacheEntries,
     Io.PageCacheEntries b = Some PageCacheEntries /\
     PageCacheEntries !! PageIndex = Some None /\
     Io.PageCacheEntries b'
     = Some (<[PageIndex := Some PageCacheEntry]> PageCacheEntries)) /\
  flag_set (Io.Flags b') IO_BUFFER_FLAG_PAGE_CACHE_BACKED = true /\
  MmGetIoBufferPageCacheEntry b' IoBufferOffset k'
  = Some (Some PageCacheEntry, k') /\
  Io.Fragment b' = Io.Fragment b /\
  Io.FragmentCount b' = Io.FragmentCount b /\
  Io.TotalSize b' = Io.TotalSize b /\
  Io.CurrentOffset b' = Io.CurrentOffset b /\
  MmGetIoBufferPhysicalAddress b (UINTN (IoBufferOffset + Io.CurrentOffset b)) k
  = Some (Pce.PhysicalAddress PageCacheEntry, k).
Proof.
  intros H PageIndex. unfold MmSetIoBufferPageCacheEntry in H.
  apply bind_Some in H as ([] & k1 & H1 & H).
  apply ASSERT_Some in H1 as [Haligned [= ->]].
  apply bind_Some in H as ([] & k1 & H1 & H).
  apply ASSERT_Some in H1 as [Hkernel [= ->]].
  apply bind_Some in H as ([] & k1 & H1 & H).
  apply ASSERT_Some in H1 as [Hindex [= ->]].
  destruct (Io.PageCacheEntries b) as [Entries|] eqn:Htable;
    [|apply stop_Some in H; destruct H].
  apply bind_Some in H as (Slot & k1 & H1 & H).
  apply read_Some in H1 as (Slot' & Hslot & [= -> ->]).
  apply bind_Some in H as ([] & k1 & H1 & H).
  apply ASSERT_Some in H1 as [Hempty [= ->]].
  apply bool_decide_eq_true in Hempty. subst Slot'.
  apply bind_Some in H as (pa & k1 & Hpa & H).
  pose proof Hpa as H1. unfold MmGetIoBufferPhysicalAddress in H1.
  apply MmGetIoBufferPhysicalAddress_loop_kernel in H1. subst k1.
  apply bind_Some in H as ([] & k1 & H1 & H).
  apply ASSERT_Some in H1 as [Hsame [= ->]].
  apply Z.eqb_eq in Hsame. subst pa.
  apply bind_Some in H as ([] & k1 & H1 & H).
  apply call_Some in H1 as [= ->].
  apply bind_Some in H as (Entries' & k2 & H1 & H).
  apply write_Some in H1 as [Hlen [= -> ->]].
  apply ret_Some in H as [= -> ->].
  fold PageIndex in Hslot, Hlen |- *.
  split; [reflexivity|].
  split; [exists Entries; repeat split; assumption|].
  cbn [Io.Flags Io.set_Flags Io.set_PageCacheEntries Io.Fragment
       Io.FragmentCount Io.TotalSize Io.CurrentOffset].
  split; [apply flag_set_lor; discriminate|].
  split; [|repeat split; exact Hpa].
  unfold MmGetIoBufferPageCacheEntry.
  cbn [Io.Flags Io.set_Flags Io.set_PageCacheEntries Io.CurrentOffset
       Io.PageCount Io.PageCacheEntries].
  pose proof (flag_set_lor (Io.Flags b) IO_BUFFER_FLAG_PAGE_CACHE_BACKED
                ltac:(discriminate)) as Hflag.
  unfold flag_set in Hflag. apply negb_true_iff in Hflag. rewrite Hflag.
  rewrite Haligned. unfold bind at 1. unfold ASSERT at 1.
  assert (Huser : (Z.land (Z.lor (Io.Flags b) IO_BUFFER_FLAG_PAGE_CACHE_BACKED)
                     IO_BUFFER_FLAG_USER_MODE =? 0) = true).
  { rewrite Z.land_lor_distr_l.
    apply Z.eqb_eq in Hkernel. rewrite Hkernel. reflexivity. }
  rewrite Huser. unfold bind at 1. unfold ASSERT at 1.
  rewrite Hindex. unfold bind at 1. unfold ASSERT at 1.
  unfold read. fold PageIndex.
  rewrite list_lookup_insert_eq by exact Hlen. reflexivity.
Qed.

(** ** What a computation logs *)

Lemma set_Log_same (k : Kernel) : set_Log (Log k ++ []) k = k.
Proof. destruct k. unfold set_Log. cbn. rewrite app_nil_r. reflexivity. Qed.

Lemma set_Log_twice (k : Kernel) (l1 l2 : list Event) :
  set_Log (Log (set_Log (Log k ++ l1) k) ++ l2) (set_Log (Log k ++ l1) k)
  = set_Log (Log k ++ l1 ++ l2) k.
Proof. unfold set_Log. cbn. rewrite app_assoc. reflexivity. Qed.

Lemma Logs_ret (P : Event -> Prop) {A : Type} (a : A) : Logs P (ret a).
Proof.
  intros k r k' H. apply ret_Some in H as [= -> ->].
  exists []. split; [symmetry; apply set_Log_same | constructor].
Qed.

Lemma Logs_stop (P : Event -> Prop) {A : Type} : Logs P (@stop A).
Proof. intros k r k' H. discriminate. Qed.

Lemma Logs_ASSERT (P : Event -> Prop) (c : bool) : Logs P (ASSERT c).
Proof.
  intros k r k' H. apply ASSERT_Some in H as [_ [= -> ->]].
  exists []. split; [symmetry; apply set_Log_same | constructor].
Qed.

Lemma Logs_read (P : Event -> Prop) {A : Type} (Table : list A) (Index : Z) :
  Logs P (read Table Index).
Proof.
  intros k r k' H. apply read_Some in H as (a & _ & [= -> ->]).
  exists []. split; [symmetry; apply set_Log_same | constructor].
Qed.

Lemma Logs_write (P : Event -> Prop) {A : Type} (Table : list A) (Index : Z)
    (a : A) :
  Logs P (write Table Index a).
Proof.
  intros k r k' H. apply write_Some in H as [_ [= -> ->]].
  exists []. split; [symmetry; apply set_Log_same | constructor].
Qed.

Lemma Logs_call (P : Event -> Prop) (e : Event) : P e -> Logs P (call e).
Proof.
  intros He k r k' H. apply call_Some in H as [= -> ->].
  exists [e]. split; [reflexivity | constructor; [exact He | constructor]].
Qed.

Lemma Logs_bind (P : Event -> Prop) {A B : Type} (m : Mm A) (f : A -> Mm B) :
  Logs P m -> (forall a, Logs P (f a)) -> Logs P (bind m f).
Proof.
  intros Hm Hf k r k' H. apply bind_Some in H as (a & k1 & H1 & H2).
  apply Hm in H1 as (l1 & -> & Hl1). apply Hf in H2 as (l2 & -> & Hl2).
  exists (l1 ++ l2). split; [apply set_Log_twice | apply Forall_app; auto].
Qed.

Lemma Logs_impl (P Q : Event -> Prop) {A : Type} (m : Mm A) :
  (forall e, P e -> Q e) -> Logs P m -> Logs Q m.
Proof.
  intros HPQ Hm k r k' H. apply Hm in H as (l & -> & Hl).
  exists l. split; [reflexivity|]. eapply Forall_impl; eassumption.
Qed.

(** Breaks a goal [Logs P m] down along the structure of [m]. *)
Ltac logs :=
  repeat first
    [ apply Logs_ret | apply Logs_stop | apply Logs_ASSERT | apply Logs_read
    | apply Logs_write | apply Logs_bind; [|intros ?]
    | match goal with
      | |- Logs _ (if ?c then _ else _) => destruct c
      | |- Logs _ (match ?x with Some _ => _ | None => _ end) => destruct x
      | |- Logs _ (let _ := _ in _) => cbv zeta
      end ].

(** ** Release and free *)

Lemma MmpReleaseIoBufferResources_pages_logs (Flags : Z)
    (Fragment : IO_BUFFER_FRAGMENT) (n : nat) :
  forall (PageIndex : Z) Slots Entry (PhysicalAddress : Z),
  Logs (fun e => ReleaseCall e = true)
    (MmpReleaseIoBufferResources_pages n Flags Fragment PageIndex Slots Entry
       PhysicalAddress).
Proof.
  induction n as [|n IH]; intros PageIndex Slots Entry pa;
    cbn [MmpReleaseIoBufferResources_pages]; [apply Logs_ret|].
  apply Logs_bind; [destruct Slots; logs|]. intros [Slots1 Entry1]. cbn [fst snd].
  destruct Entry1 as [e|].
  - apply Logs_bind; [apply Logs_ASSERT | intros _].
    apply Logs_bind; [apply Logs_call; reflexivity | intros _; apply IH].
  - destruct (flag_set Flags IO_BUFFER_FLAG_MEMORY_OWNED).
    + apply Logs_bind; [apply Logs_call; reflexivity | intros _; apply IH].
    + apply Logs_bind; [apply Logs_ASSERT | intros _].
      apply Logs_bind; [apply Logs_ASSERT | intros _; apply IH].
Qed.

Lemma MmpReleaseIoBufferResources_fragments_logs (Flags : Z) (b : IO_BUFFER)
    (n : nat) :
  forall (FragmentIndex : Z) Slots Entry,
  Logs (fun e => ReleaseCall e = true)
    (MmpReleaseIoBufferResources_fragments n Flags b FragmentIndex Slots Entry).
Proof.
  induction n as [|n IH]; intros idx Slots Entry;
    cbn [MmpReleaseIoBufferResources_fragments]; [apply Logs_ret|].
  apply Logs_bind; [apply Logs_read | intros f].
  apply Logs_bind; [apply Logs_ASSERT | intros _].
  apply Logs_bind; [apply Logs_ASSERT | intros _]. cbv zeta.
  apply Logs_bind; [apply MmpReleaseIoBufferResources_pages_logs|].
  intros x. apply IH.
Qed.

Lemma MmpReleaseIoBufferResources_unlock_pages_logs
    (Entries : list (option PAGE_CACHE_ENTRY)) (n : nat) :
  forall (CacheEntryIndex PhysicalAddress : Z),
  Logs (fun e => ReleaseCall e = true)
    (MmpReleaseIoBufferResources_unlock_pages n Entries CacheEntryIndex
       PhysicalAddress).
Proof.
  induction n as [|n IH]; intros idx pa;
    cbn [MmpReleaseIoBufferResources_unlock_pages]; [apply Logs_ret|].
  apply Logs_bind; [apply Logs_read|]. intros [e|].
  - apply Logs_bind; [apply Logs_call; reflexivity | intros _; apply IH].
  - apply Logs_bind; [apply Logs_call; reflexivity | intros _; apply IH].
Qed.

Lemma MmpReleaseIoBufferResources_unlock_logs (b : IO_BUFFER)
    (Entries : list (option PAGE_CACHE_ENTRY)) (n : nat) :
  forall (FragmentIndex CacheEntryIndex : Z),
  Logs (fun e => ReleaseCall e = true)
    (MmpReleaseIoBufferResources_unlock n b Entries FragmentIndex
       CacheEntryIndex).
Proof.
  induction n as [|n IH]; intros idx cidx;
    cbn [MmpReleaseIoBufferResources_unlock]; [apply Logs_ret|].
  apply Logs_bind; [apply Logs_read | intros f]. cbv zeta.
  apply Logs_bind; [apply MmpReleaseIoBufferResources_unlock_pages_logs|].
  intros x. apply IH.
Qed.

Lemma MmpUnmapIoBuffer_logs (b : IO_BUFFER) :
  Logs (fun e => ReleaseCall e = true) (MmpUnmapIoBuffer b).
Proof.
  unfold MmpUnmapIoBuffer.
  apply Logs_bind; [apply Logs_ASSERT | intros _].
  apply Logs_bind; [logs | intros Entries].
  apply Logs_bind; [apply Logs_call; reflexivity | intros _; apply Logs_ret].
Qed.

(** The release of the resources of a buffer calls nothing but releases, and
    leaves the rest of the kernel as it was. *)
Lemma MmpReleaseIoBufferResources_logs (b : IO_BUFFER) :
  Logs (fun e => ReleaseCall e = true) (MmpReleaseIoBufferResources b).
Proof.
  unfold MmpReleaseIoBufferResources. cbv zeta.
  apply Logs_bind.
  - destruct (flag_set (Io.Flags b) IO_BUFFER_FLAG_UNMAP_ON_FREE);
      [apply MmpUnmapIoBuffer_logs | apply Logs_ret].
  - intros b1. apply Logs_bind; [|intros _; apply Logs_ret].
    destruct (flag_set (Io.Flags b) IO_BUFFER_FLAG_MEMORY_OWNED
              || flag_set (Io.Flags b) IO_BUFFER_FLAG_PAGE_CACHE_BACKED).
    + apply MmpReleaseIoBufferResources_fragments_logs.
    + destruct (negb (flag_set (Io.Flags b) IO_BUFFER_FLAG_MEMORY_OWNED)
                && flag_set (Io.Flags b) IO_BUFFER_FLAG_MEMORY_LOCKED);
        [|apply Logs_ret].
      apply Logs_bind; [apply Logs_ASSERT | intros _].
      apply Logs_bind; [apply Logs_ASSERT | intros _].
      destruct (Io.PageCacheEntries b1);
        [apply MmpReleaseIoBufferResources_unlock_logs | apply Logs_stop].
Qed.

(** X3.  A completed [MmFreeIoBuffer] does nothing to the kernel but log
    calls: first the releases of what the buffer holds (pages, locks,
    references, virtual ranges), then, unless the structure is the caller's
    (STRUCTURE_NOT_OWNED), exactly one call that gives the structure back, to
    the non-paged pool when NON_PAGED is set and to the paged pool otherwise.
    A structure of the caller's is left in place, its cursor at 0. *)
Theorem free_gives_structure_back (b : IO_BUFFER) (k : Kernel) r k' :
  MmFreeIoBuffer b k = Some (r, k') ->
  exists calls,
    Forall (fun e => ReleaseCall e = true) calls /\
    if Z.land (Io.Flags b) IO_BUFFER_FLAG_STRUCTURE_NOT_OWNED =? 0 then
      r = None /\
      k' = set_Log
             (Log k ++ calls
              ++ [if flag_set (Io.Flags b) IO_BUFFER_FLAG_NON_PAGED
                  then CallMmFreeNonPagedPool else CallMmFreePagedPool]) k
    else
      k' = set_Log (Log k ++ calls) k /\
      exists b',
        r = Some b' /\ Io.CurrentOffset b' = 0 /\
        Io.Fragment b' = Io.Fragment b /\
        Io.FragmentCount b' = Io.FragmentCount b /\
        Io.TotalSize b' = Io.TotalSize b.
Proof.
  unfold MmFreeIoBuffer. intros H.
  apply bind_Some in H as (b1 & k1 & H1 & H).
  pose proof (MmpReleaseIoBufferResources_buffer b k b1 k1 H1) as Hb1.
  apply MmpReleaseIoBufferResources_logs in H1 as (calls & -> & Hcalls).
  exists calls. split; [exact Hcalls|].
  destruct (Z.land (Io.Flags b) IO_BUFFER_FLAG_STRUCTURE_NOT_OWNED =? 0).
  - apply bind_Some in H as ([] & k2 & H2 & H).
    apply ret_Some in H as [= -> ->]. split; [reflexivity|].
    destruct (flag_set (Io.Flags b) IO_BUFFER_FLAG_NON_PAGED);
      apply call_Some in H2 as [= ->]; apply set_Log_twice.
  - apply ret_Some in H as [= -> ->]. split; [reflexivity|].
    exists b1. subst b1. repeat split.
Qed.

(** ** Initialization in the caller's storage *)

(** X4.  A completed [MmInitializeIoBuffer] has called nothing and leaves a
    structure of the caller's (STRUCTURE_NOT_OWNED) with room for one
    fragment, the cursor at 0, and MAPPED exactly when a virtual address was
    given.  The physical address it works with is the one given or, when only
    a virtual address was given, its translation.  Without one the buffer is
    empty and no virtual address was given either; with one the buffer is the
    one fragment of the given size, which is not 0 and is the total size, and
    the physical address at an offset inside is that address plus the
    offset. *)
Theorem initialize_one_fragment
    (VirtualAddress PhysicalAddress SizeInBytes : Z)
    (CacheBacked MemoryLocked : bool) (k : Kernel) b k' :
  0 <= SizeInBytes < 2 ^ UINTN_BITS ->
  MmInitializeIoBuffer VirtualAddress PhysicalAddress SizeInBytes CacheBacked
    MemoryLocked k = Some (b, k') ->
  let Known :=
    if PhysicalAddress =? INVALID_PHYSICAL_ADDRESS
    then if VirtualAddress =? NULL then INVALID_PHYSICAL_ADDRESS
         else PageTable k VirtualAddress
    else PhysicalAddress in
  k' = k /\
  flag_set (Io.Flags b) IO_BUFFER_FLAG_STRUCTURE_NOT_OWNED = true /\
  flag_set (Io.Flags b) IO_BUFFER_FLAG_MAPPED = negb (VirtualAddress =? NULL) /\
  Io.MaxFragmentCount b = 1 /\ Io.CurrentOffset b = 0 /\
  if Known =? INVALID_PHYSICAL_ADDRESS then
    VirtualAddress = NULL /\ FragmentsInUse b = [] /\ Io.TotalSize b = 0
  else
    SizeInBytes <> 0 /\
    FragmentsInUse b = [Frag.mk VirtualAddress Known SizeInBytes] /\
    Io.TotalSize b = SizeInBytes /\
    forall Offset,
      0 <= Offset < SizeInBytes ->
      MmGetIoBufferPhysicalAddress b Offset k
      = Some (ULONGLONG (Known + Offset), k).
Proof.
  intros Hsize H Known. unfold MmInitializeIoBuffer in H. cbv zeta in H.
  apply bind_Some in H as ([] & k1 & H1 & H).
  apply ASSERT_Some in H1 as [_ [= ->]].
  apply bind_Some in H as ([b1 pa] & k1 & H1 & H). cbn [fst snd] in H.
  set (b0 := if MemoryLocked then _ else _) in H1.
  assert (Hb0 : flag_set (Io.Flags b0) IO_BUFFER_FLAG_STRUCTURE_NOT_OWNED = true
                /\ flag_set (Io.Flags b0) IO_BUFFER_FLAG_MAPPED = false
                /\ Io.MaxFragmentCount b0 = 1 /\ Io.CurrentOffset b0 = 0
                /\ Io.Fragment b0 = [Frag.zero] /\ Io.FragmentCount b0 = 0
                /\ Io.TotalSize b0 = 0).
  { subst b0. destruct MemoryLocked, CacheBacked; repeat split. }
  destruct Hb0 as (Hsno & Hmapped & Hmax & Hcur & Htable & Hcount & Htotal).
  assert (Hstep : k1 = k /\ pa = Known
                  /\ flag_set (Io.Flags b1) IO_BUFFER_FLAG_STRUCTURE_NOT_OWNED
                     = true
                  /\ flag_set (Io.Flags b1) IO_BUFFER_FLAG_MAPPED
                     = negb (VirtualAddress =? NULL)
                  /\ (VirtualAddress <> NULL -> pa <> INVALID_PHYSICAL_ADDRESS)
                  /\ Io.MaxFragmentCount b1 = 1 /\ Io.CurrentOffset b1 = 0
                  /\ Io.Fragment b1 = [Frag.zero] /\ Io.FragmentCount b1 = 0
                  /\ Io.TotalSize b1 = 0).
  { subst Known. clearbody b0.
    assert (Hflags : forall F,
              flag_set F IO_BUFFER_FLAG_STRUCTURE_NOT_OWNED = true ->
              flag_set (Z.lor F (Z.lor IO_BUFFER_FLAG_MAPPED
                                   IO_BUFFER_FLAG_VIRTUALLY_CONTIGUOUS))
                IO_BUFFER_FLAG_STRUCTURE_NOT_OWNED = true
              /\ flag_set (Z.lor F (Z.lor IO_BUFFER_FLAG_MAPPED
                                      IO_BUFFER_FLAG_VIRTUALLY_CONTIGUOUS))
                   IO_BUFFER_FLAG_MAPPED = true).
    { intros F HF. unfold flag_set in *. rewrite !Z.land_lor_distr_l.
      apply negb_true_iff, Z.eqb_neq in HF. split; apply negb_true_iff, Z.eqb_neq.
      - intros H0. apply Z.lor_eq_0_iff in H0 as [H0 _]. contradiction.
      - intros H0. apply Z.lor_eq_0_iff in H0 as [_ H0]. discriminate. }
    destruct (Z.eqb_spec VirtualAddress NULL) as [Hnull|Hnn]; cbn [negb] in H1 |- *.
    - apply ret_Some in H1 as [= -> -> ->].
      destruct (Z.eqb_spec PhysicalAddress INVALID_PHYSICAL_ADDRESS) as [->|];
        repeat split; auto; contradiction.
    - destruct (Hflags (Io.Flags b0) Hsno) as [Hs Hm].
      destruct (Z.eqb_spec PhysicalAddress INVALID_PHYSICAL_ADDRESS) as [Hinv|Hval].
      + apply bind_Some in H1 as (pa' & k2 & H2 & H1).
        unfold MmpVirtualToPhysical in H2. injection H2 as <- <-.
        apply bind_Some in H1 as ([] & k2 & H2 & H1).
        apply ASSERT_Some in H2 as [Hpa [= ->]].
        apply ret_Some in H1 as [= -> -> ->].
        apply negb_true_iff, Z.eqb_neq in Hpa. repeat split; auto.
      + apply ret_Some in H1 as [= -> -> ->]. repeat split; auto. }
  destruct Hstep as (-> & -> & Hsno1 & Hmapped1 & Hvalid & Hmax1 & Hcur1
                     & Htable1 & Hcount1 & Htotal1).
  destruct (Z.eqb_spec Known INVALID_PHYSICAL_ADDRESS) as [Hinv|Hval];
    cbn [negb] in H.
  - apply ret_Some in H as [= -> ->].
    repeat split; try assumption.
    + destruct (Z.eq_dec VirtualAddress NULL) as [|Hnn]; [assumption|].
      exfalso. exact (Hvalid Hnn Hinv).
    + unfold FragmentsInUse. rewrite Hcount1. reflexivity.
  - apply bind_Some in H as ([] & k2 & H2 & H).
    apply ASSERT_Some in H2 as [Hnz [= ->]].
    apply negb_true_iff, Z.eqb_neq in Hnz.
    apply bind_Some in H as (Table & k2 & H2 & H).
    apply write_Some in H2 as [_ [= -> ->]].
    apply ret_Some in H as [= -> ->].
    cbn [Io.Flags Io.set_FragmentCount Io.set_Fragment Io.set_TotalSize
         Io.MaxFragmentCount Io.CurrentOffset Io.TotalSize Io.Fragment
         Io.FragmentCount].
    rewrite Htable1.
    repeat split; try assumption.
    intros Offset Hoff. unfold MmGetIoBufferPhysicalAddress.
    cbn [Io.Flags Io.set_FragmentCount Io.set_Fragment Io.set_TotalSize
         Io.MaxFragmentCount Io.CurrentOffset Io.TotalSize Io.Fragment
         Io.FragmentCount].
    rewrite Hcur1, Z.add_0_r. rewrite (UINTN_small Offset) by lia.
    change (Z.to_nat 1) with 1%nat. change (Z.to_nat 0) with 0%nat.
    cbn [MmGetIoBufferPhysicalAddress_loop Io.Fragment Io.set_FragmentCount
         Io.set_Fragment insert list_insert].
    unfold bind, read, ret. change (Z.to_nat 0) with 0%nat.
    cbn [lookup list_lookup Frag.Size Frag.PhysicalAddress].
    rewrite Z.add_0_l, (UINTN_small SizeInBytes) by lia.
    destruct (Z.leb_spec 0 Offset); [|lia].
    destruct (Z.ltb_spec Offset SizeInBytes); [|lia].
    cbn. rewrite Z.sub_0_r, (UINTN_small Offset) by lia. reflexivity.
Qed.

(** X5.  A buffer initialized as locked memory that is not cache-backed
    cannot be released: it holds MEMORY_LOCKED with a page count of 0 and no
    page cache entry table, and the release of a locked buffer asserts both
    (lines 2954-2955).  Neither [MmFreeIoBuffer] nor [MmResetIoBuffer]
    completes on it. *)
Theorem initialize_locked_release_stops
    (VirtualAddress PhysicalAddress SizeInBytes : Z) (k : Kernel) b k' :
  MmInitializeIoBuffer VirtualAddress PhysicalAddress SizeInBytes false true k
  = Some (b, k') ->
  flag_set (Io.Flags b) IO_BUFFER_FLAG_MEMORY_LOCKED = true /\
  Io.PageCount b = 0 /\ Io.PageCacheEntries b = None /\
  MmFreeIoBuffer b k' = None /\ MmResetIoBuffer b k' = None.
Proof.
  intros H. unfold MmInitializeIoBuffer in H. cbv zeta in H.
  apply bind_Some in H as ([] & k1 & H1 & H).
  apply ASSERT_Some in H1 as [_ [= ->]].
  apply bind_Some in H as ([b1 pa] & k1 & H1 & H). cbn [fst snd] in H.
  assert (Hb1 : (Io.Flags b1 = 6 \/ Io.Flags b1 = 390)
                /\ Io.PageCount b1 = 0 /\ Io.PageCacheEntries b1 = None).
  { destruct (negb (VirtualAddress =? NULL)).
    - destruct (PhysicalAddress =? INVALID_PHYSICAL_ADDRESS).
      + apply bind_Some in H1 as (pa' & k2 & _ & H1).
        apply bind_Some in H1 as ([] & k3 & _ & H1).
        apply ret_Some in H1 as [= -> _ _]. repeat split. right. reflexivity.
      + apply ret_Some in H1 as [= -> _ _]. repeat split. right. reflexivity.
    - apply ret_Some in H1 as [= -> _ _]. repeat split. left. reflexivity. }
  assert (Hb : (Io.Flags b = 6 \/ Io.Flags b = 390)
               /\ Io.PageCount b = 0 /\ Io.PageCacheEntries b = None).
  { destruct (negb (pa =? INVALID_PHYSICAL_ADDRESS)).
    - apply bind_Some in H as ([] & k2 & _ & H).
      apply bind_Some in H as (Table & k3 & _ & H).
      apply ret_Some in H as [= -> _]. exact Hb1.
    - apply ret_Some in H as [= -> _]. exact Hb1. }
  clear H H1 Hb1. destruct Hb as (Hflags & Hpages & Htable).
  assert (Hbits : flag_set (Io.Flags b) IO_BUFFER_FLAG_UNMAP_ON_FREE = false
                  /\ flag_set (Io.Flags b) IO_BUFFER_FLAG_MEMORY_OWNED = false
                  /\ flag_set (Io.Flags b) IO_BUFFER_FLAG_PAGE_CACHE_BACKED
                     = false
                  /\ flag_set (Io.Flags b) IO_BUFFER_FLAG_MEMORY_LOCKED = true
                  /\ (Z.land (Io.Flags b) IO_BUFFER_FLAG_USER_MODE =? 0) = true)
    by (destruct Hflags as [-> | ->]; repeat split).
  destruct Hbits as (Hunmap & Howned & Hcached & Hlocked & Huser).
  assert (Hrelease : MmpReleaseIoBufferResources b k' = None).
  { unfold MmpReleaseIoBufferResources. cbv zeta.
    rewrite Hunmap, Howned, Hcached, Hlocked. cbn [orb negb andb].
    unfold bind at 1. unfold ret at 1. unfold bind at 1. unfold bind at 1.
    cbn [Io.PageCount Io.set_CurrentOffset]. rewrite Hpages. reflexivity. }
  split; [exact Hlocked|].
  split; [exact Hpages|]. split; [exact Htable|].
  split.
  - unfold MmFreeIoBuffer, bind. rewrite Hrelease. reflexivity.
  - unfold MmResetIoBuffer. rewrite Huser. unfold bind at 1. unfold ASSERT at 1.
    unfold bind at 1. rewrite Hrelease. reflexivity.
Qed.


(** ** Buffers from an I/O vector: the failures *)

(** The fill loop calls nothing. *)
Lemma MmCreateIoBufferFromVector_loop_kernel (IoVector : list IO_VECTOR)
    (n : nat) :
  forall (VectorIndex : Z) (s : VectorLoop) (k : Kernel) r k',
  MmCreateIoBufferFromVector_loop n IoVector VectorIndex s k = Some (r, k') ->
  k' = k /\
  match r with inl (Status, _) => Status = STATUS_ACCESS_VIOLATION | inr _ => True end.
Proof.
  induction n as [|n IH]; intros idx s k r k' H.
  - apply ret_Some in H as [= -> ->]. auto.
  - cbn [MmCreateIoBufferFromVector_loop] in H.
    apply bind_Some in H as (v & k1 & H1 & H).
    apply read_Some in H1 as (v' & _ & [= -> ->]).
    destruct ((KERNEL_VA_START <=? Vec.Data v')
              || (KERNEL_VA_START <? UINTN (Vec.Data v' + Vec.Length v'))
              || (UINTN (Vec.Data v' + Vec.Length v') <? Vec.Data v')).
    { apply ret_Some in H as [= -> ->]. auto. }
    destruct (Vec.Length v' =? 0); [exact (IH _ _ _ _ _ H)|].
    apply bind_Some in H as (s1 & k1 & H1 & H).
    apply IH in H as [-> Hr]. split; [|exact Hr].
    assert (Hadd : forall k0 s0 k2,
              MmCreateIoBufferFromVector_add v' s k0 = Some (s0, k2) -> k2 = k0).
    { intros k0 s0 k2 Hadd. unfold MmCreateIoBufferFromVector_add in Hadd.
      run_inv Hadd. reflexivity. }
    destruct (vl_PreviousFragment s) as [Index|]; [|exact (Hadd _ _ _ H1)].
    apply bind_Some in H1 as (p & k2 & H2 & H1).
    apply read_Some in H2 as (p' & _ & [= -> ->]).
    destruct (UINTN (Frag.VirtualAddress p' + Frag.Size p') =? Vec.Data v');
      [|exact (Hadd _ _ _ H1)].
    run_inv H1. reflexivity.
Qed.

(** The free of a buffer over user memory gives the structure back to the
    paged pool and does nothing else. *)
Lemma MmFreeIoBuffer_user (b : IO_BUFFER) (k : Kernel) :
  Io.Flags b = Z.lor IO_BUFFER_FLAG_USER_MODE IO_BUFFER_FLAG_MAPPED ->
  MmFreeIoBuffer b k = Some (None, set_Log (Log k ++ [CallMmFreePagedPool]) k).
Proof.
  intros Hflags. unfold MmFreeIoBuffer, MmpReleaseIoBufferResources.
  cbv zeta. rewrite Hflags.
  change (flag_set (Z.lor IO_BUFFER_FLAG_USER_MODE IO_BUFFER_FLAG_MAPPED)
            IO_BUFFER_FLAG_UNMAP_ON_FREE) with false.
  change (flag_set (Z.lor IO_BUFFER_FLAG_USER_MODE IO_BUFFER_FLAG_MAPPED)
            IO_BUFFER_FLAG_MEMORY_OWNED) with false.
  change (flag_set (Z.lor IO_BUFFER_FLAG_USER_MODE IO_BUFFER_FLAG_MAPPED)
            IO_BUFFER_FLAG_PAGE_CACHE_BACKED) with false.
  change (flag_set (Z.lor IO_BUFFER_FLAG_USER_MODE IO_BUFFER_FLAG_MAPPED)
            IO_BUFFER_FLAG_MEMORY_LOCKED) with false.
  change (flag_set (Z.lor IO_BUFFER_FLAG_USER_MODE IO_BUFFER_FLAG_MAPPED)
            IO_BUFFER_FLAG_NON_PAGED) with false.
  change (Z.land (Z.lor IO_BUFFER_FLAG_USER_MODE IO_BUFFER_FLAG_MAPPED)
            IO_BUFFER_FLAG_STRUCTURE_NOT_OWNED =? 0) with true.
  reflexivity.
Qed.

(** The exit path: a buffer that is given up goes back to the paged pool, and
    so does the copy of the array. *)
Lemma MmCreateIoBufferFromVector_end_run (Status : KSTATUS)
    (IoBuffer : option IO_BUFFER) (AllocatedVector : bool) (k : Kernel) :
  (forall b, IoBuffer = Some b ->
             Io.Flags b = Z.lor IO_BUFFER_FLAG_USER_MODE IO_BUFFER_FLAG_MAPPED) ->
  MmCreateIoBufferFromVector_end Status IoBuffer AllocatedVector k
  = Some ((Status, if KSUCCESS Status then IoBuffer else None),
          set_Log
            (Log k
             ++ (if KSUCCESS Status then []
                 else match IoBuffer with
                      | Some _ => [CallMmFreePagedPool]
                      | None => []
                      end)
             ++ (if AllocatedVector then [CallMmFreePagedPool] else [])) k).
Proof.
  intros Hflags. unfold MmCreateIoBufferFromVector_end.
  assert (Hk : forall l, set_Log (Log k ++ l ++ []) k = set_Log (Log k ++ l) k)
    by (intros l; rewrite app_nil_r; reflexivity).
  destruct (KSUCCESS Status); cbn [negb].
  - destruct AllocatedVector; cbn.
    + reflexivity.
    + rewrite set_Log_same. reflexivity.
  - destruct IoBuffer as [b|].
    + unfold bind at 1. unfold bind at 1.
      rewrite (MmFreeIoBuffer_user b k (Hflags b eq_refl)).
      destruct AllocatedVector; cbn.
      * rewrite <- app_assoc. reflexivity.
      * reflexivity.
    + destruct AllocatedVector; cbn.
      * reflexivity.
      * rewrite set_Log_same. reflexivity.
Qed.

(** X6.  A completed [MmCreateIoBufferFromVector] answers a buffer exactly
    when its status is a success, and keeps nothing from the pool but that
    buffer: every other allocation it made (the copy of a user mode array,
    the structure of a buffer it gives up) was given back, and it has called
    nothing but the copy from user mode and the pool.  A count of 0 or above
    MAX_IO_VECTOR_COUNT is STATUS_INVALID_PARAMETER, with nothing done. *)
Theorem create_from_vector_balanced (Vector : list IO_VECTOR)
    (VectorInKernelMode : bool) (VectorCount : Z) (k : Kernel)
    (Status : KSTATUS) (NewIoBuffer : option IO_BUFFER) (k' : Kernel) :
  MmCreateIoBufferFromVector Vector VectorInKernelMode VectorCount k
  = Some ((Status, NewIoBuffer), k') ->
  (KSUCCESS Status = true <-> NewIoBuffer <> None) /\
  (exists calls,
     Log k' = Log k ++ calls /\
     Forall (fun e => e = CallMmFreePagedPool
                      \/ e = CallMmCopyFromUserMode VectorCount) calls /\
     PoolAvailable k
     = (PoolAvailable k' + length (List.filter PoolCall calls)
        + (if KSUCCESS Status then 1 else 0))%nat) /\
  (MAX_IO_VECTOR_COUNT < VectorCount \/ VectorCount = 0 ->
   Status = STATUS_INVALID_PARAMETER /\ k' = k).
Proof.
  intros H. unfold MmCreateIoBufferFromVector in H.
  apply bind_Some in H as (Level & k1 & H1 & H).
  unfold KeGetRunLevel in H1. injection H1 as <- <-.
  apply bind_Some in H as ([] & k1 & H1 & H).
  apply ASSERT_Some in H1 as [_ [= <-]].
  destruct ((MAX_IO_VECTOR_COUNT <? VectorCount) || (VectorCount =? 0)) eqn:Hcount.
  { cbn in H. injection H as <- <- <-.
    split; [split; [discriminate | congruence]|].
    split; [|auto].
    exists []. rewrite app_nil_r. split; [reflexivity|].
    split; [constructor | cbn; lia]. }
  assert (Hvalid : MAX_IO_VECTOR_COUNT < VectorCount \/ VectorCount = 0 ->
                   Status = STATUS_INVALID_PARAMETER /\ k' = k1).
  { intros Hbad. apply orb_false_iff in Hcount as [Hc1 Hc2].
    apply Z.ltb_ge in Hc1. apply Z.eqb_neq in Hc2. lia. }
  cut ((KSUCCESS Status = true <-> NewIoBuffer <> None) /\
       exists calls,
         Log k' = Log k1 ++ calls /\
         Forall (fun e => e = CallMmFreePagedPool
                          \/ e = CallMmCopyFromUserMode VectorCount) calls /\
         PoolAvailable k1
         = (PoolAvailable k' + length (List.filter PoolCall calls)
            + (if KSUCCESS Status then 1 else 0))%nat).
  { intros [Hs Hc]. auto. }
  clear Hvalid Hcount.
  apply bind_Some in H as (Copy & kc & Hcopy & H).
  set (Allocated := match Copy with inl (_, a) => a | inr (_, a) => a end).
  assert (HA : exists callsA,
             Log kc = Log k1 ++ callsA /\
             Forall (fun e => e = CallMmCopyFromUserMode VectorCount) callsA /\
             PoolAvailable k1
             = (PoolAvailable kc + (if Allocated then 1 else 0))%nat /\
             match Copy with
             | inl (Status, _) => KSUCCESS Status = false
             | inr _ => True
             end).
  { subst Allocated. destruct VectorInKernelMode; cbn [negb] in Hcopy.
    - apply ret_Some in Hcopy as [= -> ->].
      exists []. rewrite app_nil_r.
      split; [reflexivity|]. split; [constructor|]. split; [lia | exact I].
    - apply bind_Some in Hcopy as (a & k2 & H2 & Hcopy).
      assert (Ha : match a with
                   | Some a' => PoolAvailable k1
                                = (PoolAvailable k2 + (if a' then 1 else 0))%nat
                   | None => PoolAvailable k1 = PoolAvailable k2
                   end /\ Log k2 = Log k1).
      { destruct (VectorCount <? LOCAL_IO_VECTOR_COUNT).
        - apply ret_Some in H2 as [= -> ->]. split; [lia | reflexivity].
        - apply bind_Some in H2 as (p & k3 & H3 & H2).
          apply ret_Some in H2 as [= -> ->].
          unfold MmAllocateNonPagedPool, MmAllocatePagedPool in H3.
          destruct (PoolAvailable k1) as [|n] eqn:Hpool.
          + injection H3 as <- <-. auto.
          + injection H3 as <- <-. cbn. split; [lia | reflexivity]. }
      destruct Ha as [Ha Hlog2]. destruct a as [a'|].
      + apply bind_Some in Hcopy as (st & k3 & H3 & Hcopy).
        unfold MmCopyFromUserMode in H3. injection H3 as <- <-.
        exists [CallMmCopyFromUserMode VectorCount].
        destruct (KSUCCESS (UserCopy k2)) eqn:Hst; cbn [negb] in Hcopy;
          apply ret_Some in Hcopy as [= -> ->]; cbn; rewrite Hlog2;
          (split; [reflexivity|]); (split; [repeat constructor|]);
          (split; [exact Ha|]); [exact I | exact Hst].
      + apply ret_Some in Hcopy as [= -> ->].
        exists []. rewrite app_nil_r.
        split; [exact Hlog2|]. split; [constructor|].
        split; [lia | reflexivity]. }
  destruct HA as (callsA & HlogA & HcallsA & HpoolA & HstA).
  assert (HB : (KSUCCESS Status = true <-> NewIoBuffer <> None) /\
               exists callsB,
                 Log k' = Log kc ++ callsB /\
                 Forall (fun e => e = CallMmFreePagedPool) callsB /\
                 (PoolAvailable kc + (if Allocated then 1 else 0))%nat
                 = (PoolAvailable k' + length callsB
                    + (if KSUCCESS Status then 1 else 0))%nat).
  { subst Allocated. clear Hcopy HlogA HcallsA HpoolA.
    assert (Hnone : forall b : IO_BUFFER, @None IO_BUFFER = Some b ->
              Io.Flags b = Z.lor IO_BUFFER_FLAG_USER_MODE IO_BUFFER_FLAG_MAPPED)
      by discriminate.
    destruct Copy as [[St A]|[IoVector A]].
    - rewrite (MmCreateIoBufferFromVector_end_run St None A kc Hnone) in H.
      rewrite HstA in H. injection H as <- <- <-. rewrite HstA.
      split; [split; [discriminate | congruence]|].
      exists (if A then [CallMmFreePagedPool] else []).
      destruct A; cbn; (split; [reflexivity|]);
        (split; [repeat constructor | lia]).
    - apply bind_Some in H as (Pool & kp & Hpool & H).
      unfold MmAllocatePagedPool in Hpool.
      destruct (PoolAvailable kc) as [|n] eqn:Hkc; injection Hpool as <- <-;
        cbn [negb] in H.
      + rewrite (MmCreateIoBufferFromVector_end_run _ None A kc Hnone) in H.
        injection H as <- <- <-.
        split; [split; [discriminate | congruence]|].
        exists (if A then [CallMmFreePagedPool] else []).
        destruct A; cbn; rewrite Hkc; (split; [reflexivity|]);
          (split; [repeat constructor | lia]).
      + apply bind_Some in H as (r & kl & Hloop & H).
        apply MmCreateIoBufferFromVector_loop_kernel in Hloop as [-> Hr].
        destruct r as [[St s]|s].
        * subst St.
          rewrite MmCreateIoBufferFromVector_end_run in H
            by (intros b [= <-]; reflexivity).
          injection H as <- <- <-.
          split; [split; [discriminate | congruence]|].
          exists (CallMmFreePagedPool
                  :: if A then [CallMmFreePagedPool] else []).
          destruct A; cbn; (split; [reflexivity|]);
            (split; [repeat constructor | lia]).
        * rewrite MmCreateIoBufferFromVector_end_run in H
            by (intros b [= <-]; reflexivity).
          injection H as <- <- <-.
          split; [split; [discriminate | reflexivity]|].
          exists (if A then [CallMmFreePagedPool] else []).
          destruct A; cbn; (split; [reflexivity|]);
            (split; [repeat constructor | lia]). }
  destruct HB as (Hiff & callsB & HlogB & HcallsB & HpoolB).
  split; [exact Hiff|].
  exists (callsA ++ callsB).
  split; [rewrite HlogB, HlogA, app_assoc; reflexivity|].
  split.
  - apply Forall_app. split.
    + eapply Forall_impl; [exact HcallsA|]. cbn. auto.
    + eapply Forall_impl; [exact HcallsB|]. cbn. auto.
  - assert (HfA : List.filter PoolCall callsA = []).
    { clear HlogA. induction callsA as [|e l IH]; [reflexivity|].
      rewrite (Forall_inv HcallsA). cbn. apply IH.
      exact (Forall_inv_tail HcallsA). }
    assert (HfB : List.filter PoolCall callsB = callsB).
    { clear HlogB HpoolB. induction callsB as [|e l IH]; [reflexivity|].
      rewrite (Forall_inv HcallsB). cbn. f_equal. apply IH.
      exact (Forall_inv_tail HcallsB). }
    rewrite List.filter_app, HfA, HfB. cbn [app]. lia.
Qed.

(** The loop over [n1 + n2] entries is the loop over the first [n1], then
    over the others unless an entry ended it. *)
Lemma MmCreateIoBufferFromVector_loop_app (IoVector : list IO_VECTOR)
    (n1 n2 : nat) :
  forall (VectorIndex : Z) (s : VectorLoop) (k : Kernel),
  MmCreateIoBufferFromVector_loop (n1 + n2) IoVector VectorIndex s k
  = match MmCreateIoBufferFromVector_loop n1 IoVector VectorIndex s k with
    | Some (inr s', k') =>
        MmCreateIoBufferFromVector_loop n2 IoVector
          (VectorIndex + Z.of_nat n1) s' k'
    | other => other
    end.
Proof.
  induction n1 as [|n1 IH]; intros idx s k.
  - cbn. rewrite Z.add_0_r. reflexivity.
  - cbn [Nat.add MmCreateIoBufferFromVector_loop]. unfold bind.
    destruct (read IoVector idx k) as [[v k1]|]; [|reflexivity].
    replace (idx + Z.of_nat (S n1)) with (idx + 1 + Z.of_nat n1) by lia.
    destruct ((KERNEL_VA_START <=? Vec.Data v)
              || (KERNEL_VA_START <? UINTN (Vec.Data v + Vec.Length v))
              || (UINTN (Vec.Data v + Vec.Length v) <? Vec.Data v));
      [reflexivity|].
    destruct (Vec.Length v =? 0); [apply IH|].
    destruct (match vl_PreviousFragment s with
              | Some Index => _
              | None => _
              end) as [[s1 k2]|]; [apply IH | reflexivity].
Qed.

(** What lines 1000-1002 check, on an entry of two [UINTN]s. *)
Lemma ValidVector_check (v : IO_VECTOR) :
  0 <= Vec.Data v < 2 ^ UINTN_BITS -> 0 <= Vec.Length v < 2 ^ UINTN_BITS ->
  ((KERNEL_VA_START <=? Vec.Data v)
   || (KERNEL_VA_START <? UINTN (Vec.Data v + Vec.Length v))
   || (UINTN (Vec.Data v + Vec.Length v) <? Vec.Data v)) = false
  <-> ValidVector v.
Proof.
  intros Hdata Hlen. pose proof KERNEL_VA_START_range as HK.
  unfold ValidVector. rewrite !orb_false_iff, Z.leb_gt, !Z.ltb_ge.
  destruct (Z.lt_ge_cases (Vec.Data v + Vec.Length v) (2 ^ UINTN_BITS)) as [Hfit|Hwrap].
  - rewrite UINTN_small by lia. lia.
  - assert (Hw : UINTN (Vec.Data v + Vec.Length v)
                 = Vec.Data v + Vec.Length v - 2 ^ UINTN_BITS).
    { unfold UINTN. symmetry. apply (Z.mod_unique_pos _ _ 1). lia. lia. }
    rewrite Hw. lia.
Qed.

(** The entries before the first one outside user space. *)
Lemma first_outside_user_space (Vector : list IO_VECTOR) :
  Forall (fun v => 0 <= Vec.Data v < 2 ^ UINTN_BITS
                   /\ 0 <= Vec.Length v < 2 ^ UINTN_BITS) Vector ->
  Exists (fun v => ~ ValidVector v) Vector ->
  exists before v after,
    Vector = before ++ v :: after /\ Forall ValidVector before /\
    ((KERNEL_VA_START <=? Vec.Data v)
     || (KERNEL_VA_START <? UINTN (Vec.Data v + Vec.Length v))
     || (UINTN (Vec.Data v + Vec.Length v) <? Vec.Data v)) = true.
Proof.
  induction Vector as [|v Vector IH]; intros Hrange Hbad.
  - inversion Hbad.
  - pose proof (Forall_inv Hrange) as [Hdata Hlen].
    destruct ((KERNEL_VA_START <=? Vec.Data v)
              || (KERNEL_VA_START <? UINTN (Vec.Data v + Vec.Length v))
              || (UINTN (Vec.Data v + Vec.Length v) <? Vec.Data v)) eqn:Hcheck.
    + exists [], v, Vector. split; [reflexivity|]. split; [constructor | exact Hcheck].
    + apply (ValidVector_check v Hdata Hlen) in Hcheck.
      apply Exists_cons in Hbad as [Hv|Hbad]; [contradiction|].
      destruct (IH (Forall_inv_tail Hrange) Hbad)
        as (before & w & after & -> & Hbefore & Hw).
      exists (v :: before), w, after.
      split; [reflexivity|]. split; [constructor; assumption | exact Hw].
Qed.

(** X7.  With a valid count, a pool that holds out and a user mode array
    that can be read, [MmCreateIoBufferFromVector] on an array one entry of
    which does not lie within user space (its address at or above
    KERNEL_VA_START, its end above it or wrapped around), be the entry empty
    or not, returns STATUS_ACCESS_VIOLATION and no buffer. *)
Theorem create_from_vector_outside_user_space (Vector : list IO_VECTOR)
    (VectorInKernelMode : bool) (k : Kernel) :
  RunLevel k = RunLevelLow ->
  (0 < length Vector)%nat ->
  Z.of_nat (length Vector) <= MAX_IO_VECTOR_COUNT ->
  Forall (fun v => 0 <= Vec.Data v < 2 ^ UINTN_BITS
                   /\ 0 <= Vec.Length v < 2 ^ UINTN_BITS) Vector ->
  (VectorInKernelMode = false -> UserCopy k = STATUS_SUCCESS) ->
  (2 <= PoolAvailable k)%nat ->
  Exists (fun v => ~ ValidVector v) Vector ->
  exists k',
    MmCreateIoBufferFromVector Vector VectorInKernelMode
      (Z.of_nat (length Vector)) k
    = Some ((STATUS_ACCESS_VIOLATION, None), k').
Proof.
  intros Hlevel Hcount Hmax Hrange Hcopy Hpool Hbad.
  pose proof MAX_IO_VECTOR_COUNT_range as HM.
  destruct (first_outside_user_space Vector Hrange Hbad)
    as (before & v & after & HV & Hbefore & Hv).
  unfold MmCreateIoBufferFromVector.
  unfold bind at 1. unfold KeGetRunLevel. rewrite Hlevel.
  unfold bind at 1. unfold ASSERT at 1.
  destruct (Z.ltb_spec MAX_IO_VECTOR_COUNT (Z.of_nat (length Vector))); [lia|].
  destruct (Z.eqb_spec (Z.of_nat (length Vector)) 0); [lia|]. cbn [orb].
  assert (Hloop : forall k1,
            exists s,
              MmCreateIoBufferFromVector_loop
                (Z.to_nat (Z.of_nat (length Vector))) Vector 0
                (mkVectorLoop
                   (replicate (Z.to_nat (Z.of_nat (length Vector))) Frag.zero)
                   0 0 None 0) k1
              = Some (inl (STATUS_ACCESS_VIOLATION, s), k1)).
  { intros k1. rewrite Nat2Z.id.
    assert (Hlen : length Vector = (length before + S (length after))%nat)
      by (rewrite HV, length_app; reflexivity).
    replace (MmCreateIoBufferFromVector_loop (length Vector))
      with (MmCreateIoBufferFromVector_loop
              (length before + S (length after)))
      by (rewrite <- Hlen; reflexivity).
    rewrite MmCreateIoBufferFromVector_loop_app.
    pose proof (MmCreateIoBufferFromVector_loop_run Vector (length Vector) k1
                  before 0 [] 0) as Hrun.
    unfold VectorLoopOf at 1 in Hrun. cbn [rev app length] in Hrun.
    rewrite Nat.sub_0_r in Hrun.
    change (UINTN 0) with 0 in Hrun. change (Z.of_nat 0) with 0 in Hrun.
    rewrite Hrun; try assumption; try lia.
    - assert (Hlook : Vector !! length before = Some v)
        by (rewrite HV; apply list_lookup_middle; reflexivity).
      eexists. cbn [MmCreateIoBufferFromVector_loop]. unfold bind at 1.
      unfold read.
      replace (Z.to_nat (0 + Z.of_nat (length before))) with (length before)
        by lia.
      rewrite Hlook, Hv. reflexivity.
    - intros j w Hj. rewrite HV. cbn. apply lookup_app_l_Some. exact Hj.
    - constructor. }
  assert (Hfinish : forall (AllocatedVector : bool) k1,
            (1 <= PoolAvailable k1)%nat ->
            exists k',
              bind MmAllocatePagedPool
                (fun Pool : bool =>
                   if negb Pool
                   then MmCreateIoBufferFromVector_end
                          STATUS_INSUFFICIENT_RESOURCES None AllocatedVector
                   else
                     let IoBuffer :=
                       Io.mk (replicate (Z.to_nat (Z.of_nat (length Vector)))
                                Frag.zero)
                         0 (Z.lor IO_BUFFER_FLAG_USER_MODE IO_BUFFER_FLAG_MAPPED)
                         0 0 (Z.of_nat (length Vector)) 0 None in
                     r <- MmCreateIoBufferFromVector_loop
                            (Z.to_nat (Z.of_nat (length Vector))) Vector 0
                            (mkVectorLoop (Io.Fragment IoBuffer) 0 0 None 0) ;;
                     match r with
                     | inl (Status, s) =>
                         let IoBuffer := Io.set_Fragment (vl_Table s) IoBuffer in
                         MmCreateIoBufferFromVector_end Status (Some IoBuffer)
                           AllocatedVector
                     | inr s =>
                         let IoBuffer := Io.set_Fragment (vl_Table s) IoBuffer in
                         let IoBuffer :=
                           Io.set_TotalSize (vl_TotalSize s) IoBuffer in
                         let IoBuffer :=
                           Io.set_FragmentCount (vl_FragmentIndex s) IoBuffer in
                         MmCreateIoBufferFromVector_end STATUS_SUCCESS
                           (Some IoBuffer) AllocatedVector
                     end) k1
              = Some ((STATUS_ACCESS_VIOLATION, None), k')).
  { intros AllocatedVector k1 Hk1.
    unfold bind at 1. unfold MmAllocatePagedPool.
    destruct (PoolAvailable k1) as [|n1] eqn:Hn1; [lia|].
    cbn [negb]. cbv zeta. unfold bind at 1. cbn [Io.Fragment].
    destruct (Hloop (set_PoolAvailable n1 k1)) as [s ->].
    rewrite MmCreateIoBufferFromVector_end_run
      by (intros b [= <-]; reflexivity).
    eexists. reflexivity. }
  destruct VectorInKernelMode.
  - cbn [negb]. unfold bind at 1. unfold ret at 1.
    apply Hfinish. lia.
  - cbn [negb]. specialize (Hcopy eq_refl).
    destruct (Z.ltb_spec (Z.of_nat (length Vector)) LOCAL_IO_VECTOR_COUNT).
    + unfold bind at 1. unfold bind at 1. unfold ret at 1.
      unfold bind at 1. unfold MmCopyFromUserMode at 1. rewrite Hcopy.
      cbn [KSUCCESS negb]. unfold ret at 1.
      apply Hfinish. cbn. lia.
    + unfold bind at 1. unfold bind at 1. unfold bind at 1.
      unfold MmAllocatePagedPool at 1.
      destruct (PoolAvailable k) as [|n1] eqn:Hn1; [lia|].
      unfold ret at 1. unfold bind at 1. unfold MmCopyFromUserMode at 1.
      cbn [UserCopy set_PoolAvailable]. rewrite Hcopy.
      cbn [KSUCCESS negb]. unfold ret at 1.
      apply Hfinish. cbn. lia.
Qed.

(** ** Validation: what the caller is left with *)

Lemma MmAllocateNonPagedIoBuffer_add_size (b : IO_BUFFER)
    (FragmentIndex CurrentAddress PhysicalAddress : Z) (k : Kernel) x k' :
  MmAllocateNonPagedIoBuffer_add b FragmentIndex CurrentAddress PhysicalAddress k
  = Some (x, k') ->
  Io.TotalSize (fst x) = Io.TotalSize b /\
  Io.CurrentOffset (fst x) = Io.CurrentOffset b.
Proof.
  unfold MmAllocateNonPagedIoBuffer_add. intros H. run_inv H. split; reflexivity.
Qed.

Lemma MmAllocateNonPagedIoBuffer_pages_size (n : nat) :
  forall (b : IO_BUFFER) (CurrentAddress FragmentIndex : Z) (k : Kernel) b' k',
  MmAllocateNonPagedIoBuffer_pages n b CurrentAddress FragmentIndex k
  = Some (b', k') ->
  Io.TotalSize b' = Io.TotalSize b /\ Io.CurrentOffset b' = Io.CurrentOffset b.
Proof.
  induction n as [|n IH]; intros b va idx k b' k' H.
  - apply ret_Some in H as [= -> _]. split; reflexivity.
  - cbn [MmAllocateNonPagedIoBuffer_pages] in H.
    apply bind_Some in H as (pa & k1 & _ & H).
    apply bind_Some in H as ([] & k2 & _ & H).
    apply bind_Some in H as (x & k3 & Hx & H).
    apply IH in H as [-> ->].
    destruct (negb (Io.FragmentCount b =? 0));
      [|exact (MmAllocateNonPagedIoBuffer_add_size _ _ _ _ _ _ _ Hx)].
    apply bind_Some in Hx as (p & k4 & _ & Hx).
    destruct (ULONGLONG (Frag.PhysicalAddress p + Frag.Size p) =? pa);
      [|exact (MmAllocateNonPagedIoBuffer_add_size _ _ _ _ _ _ _ Hx)].
    run_inv Hx. split; reflexivity.
Qed.

(** A non-paged buffer describes the size it was asked for, rounded up to
    the alignment, from a cursor at 0. *)
Lemma MmAllocateNonPagedIoBuffer_size
    (MinimumPhysicalAddress MaximumPhysicalAddress Alignment Size : Z)
    (PhysicallyContiguous WriteThrough NonCached : bool) (k : Kernel) New k' :
  0 <= Alignment -> RunAlignment Alignment < 2 ^ UINTN_BITS ->
  0 < Size -> AlignedSize Alignment Size < 2 ^ UINTN_BITS ->
  MmAllocateNonPagedIoBuffer MinimumPhysicalAddress MaximumPhysicalAddress
    Alignment Size PhysicallyContiguous WriteThrough NonCached k
  = Some (Some New, k') ->
  Io.TotalSize New = AlignedSize Alignment Size /\ Io.CurrentOffset New = 0 /\
  Size <= Io.TotalSize New.
Proof.
  intros Hal Hrun Hsize Hfit H.
  destruct (RunAlignment_pages Alignment Hal) as (Hpos & _ & _).
  destruct (AlignedSize_pages Alignment Size Hal Hsize) as (Hge & _ & _ & _).
  unfold MmAllocateNonPagedIoBuffer in H. cbv zeta in H.
  assert (HA : (if Alignment =? 0 then MmPageSize
                else UINTN (ALIGN_RANGE_UP Alignment MmPageSize))
               = RunAlignment Alignment).
  { unfold RunAlignment in *. destruct (Alignment =? 0); [reflexivity|].
    apply UINTN_small. lia. }
  rewrite HA in H. fold (AlignedSize Alignment Size) in H.
  rewrite (UINTN_small (AlignedSize Alignment Size)) in H by lia.
  apply bind_Some in H as ([] & k1 & _ & H).
  apply bind_Some in H as (Pool & k2 & _ & H).
  destruct (negb Pool); [apply ret_Some in H; discriminate|].
  apply bind_Some in H as (Range & k3 & _ & H).
  destruct (negb (KSUCCESS (fst Range))).
  { apply bind_Some in H as ([] & k4 & _ & H).
    apply bind_Some in H as ([] & k5 & _ & H).
    apply ret_Some in H. discriminate. }
  apply bind_Some in H as (Status & k4 & _ & H).
  destruct (negb (KSUCCESS Status)).
  { apply bind_Some in H as ([] & k5 & _ & H).
    apply bind_Some in H as ([] & k6 & _ & H).
    apply ret_Some in H. discriminate. }
  apply bind_Some in H as (b1 & k5 & Hb1 & H).
  apply ret_Some in H as [= -> _].
  cbn [Io.TotalSize Io.CurrentOffset Io.set_Flags].
  cut (Io.TotalSize b1 = AlignedSize Alignment Size /\ Io.CurrentOffset b1 = 0).
  { intros [-> ->]. auto. }
  destruct PhysicallyContiguous.
  - run_inv Hb1. split; reflexivity.
  - apply bind_Some in Hb1 as ([] & k6 & _ & Hb1).
    apply bind_Some in Hb1 as (b2 & k7 & Hpages & Hb1).
    apply bind_Some in Hb1 as ([] & k8 & _ & Hb1).
    apply ret_Some in Hb1 as [= -> _].
    apply MmAllocateNonPagedIoBuffer_pages_size in Hpages. exact Hpages.
Qed.

Lemma MmpExtendIoBuffer_attach_cursor (b : IO_BUFFER)
    (FragmentIndex PhysicalAddress Bytes : Z) (k : Kernel) x k' :
  MmpExtendIoBuffer_attach b FragmentIndex PhysicalAddress Bytes k
  = Some (x, k') ->
  Io.CurrentOffset (fst x) = Io.CurrentOffset b.
Proof.
  unfold MmpExtendIoBuffer_attach. intros H.
  apply bind_Some in H as (f & k1 & _ & H).
  destruct ((Frag.VirtualAddress f =? NULL)
            && (ULONGLONG (Frag.PhysicalAddress f + Frag.Size f)
                =? PhysicalAddress)); run_inv H; reflexivity.
Qed.

Lemma MmpExtendIoBuffer_pages_cursor (n : nat) :
  forall (b : IO_BUFFER) (Alignment FragmentIndex : Z) (k : Kernel) r k',
  MmpExtendIoBuffer_pages n b Alignment FragmentIndex k = Some (r, k') ->
  Io.CurrentOffset (snd r) = Io.CurrentOffset b /\
  (fst r = STATUS_SUCCESS \/ fst r = STATUS_NO_MEMORY).
Proof.
  induction n as [|n IH]; intros b Alignment idx k r k' H.
  - apply ret_Some in H as [= -> _]. auto.
  - cbn [MmpExtendIoBuffer_pages] in H.
    apply bind_Some in H as (pa & k1 & _ & H).
    destruct (pa =? INVALID_PHYSICAL_ADDRESS).
    + apply ret_Some in H as [= -> _]. auto.
    + apply bind_Some in H as (x & k2 & Hattach & H).
      apply MmpExtendIoBuffer_attach_cursor in Hattach.
      apply IH in H as [Hcur Hst]. rewrite Hcur. cbn. auto.
Qed.

(** An extension leaves the cursor where it is; its status is a success, the
    lack of slots or the lack of pages, and for the lack of slots nothing was
    done. *)
Lemma MmpExtendIoBuffer_outcome (b : IO_BUFFER)
    (MinimumPhysicalAddress MaximumPhysicalAddress Alignment Size : Z)
    (PhysicallyContiguous : bool) (k : Kernel) r k' :
  MmpExtendIoBuffer b MinimumPhysicalAddress MaximumPhysicalAddress Alignment
    Size PhysicallyContiguous k = Some (r, k') ->
  Io.CurrentOffset (snd r) = Io.CurrentOffset b /\
  (fst r = STATUS_SUCCESS \/ fst r = STATUS_NO_MEMORY
   \/ (fst r = STATUS_BUFFER_TOO_SMALL /\ snd r = b /\ k' = k)).
Proof.
  unfold MmpExtendIoBuffer. intros H.
  apply bind_Some in H as ([] & k1 & H1 & H).
  apply ASSERT_Some in H1 as [_ [= ->]].
  apply bind_Some in H as ([] & k1 & H1 & H).
  apply ASSERT_Some in H1 as [_ [= ->]]. cbv zeta in H.
  destruct (UINTN (Io.MaxFragmentCount b - Io.FragmentCount b)
            <? Z.shiftr (UINTN (ALIGN_RANGE_UP Size MmPageSize)) MmPageShift).
  { apply ret_Some in H as [= -> ->]. cbn.
    split; [reflexivity|]. right. right. auto. }
  apply bind_Some in H as (r1 & k1 & Hbody & H).
  assert (Hr1 : Io.CurrentOffset (snd r1) = Io.CurrentOffset b
                /\ (fst r1 = STATUS_SUCCESS \/ fst r1 = STATUS_NO_MEMORY)).
  { destruct PhysicallyContiguous.
    - apply bind_Some in Hbody as (pa & k2 & _ & Hbody).
      destruct (pa =? INVALID_PHYSICAL_ADDRESS).
      + apply ret_Some in Hbody as [= -> _]. auto.
      + apply bind_Some in Hbody as (x & k3 & Hattach & Hbody).
        apply MmpExtendIoBuffer_attach_cursor in Hattach.
        apply ret_Some in Hbody as [= -> _]. cbn. auto.
    - exact (MmpExtendIoBuffer_pages_cursor _ _ _ _ _ _ _ Hbody). }
  destruct Hr1 as [Hcur Hst].
  destruct (negb (KSUCCESS (fst r1))).
  - apply ret_Some in H as [= -> _]. cbn. split; [exact Hcur | tauto].
  - apply ret_Some in H as [= -> _]. cbn. auto.
Qed.

(** The walk over the fragments calls nothing. *)
Lemma MmValidateIoBuffer_walk_kernel (n : nat) (b : IO_BUFFER)
    (MinimumPhysicalAddress MaximumPhysicalAddress Alignment : Z)
    (PhysicallyContiguous : bool) :
  forall (BufferOffset CurrentOffset EndOffset FragmentIndex
          PhysicalAddressEnd : Z) (k : Kernel) r k',
  MmValidateIoBuffer_walk n b MinimumPhysicalAddress MaximumPhysicalAddress
    Alignment PhysicallyContiguous BufferOffset CurrentOffset EndOffset
    FragmentIndex PhysicalAddressEnd k = Some (r, k') ->
  k' = k.
Proof.
  induction n as [|n IH]; intros bo co eo idx pe k r k' H; [discriminate|].
  cbn [MmValidateIoBuffer_walk] in H.
  destruct (negb (bo <? eo)); [apply ret_Some in H as [= _ ->]; reflexivity|].
  apply bind_Some in H as (f & k1 & H1 & H).
  apply read_Some in H1 as (f' & _ & [= -> ->]).
  destruct (UINTN (co + Frag.Size f') <=? bo); [exact (IH _ _ _ _ _ _ _ _ H)|].
  cbv zeta in H.
  destruct (PhysicallyContiguous && negb (pe =? INVALID_PHYSICAL_ADDRESS)
            && negb (ULONGLONG (Frag.PhysicalAddress f' + UINTN (bo - co))
                     =? pe));
    [apply ret_Some in H as [= _ ->]; reflexivity|].
  destruct (negb (IS_ALIGNED (ULONGLONG (Frag.PhysicalAddress f'
                                         + UINTN (bo - co))) Alignment)
            || negb (IS_ALIGNED (UINTN (Frag.Size f' - UINTN (bo - co)))
                       Alignment));
    [apply ret_Some in H as [= _ ->]; reflexivity|].
  apply bind_Some in H as ([] & k1 & H1 & H).
  apply ASSERT_Some in H1 as [_ [= ->]].
  match type of H with
  | (if ?c then _ else _) _ = _ => destruct c
  end; [apply ret_Some in H as [= _ ->]; reflexivity|].
  apply bind_Some in H as ([] & k1 & H1 & H).
  apply ASSERT_Some in H1 as [_ [= ->]].
  exact (IH _ _ _ _ _ _ _ _ H).
Qed.

(** The exit path when a replacement is to be allocated. *)
Lemma MmValidateIoBuffer_end_allocate (b : IO_BUFFER)
    (MinimumPhysicalAddress MaximumPhysicalAddress Alignment SizeInBytes : Z)
    (PhysicallyContiguous : bool) (k : Kernel) v k' :
  0 <= Alignment -> RunAlignment Alignment < 2 ^ UINTN_BITS ->
  0 < SizeInBytes -> AlignedSize Alignment SizeInBytes < 2 ^ UINTN_BITS ->
  MmValidateIoBuffer_end true STATUS_SUCCESS b MinimumPhysicalAddress
    MaximumPhysicalAddress Alignment SizeInBytes PhysicallyContiguous k
  = Some (v, k') ->
  v_Buffer v = Some b /\
  ((v_Status v = STATUS_INSUFFICIENT_RESOURCES /\ v_NewBuffer v = None) \/
   (v_Status v = STATUS_SUCCESS /\
    exists New, v_NewBuffer v = Some New /\ Io.CurrentOffset New = 0 /\
                SizeInBytes <= Io.TotalSize New)).
Proof.
  intros Hal Hrun Hsize Hfit H. unfold MmValidateIoBuffer_end in H.
  apply bind_Some in H as ([New|] & k1 & Hnew & H);
    apply ret_Some in H as [= -> _]; cbn; [|auto].
  apply MmAllocateNonPagedIoBuffer_size in Hnew as (_ & Hcur & Hge);
    try assumption.
  split; [reflexivity|]. right. split; [reflexivity|]. exists New. auto.
Qed.

(** X8.  What a completed [MmValidateIoBuffer] leaves the caller with, the
    cursor lying inside the buffer and the sizes being free of wrap-around.
    A status that is not a success comes with no replacement: there is
    nothing for the caller to free.  STATUS_SUCCESS comes either with a
    replacement, the original buffer being as it was, whose cursor is at 0
    and which describes at least the size asked for, or with the original
    buffer, possibly extended, which describes at least the size asked for
    from its cursor on.  STATUS_BUFFER_TOO_SMALL means that nothing was
    done, to the buffer or to the kernel. *)
Theorem validate_success_holds_size (b : IO_BUFFER)
    (MinimumPhysicalAddress MaximumPhysicalAddress Alignment SizeInBytes : Z)
    (PhysicallyContiguous : bool) (k : Kernel) v k' :
  0 <= Io.CurrentOffset b <= Io.TotalSize b ->
  0 < SizeInBytes ->
  Io.CurrentOffset b + SizeInBytes + MmPageSize <= 2 ^ UINTN_BITS ->
  0 <= Alignment -> RunAlignment Alignment < 2 ^ UINTN_BITS ->
  AlignedSize Alignment SizeInBytes < 2 ^ UINTN_BITS ->
  MmValidateIoBuffer MinimumPhysicalAddress MaximumPhysicalAddress Alignment
    SizeInBytes PhysicallyContiguous (Some b) k = Some (v, k') ->
  (KSUCCESS (v_Status v) = false -> v_NewBuffer v = None) /\
  (v_Status v = STATUS_SUCCESS ->
   match v_NewBuffer v with
   | Some New =>
       v_Buffer v = Some b /\ Io.CurrentOffset New = 0 /\
       SizeInBytes <= Io.TotalSize New
   | None =>
       exists b', v_Buffer v = Some b' /\
                  Io.CurrentOffset b' = Io.CurrentOffset b /\
                  Io.CurrentOffset b + SizeInBytes <= Io.TotalSize b'
   end) /\
  (v_Status v = STATUS_BUFFER_TOO_SMALL -> v_Buffer v = Some b /\ k' = k).
Proof.
  intros Hcur Hsize Hfit Hal Hrun Haligned H.
  pose proof MmPageSize_pos as Hpos.
  assert (Hnz : MmPageSize <> 0) by lia.
  assert (Hallocate : forall k1 v1 k2,
            MmValidateIoBuffer_end true STATUS_SUCCESS b MinimumPhysicalAddress
              MaximumPhysicalAddress Alignment SizeInBytes
              PhysicallyContiguous k1 = Some (v1, k2) ->
            (KSUCCESS (v_Status v1) = false -> v_NewBuffer v1 = None) /\
            (v_Status v1 = STATUS_SUCCESS ->
             match v_NewBuffer v1 with
             | Some New =>
                 v_Buffer v1 = Some b /\ Io.CurrentOffset New = 0 /\
                 SizeInBytes <= Io.TotalSize New
             | None =>
                 exists b', v_Buffer v1 = Some b' /\
                            Io.CurrentOffset b' = Io.CurrentOffset b /\
                            Io.CurrentOffset b + SizeInBytes <= Io.TotalSize b'
             end) /\
            (v_Status v1 = STATUS_BUFFER_TOO_SMALL ->
             v_Buffer v1 = Some b /\ k2 = k)).
  { intros k1 v1 k2 Hend.
    apply MmValidateIoBuffer_end_allocate in Hend
      as (Hb & [[Hst Hnew] | (Hst & New & Hnew & Hc & Hge)]); try assumption.
    - rewrite Hst, Hnew. repeat split; discriminate.
    - rewrite Hst, Hnew.
      split; [discriminate|]. split; [auto | discriminate]. }
  unfold MmValidateIoBuffer in H. cbv zeta in H.
  rewrite (UINTN_small (Io.CurrentOffset b + SizeInBytes)) in H by lia.
  destruct ((Z.land (Io.Flags b) IO_BUFFER_FLAG_EXTENDABLE =? 0)
            && (Io.TotalSize b <? Io.CurrentOffset b + SizeInBytes)) eqn:Hfirst.
  { apply ret_Some in H as [= -> ->]. cbn.
    split; [reflexivity|]. split; [discriminate | auto]. }
  destruct (flag_set (Io.Flags b) IO_BUFFER_FLAG_USER_MODE);
    [exact (Hallocate _ _ _ H)|].
  apply bind_Some in H as (AllocateIoBuffer & k1 & Hwalk & H).
  assert (Hk1 : k1 = k).
  { destruct (negb (Io.CurrentOffset b =? Io.TotalSize b)).
    - exact (MmValidateIoBuffer_walk_kernel _ _ _ _ _ _ _ _ _ _ _ _ _ _ Hwalk).
    - apply ret_Some in Hwalk as [= _ ->]. reflexivity. }
  subst k1. clear Hwalk.
  destruct AllocateIoBuffer; [exact (Hallocate _ _ _ H)|].
  destruct (flag_set (Io.Flags b) IO_BUFFER_FLAG_EXTENDABLE
            && (Io.TotalSize b <? Io.CurrentOffset b + SizeInBytes)) eqn:Hext.
  - destruct (PhysicallyContiguous
              && negb (Io.CurrentOffset b =? Io.TotalSize b));
      [exact (Hallocate _ _ _ H)|].
    apply andb_true_iff in Hext as [_ Hsmall]. apply Z.ltb_lt in Hsmall.
    apply bind_Some in H as ([Status b1] & k1 & Hextend & H).
    apply ret_Some in H as [= -> ->]. cbn [fst snd v_Status v_NewBuffer v_Buffer].
    pose proof (MmpExtendIoBuffer_outcome _ _ _ _ _ _ _ _ _ Hextend)
      as [Hc Hst]. cbn [fst snd] in Hc, Hst.
    split; [reflexivity|]. split.
    + intros ->. exists b1. split; [reflexivity|]. split; [exact Hc|].
      rewrite (UINTN_small (Io.CurrentOffset b + SizeInBytes - Io.TotalSize b))
        in Hextend by lia.
      apply extension_grows in Hextend as [Htotal _]; try lia.
      * rewrite Htotal.
        set (Extension := Io.CurrentOffset b + SizeInBytes - Io.TotalSize b)
          in *.
        pose proof (Z.div_mod (Extension + MmPageSize - 1) MmPageSize Hnz)
          as Hd.
        pose proof (Z.mod_pos_bound (Extension + MmPageSize - 1) MmPageSize
                      Hpos) as Hm.
        set (q := (Extension + MmPageSize - 1) / MmPageSize) in *.
        set (m := (Extension + MmPageSize - 1) mod MmPageSize) in *. nia.
      * set (Extension := Io.CurrentOffset b + SizeInBytes - Io.TotalSize b)
          in *.
        pose proof (Z.div_mod (Extension + MmPageSize - 1) MmPageSize Hnz)
          as Hd.
        pose proof (Z.mod_pos_bound (Extension + MmPageSize - 1) MmPageSize
                      Hpos) as Hm.
        set (q := (Extension + MmPageSize - 1) / MmPageSize) in *.
        set (m := (Extension + MmPageSize - 1) mod MmPageSize) in *. nia.
    + intros ->. destruct Hst as [Hst | [Hst | (_ & -> & ->)]];
        try discriminate. auto.
  - apply ret_Some in H as [= -> ->]. cbn.
    split; [reflexivity|]. split; [|discriminate].
    intros _. exists b. split; [reflexivity|]. split; [reflexivity|].
    apply andb_false_iff in Hfirst. apply andb_false_iff in Hext.
    unfold flag_set in Hext.
    destruct (Z.ltb_spec (Io.TotalSize b) (Io.CurrentOffset b + SizeInBytes))
      as [Hlt|Hge]; [|lia].
    destruct (Z.land (Io.Flags b) IO_BUFFER_FLAG_EXTENDABLE =? 0);
      cbn in Hfirst, Hext; intuition discriminate.
Qed.

(** ** Validation: what the walk has checked *)

Lemma SizeOfFragments_take_S (l : list IO_BUFFER_FRAGMENT) (j : nat)
    (f : IO_BUFFER_FRAGMENT) :
  l !! j = Some f ->
  SizeOfFragments (take (S j) l) = SizeOfFragments (take j l) + Frag.Size f.
Proof.
  intros Hj. rewrite (take_S_r l j f Hj), SizeOfFragments_app. cbn. lia.
Qed.

Lemma SizeOfFragments_take_le (l : list IO_BUFFER_FRAGMENT) :
  Forall (fun f => 0 <= Frag.Size f) l ->
  forall i j : nat, (i <= j)%nat ->
  SizeOfFragments (take i l) <= SizeOfFragments (take j l).
Proof.
  induction 1 as [|f l Hf Hl IH]; intros i j Hij.
  - rewrite !take_nil. lia.
  - destruct i as [|i]; destruct j as [|j]; cbn [take SizeOfFragments];
      try lia.
    + pose proof (SizeOfFragments_nonneg (take j l)
                    (Forall_take _ j l Hl)). lia.
    + specialize (IH i j ltac:(lia)). lia.
Qed.

Lemma SizeOfFragments_take_all (l : list IO_BUFFER_FRAGMENT) (j : nat) :
  Forall (fun f => 0 <= Frag.Size f) l ->
  SizeOfFragments (take j l) <= SizeOfFragments l.
Proof.
  intros Hl. rewrite <- (firstn_all l) at 2.
  destruct (Nat.le_gt_cases j (length l)) as [Hle|Hgt].
  - apply SizeOfFragments_take_le; assumption.
  - rewrite take_ge by lia. rewrite firstn_all. lia.
Qed.

(** The walk from the fragment [idx] on, the fragments before it gone by:
    when it asks for no replacement, every fragment it met is aligned and
    within the range from the cursor on, and follows the one before it when
    the buffer is to be contiguous. *)
Lemma MmValidateIoBuffer_walk_checked (b : IO_BUFFER)
    (MinimumPhysicalAddress MaximumPhysicalAddress Alignment : Z)
    (PhysicallyContiguous : bool) (c e : Z) (n : nat) :
  Forall (fun f => 0 < Frag.Size f /\ 0 <= Frag.PhysicalAddress f
                   /\ Frag.PhysicalAddress f + Frag.Size f < 2 ^ 64)
    (FragmentsInUse b) ->
  SizeOfFragments (FragmentsInUse b) < 2 ^ UINTN_BITS ->
  0 <= c < e -> e <= SizeOfFragments (FragmentsInUse b) ->
  forall (idx : nat) (pe : Z) (k k' : Kernel),
  MmValidateIoBuffer_walk n b MinimumPhysicalAddress MaximumPhysicalAddress
    Alignment PhysicallyContiguous
    (Z.max c (SizeOfFragments (take idx (FragmentsInUse b))))
    (SizeOfFragments (take idx (FragmentsInUse b))) e (Z.of_nat idx) pe k
  = Some (false, k') ->
  (forall (j : nat) f,
     (idx <= j)%nat -> FragmentsInUse b !! j = Some f ->
     let Start := SizeOfFragments (take j (FragmentsInUse b)) in
     c < Start + Frag.Size f -> Start < e ->
     let Offset := Z.max 0 (c - Start) in
     IS_ALIGNED (Frag.PhysicalAddress f + Offset) Alignment = true /\
     IS_ALIGNED (Frag.Size f - Offset) Alignment = true /\
     MinimumPhysicalAddress <= Frag.PhysicalAddress f + Offset /\
     Frag.PhysicalAddress f + Frag.Size f <= MaximumPhysicalAddress) /\
  (forall f,
     FragmentsInUse b !! idx = Some f ->
     let Start := SizeOfFragments (take idx (FragmentsInUse b)) in
     c < Start + Frag.Size f -> Start < e ->
     PhysicallyContiguous = true -> pe <> INVALID_PHYSICAL_ADDRESS ->
     Frag.PhysicalAddress f + Z.max 0 (c - Start) = pe) /\
  (forall (j : nat) f g,
     (idx <= j)%nat ->
     FragmentsInUse b !! j = Some f -> FragmentsInUse b !! S j = Some g ->
     let Start := SizeOfFragments (take j (FragmentsInUse b)) in
     c < Start + Frag.Size f -> Start + Frag.Size f < e ->
     PhysicallyContiguous = true ->
     Frag.PhysicalAddress f + Frag.Size f <> INVALID_PHYSICAL_ADDRESS ->
     Frag.PhysicalAddress g = Frag.PhysicalAddress f + Frag.Size f).
Proof.
  intros Hall Hsum Hc He.
  set (U := FragmentsInUse b) in *.
  assert (Hnonneg : Forall (fun f => 0 <= Frag.Size f) U).
  { eapply Forall_impl; [exact Hall|]. cbn. intros f Hf. lia. }
  assert (Hmono : forall i j : nat, (i <= j)%nat ->
            SizeOfFragments (take i U) <= SizeOfFragments (take j U))
    by (apply SizeOfFragments_take_le; exact Hnonneg).
  assert (Hstart : forall i : nat, 0 <= SizeOfFragments (take i U)).
  { intros i. apply SizeOfFragments_nonneg, Forall_take, Hnonneg. }
  assert (Hend : forall (j : nat) f, U !! j = Some f ->
            0 < Frag.Size f /\ 0 <= Frag.PhysicalAddress f /\
            Frag.PhysicalAddress f + Frag.Size f < 2 ^ 64 /\
            SizeOfFragments (take (S j) U)
            = SizeOfFragments (take j U) + Frag.Size f /\
            SizeOfFragments (take j U) + Frag.Size f <= SizeOfFragments U).
  { intros j f Hj.
    destruct (Forall_lookup_1 _ _ _ _ Hall Hj) as (H1 & H2 & H3).
    pose proof (SizeOfFragments_take_S U j f Hj) as HS.
    pose proof (SizeOfFragments_take_all U (S j) Hnonneg). lia. }
  induction n as [|n IH]; intros idx pe k k' H; [discriminate|].
  cbn [MmValidateIoBuffer_walk] in H.
  set (co := SizeOfFragments (take idx U)) in *.
  pose proof (Hstart idx) as Hco. fold co in Hco.
  destruct (Z.ltb_spec (Z.max c co) e) as [Hlt|Hge]; cbn [negb] in H.
  2:{ assert (Hco' : e <= co) by lia.
      split; [|split].
      - intros j f Hj Hf Start Hover Hin. subst Start.
        pose proof (Hmono idx j Hj). fold co in H0. lia.
      - intros f Hf Start Hover Hin. subst Start. lia.
      - intros j f g Hj Hf Hg Start Hover Hin. subst Start.
        pose proof (Hmono idx j Hj). fold co in H0.
        destruct (Hend j f Hf) as (? & _). lia. }
  assert (Hidx : (idx < length U)%nat).
  { destruct (Nat.lt_ge_cases idx (length U)) as [Hi|Hi]; [exact Hi|].
    exfalso. subst co. rewrite take_ge in Hlt by lia. lia. }
  destruct (lookup_lt_is_Some_2 U idx Hidx) as [f Hf].
  destruct (Hend idx f Hf) as (Hsize & Hpa & Hpaend & HS & Hle). fold co in HS, Hle.
  apply bind_Some in H as (f' & k1 & Hread & H).
  apply read_Some in Hread as (f'' & Hlook & [= -> ->]).
  rewrite Nat2Z.id in Hlook.
  rewrite (FragmentsInUse_lookup b idx f Hf) in Hlook.
  injection Hlook as <-.
  rewrite (UINTN_small (co + Frag.Size f)) in H by lia.
  replace (Z.of_nat idx + 1) with (Z.of_nat (S idx)) in H by lia.
  destruct (Z.leb_spec (co + Frag.Size f) (Z.max c co)) as [Hskip|Hover].
  - assert (Hbo : Z.max c co = Z.max c (co + Frag.Size f)) by lia.
    rewrite Hbo, <- HS in H.
    destruct (IH (S idx) pe k k' H) as (IH1 & IH2 & IH3).
    split; [|split].
    + intros j g Hj Hg Start Hov Hin.
      destruct (Nat.eq_dec j idx) as [->|Hne].
      * subst Start. fold co in Hov. rewrite Hf in Hg. injection Hg as <-. lia.
      * assert (Hj' : (S idx <= j)%nat) by lia.
        exact (IH1 j g Hj' Hg Hov Hin).
    + intros g Hg Start Hov Hin. subst Start.
      rewrite Hf in Hg. injection Hg as <-. lia.
    + intros j g h Hj Hg Hh Start Hov Hin Hpc Hpe.
      destruct (Nat.eq_dec j idx) as [->|Hne].
      * subst Start. fold co in Hov. rewrite Hf in Hg. injection Hg as <-. lia.
      * assert (Hj' : (S idx <= j)%nat) by lia.
        exact (IH3 j g h Hj' Hg Hh Hov Hin Hpc Hpe).
  - cbv zeta in H.
    assert (Hoff : UINTN (Z.max c co - co) = Z.max 0 (c - co)).
    { rewrite UINTN_small by lia. lia. }
    rewrite Hoff in H. set (Offset := Z.max 0 (c - co)) in *.
    rewrite (ULONGLONG_small (Frag.PhysicalAddress f + Offset)) in H by lia.
    rewrite (UINTN_small (Frag.Size f - Offset)) in H by lia.
    replace (Frag.PhysicalAddress f + Offset + (Frag.Size f - Offset))
      with (Frag.PhysicalAddress f + Frag.Size f) in H by lia.
    rewrite (ULONGLONG_small (Frag.PhysicalAddress f + Frag.Size f))
      in H by lia.
    replace (Z.max c co + (Frag.Size f - Offset)) with (co + Frag.Size f)
      in H by lia.
    rewrite (UINTN_small (co + Frag.Size f)) in H by lia.
    destruct (PhysicallyContiguous
              && negb (pe =? INVALID_PHYSICAL_ADDRESS)
              && negb (Frag.PhysicalAddress f + Offset =? pe)) eqn:Hcontig;
      [apply ret_Some in H; discriminate|].
    destruct (negb (IS_ALIGNED (Frag.PhysicalAddress f + Offset) Alignment)
              || negb (IS_ALIGNED (Frag.Size f - Offset) Alignment))
      eqn:Haligned; [apply ret_Some in H; discriminate|].
    apply bind_Some in H as ([] & k1 & _ & H).
    destruct ((Frag.PhysicalAddress f + Offset <? MinimumPhysicalAddress)
              || (MaximumPhysicalAddress
                  <? Frag.PhysicalAddress f + Frag.Size f)) eqn:Hrange;
      [apply ret_Some in H; discriminate|].
    apply bind_Some in H as ([] & k2 & _ & H).
    assert (Hbo : co + Frag.Size f = Z.max c (co + Frag.Size f)) by lia.
    rewrite Hbo in H at 1. rewrite <- HS in H.
    destruct (IH (S idx) _ k2 k' H) as (IH1 & IH2 & IH3).
    apply orb_false_iff in Haligned as [Ha1 Ha2].
    apply negb_false_iff in Ha1, Ha2.
    apply orb_false_iff in Hrange as [Hr1 Hr2].
    apply Z.ltb_ge in Hr1, Hr2.
    split; [|split].
    + intros j g Hj Hg Start Hov Hin.
      destruct (Nat.eq_dec j idx) as [->|Hne].
      * subst Start. fold co in Hov, Hin |- *. rewrite Hf in Hg.
        injection Hg as <-. fold Offset. auto.
      * assert (Hj' : (S idx <= j)%nat) by lia.
        exact (IH1 j g Hj' Hg Hov Hin).
    + intros g Hg Start Hov Hin Hpc Hpe. subst Start. fold co Offset.
      rewrite Hf in Hg. injection Hg as <-.
      rewrite Hpc in Hcontig. cbn [andb] in Hcontig.
      apply andb_false_iff in Hcontig as [Hcontig|Hcontig];
        apply negb_false_iff, Z.eqb_eq in Hcontig; [contradiction | exact Hcontig].
    + intros j g h Hj Hg Hh Start Hov Hin Hpc Hpe.
      destruct (Nat.eq_dec j idx) as [->|Hne].
      * subst Start. fold co in Hov, Hin. rewrite Hf in Hg.
        injection Hg as <-.
        destruct (Hend (S idx) h Hh) as (Hsizeh & _).
        pose proof (IH2 h Hh) as Hnext. cbv zeta in Hnext.
        rewrite HS in Hnext.
        assert (Hov' : c < co + Frag.Size f + Frag.Size h) by lia.
        specialize (Hnext Hov' Hin Hpc Hpe). lia.
      * assert (Hj' : (S idx <= j)%nat) by lia.
        exact (IH3 j g h Hj' Hg Hh Hov Hin Hpc Hpe).
Qed.

(** X9.  When [MmValidateIoBuffer] returns STATUS_SUCCESS on a kernel buffer
    and leaves it in place (no replacement), the fragments of that buffer
    that hold the bytes asked for (from the cursor to the cursor plus the
    size, or to the end of the buffer) passed the checks of the walk: each
    of them, the first one taken from the cursor on, starts at a physical
    address that is aligned and not below the minimum, has an aligned size,
    and ends at or below the maximum; and when the buffer is to be
    physically contiguous, each of them starts at the physical end of the
    one before (an end equal to INVALID_PHYSICAL_ADDRESS is not compared,
    lines 2177-2179).  The fragments in use are taken to have positive sizes
    that add up to the total size, and physical ranges without
    wrap-around. *)
Theorem validate_kept_buffer_checked (b : IO_BUFFER)
    (MinimumPhysicalAddress MaximumPhysicalAddress Alignment SizeInBytes : Z)
    (PhysicallyContiguous : bool) (k : Kernel) v k' :
  flag_set (Io.Flags b) IO_BUFFER_FLAG_USER_MODE = false ->
  Forall (fun f => 0 < Frag.Size f /\ 0 <= Frag.PhysicalAddress f
                   /\ Frag.PhysicalAddress f + Frag.Size f < 2 ^ 64)
    (FragmentsInUse b) ->
  SizeOfFragments (FragmentsInUse b) = Io.TotalSize b ->
  Io.TotalSize b < 2 ^ UINTN_BITS ->
  0 <= Io.CurrentOffset b < Io.TotalSize b ->
  0 < SizeInBytes -> Io.CurrentOffset b + SizeInBytes < 2 ^ UINTN_BITS ->
  MmValidateIoBuffer MinimumPhysicalAddress MaximumPhysicalAddress Alignment
    SizeInBytes PhysicallyContiguous (Some b) k = Some (v, k') ->
  v_Status v = STATUS_SUCCESS -> v_NewBuffer v = None ->
  let Cursor := Io.CurrentOffset b in
  let EndOffset := Z.min (Cursor + SizeInBytes) (Io.TotalSize b) in
  (forall (j : nat) f,
     FragmentsInUse b !! j = Some f ->
     let Start := SizeOfFragments (take j (FragmentsInUse b)) in
     Cursor < Start + Frag.Size f -> Start < EndOffset ->
     let Offset := Z.max 0 (Cursor - Start) in
     IS_ALIGNED (Frag.PhysicalAddress f + Offset) Alignment = true /\
     IS_ALIGNED (Frag.Size f - Offset) Alignment = true /\
     MinimumPhysicalAddress <= Frag.PhysicalAddress f + Offset /\
     Frag.PhysicalAddress f + Frag.Size f <= MaximumPhysicalAddress) /\
  (PhysicallyContiguous = true ->
   forall (j : nat) f g,
     FragmentsInUse b !! j = Some f -> FragmentsInUse b !! S j = Some g ->
     let Start := SizeOfFragments (take j (FragmentsInUse b)) in
     Cursor < Start + Frag.Size f -> Start + Frag.Size f < EndOffset ->
     Frag.PhysicalAddress f + Frag.Size f <> INVALID_PHYSICAL_ADDRESS ->
     Frag.PhysicalAddress g = Frag.PhysicalAddress f + Frag.Size f).
Proof.
  intros Hkernel Hall Hsum Htotal Hcur Hsize Hfit H Hstatus Hnew Cursor EndOffset.
  assert (Hallocate : forall k1,
            MmValidateIoBuffer_end true STATUS_SUCCESS b MinimumPhysicalAddress
              MaximumPhysicalAddress Alignment SizeInBytes
              PhysicallyContiguous k1 = Some (v, k') -> False).
  { intros k1 Hend. unfold MmValidateIoBuffer_end in Hend.
    apply bind_Some in Hend as ([New|] & k2 & _ & Hend);
      apply ret_Some in Hend as [= -> _]; discriminate. }
  unfold MmValidateIoBuffer in H. cbv zeta in H.
  rewrite (UINTN_small (Io.CurrentOffset b + SizeInBytes)) in H by lia.
  destruct ((Z.land (Io.Flags b) IO_BUFFER_FLAG_EXTENDABLE =? 0)
            && (Io.TotalSize b <? Io.CurrentOffset b + SizeInBytes)).
  { apply ret_Some in H as [= -> _]. discriminate. }
  rewrite Hkernel in H.
  apply bind_Some in H as (AllocateIoBuffer & k1 & Hwalk & H).
  destruct AllocateIoBuffer.
  { exfalso. exact (Hallocate _ H). }
  clear H Hallocate.
  destruct (Z.eqb_spec (Io.CurrentOffset b) (Io.TotalSize b)) as [Heq|_];
    [lia|]. cbn [negb] in Hwalk.
  assert (He : (if Io.TotalSize b <? Io.CurrentOffset b + SizeInBytes
                then Io.TotalSize b else Io.CurrentOffset b + SizeInBytes)
               = EndOffset).
  { subst EndOffset Cursor.
    destruct (Z.ltb_spec (Io.TotalSize b) (Io.CurrentOffset b + SizeInBytes));
      lia. }
  rewrite He in Hwalk.
  pose proof (MmValidateIoBuffer_walk_checked b MinimumPhysicalAddress
                MaximumPhysicalAddress Alignment PhysicallyContiguous Cursor
                EndOffset (S (length (Io.Fragment b))) Hall
                ltac:(rewrite Hsum; exact Htotal)) as Hchecked.
  assert (Hc : 0 <= Cursor < EndOffset) by (subst EndOffset Cursor; lia).
  assert (Hend : EndOffset <= SizeOfFragments (FragmentsInUse b))
    by (subst EndOffset Cursor; lia).
  specialize (Hchecked Hc Hend 0%nat INVALID_PHYSICAL_ADDRESS k k1).
  change (take 0 (FragmentsInUse b)) with (@nil IO_BUFFER_FRAGMENT)
    in Hchecked.
  cbn [SizeOfFragments] in Hchecked.
  rewrite (Z.max_l Cursor 0) in Hchecked by (destruct Hc; assumption).
  destruct (Hchecked Hwalk) as (H1 & _ & H3).
  split.
  - intros j f Hf. apply H1; [lia | exact Hf].
  - intros Hpc j f g Hf Hg Start Hov Hin Hpe.
    apply (H3 j f g); [lia | assumption..].
Qed.

(** ** The fragments after an append *)

Lemma take_S_insert {A : Type} (l : list A) (i : nat) (x : A) :
  (i < length l)%nat -> take (S i) (<[i := x]> l) = take i l ++ [x].
Proof.
  intros Hi. rewrite (take_S_r _ i x).
  - rewrite take_insert_ge by lia. reflexivity.
  - apply list_lookup_insert_eq. exact Hi.
Qed.

(** X10.  The fragments after a completed [MmIoBufferAppendPage], on a
    buffer whose fragments in use have positive sizes that add up to the
    total size (a first slot not in use being zero-filled, and the page not
    at physical address 0 then): the page either became a fragment of its
    own after the others, or the last fragment in use, which ended at the
    physical address of the page, grew by a page.  The sizes still add up to
    the total size, and the appended page is found where the buffer used to
    end: [MmGetIoBufferPhysicalAddress] at the old size (counted from the
    cursor) plus an offset within the page answers the physical address of
    the page plus that offset. *)
Theorem append_page_found (b : IO_BUFFER)
    (PageCacheEntry : option PAGE_CACHE_ENTRY)
    (VirtualAddress PhysicalAddress : Z) (k : Kernel) b' k' :
  let Page :=
    match PageCacheEntry with
    | Some Entry => Pce.PhysicalAddress Entry
    | None => PhysicalAddress
    end in
  let Address :=
    match PageCacheEntry with
    | Some Entry => Pce.VirtualAddress Entry
    | None => VirtualAddress
    end in
  0 <= Io.FragmentCount b -> Io.MaxFragmentCount b < 2 ^ UINTN_BITS ->
  Forall (fun f => 0 < Frag.Size f) (FragmentsInUse b) ->
  SizeOfFragments (FragmentsInUse b) = Io.TotalSize b ->
  Io.TotalSize b + MmPageSize < 2 ^ UINTN_BITS ->
  0 <= Io.CurrentOffset b <= Io.TotalSize b ->
  (Io.FragmentCount b = 0 ->
   Page <> 0 /\ Io.Fragment b !! 0%nat = Some Frag.zero) ->
  MmIoBufferAppendPage b PageCacheEntry VirtualAddress PhysicalAddress k
  = Some (b', k') ->
  (FragmentsInUse b' = FragmentsInUse b ++ [Frag.mk Address Page MmPageSize]
   \/ exists Before Last,
        FragmentsInUse b = Before ++ [Last] /\
        FragmentsInUse b'
        = Before ++ [Frag.set_Size (Frag.Size Last + MmPageSize) Last] /\
        ULONGLONG (Frag.PhysicalAddress Last + Frag.Size Last) = Page) /\
  Forall (fun f => 0 < Frag.Size f) (FragmentsInUse b') /\
  SizeOfFragments (FragmentsInUse b') = Io.TotalSize b' /\
  Io.FragmentCount b' <= Io.MaxFragmentCount b' /\
  forall Offset,
    0 <= Offset < MmPageSize ->
    MmGetIoBufferPhysicalAddress b'
      (Io.TotalSize b - Io.CurrentOffset b + Offset) k'
    = Some (ULONGLONG (Page + Offset), k').
Proof.
  intros Page Address Hcount Hmax Hsizes Hsum Hfit Hcur Hempty Hrun.
  pose proof MmPageSize_pos as Hpos.
  unfold MmIoBufferAppendPage in Hrun. cbv zeta in Hrun.
  fold Page Address in Hrun.
  do 3 (apply bind_Some in Hrun as ([] & k1 & H1 & Hrun);
        apply ASSERT_Some in H1 as [_ [= ->]]).
  apply bind_Some in Hrun as ([] & k1 & H1 & Hrun).
  apply ASSERT_Some in H1 as [Hroom [= ->]]. apply Z.ltb_lt in Hroom.
  apply bind_Some in Hrun as ([] & k1 & H1 & Hrun).
  apply ASSERT_Some in H1 as [_ [= ->]].
  apply bind_Some in Hrun as (f & k1 & H1 & Hrun).
  apply read_Some in H1 as (Last & Hlast & [= -> ->]).
  apply bind_Some in Hrun as (b1 & k1 & H1 & Hrun).
  set (fc := Z.to_nat (Io.FragmentCount b)) in *.
  assert (HU : FragmentsInUse b = take fc (Io.Fragment b)) by reflexivity.
  assert (Hb1 :
    k1 = k /\ Io.TotalSize b1 = Io.TotalSize b /\
    Io.CurrentOffset b1 = Io.CurrentOffset b /\
    Io.MaxFragmentCount b1 = Io.MaxFragmentCount b /\
    Io.PageCacheEntries b1 = Io.PageCacheEntries b /\
    Io.PageCount b1 = Io.PageCount b /\ Io.Flags b1 = Io.Flags b /\
    (Z.to_nat (Io.FragmentCount b1) <= length (Io.Fragment b1))%nat /\
    ((Io.FragmentCount b1 = Io.FragmentCount b + 1 /\
      FragmentsInUse b1
      = FragmentsInUse b ++ [Frag.mk Address Page MmPageSize]) \/
     (Io.FragmentCount b1 = Io.FragmentCount b /\
      exists Before,
        FragmentsInUse b = Before ++ [Last] /\
        FragmentsInUse b1
        = Before ++ [Frag.set_Size (Frag.Size Last + MmPageSize) Last] /\
        ULONGLONG (Frag.PhysicalAddress Last + Frag.Size Last) = Page))).
  { assert (Hnext : (if negb (Io.FragmentCount b =? 0)
                     then (if negb (Io.FragmentCount b =? 0)
                           then Io.FragmentCount b - 1 else 0) + 1
                     else if negb (Io.FragmentCount b =? 0)
                          then Io.FragmentCount b - 1 else 0)
                    = Io.FragmentCount b).
    { destruct (Z.eqb_spec (Io.FragmentCount b) 0); cbn [negb]; lia. }
    rewrite Hnext in H1. clear Hnext.
    destruct ((ULONGLONG (Frag.PhysicalAddress Last + Frag.Size Last) =? Page)
              && ((Address =? NULL) && (Frag.VirtualAddress Last =? NULL)
                  || negb (Address =? NULL)
                     && negb (Frag.VirtualAddress Last =? NULL)
                     && (UINTN (Frag.VirtualAddress Last + Frag.Size Last)
                         =? Address))) eqn:Hmerge.
    - apply andb_true_iff in Hmerge as [Hpage _]. apply Z.eqb_eq in Hpage.
      destruct (Z.eqb_spec (Io.FragmentCount b) 0) as [Hzero|Hnz];
        cbn [negb] in H1, Hlast.
      { destruct (Hempty Hzero) as [Hnot Hslot].
        change (Z.to_nat 0) with 0%nat in Hlast. rewrite Hslot in Hlast.
        injection Hlast as <-.
        change (ULONGLONG (Frag.PhysicalAddress Frag.zero
                           + Frag.Size Frag.zero)) with 0 in Hpage.
        congruence. }
      apply bind_Some in H1 as ([] & k2 & H2 & H1).
      apply ASSERT_Some in H2 as [_ [= ->]].
      apply bind_Some in H1 as (Table & k2 & H2 & H1).
      apply write_Some in H2 as [Hlen [= -> ->]].
      apply ret_Some in H1 as [= -> ->].
      repeat (split; [reflexivity|]).
      split; [cbn; rewrite length_insert; fold fc; lia|].
      right. split; [reflexivity|].
      clear Hrun.
      assert (Hn : exists n, fc = S n /\ Z.to_nat (Io.FragmentCount b - 1) = n).
      { exists (fc - 1)%nat. subst fc. lia. }
      destruct Hn as (n & Hn & Hn'). rewrite Hn' in *. rewrite Hn in HU.
      exists (take n (Io.Fragment b)).
      assert (Hsize : 0 < Frag.Size Last
                      /\ Frag.Size Last <= Io.TotalSize b).
      { assert (Hin : FragmentsInUse b !! n = Some Last).
        { rewrite HU, lookup_take_lt by lia. exact Hlast. }
        split; [exact (Forall_lookup_1 _ _ _ _ Hsizes Hin)|].
        assert (Hnonneg : Forall (fun f => 0 <= Frag.Size f) (FragmentsInUse b))
          by (eapply Forall_impl; [exact Hsizes|]; cbn; intros; lia).
        pose proof (SizeOfFragments_take_S _ _ _ Hin) as HS.
        pose proof (SizeOfFragments_take_all _ (S n) Hnonneg).
        pose proof (SizeOfFragments_nonneg (take n (FragmentsInUse b))
                      (Forall_take _ _ _ Hnonneg)).
        lia. }
      rewrite (UINTN_small (Frag.Size Last + MmPageSize)) by lia.
      split; [|split; [|exact Hpage]].
      + rewrite HU. apply take_S_r. exact Hlast.
      + unfold FragmentsInUse. cbn [Io.FragmentCount Io.Fragment Io.set_Fragment].
        fold fc. rewrite Hn. apply take_S_insert. exact Hlen.
    - clear Hlast. apply bind_Some in H1 as (g & k2 & H2 & H1).
      apply read_Some in H2 as (g' & Hg & [= -> ->]).
      do 3 (apply bind_Some in H1 as ([] & k2 & H2 & H1);
            apply ASSERT_Some in H2 as [_ [= ->]]).
      apply bind_Some in H1 as (Table & k2 & H2 & H1).
      apply write_Some in H2 as [Hlen [= -> ->]].
      apply ret_Some in H1 as [= -> ->].
      repeat (split; [reflexivity|]).
      cbn [Io.FragmentCount Io.set_FragmentCount Io.Fragment Io.set_Fragment].
      rewrite (UINTN_small (Io.FragmentCount b + 1)) by lia.
      split; [rewrite length_insert; fold fc in Hlen; lia|].
      left. split; [reflexivity|].
      unfold FragmentsInUse. cbn [Io.FragmentCount Io.Fragment
        Io.set_FragmentCount Io.set_Fragment].
      replace (Z.to_nat (Io.FragmentCount b + 1)) with (S fc) by (subst fc; lia).
      fold fc in Hlen |- *. apply take_S_insert. exact Hlen. }
  destruct Hb1 as (-> & Htotal1 & Hcur1 & Hmax1 & Hpce1 & Hpc1 & Hflags1
                   & Htable1 & Hfrag).
  clear H1 Hlast HU.
  apply bind_Some in Hrun as (b2 & k2 & H2 & Hrun).
  apply ret_Some in Hrun as [= -> ->].
  assert (Hb2 : Io.Fragment b2 = Io.Fragment b1 /\
                Io.FragmentCount b2 = Io.FragmentCount b1 /\
                Io.TotalSize b2 = Io.TotalSize b1 /\
                Io.CurrentOffset b2 = Io.CurrentOffset b1 /\
                Io.MaxFragmentCount b2 = Io.MaxFragmentCount b1).
  { destruct PageCacheEntry as [Entry|].
    - apply bind_Some in H2 as ([] & k3 & _ & H2).
      apply bind_Some in H2 as ([] & k4 & _ & H2).
      destruct (Io.PageCacheEntries b1); [|discriminate].
      apply bind_Some in H2 as (Slot & k5 & _ & H2).
      apply bind_Some in H2 as ([] & k6 & _ & H2).
      apply bind_Some in H2 as ([] & k7 & _ & H2).
      apply bind_Some in H2 as ([] & k8 & _ & H2).
      apply bind_Some in H2 as (Entries & k9 & _ & H2).
      apply ret_Some in H2 as [= -> _]. repeat split.
    - apply ret_Some in H2 as [= -> _]. repeat split. }
  destruct Hb2 as (Hfrag2 & Hcount2 & Htotal2 & Hcur2 & Hmax2). clear H2.
  assert (HU' : FragmentsInUse
                  (Io.set_TotalSize (UINTN (Io.TotalSize b2 + MmPageSize)) b2)
                = FragmentsInUse b1).
  { unfold FragmentsInUse. cbn [Io.FragmentCount Io.Fragment Io.set_TotalSize].
    rewrite Hfrag2, Hcount2. reflexivity. }
  rewrite HU'. unfold MmGetIoBufferPhysicalAddress.
  cbn [Io.TotalSize Io.FragmentCount Io.MaxFragmentCount Io.CurrentOffset
       Io.set_TotalSize].
  rewrite Htotal2, Htotal1, Hcount2, Hmax2, Hmax1, Hcur2, Hcur1.
  rewrite (UINTN_small (Io.TotalSize b + MmPageSize)) by lia.
  rewrite <- (FragmentsInUse_length b1 Htable1).
  assert (Hnonneg : Forall (fun f => 0 <= Frag.Size f) (FragmentsInUse b))
    by (eapply Forall_impl; [exact Hsizes|]; cbn; intros; lia).
  assert (Hseg : forall j g,
            FragmentsInUse b1 !! j = Some g ->
            Io.Fragment (Io.set_TotalSize (Io.TotalSize b + MmPageSize) b2)
            !! (Z.to_nat 0 + j)%nat = Some g).
  { intros j g Hj. cbn. rewrite Hfrag2. apply FragmentsInUse_lookup, Hj. }
  destruct Hfrag as [[Hcount1 HU1] | (Hcount1 & Before & HU & HU1 & Hpage)].
  - rewrite HU1. split; [left; reflexivity|].
    assert (Hpositive : Forall (fun f => 0 < Frag.Size f)
                          (FragmentsInUse b
                           ++ [Frag.mk Address Page MmPageSize])).
    { apply Forall_app. split; [exact Hsizes|]. repeat constructor. exact Hpos. }
    split; [exact Hpositive|].
    split; [rewrite SizeOfFragments_app, Hsum; cbn; lia|].
    split; [lia|].
    intros Offset Hoff.
    replace (Io.TotalSize b - Io.CurrentOffset b + Offset + Io.CurrentOffset b)
      with (Io.TotalSize b + Offset) by lia.
    rewrite (UINTN_small (Io.TotalSize b + Offset)) by lia.
    rewrite (MmGetIoBufferPhysicalAddress_loop_found _ _ _ _ 0 0
               (length (FragmentsInUse b))
               (Frag.mk Address Page MmPageSize)).
    + rewrite take_app_length. cbn [Frag.PhysicalAddress]. rewrite Hsum.
      do 3 f_equal. lia.
    + lia.
    + rewrite <- HU1. exact Hseg.
    + eapply Forall_impl; [exact Hpositive|]. cbn. intros; lia.
    + lia.
    + rewrite SizeOfFragments_app, Hsum. cbn. lia.
    + apply list_lookup_middle. reflexivity.
    + rewrite take_app_length, Hsum. cbn. lia.
  - rewrite HU1.
    split; [right; exists Before, Last; auto|].
    rewrite HU in Hsizes, Hsum, Hnonneg.
    apply Forall_app in Hsizes as [HsBefore HsLast].
    apply Forall_inv in HsLast.
    rewrite SizeOfFragments_app in Hsum. cbn in Hsum.
    pose proof (SizeOfFragments_nonneg Before
                  (proj1 (proj1 (Forall_app _ _ _) Hnonneg))) as HBefore.
    assert (Hpositive : Forall (fun f => 0 < Frag.Size f)
                          (Before
                           ++ [Frag.set_Size (Frag.Size Last + MmPageSize)
                                 Last])).
    { apply Forall_app. split; [exact HsBefore|]. repeat constructor. cbn. lia. }
    split; [exact Hpositive|].
    split; [rewrite SizeOfFragments_app; cbn; lia|].
    split; [lia|].
    intros Offset Hoff.
    replace (Io.TotalSize b - Io.CurrentOffset b + Offset + Io.CurrentOffset b)
      with (Io.TotalSize b + Offset) by lia.
    rewrite (UINTN_small (Io.TotalSize b + Offset)) by lia.
    rewrite (MmGetIoBufferPhysicalAddress_loop_found _ _ _ _ 0 0
               (length Before)
               (Frag.set_Size (Frag.Size Last + MmPageSize) Last)).
    + rewrite take_app_length. cbn [Frag.PhysicalAddress Frag.set_Size].
      rewrite <- Hpage, ULONGLONG_add_idemp. do 3 f_equal. lia.
    + lia.
    + rewrite <- HU1. exact Hseg.
    + eapply Forall_impl; [exact Hpositive|]. cbn. intros; lia.
    + lia.
    + rewrite SizeOfFragments_app. cbn. lia.
    + apply list_lookup_middle. reflexivity.
    + rewrite take_app_length. cbn. lia.
Qed.

(** ** Reset, then free *)

(** What the release of a locked buffer asserts of it. *)
Lemma MmpReleaseIoBufferResources_locked (b : IO_BUFFER) (k : Kernel) b' k' :
  MmpReleaseIoBufferResources b k = Some (b', k') ->
  flag_set (Io.Flags b) IO_BUFFER_FLAG_MEMORY_OWNED = false ->
  flag_set (Io.Flags b) IO_BUFFER_FLAG_PAGE_CACHE_BACKED = false ->
  flag_set (Io.Flags b) IO_BUFFER_FLAG_MEMORY_LOCKED = true ->
  0 < Io.PageCount b /\ is_Some (Io.PageCacheEntries b).
Proof.
  unfold MmpReleaseIoBufferResources. intros H Howned Hcached Hlocked.
  cbv zeta in H. rewrite Howned, Hcached, Hlocked in H. cbn [orb negb andb] in H.
  apply bind_Some in H as (b1 & k1 & H1 & H).
  assert (Hb1 : Io.PageCount b1 = Io.PageCount b
                /\ Io.PageCacheEntries b1 = Io.PageCacheEntries b).
  { destruct (flag_set (Io.Flags b) IO_BUFFER_FLAG_UNMAP_ON_FREE).
    - apply MmpUnmapIoBuffer_run in H1 as [-> _]. split; reflexivity.
    - apply ret_Some in H1 as [= -> _]. split; reflexivity. }
  destruct Hb1 as [Hpc Hpce].
  apply bind_Some in H as ([] & k2 & H2 & _).
  apply bind_Some in H2 as ([] & k3 & H3 & H2).
  apply ASSERT_Some in H3 as [H3 _]. apply Z.ltb_lt in H3.
  apply bind_Some in H2 as ([] & k4 & H4 & _).
  apply ASSERT_Some in H4 as [H4 _]. apply bool_decide_eq_true in H4.
  rewrite <- Hpc, <- Hpce. auto.
Qed.

(** What a completed reset leaves, and what it ran. *)
Lemma MmResetIoBuffer_run (b : IO_BUFFER) (k : Kernel) b' k' :
  MmResetIoBuffer b k = Some (b', k') ->
  (exists b1, MmpReleaseIoBufferResources b k = Some (b1, k')) /\
  Io.Flags b' = Z.land (Io.Flags b) (Z.lnot 896) /\
  Io.FragmentCount b' = 0 /\ Io.CurrentOffset b' = 0 /\
  Io.PageCount b' = Io.PageCount b /\
  (is_Some (Io.PageCacheEntries b) -> is_Some (Io.PageCacheEntries b')).
Proof.
  unfold MmResetIoBuffer. intros H.
  apply bind_Some in H as ([] & k1 & H1 & H).
  apply ASSERT_Some in H1 as [_ [= ->]].
  apply bind_Some in H as (b1 & k2 & H2 & H).
  pose proof (MmpReleaseIoBufferResources_buffer _ _ _ _ H2) as Hb1.
  apply bind_Some in H as (t & k3 & H3 & H).
  apply RtlZeroMemory_run in H3 as [-> ->].
  rewrite Hb1 in H. cbn in H.
  change (Z.lor IO_BUFFER_FLAG_UNMAP_ON_FREE
            (Z.lor IO_BUFFER_FLAG_MAPPED IO_BUFFER_FLAG_VIRTUALLY_CONTIGUOUS))
    with 896 in H.
  assert (Hf : Z.land
                 (if flag_set (Io.Flags b) IO_BUFFER_FLAG_UNMAP_ON_FREE
                  then Z.land (Io.Flags b) (Z.lnot 896) else Io.Flags b)
                 (Z.lnot 896)
               = Z.land (Io.Flags b) (Z.lnot 896)).
  { destruct (flag_set _ _); [apply flag_cleared_twice | reflexivity]. }
  rewrite Hf in H. clear Hf.
  destruct (Io.PageCacheEntries b) as [Entries|].
  - apply bind_Some in H as (t & k4 & H4 & H).
    apply RtlZeroMemory_run in H4 as [-> ->].
    apply ret_Some in H as [= -> ->].
    split; [exists b1; exact H2|]. cbn.
    repeat split; try reflexivity. intros _. eexists. reflexivity.
  - apply ret_Some in H as [= -> ->].
    split; [exists b1; exact H2|]. cbn.
    repeat split; try reflexivity. intros [x Hx]. discriminate.
Qed.

(** X11.  After a completed [MmResetIoBuffer], [MmFreeIoBuffer] completes and
    releases nothing a second time: it frees no page, unlocks none, drops no
    reference and unmaps nothing.  Its one call gives the structure back to
    its pool; for a structure of the caller's it calls nothing and leaves
    the buffer as the reset left it. *)
Theorem reset_then_free (b : IO_BUFFER) (k : Kernel) b' k' :
  MmResetIoBuffer b k = Some (b', k') ->
  MmFreeIoBuffer b' k'
  = if Z.land (Io.Flags b) IO_BUFFER_FLAG_STRUCTURE_NOT_OWNED =? 0
    then Some (None,
               set_Log (Log k'
                        ++ [if flag_set (Io.Flags b) IO_BUFFER_FLAG_NON_PAGED
                            then CallMmFreeNonPagedPool
                            else CallMmFreePagedPool]) k')
    else Some (Some b', k').
Proof.
  intros H.
  destruct (MmResetIoBuffer_run _ _ _ _ H)
    as ([b1 Hrelease] & Hflags & Hcount & Hcur & Hpc & Hpce).
  assert (Hkept : forall Flag,
            Z.land (Z.lnot 896) Flag = Flag ->
            flag_set (Io.Flags b') Flag = flag_set (Io.Flags b) Flag).
  { intros Flag HF. rewrite Hflags. apply flag_set_kept. exact HF. }
  assert (Hunmap : flag_set (Io.Flags b') IO_BUFFER_FLAG_UNMAP_ON_FREE = false)
    by (rewrite Hflags; apply flag_set_cleared; reflexivity).
  assert (Hsno : (Z.land (Io.Flags b') IO_BUFFER_FLAG_STRUCTURE_NOT_OWNED =? 0)
                 = (Z.land (Io.Flags b) IO_BUFFER_FLAG_STRUCTURE_NOT_OWNED =? 0)).
  { pose proof (Hkept IO_BUFFER_FLAG_STRUCTURE_NOT_OWNED eq_refl) as HS.
    unfold flag_set in HS. apply (f_equal negb) in HS.
    rewrite !negb_involutive in HS. exact HS. }
  assert (Hb' : Io.set_CurrentOffset 0 b' = b').
  { destruct b'. cbn in Hcur. subst. reflexivity. }
  assert (Hrel : MmpReleaseIoBufferResources b' k' = Some (b', k')).
  { unfold MmpReleaseIoBufferResources. cbv zeta.
    rewrite Hunmap, Hb'. unfold bind at 1. unfold ret at 1.
    rewrite (Hkept IO_BUFFER_FLAG_MEMORY_OWNED eq_refl),
      (Hkept IO_BUFFER_FLAG_PAGE_CACHE_BACKED eq_refl),
      (Hkept IO_BUFFER_FLAG_MEMORY_LOCKED eq_refl).
    destruct (flag_set (Io.Flags b) IO_BUFFER_FLAG_MEMORY_OWNED) eqn:Howned;
      [cbn [orb]; rewrite Hcount; reflexivity|].
    destruct (flag_set (Io.Flags b) IO_BUFFER_FLAG_PAGE_CACHE_BACKED)
      eqn:Hcached; [cbn [orb]; rewrite Hcount; reflexivity|].
    cbn [orb negb andb].
    destruct (flag_set (Io.Flags b) IO_BUFFER_FLAG_MEMORY_LOCKED) eqn:Hlocked;
      [|reflexivity].
    destruct (MmpReleaseIoBufferResources_locked _ _ _ _ Hrelease Howned
                Hcached Hlocked) as [Hpages Htable].
    destruct (Hpce Htable) as [Entries HE].
    unfold bind at 1. unfold bind at 1. unfold ASSERT at 1.
    rewrite Hpc. destruct (Z.ltb_spec 0 (Io.PageCount b)); [|lia].
    unfold bind at 1. rewrite HE. unfold ASSERT at 1.
    rewrite bool_decide_eq_true_2 by eauto.
    rewrite Hcount. reflexivity. }
  unfold MmFreeIoBuffer. unfold bind at 1. rewrite Hrel. rewrite Hsno.
  destruct (Z.land (Io.Flags b) IO_BUFFER_FLAG_STRUCTURE_NOT_OWNED =? 0);
    [|reflexivity].
  rewrite (Hkept IO_BUFFER_FLAG_NON_PAGED eq_refl).
  destruct (flag_set (Io.Flags b) IO_BUFFER_FLAG_NON_PAGED); reflexivity.
Qed.

(** ** The fragments after an extension *)

(** One run of pages attached to a buffer whose fragments add up:
    [FragmentIndex] is the last fragment in use, or the first slot of an
    empty buffer. *)
Lemma MmpExtendIoBuffer_attach_fragments (b : IO_BUFFER)
    (FragmentIndex PhysicalAddress Bytes : Z) (k : Kernel) x k' :
  0 <= Io.FragmentCount b <= Io.MaxFragmentCount b ->
  Io.MaxFragmentCount b < 2 ^ UINTN_BITS ->
  Forall (fun f => 0 < Frag.Size f) (FragmentsInUse b) ->
  0 < Bytes ->
  SizeOfFragments (FragmentsInUse b) + Bytes < 2 ^ UINTN_BITS ->
  FragmentIndex
  = (if Io.FragmentCount b =? 0 then 0 else Io.FragmentCount b - 1) ->
  (Io.FragmentCount b = 0 ->
   exists f, Io.Fragment b !! 0%nat = Some f /\ Frag.Size f = 0) ->
  MmpExtendIoBuffer_attach b FragmentIndex PhysicalAddress Bytes k
  = Some (x, k') ->
  k' = k /\
  1 <= Io.FragmentCount (fst x) <= Io.MaxFragmentCount b /\
  Io.FragmentCount b <= Io.FragmentCount (fst x) /\
  snd x = Io.FragmentCount (fst x) - 1 /\
  Io.MaxFragmentCount (fst x) = Io.MaxFragmentCount b /\
  Forall (fun f => 0 < Frag.Size f) (FragmentsInUse (fst x)) /\
  SizeOfFragments (FragmentsInUse (fst x))
  = SizeOfFragments (FragmentsInUse b) + Bytes.
Proof.
  intros Hcount Hmax Hsizes Hbytes Hfit Hidx Hempty H.
  unfold MmpExtendIoBuffer_attach in H.
  set (fc := Z.to_nat (Io.FragmentCount b)) in *.
  assert (HU : FragmentsInUse b = take fc (Io.Fragment b)) by reflexivity.
  assert (Hnonneg : Forall (fun f => 0 <= Frag.Size f) (FragmentsInUse b))
    by (eapply Forall_impl; [exact Hsizes|]; cbn; intros; lia).
  pose proof (SizeOfFragments_nonneg _ Hnonneg) as Hsum.
  apply bind_Some in H as (Last & k1 & H1 & H).
  apply read_Some in H1 as (Last' & Hlast & [= -> ->]).
  assert (Hnext : (if negb (Io.FragmentCount b =? 0)
                   then UINTN (FragmentIndex + 1) else FragmentIndex)
                  = Io.FragmentCount b).
  { subst FragmentIndex.
    destruct (Z.eqb_spec (Io.FragmentCount b) 0) as [->|]; cbn [negb];
      [reflexivity|].
    rewrite UINTN_small; lia. }
  rewrite Hnext in H. clear Hnext.
  destruct ((Frag.VirtualAddress Last' =? NULL)
            && (ULONGLONG (Frag.PhysicalAddress Last' + Frag.Size Last')
                =? PhysicalAddress)).
  - apply bind_Some in H as ([] & k2 & H2 & H).
    apply ASSERT_Some in H2 as [Hnz [= ->]].
    apply negb_true_iff, Z.eqb_neq in Hnz.
    apply bind_Some in H as (Table & k2 & H2 & H).
    apply write_Some in H2 as [Hlen [= -> ->]].
    apply ret_Some in H as [= -> ->]. cbn [fst snd].
    destruct (Z.eqb_spec (Io.FragmentCount b) 0) as [Hzero|Hpos].
    { exfalso. subst FragmentIndex. destruct (Hempty Hzero) as (f & Hf & Hf0).
      change (Z.to_nat 0) with 0%nat in Hlast. congruence. }
    subst FragmentIndex.
    assert (Hn : exists n, fc = S n /\ Z.to_nat (Io.FragmentCount b - 1) = n).
    { exists (fc - 1)%nat. subst fc. lia. }
    destruct Hn as (n & Hn & Hn'). rewrite Hn' in *. rewrite Hn in HU.
    assert (Hin : FragmentsInUse b !! n = Some Last').
    { rewrite HU, lookup_take_lt by lia. exact Hlast. }
    assert (Hbefore : FragmentsInUse b = take n (Io.Fragment b) ++ [Last'])
      by (rewrite HU; apply take_S_r; exact Hlast).
    assert (Hafter :
              FragmentsInUse
                (Io.set_Fragment
                   (<[n := Frag.set_Size (UINTN (Frag.Size Last' + Bytes))
                             Last']> (Io.Fragment b)) b)
              = take n (Io.Fragment b)
                ++ [Frag.set_Size (UINTN (Frag.Size Last' + Bytes)) Last']).
    { unfold FragmentsInUse. cbn [Io.FragmentCount Io.Fragment Io.set_Fragment].
      fold fc. rewrite Hn. apply take_S_insert. exact Hlen. }
    rewrite Hafter. rewrite Hbefore in Hsizes, Hfit, Hsum |- *.
    rewrite SizeOfFragments_app in Hfit, Hsum |- *. cbn in Hfit, Hsum |- *.
    apply Forall_app in Hsizes as [Hs1 Hs2]. apply Forall_inv in Hs2.
    pose proof (SizeOfFragments_nonneg (take n (Io.Fragment b))) as Hb.
    assert (Hb' : 0 <= SizeOfFragments (take n (Io.Fragment b))).
    { apply Hb. eapply Forall_impl; [exact Hs1|]. cbn. intros; lia. }
    rewrite SizeOfFragments_app. cbn.
    rewrite (UINTN_small (Frag.Size Last' + Bytes)) by lia.
    split; [reflexivity|]. split; [lia|]. split; [lia|].
    split; [reflexivity|]. split; [reflexivity|].
    split; [|lia].
    apply Forall_app. split; [exact Hs1|]. repeat constructor. cbn. lia.
  - apply bind_Some in H as ([] & k2 & H2 & H).
    apply ASSERT_Some in H2 as [Hroom [= ->]]. apply Z.ltb_lt in Hroom.
    apply bind_Some in H as (g & k2 & H2 & H).
    apply read_Some in H2 as (g' & Hg & [= -> ->]).
    do 3 (apply bind_Some in H as ([] & k2 & H2 & H);
          apply ASSERT_Some in H2 as [_ [= ->]]).
    apply bind_Some in H as (Table & k2 & H2 & H).
    apply write_Some in H2 as [Hlen [= -> ->]].
    apply ret_Some in H as [= -> ->]. cbn [fst snd].
    cbn [Io.FragmentCount Io.set_FragmentCount Io.MaxFragmentCount
         Io.set_Fragment].
    rewrite (UINTN_small (Io.FragmentCount b + 1)) by lia.
    assert (Hafter :
              FragmentsInUse
                (Io.set_FragmentCount (Io.FragmentCount b + 1)
                   (Io.set_Fragment
                      (<[fc := Frag.set_Size Bytes
                                 (Frag.set_PhysicalAddress PhysicalAddress g')]>
                         (Io.Fragment b)) b))
              = FragmentsInUse b
                ++ [Frag.set_Size Bytes
                      (Frag.set_PhysicalAddress PhysicalAddress g')]).
    { unfold FragmentsInUse. cbn [Io.FragmentCount Io.Fragment
        Io.set_FragmentCount Io.set_Fragment].
      replace (Z.to_nat (Io.FragmentCount b + 1)) with (S fc)
        by (subst fc; lia).
      fold fc. apply take_S_insert. exact Hlen. }
    fold fc. rewrite Hafter, SizeOfFragments_app. cbn.
    split; [reflexivity|]. split; [lia|]. split; [lia|].
    split; [lia|]. split; [reflexivity|].
    split; [|lia].
    apply Forall_app. split; [exact Hsizes|]. repeat constructor. exact Hbytes.
Qed.

Lemma MmpAllocatePhysicalPages_log (PageCount Alignment : Z) (k : Kernel) pa k' :
  MmpAllocatePhysicalPages PageCount Alignment k = Some (pa, k') ->
  Log k' = Log k ++ [CallMmpAllocatePhysicalPages PageCount Alignment].
Proof.
  unfold MmpAllocatePhysicalPages. cbn.
  destruct (PhysicalPages k); intros [= _ <-]; reflexivity.
Qed.

(** The page loop on a buffer whose fragments add up. *)
Lemma MmpExtendIoBuffer_pages_fragments (Alignment : Z) (n : nat) :
  forall (b : IO_BUFFER) (FragmentIndex : Z) (k : Kernel) b' k',
  0 <= Io.FragmentCount b <= Io.MaxFragmentCount b ->
  Io.MaxFragmentCount b < 2 ^ UINTN_BITS ->
  Forall (fun f => 0 < Frag.Size f) (FragmentsInUse b) ->
  SizeOfFragments (FragmentsInUse b) = Io.TotalSize b ->
  Io.TotalSize b + Z.of_nat n * MmPageSize < 2 ^ UINTN_BITS ->
  FragmentIndex
  = (if Io.FragmentCount b =? 0 then 0 else Io.FragmentCount b - 1) ->
  (Io.FragmentCount b = 0 ->
   exists f, Io.Fragment b !! 0%nat = Some f /\ Frag.Size f = 0) ->
  MmpExtendIoBuffer_pages n b Alignment FragmentIndex k
  = Some ((STATUS_SUCCESS, b'), k') ->
  Log k' = Log k ++ replicate n (CallMmpAllocatePhysicalPages 1 Alignment) /\
  Io.FragmentCount b <= Io.FragmentCount b' <= Io.MaxFragmentCount b /\
  Io.MaxFragmentCount b' = Io.MaxFragmentCount b /\
  Forall (fun f => 0 < Frag.Size f) (FragmentsInUse b') /\
  SizeOfFragments (FragmentsInUse b') = Io.TotalSize b'.
Proof.
  pose proof MmPageSize_pos as Hpos.
  induction n as [|n IH];
    intros b idx k b' k' Hcount Hmax Hsizes Hsum Hfit Hidx Hempty H.
  - apply ret_Some in H as [= -> ->]. rewrite app_nil_r.
    repeat split; try assumption; lia.
  - cbn [MmpExtendIoBuffer_pages] in H.
    apply bind_Some in H as (pa & k1 & Hpa & H).
    apply MmpAllocatePhysicalPages_log in Hpa.
    destruct (pa =? INVALID_PHYSICAL_ADDRESS);
      [apply ret_Some in H; discriminate|].
    apply bind_Some in H as (x & k2 & Hattach & H).
    pose proof (MmpExtendIoBuffer_attach_size _ _ _ _ _ _ _ Hattach)
      as [Htotal _].
    assert (Hnonneg : 0 <= Io.TotalSize b).
    { rewrite <- Hsum. apply SizeOfFragments_nonneg.
      eapply Forall_impl; [exact Hsizes|]. cbn. intros; lia. }
    apply MmpExtendIoBuffer_attach_fragments in Hattach
      as (-> & Hc1 & Hc2 & Hidx1 & Hmax1 & Hs1 & Hsum1);
      try assumption; try lia.
    apply IH in H as (Hlog & Hc' & Hmax' & Hs' & Hsum').
    + cbn [Io.FragmentCount Io.MaxFragmentCount Io.set_TotalSize] in *.
      rewrite Hlog, Hpa, <- app_assoc. cbn [replicate app].
      split; [reflexivity|]. split; [lia|]. split; [congruence|].
      split; assumption.
    + cbn. lia.
    + cbn. lia.
    + exact Hs1.
    + cbn [Io.TotalSize Io.set_TotalSize].
      change (FragmentsInUse (Io.set_TotalSize _ (fst x)))
        with (FragmentsInUse (fst x)).
      rewrite Hsum1, Hsum, Htotal. rewrite UINTN_small; lia.
    + cbn [Io.TotalSize Io.set_TotalSize]. rewrite Htotal.
      rewrite UINTN_small; lia.
    + cbn [Io.FragmentCount Io.set_TotalSize]. rewrite Hidx1.
      destruct (Z.eqb_spec (Io.FragmentCount (fst x)) 0); [lia | reflexivity].
    + cbn [Io.FragmentCount Io.set_TotalSize]. lia.
Qed.

(** X12.  What a successful [MmpExtendIoBuffer] leaves, on a buffer whose
    fragments in use have positive sizes that add up to the total size and
    do not outnumber the slots (the first slot of an empty buffer being of
    size 0): the total size has grown by [ceil(Size / page size)] pages and
    the fragment sizes still add up to it; the fragments in use have not
    become fewer and fit the table; MEMORY_OWNED is set and MAPPED is
    cleared; and the allocator was asked for exactly these pages, in one run
    for a contiguous extension and page by page otherwise. *)
Theorem extension_success (b : IO_BUFFER)
    (MinimumPhysicalAddress MaximumPhysicalAddress Alignment Size : Z)
    (PhysicallyContiguous : bool) (k : Kernel) b' k' :
  let PageCount := (Size + MmPageSize - 1) / MmPageSize in
  0 < Size -> Size + MmPageSize <= 2 ^ UINTN_BITS ->
  0 <= Io.FragmentCount b <= Io.MaxFragmentCount b ->
  Io.MaxFragmentCount b < 2 ^ UINTN_BITS ->
  Forall (fun f => 0 < Frag.Size f) (FragmentsInUse b) ->
  SizeOfFragments (FragmentsInUse b) = Io.TotalSize b ->
  Io.TotalSize b + PageCount * MmPageSize < 2 ^ UINTN_BITS ->
  (Io.FragmentCount b = 0 ->
   exists f, Io.Fragment b !! 0%nat = Some f /\ Frag.Size f = 0) ->
  MmpExtendIoBuffer b MinimumPhysicalAddress MaximumPhysicalAddress Alignment
    Size PhysicallyContiguous k
  = Some ((STATUS_SUCCESS, b'), k') ->
  Io.TotalSize b' = Io.TotalSize b + PageCount * MmPageSize /\
  SizeOfFragments (FragmentsInUse b') = Io.TotalSize b' /\
  Forall (fun f => 0 < Frag.Size f) (FragmentsInUse b') /\
  Io.FragmentCount b <= Io.FragmentCount b' <= Io.MaxFragmentCount b /\
  Io.MaxFragmentCount b' = Io.MaxFragmentCount b /\
  flag_set (Io.Flags b') IO_BUFFER_FLAG_MEMORY_OWNED = true /\
  flag_set (Io.Flags b') IO_BUFFER_FLAG_MAPPED = false /\
  Log k'
  = Log k
    ++ (if PhysicallyContiguous
        then [CallMmpAllocatePhysicalPages PageCount Alignment]
        else replicate (Z.to_nat PageCount)
               (CallMmpAllocatePhysicalPages 1 Alignment)).
Proof.
  intros PageCount Hsize Hfit Hcount Hmax Hsizes Hsum Htotal Hempty H.
  pose proof MmPageSize_pos as Hpos. pose proof MmPageShift_range as Hshift.
  assert (Hpages : 1 <= PageCount).
  { subst PageCount. apply Z.div_le_lower_bound; lia. }
  assert (Hnonneg : 0 <= Io.TotalSize b).
  { rewrite <- Hsum. apply SizeOfFragments_nonneg.
    eapply Forall_impl; [exact Hsizes|]. cbn. intros; lia. }
  destruct (extension_grows b MinimumPhysicalAddress MaximumPhysicalAddress
              Alignment Size PhysicallyContiguous k b' k'
              ltac:(lia) Hfit Hnonneg Htotal H) as [Hgrown Hflags].
  fold PageCount in Hgrown.
  split; [exact Hgrown|].
  assert (Hbits : flag_set (Io.Flags b') IO_BUFFER_FLAG_MEMORY_OWNED = true
                  /\ flag_set (Io.Flags b') IO_BUFFER_FLAG_MAPPED = false).
  { rewrite Hflags. split; [apply flag_set_lor; discriminate|].
    unfold flag_set. rewrite Z.land_lor_distr_l, <- Z.land_assoc.
    change (Z.land (Z.lnot IO_BUFFER_FLAG_MAPPED) IO_BUFFER_FLAG_MAPPED) with 0.
    rewrite Z.land_0_r. reflexivity. }
  unfold MmpExtendIoBuffer in H.
  apply bind_Some in H as ([] & k1 & H1 & H).
  apply ASSERT_Some in H1 as [_ [= ->]].
  apply bind_Some in H as ([] & k1 & H1 & H).
  apply ASSERT_Some in H1 as [_ [= ->]]. cbv zeta in H.
  rewrite (ALIGN_RANGE_UP_pages Size ltac:(lia) Hfit) in H.
  fold PageCount in H.
  destruct (UINTN (Io.MaxFragmentCount b - Io.FragmentCount b) <? PageCount);
    [apply ret_Some in H; discriminate|].
  assert (Hidx : (if negb (Io.FragmentCount b =? 0)
                  then Io.FragmentCount b - 1 else Io.FragmentCount b)
                 = (if Io.FragmentCount b =? 0 then 0
                    else Io.FragmentCount b - 1)).
  { destruct (Z.eqb_spec (Io.FragmentCount b) 0) as [->|]; reflexivity. }
  rewrite Hidx in H. clear Hidx.
  apply bind_Some in H as ([Status b1] & k1 & Hbody & H). cbn [fst snd] in H.
  destruct Status; cbn [KSUCCESS negb] in H;
    try (apply ret_Some in H; discriminate).
  apply ret_Some in H as [= -> ->].
  change (FragmentsInUse (Io.set_Flags _ (Io.set_Flags _ b1)))
    with (FragmentsInUse b1).
  cbn [Io.FragmentCount Io.MaxFragmentCount Io.TotalSize Io.set_Flags]
    in Hgrown |- *.
  cut (Log k1
       = Log k
         ++ (if PhysicallyContiguous
             then [CallMmpAllocatePhysicalPages PageCount Alignment]
             else replicate (Z.to_nat PageCount)
                    (CallMmpAllocatePhysicalPages 1 Alignment)) /\
       Io.FragmentCount b <= Io.FragmentCount b1 <= Io.MaxFragmentCount b /\
       Io.MaxFragmentCount b1 = Io.MaxFragmentCount b /\
       Forall (fun f => 0 < Frag.Size f) (FragmentsInUse b1) /\
       SizeOfFragments (FragmentsInUse b1) = Io.TotalSize b1).
  { intros (Hlog & Hc & Hm & Hs & Hsum1). destruct Hbits. auto 10. }
  destruct PhysicallyContiguous.
  - apply bind_Some in Hbody as (pa & k2 & Hpa & Hbody).
    apply MmpAllocatePhysicalPages_log in Hpa.
    destruct (pa =? INVALID_PHYSICAL_ADDRESS);
      [apply ret_Some in Hbody; discriminate|].
    apply bind_Some in Hbody as (x & k3 & Hattach & Hbody).
    apply ret_Some in Hbody as [= -> ->].
    rewrite Z.shiftl_mul_pow2 in * by lia. fold MmPageSize in *.
    rewrite (UINTN_small (PageCount * MmPageSize)) in * by nia.
    pose proof (MmpExtendIoBuffer_attach_size _ _ _ _ _ _ _ Hattach)
      as [Htotal1 _].
    apply MmpExtendIoBuffer_attach_fragments in Hattach
      as (-> & Hc1 & Hc2 & _ & Hmax1 & Hs1 & Hsum1);
      try assumption; try nia.
    change (FragmentsInUse (Io.set_TotalSize _ (fst x)))
      with (FragmentsInUse (fst x)).
    cbn [Io.FragmentCount Io.MaxFragmentCount Io.TotalSize Io.set_TotalSize].
    split; [exact Hpa|]. split; [lia|]. split; [exact Hmax1|].
    split; [exact Hs1|].
    rewrite Hsum1, Hsum, Htotal1. rewrite UINTN_small; nia.
  - refine (MmpExtendIoBuffer_pages_fragments Alignment _ b _ k b1 k1 Hcount
              Hmax Hsizes Hsum _ eq_refl Hempty Hbody).
    rewrite Z2Nat.id by lia. exact Htotal.
Qed.

(** ** A non-paged buffer is mapped *)

(** The fragments built so far (newest first) follow one another in virtual
    memory from [VirtualAddress] on. *)
Lemma CoalescePage_adjacent (k : Kernel) (VirtualAddress : Z) (m : nat) :
  forall (i : nat) (Newest : list IO_BUFFER_FRAGMENT),
  (forall j f, rev Newest !! j = Some f ->
     Frag.VirtualAddress f
     = VirtualAddress + SizeOfFragments (take j (rev Newest))) ->
  Forall (fun f => 0 < Frag.Size f) Newest ->
  SizeOfFragments Newest = Z.of_nat i * MmPageSize ->
  let Built :=
    fold_left (CoalescePage k) (PageAddresses VirtualAddress i m) Newest in
  (forall j f, rev Built !! j = Some f ->
     Frag.VirtualAddress f
     = VirtualAddress + SizeOfFragments (take j (rev Built))) /\
  Forall (fun f => 0 < Frag.Size f) Built /\
  SizeOfFragments Built = Z.of_nat (i + m) * MmPageSize.
Proof.
  pose proof MmPageSize_pos as Hpos.
  induction m as [|m IH]; intros i Newest Hadj Hsizes Hsum.
  - cbn. rewrite Nat.add_0_r. auto.
  - unfold PageAddresses in *. cbn [seq map fold_left].
    replace (i + S m)%nat with (S i + m)%nat by lia.
    apply IH.
    + unfold CoalescePage.
      destruct Newest as [|Previous Older].
      * intros [|j] f Hj; [|discriminate]. cbn in Hj. injection Hj as <-.
        cbn in Hsum |- *. nia.
      * destruct (Frag.PhysicalAddress Previous + Frag.Size Previous
                  =? PageTable k (VirtualAddress + Z.of_nat i * MmPageSize)).
        -- intros j f Hj. cbn [rev] in Hj, Hadj |- *.
           destruct (Nat.lt_ge_cases j (length (rev Older))) as [Hlt|Hge].
           ++ rewrite lookup_app_l in Hj by exact Hlt.
              rewrite take_app_le by lia.
              rewrite (Hadj j f).
              ** rewrite take_app_le by lia. reflexivity.
              ** rewrite lookup_app_l by exact Hlt. exact Hj.
           ++ rewrite lookup_app_r in Hj by exact Hge.
              destruct (j - length (rev Older))%nat as [|j'] eqn:Hj';
                [|destruct j'; discriminate].
              cbn in Hj. injection Hj as <-.
              assert (j = length (rev Older)) as -> by lia.
              rewrite take_app_length. cbn [Frag.VirtualAddress Frag.set_Size].
              rewrite (Hadj (length (rev Older)) Previous).
              ** rewrite take_app_length. reflexivity.
              ** apply list_lookup_middle. reflexivity.
        -- intros j f Hj.
           change (rev (?x :: Previous :: Older))
             with (rev (Previous :: Older) ++ [x]) in Hj |- *.
           set (L := rev (Previous :: Older)) in *.
           destruct (Nat.lt_ge_cases j (length L)) as [Hlt|Hge].
           ++ rewrite lookup_app_l in Hj by exact Hlt.
              rewrite take_app_le by lia. apply Hadj. exact Hj.
           ++ rewrite lookup_app_r in Hj by exact Hge.
              destruct (j - length L)%nat as [|j'] eqn:Hj';
                [|destruct j'; discriminate].
              cbn [lookup list_lookup] in Hj. injection Hj as <-.
              assert (j = length L) as -> by lia.
              rewrite take_app_length. subst L.
              rewrite SizeOfFragments_rev, Hsum. reflexivity.
    + unfold CoalescePage. destruct Newest as [|Previous Older].
      * repeat constructor. exact Hpos.
      * destruct (Frag.PhysicalAddress Previous + Frag.Size Previous
                  =? PageTable k (VirtualAddress + Z.of_nat i * MmPageSize)).
        -- constructor; [|exact (Forall_inv_tail Hsizes)].
           pose proof (Forall_inv Hsizes). cbn in *. lia.
        -- constructor; [exact Hpos | exact Hsizes].
    + unfold CoalescePage. destruct Newest as [|Previous Older].
      * cbn in *. lia.
      * destruct (Frag.PhysicalAddress Previous + Frag.Size Previous
                  =? PageTable k (VirtualAddress + Z.of_nat i * MmPageSize));
          cbn in *; lia.
Qed.

(** X13.  When the pool, the address space and the mapper answer (the range
    not at address 0 and within the address space, the page table holding
    the runs asked for), [MmAllocateNonPagedIoBuffer] answers a buffer whose
    flags MAPPED and VIRTUALLY_CONTIGUOUS tell the truth: its first fragment
    is at the address of the range, and [MmpIsIoBufferMapped] finds it
    mapped, virtually contiguous. *)
Theorem allocate_non_paged_mapped
    (MaximumPhysicalAddress Alignment Size : Z) (PhysicallyContiguous : bool)
    (k : Kernel) :
  MaximumPhysicalAddress = MAX_ULONG \/ MaximumPhysicalAddress = MAX_ULONGLONG ->
  0 <= Alignment -> RunAlignment Alignment < 2 ^ UINTN_BITS ->
  0 < Size -> AlignedSize Alignment Size < 2 ^ UINTN_BITS ->
  AllocationSucceeds k = true ->
  0 < snd (AddressRange k) ->
  snd (AddressRange k) + AlignedSize Alignment Size <= 2 ^ UINTN_BITS ->
  PhysicalRuns k (snd (AddressRange k)) (AlignedSize Alignment Size)
    (RunAlignment Alignment) (RunSize Alignment Size PhysicallyContiguous) ->
  exists b k' First,
    MmAllocateNonPagedIoBuffer 0 MaximumPhysicalAddress Alignment Size
      PhysicallyContiguous false false k = Some (Some b, k') /\
    flag_set (Io.Flags b) IO_BUFFER_FLAG_MAPPED = true /\
    flag_set (Io.Flags b) IO_BUFFER_FLAG_VIRTUALLY_CONTIGUOUS = true /\
    head (FragmentsInUse b) = Some First /\
    Frag.VirtualAddress First = snd (AddressRange k) /\
    MmpIsIoBufferMapped b true k' = Some (true, k').
Proof.
  intros Hmax Hal Halfit Hsize Hfit Hsucceeds Hva Hend Hruns.
  pose proof MmPageSize_pos as Hpos.
  destruct (AlignedSize_pages Alignment Size Hal Hsize)
    as (Hge & Hmult & Hpages & Hcount).
  destruct (MmAllocateNonPagedIoBuffer_run MaximumPhysicalAddress Alignment
              Size PhysicallyContiguous k Hmax Hal Halfit Hsize Hfit)
    as (k' & Hrun & _).
  { intros _. split; [lia|]. split; assumption. }
  rewrite Hsucceeds in Hrun.
  set (va := snd (AddressRange k)) in *.
  set (b := NonPagedBuffer k Alignment Size PhysicallyContiguous va) in *.
  pose proof (NonPagedBuffer_FragmentsInUse k Alignment Size
                PhysicallyContiguous va) as HU. fold b in HU.
  assert (Htable : (Z.to_nat (Io.FragmentCount b)
                    <= length (Io.Fragment b))%nat).
  { unfold b, NonPagedBuffer. cbn. rewrite Nat2Z.id, length_app. lia. }
  assert (Hfragments :
            (forall j f, FragmentsInUse b !! j = Some f ->
               Frag.VirtualAddress f
               = va + SizeOfFragments (take j (FragmentsInUse b))) /\
            Forall (fun f => 0 < Frag.Size f) (FragmentsInUse b) /\
            SizeOfFragments (FragmentsInUse b) = AlignedSize Alignment Size).
  { rewrite HU. destruct PhysicallyContiguous.
    - split; [|split].
      + intros [|j] f Hj; [|discriminate]. injection Hj as <-. cbn. lia.
      + repeat constructor. cbn. lia.
      + cbn. lia.
    - unfold PageFragments.
      destruct (CoalescePage_adjacent k va
                  (Z.to_nat (AlignedSize Alignment Size / MmPageSize)) 0 [])
        as (Hadj & Hsizes & Hsum).
      + intros j f Hj. destruct j; discriminate.
      + constructor.
      + reflexivity.
      + split; [exact Hadj|]. split; [apply Forall_rev; exact Hsizes|].
        rewrite SizeOfFragments_rev, Hsum. rewrite Nat.add_0_l, Z2Nat.id by lia.
        symmetry. exact Hpages. }
  destruct Hfragments as (Hadj & Hsizes & Hsum).
  assert (Hnonneg : Forall (fun f => 0 <= Frag.Size f) (FragmentsInUse b))
    by (eapply Forall_impl; [exact Hsizes|]; cbn; intros; lia).
  destruct (FragmentsInUse b) as [|First Rest] eqn:HFU.
  { cbn in Hsum. lia. }
  assert (Hfirst : Frag.VirtualAddress First = va).
  { rewrite (Hadj 0%nat First eq_refl). cbn. lia. }
  assert (Hbefore : forall j f, (First :: Rest) !! j = Some f ->
            0 <= SizeOfFragments (take j (First :: Rest))
            /\ SizeOfFragments (take j (First :: Rest)) + Frag.Size f
               <= AlignedSize Alignment Size).
  { intros j f Hj. rewrite <- Hsum.
    pose proof (SizeOfFragments_take_S _ _ _ Hj) as HS.
    pose proof (SizeOfFragments_take_all _ (S j) Hnonneg).
    pose proof (SizeOfFragments_nonneg (take j (First :: Rest))
                  (Forall_take _ _ _ Hnonneg)).
    lia. }
  assert (Hmapped : FragmentsMapped true (Frag.VirtualAddress First)
                      (First :: Rest)).
  { split.
    - apply Forall_lookup_2. intros j f Hj. rewrite (Hadj j f Hj).
      destruct (Hbefore j f Hj). unfold NULL. lia.
    - intros _ j f Hj. rewrite (Hadj j f Hj), Hfirst.
      destruct (Hbefore j f Hj).
      pose proof (Forall_lookup_1 _ _ _ _ Hsizes Hj). cbn in *.
      rewrite UINTN_small; lia. }
  assert (Hseg : forall j f, (First :: Rest) !! j = Some f ->
                             Io.Fragment b !! (Z.to_nat 0 + j)%nat = Some f).
  { intros j f Hj. change (Z.to_nat 0 + j)%nat with j.
    apply FragmentsInUse_lookup. rewrite HFU. exact Hj. }
  assert (Hpointer : 0 <= Frag.VirtualAddress First < 2 ^ UINTN_BITS)
    by (rewrite Hfirst; lia).
  destruct (MmpIsIoBufferMapped_loop_run b true k' (First :: Rest) 0
              (Frag.VirtualAddress First) (Z.le_refl 0) Hpointer Hseg)
    as (r & Hloop & Hr).
  apply Hr in Hmapped. subst r.
  pose proof (FragmentsInUse_length b Htable) as Hlen. rewrite HFU in Hlen.
  exists b, k', First.
  split; [exact Hrun|]. split; [reflexivity|]. split; [reflexivity|].
  split; [rewrite HFU; reflexivity|]. split; [exact Hfirst|].
  unfold MmpIsIoBufferMapped. unfold bind at 1. unfold ASSERT.
  destruct (Z.leb_spec 1 (Io.FragmentCount b)); [|cbn [length] in Hlen; lia].
  unfold bind at 1. unfold read.
  pose proof (Hseg 0%nat First eq_refl) as Hlook.
  change (Z.to_nat 0 + 0)%nat with (Z.to_nat 0) in Hlook. rewrite Hlook.
  rewrite <- Hlen. exact Hloop.
Qed.

(** ** A non-paged buffer that cannot be had *)

Lemma MmAllocateNonPagedIoBuffer_pages_kernel (n : nat) :
  forall (b : IO_BUFFER) (CurrentAddress FragmentIndex : Z) (k : Kernel) b' k',
  MmAllocateNonPagedIoBuffer_pages n b CurrentAddress FragmentIndex k
  = Some (b', k') ->
  k' = k.
Proof.
  induction n as [|n IH]; intros b va idx k b' k' H.
  - apply ret_Some in H as [= _ ->]. reflexivity.
  - cbn [MmAllocateNonPagedIoBuffer_pages] in H.
    apply bind_Some in H as (pa & k1 & H1 & H).
    unfold MmpVirtualToPhysical in H1. injection H1 as <- <-.
    apply bind_Some in H as ([] & k2 & H2 & H).
    apply ASSERT_Some in H2 as [_ [= ->]].
    apply bind_Some in H as (x & k3 & Hx & H).
    apply IH in H as ->.
    assert (Hadd : forall idx' k0 x0 k4,
              MmAllocateNonPagedIoBuffer_add b idx' va (PageTable k va) k0
              = Some (x0, k4) -> k4 = k0).
    { intros idx' k0 x0 k4 Hadd. unfold MmAllocateNonPagedIoBuffer_add in Hadd.
      run_inv Hadd. reflexivity. }
    destruct (negb (Io.FragmentCount b =? 0)); [|exact (Hadd _ _ _ _ Hx)].
    apply bind_Some in Hx as (p & k4 & H4 & Hx).
    apply read_Some in H4 as (p' & _ & [= -> ->]).
    destruct (ULONGLONG (Frag.PhysicalAddress p' + Frag.Size p')
              =? PageTable k va); [|exact (Hadd _ _ _ _ Hx)].
    run_inv Hx. reflexivity.
Qed.

(** X14.  A completed [MmAllocateNonPagedIoBuffer] answers a buffer exactly
    when the pool, the address space and the mapper all answered.  With a
    buffer it has reserved and mapped one range and freed nothing.  Without
    one it has left nothing behind: the structure went back to the pool it
    came from, and a range that the address space had answered (a non-null
    address) was given back in full; when the pool itself refused, nothing
    was called. *)
Theorem allocate_non_paged_balanced
    (MinimumPhysicalAddress MaximumPhysicalAddress Alignment Size : Z)
    (PhysicallyContiguous WriteThrough NonCached : bool) (k : Kernel)
    (r : option IO_BUFFER) (k' : Kernel) :
  MmAllocateNonPagedIoBuffer MinimumPhysicalAddress MaximumPhysicalAddress
    Alignment Size PhysicallyContiguous WriteThrough NonCached k
  = Some (r, k') ->
  exists calls,
    Log k' = Log k ++ calls /\
    PoolAvailable k
    = (PoolAvailable k' + length (List.filter PoolCall calls)
       + match r with Some _ => 1 | None => 0 end)%nat /\
    match r with
    | Some _ =>
        AllocationSucceeds k = true /\
        exists Reserved Run RunSize,
          calls = [CallMmpAllocateAddressRange Reserved MmPageSize;
                   CallMmpMapRange (snd (AddressRange k)) Reserved Run RunSize
                     WriteThrough NonCached]
    | None =>
        AllocationSucceeds k = false /\
        (PoolAvailable k = 0%nat -> calls = []) /\
        forall Reserved Aligned,
          In (CallMmpAllocateAddressRange Reserved Aligned) calls ->
          snd (AddressRange k) <> NULL ->
          In (CallMmpFreeAccountingRange (snd (AddressRange k)) Reserved) calls
    end.
Proof.
  unfold MmAllocateNonPagedIoBuffer, AllocationSucceeds. intros H.
  cbv zeta in H.
  apply bind_Some in H as ([] & k1 & H1 & H).
  apply ASSERT_Some in H1 as [_ [= ->]].
  apply bind_Some in H as (Pool & k1 & H1 & H).
  unfold MmAllocateNonPagedPool, MmAllocatePagedPool in H1.
  destruct (PoolAvailable k) as [|n] eqn:Hpool; injection H1 as <- <-;
    cbn [negb] in H.
  { apply ret_Some in H as [= -> ->]. exists []. rewrite app_nil_r.
    split; [reflexivity|]. split; [cbn; lia|].
    split; [reflexivity|]. split; [reflexivity|]. intros ? ? []. }
  apply bind_Some in H as (Range & k2 & H2 & H).
  unfold MmpAllocateAddressRange in H2. injection H2 as <- <-.
  cbn [AddressRange set_PoolAvailable] in H.
  set (Reserved := UINTN (ALIGN_RANGE_UP Size _)) in *.
  set (va := snd (AddressRange k)) in *.
  assert (Hunwind : forall (k0 : Kernel) (calls0 : list Event),
            Log k0 = Log k ++ CallMmpAllocateAddressRange Reserved MmPageSize
                     :: calls0 ->
            PoolAvailable k0 = n ->
            List.filter PoolCall calls0 = [] ->
            (forall R A, In (CallMmpAllocateAddressRange R A) calls0 -> False) ->
            ((if negb (va =? NULL)
              then call (CallMmpFreeAccountingRange va Reserved)
              else ret tt) ;;
             call CallMmFreeNonPagedPool ;; ret None) k0
            = Some (r, k') ->
            exists calls,
              Log k' = Log k ++ calls /\
              S n = (PoolAvailable k' + length (List.filter PoolCall calls)
                     + match r with Some _ => 1 | None => 0 end)%nat /\
              r = None /\
              forall R A,
                In (CallMmpAllocateAddressRange R A) calls ->
                va <> NULL ->
                In (CallMmpFreeAccountingRange va R) calls).
  { intros k0 calls0 Hlog0 Hpool0 Hfilter0 Hnone0 Hend.
    apply bind_Some in Hend as ([] & k3 & H3 & Hend).
    apply bind_Some in Hend as ([] & k4 & H4 & Hend).
    apply call_Some in H4 as [= ->]. apply ret_Some in Hend as [= -> ->].
    destruct (Z.eqb_spec va NULL) as [Hnull|Hnn]; cbn [negb] in H3.
    - apply ret_Some in H3 as [= ->].
      exists (CallMmpAllocateAddressRange Reserved MmPageSize
              :: calls0 ++ [CallMmFreeNonPagedPool]).
      cbn [Log set_Log PoolAvailable]. rewrite Hlog0, <- app_assoc.
      split; [reflexivity|].
      cbn [List.filter PoolCall]. rewrite List.filter_app, Hfilter0. cbn.
      split; [lia|]. split; [reflexivity|]. intros R A _ Hva. contradiction.
    - apply call_Some in H3 as [= ->].
      exists (CallMmpAllocateAddressRange Reserved MmPageSize
              :: calls0 ++ [CallMmpFreeAccountingRange va Reserved;
                            CallMmFreeNonPagedPool]).
      cbn [Log set_Log PoolAvailable]. rewrite Hlog0, <- !app_assoc.
      split; [reflexivity|].
      cbn [List.filter PoolCall]. rewrite List.filter_app, Hfilter0. cbn.
      split; [lia|]. split; [reflexivity|].
      intros R A [[= <- _] | Hin] _.
      + right. apply in_or_app. right. left. reflexivity.
      + apply in_app_or in Hin as [Hin | [[=] | [[=] | []]]].
        exfalso. exact (Hnone0 _ _ Hin). }
  destruct (KSUCCESS (fst (AddressRange k))) eqn:Hrs; cbn [negb andb] in H |- *.
  2:{ match type of H with
      | _ ?k0 = _ =>
          destruct (Hunwind k0 [] eq_refl eq_refl eq_refl
                      ltac:(intros ? ? []) H)
            as (calls & Hlog & Hbal & -> & Hback)
      end.
      exists calls. split; [exact Hlog|]. split; [exact Hbal|].
      split; [reflexivity|]. split; [discriminate | exact Hback]. }
  apply bind_Some in H as (Status & k3 & H3 & H).
  unfold MmpMapRange in H3. injection H3 as <- <-.
  cbn [MapRange set_PoolAvailable set_Log] in H.
  destruct (KSUCCESS (MapRange k)) eqn:Hms; cbn [negb] in H |- *.
  2:{ match type of H with
      | _ (set_Log (_ ++ [?e]) ?k1) = _ =>
          destruct (Hunwind (set_Log ((Log k
                                       ++ [CallMmpAllocateAddressRange Reserved
                                             MmPageSize]) ++ [e]) k1) [e]
                      ltac:(cbn; rewrite <- app_assoc; reflexivity)
                      eq_refl eq_refl
                      ltac:(intros ? ? [[=] | []]) H)
            as (calls & Hlog & Hbal & -> & Hback)
      end.
      exists calls. split; [exact Hlog|]. split; [exact Hbal|].
      split; [reflexivity|]. split; [discriminate | exact Hback]. }
  clear Hunwind.
  apply bind_Some in H as (b1 & k4 & Hb1 & H).
  apply ret_Some in H as [= -> ->].
  assert (Hk4 : k4 = set_Log
                       ((Log k ++ [CallMmpAllocateAddressRange Reserved
                                     MmPageSize])
                        ++ [CallMmpMapRange va Reserved
                              (if Alignment =? 0 then MmPageSize
                               else UINTN (ALIGN_RANGE_UP Alignment MmPageSize))
                              (if PhysicallyContiguous then Reserved
                               else if Alignment =? 0 then MmPageSize
                                    else UINTN (ALIGN_RANGE_UP Alignment
                                                  MmPageSize))
                              WriteThrough NonCached])
                       (set_PoolAvailable n k)).
  { destruct PhysicallyContiguous.
    - apply bind_Some in Hb1 as (pa & k5 & H5 & Hb1).
      unfold MmpVirtualToPhysical in H5. injection H5 as <- <-.
      run_inv Hb1. reflexivity.
    - apply bind_Some in Hb1 as ([] & k5 & H5 & Hb1).
      apply ASSERT_Some in H5 as [_ [= ->]].
      apply bind_Some in Hb1 as (b2 & k6 & H6 & Hb1).
      apply MmAllocateNonPagedIoBuffer_pages_kernel in H6. subst k6.
      run_inv Hb1. reflexivity. }
  subst k4. eexists. cbn [Log set_Log PoolAvailable set_PoolAvailable].
  rewrite <- app_assoc. split; [reflexivity|]. cbn.
  split; [lia|]. split; [reflexivity|]. eauto.
Qed.

(** ** The pages of a locked buffer *)

Lemma UnlockPageCalls_app (Pages1 Pages2 : list Z) :
  forall Slots,
  UnlockPageCalls Slots (Pages1 ++ Pages2)
  = UnlockPageCalls Slots Pages1
    ++ UnlockPageCalls (drop (length Pages1) Slots) Pages2.
Proof.
  induction Pages1 as [|pa Pages1 IH]; intros Slots.
  - cbn. rewrite drop_0. reflexivity.
  - cbn. rewrite IH, drop_tail. reflexivity.
Qed.

Lemma UnlockPageCalls_length (Pages : list Z) :
  forall Slots, length (UnlockPageCalls Slots Pages) = length Pages.
Proof.
  induction Pages as [|pa Pages IH]; intros Slots; [reflexivity|].
  cbn. rewrite IH. reflexivity.
Qed.

Lemma UnlockPageCalls_actions (Pages : list Z) :
  forall Slots,
  List.filter PageAction (UnlockPageCalls Slots Pages)
  = UnlockPageCalls Slots Pages.
Proof.
  induction Pages as [|pa Pages IH]; intros Slots; [reflexivity|].
  cbn [UnlockPageCalls List.filter].
  destruct Slots as [|[e|] t]; cbn [PageAction]; rewrite IH; reflexivity.
Qed.

(** Page by page: a slot that holds an entry has its reference released, an
    empty slot has the page unlocked. *)
Lemma UnlockPageCalls_lookup (Pages : list Z) :
  forall Slots (j : nat) (pa : Z),
  Pages !! j = Some pa ->
  UnlockPageCalls Slots Pages !! j
  = Some (match default None (Slots !! j) with
          | Some Entry => CallIoPageCacheEntryReleaseReference Entry
          | None => CallMmpUnlockPhysicalPages pa 1
          end).
Proof.
  induction Pages as [|p Pages IH]; intros Slots j pa Hj; [discriminate|].
  destruct j as [|j].
  - injection Hj as ->. destruct Slots as [|[e|] t]; reflexivity.
  - cbn in Hj. cbn. rewrite (IH _ j pa Hj).
    destruct Slots as [|e t]; reflexivity.
Qed.

(** The page loop of a fragment of a locked buffer. *)
Lemma MmpReleaseIoBufferResources_unlock_pages_run
    (Entries : list (option PAGE_CACHE_ENTRY)) (n : nat) :
  forall (CacheEntryIndex PhysicalAddress : Z) (k : Kernel) r k',
  Z.of_nat (length Entries) < 2 ^ UINTN_BITS ->
  0 <= CacheEntryIndex -> 0 <= PhysicalAddress ->
  PhysicalAddress + Z.of_nat n * MmPageSize < 2 ^ 64 ->
  MmpReleaseIoBufferResources_unlock_pages n Entries CacheEntryIndex
    PhysicalAddress k = Some (r, k') ->
  r = CacheEntryIndex + Z.of_nat n /\
  Log k'
  = Log k
    ++ UnlockPageCalls (drop (Z.to_nat CacheEntryIndex) Entries)
         (map (fun i => PhysicalAddress + Z.of_nat i * MmPageSize) (seq 0 n)).
Proof.
  pose proof MmPageSize_pos as Hpos.
  induction n as [|n IH]; intros idx pa k r k' Hlen Hidx Hpa Hfit H.
  - apply ret_Some in H as [= -> ->]. cbn. rewrite app_nil_r.
    split; [lia | reflexivity].
  - cbn [MmpReleaseIoBufferResources_unlock_pages] in H.
    apply bind_Some in H as (Slot & k1 & H1 & H).
    apply read_Some in H1 as (Slot' & HSlot & [= -> ->]).
    pose proof (lookup_lt_Some _ _ _ HSlot) as Hin.
    apply bind_Some in H as ([] & k1 & H1 & H).
    apply Nat2Z.inj_lt in Hin. rewrite Z2Nat.id in Hin by exact Hidx.
    rewrite (UINTN_small (idx + 1)) in H by lia.
    rewrite (ULONGLONG_small (pa + MmPageSize)) in H by nia.
    apply IH in H as [-> Hlog]; try lia.
    split; [lia|].
    rewrite Hlog.
    assert (Hk1 : Log k1
                  = Log k ++ [match Slot' with
                              | Some Entry =>
                                  CallIoPageCacheEntryReleaseReference Entry
                              | None => CallMmpUnlockPhysicalPages pa 1
                              end]).
    { destruct Slot'; apply call_Some in H1 as [= ->]; reflexivity. }
    rewrite Hk1, <- app_assoc. f_equal.
    cbn [seq map UnlockPageCalls app].
    rewrite (drop_S _ _ _ HSlot). cbn [tail].
    replace (Z.to_nat (idx + 1)) with (S (Z.to_nat idx)) by lia.
    f_equal.
    + rewrite Z.mul_0_l, Z.add_0_r. destruct Slot'; reflexivity.
    + f_equal. rewrite <- seq_shift, map_map. apply map_ext. intros i. lia.
Qed.

(** The pages the code walks on a fragment are the pages it touches. *)
Lemma TouchedPages_code (f : IO_BUFFER_FRAGMENT) :
  0 <= Frag.PhysicalAddress f -> 0 <= Frag.Size f ->
  Frag.PhysicalAddress f + Frag.Size f + MmPageSize <= 2 ^ 64 ->
  Frag.Size f + 2 * MmPageSize <= 2 ^ UINTN_BITS ->
  let PageOffset := ULONG (REMAINDER (Frag.PhysicalAddress f) MmPageSize) in
  let Size := UINTN (ALIGN_RANGE_UP (UINTN (Frag.Size f + PageOffset))
                       MmPageSize) in
  let PageCount := Z.to_nat (Z.shiftr Size MmPageShift) in
  let PhysicalAddress := ULONGLONG (Frag.PhysicalAddress f - PageOffset) in
  TouchedPages f
  = map (fun i => PhysicalAddress + Z.of_nat i * MmPageSize) (seq 0 PageCount)
  /\ 0 <= PhysicalAddress
  /\ PhysicalAddress + Z.of_nat PageCount * MmPageSize < 2 ^ 64.
Proof.
  intros Hpa Hsize Hend Hfit. cbv zeta.
  pose proof MmPageSize_pos as Hpos. pose proof MmPageShift_range as Hshift.
  assert (Hnz : MmPageSize <> 0) by lia.
  assert (Hsmall : MmPageSize < 2 ^ 32).
  { unfold MmPageSize. apply Z.pow_lt_mono_r; lia. }
  pose proof (Z.mod_pos_bound (Frag.PhysicalAddress f) MmPageSize Hpos) as Hoff.
  pose proof (Z.div_mod (Frag.PhysicalAddress f) MmPageSize Hnz) as Hdiv.
  unfold REMAINDER, ULONG.
  rewrite (Z.mod_small (Frag.PhysicalAddress f mod MmPageSize) (2 ^ 32)) by lia.
  set (off := Frag.PhysicalAddress f mod MmPageSize) in *.
  assert (HFirst : 0 <= Frag.PhysicalAddress f / MmPageSize)
    by (apply Z.div_pos; lia).
  set (First := Frag.PhysicalAddress f / MmPageSize) in *.
  rewrite (UINTN_small (Frag.Size f + off)) by lia.
  rewrite (ALIGN_RANGE_UP_pages (Frag.Size f + off)) by lia.
  rewrite (ULONGLONG_small (Frag.PhysicalAddress f - off)) by nia.
  assert (Hcount : (Frag.PhysicalAddress f + Frag.Size f + MmPageSize - 1)
                   / MmPageSize - First
                   = (Frag.Size f + off + MmPageSize - 1) / MmPageSize).
  { replace (Frag.PhysicalAddress f + Frag.Size f + MmPageSize - 1)
      with (First * MmPageSize + (Frag.Size f + off + MmPageSize - 1)) by lia.
    rewrite Z.div_add_l by lia. lia. }
  set (q := (Frag.Size f + off + MmPageSize - 1) / MmPageSize) in *.
  assert (Hq : 0 <= q /\ q * MmPageSize <= Frag.Size f + off + MmPageSize - 1).
  { pose proof (Z.div_mod (Frag.Size f + off + MmPageSize - 1) MmPageSize Hnz)
      as Hd.
    pose proof (Z.mod_pos_bound (Frag.Size f + off + MmPageSize - 1)
                  MmPageSize Hpos) as Hm.
    fold q in Hd. split; [apply Z.div_pos; lia | lia]. }
  split; [|split; [lia | rewrite Z2Nat.id by lia; lia]].
  unfold TouchedPages. cbv zeta. fold First. rewrite Hcount.
  apply map_ext. intros i. lia.
Qed.

(** The fragment loop of a locked buffer, on the [n] slots of the table from
    [FragmentIndex] on. *)
Lemma MmpReleaseIoBufferResources_unlock_run (b : IO_BUFFER)
    (Entries : list (option PAGE_CACHE_ENTRY)) (n : nat) :
  forall (FragmentIndex CacheEntryIndex : Z) (k : Kernel) r k',
  Z.of_nat (length Entries) < 2 ^ UINTN_BITS ->
  0 <= FragmentIndex -> 0 <= CacheEntryIndex ->
  Forall (fun f => 0 <= Frag.PhysicalAddress f /\ 0 <= Frag.Size f /\
                   Frag.PhysicalAddress f + Frag.Size f + MmPageSize <= 2 ^ 64
                   /\ Frag.Size f + 2 * MmPageSize <= 2 ^ UINTN_BITS)
    (take n (drop (Z.to_nat FragmentIndex) (Io.Fragment b))) ->
  MmpReleaseIoBufferResources_unlock n b Entries FragmentIndex CacheEntryIndex k
  = Some (r, k') ->
  Log k'
  = Log k
    ++ UnlockPageCalls (drop (Z.to_nat CacheEntryIndex) Entries)
         (flat_map TouchedPages
            (take n (drop (Z.to_nat FragmentIndex) (Io.Fragment b)))).
Proof.
  induction n as [|n IH]; intros idx cidx k r k' Hlen Hidx Hcidx Hall H.
  - apply ret_Some in H as [= _ ->]. cbn. rewrite app_nil_r. reflexivity.
  - cbn [MmpReleaseIoBufferResources_unlock] in H.
    apply bind_Some in H as (f & k1 & H1 & H).
    apply read_Some in H1 as (f' & Hf & [= -> ->]). cbv zeta in H.
    apply bind_Some in H as (cidx1 & k1 & H1 & H).
    rewrite (drop_S _ _ _ Hf) in Hall |- *. cbn [take flat_map] in Hall |- *.
    pose proof (Forall_inv Hall) as (Hpa & Hsize & Hend & Hfit).
    apply Forall_inv_tail in Hall.
    destruct (TouchedPages_code f' Hpa Hsize Hend Hfit) as (Hpages & Hpa' & Hend').
    apply MmpReleaseIoBufferResources_unlock_pages_run in H1 as [-> Hlog1];
      try assumption.
    replace (S (Z.to_nat idx)) with (Z.to_nat (idx + 1)) in Hall |- * by lia.
    apply IH in H; try assumption; try lia.
    rewrite H, Hlog1, <- app_assoc. f_equal.
    rewrite UnlockPageCalls_app, <- Hpages. f_equal.
    rewrite drop_drop, Hpages, length_map, length_seq.
    rewrite Z2Nat.inj_add, Nat2Z.id by lia. reflexivity.
Qed.

(** X15.  During the free of a buffer that is MEMORY_LOCKED and neither
    MEMORY_OWNED nor PAGE_CACHE_BACKED, the calls that act on pages are one
    per physical page that a fragment in use touches, fragment after
    fragment and in address order: the pages from the one that holds the
    physical address of the fragment (which need not be aligned) up to the
    page boundary at or after its end.  For the [j]-th of these pages the
    reference of the entry in slot [j] of the page cache entry table is
    released when that slot holds one, and the one page is unlocked
    otherwise; no page is freed.  The physical ranges and sizes are free of
    wrap-around, and the table has fewer slots than a [UINTN] counts. *)
Theorem free_locked_pages (b : IO_BUFFER) (k : Kernel) r k' :
  flag_set (Io.Flags b) IO_BUFFER_FLAG_MEMORY_OWNED = false ->
  flag_set (Io.Flags b) IO_BUFFER_FLAG_PAGE_CACHE_BACKED = false ->
  flag_set (Io.Flags b) IO_BUFFER_FLAG_MEMORY_LOCKED = true ->
  Forall (fun f => 0 <= Frag.PhysicalAddress f /\ 0 <= Frag.Size f /\
                   Frag.PhysicalAddress f + Frag.Size f + MmPageSize <= 2 ^ 64
                   /\ Frag.Size f + 2 * MmPageSize <= 2 ^ UINTN_BITS)
    (FragmentsInUse b) ->
  (forall Entries, Io.PageCacheEntries b = Some Entries ->
                   Z.of_nat (length Entries) < 2 ^ UINTN_BITS) ->
  MmFreeIoBuffer b k = Some (r, k') ->
  let Pages := flat_map TouchedPages (FragmentsInUse b) in
  exists calls,
    Log k' = Log k ++ calls /\
    length (List.filter PageAction calls) = length Pages /\
    forall (j : nat) (PhysicalAddress : Z),
      Pages !! j = Some PhysicalAddress ->
      List.filter PageAction calls !! j
      = Some (match PageCacheSlot b j with
              | Some Entry => CallIoPageCacheEntryReleaseReference Entry
              | None => CallMmpUnlockPhysicalPages PhysicalAddress 1
              end).
Proof.
  intros Howned Hcached Hlocked Hall Hlen Hrun Pages.
  unfold MmFreeIoBuffer in Hrun.
  apply bind_Some in Hrun as (b1 & k1 & H1 & Hrun).
  assert (Hend : exists calls1, Log k' = Log k1 ++ calls1
                                /\ List.filter PageAction calls1 = []).
  { destruct (Z.land (Io.Flags b) IO_BUFFER_FLAG_STRUCTURE_NOT_OWNED =? 0).
    - apply bind_Some in Hrun as ([] & k2 & H2 & Hrun).
      apply ret_Some in Hrun as [= -> ->].
      destruct (flag_set (Io.Flags b) IO_BUFFER_FLAG_NON_PAGED);
        apply call_Some in H2 as [= ->]; eexists; split; reflexivity.
    - apply ret_Some in Hrun as [= -> ->]. exists []. rewrite app_nil_r. auto. }
  destruct Hend as (calls1 & Hlog1 & Hfilter1). clear Hrun.
  unfold MmpReleaseIoBufferResources in H1. cbv zeta in H1.
  rewrite Howned, Hcached, Hlocked in H1. cbn [orb negb andb] in H1.
  apply bind_Some in H1 as (b0 & k0 & H0 & H1).
  assert (Hb0 : Io.Fragment b0 = Io.Fragment b
                /\ Io.FragmentCount b0 = Io.FragmentCount b
                /\ Io.PageCacheEntries b0 = Io.PageCacheEntries b
                /\ exists calls0, Log k0 = Log k ++ calls0
                                  /\ List.filter PageAction calls0 = []).
  { destruct (flag_set (Io.Flags b) IO_BUFFER_FLAG_UNMAP_ON_FREE).
    - apply MmpUnmapIoBuffer_run in H0 as (-> & e & He & Hlog).
      repeat split. exists [e]. split; [exact Hlog|]. cbn. rewrite He.
      reflexivity.
    - apply ret_Some in H0 as [= -> ->]. repeat split. exists [].
      rewrite app_nil_r. auto. }
  destruct Hb0 as (Htab & Hcnt & Hpce & calls0 & Hlog0 & Hfilter0).
  apply bind_Some in H1 as ([] & k2 & H2 & H1).
  apply ret_Some in H1 as [= _ ->].
  apply bind_Some in H2 as ([] & k3 & H3 & H2).
  apply ASSERT_Some in H3 as [_ [= ->]].
  apply bind_Some in H2 as ([] & k3 & H3 & H2).
  apply ASSERT_Some in H3 as [_ [= ->]].
  rewrite Hpce, Hcnt in H2.
  destruct (Io.PageCacheEntries b) as [Entries|] eqn:HE; [|discriminate].
  apply MmpReleaseIoBufferResources_unlock_run in H2;
    [|exact (Hlen Entries eq_refl) | lia | lia
     | change (Z.to_nat 0) with 0%nat; rewrite drop_0, Htab; exact Hall].
  change (Z.to_nat 0) with 0%nat in H2. rewrite !drop_0, Htab in H2.
  fold (FragmentsInUse b) in H2. fold Pages in H2.
  exists (calls0 ++ UnlockPageCalls Entries Pages ++ calls1).
  split; [rewrite Hlog1, H2, Hlog0, <- !app_assoc; reflexivity|].
  rewrite !PageAction_filter_app, Hfilter0, Hfilter1, app_nil_r.
  cbn [app]. rewrite UnlockPageCalls_actions.
  split; [apply UnlockPageCalls_length|].
  intros j pa Hj. rewrite (UnlockPageCalls_lookup _ _ j pa Hj).
  unfold PageCacheSlot. rewrite HE. reflexivity.
Qed.

(** ** Validation for cached I/O *)



(** ** Mapping *)

Lemma MapPageCalls_app (MapFlags : list MAP_FLAG) (Pages1 Pages2 : list Z) :
  forall Slots VirtualAddress,
  0 <= VirtualAddress < 2 ^ UINTN_BITS ->
  MapPageCalls MapFlags Slots VirtualAddress (Pages1 ++ Pages2)
  = MapPageCalls MapFlags Slots VirtualAddress Pages1
    ++ MapPageCalls MapFlags (drop (length Pages1) Slots)
         (UINTN (VirtualAddress + Z.of_nat (length Pages1) * MmPageSize))
         Pages2.
Proof.
  induction Pages1 as [|pa Pages1 IH]; intros Slots va Hva.
  - cbn [app length MapPageCalls drop]. rewrite Z.add_0_r, UINTN_small by lia.
    reflexivity.
  - cbn [app length MapPageCalls]. rewrite IH by apply UINTN_range.
    rewrite drop_tail, UINTN_add_idemp.
    replace (va + MmPageSize + Z.of_nat (length Pages1) * MmPageSize)
      with (va + Z.of_nat (S (length Pages1)) * MmPageSize) by lia.
    rewrite <- !app_assoc. reflexivity.
Qed.

Lemma MmPageSize_divides_ULONGLONG : 2 ^ 64 mod MmPageSize = 0.
Proof.
  pose proof MmPageShift_range as Hs. unfold MmPageSize.
  replace 64 with (MmPageShift + (64 - MmPageShift)) by lia.
  rewrite Z.pow_add_r by lia. rewrite Z.mul_comm. apply Z_mod_mult.
Qed.

Lemma ULONGLONG_aligned (x : Z) :
  x mod MmPageSize = 0 -> ULONGLONG (x + MmPageSize) mod MmPageSize = 0.
Proof.
  intros Hx. pose proof MmPageSize_pos as Hpos.
  pose proof MmPageSize_divides_ULONGLONG as Hd. unfold ULONGLONG.
  apply Z.mod_divide in Hd; [|lia]. destruct Hd as [c Hc].
  rewrite Hc.
  rewrite (Z.mul_comm c), Z.rem_mul_r by lia.
  rewrite Z.add_mod, Z.mul_comm, Z_mod_mult, Z.add_0_r, Z.mod_mod by lia.
  rewrite Z.add_mod, Hx, Z_mod_same_full by lia. reflexivity.
Qed.

(** The [while] loop on a fragment of [n] pages: [n] rounds bring the size
    to 0. *)
Lemma MmpMapIoBufferFragments_pages_run (MapFlags : list MAP_FLAG)
    (Entries : option (list (option PAGE_CACHE_ENTRY))) (k : Kernel) :
  forall (n : nat) (PhysicalAddress VirtualAddress PageIndex : Z)
         (Calls : MemoryLog),
  0 <= PhysicalAddress < 2 ^ 64 -> PhysicalAddress mod MmPageSize = 0 ->
  0 <= VirtualAddress < 2 ^ UINTN_BITS ->
  Z.of_nat n * MmPageSize < 2 ^ UINTN_BITS ->
  0 <= PageIndex ->
  (forall E, Entries = Some E ->
             PageIndex + Z.of_nat n <= Z.of_nat (length E) /\
             Z.of_nat (length E) < 2 ^ UINTN_BITS) ->
  MmpMapIoBufferFragments_pages n MapFlags Entries PhysicalAddress
    VirtualAddress (Z.of_nat n * MmPageSize) PageIndex Calls k
  = Some ((UINTN (VirtualAddress + Z.of_nat n * MmPageSize),
           match Entries with
           | Some _ => PageIndex + Z.of_nat n
           | None => PageIndex
           end,
           Calls ++ map (pair (length (Log k)))
                      (MapPageCalls MapFlags
                         (match Entries with
                          | Some E => drop (Z.to_nat PageIndex) E
                          | None => []
                          end)
                         VirtualAddress
                         (map (fun i => ULONGLONG (PhysicalAddress
                                                   + Z.of_nat i * MmPageSize))
                              (seq 0 n)))), k).
Proof.
  pose proof MmPageSize_pos as Hpos.
  induction n as [|n IH]; intros pa va idx Calls Hpa Hal Hva Hfit Hidx Htab.
  - cbn. rewrite Z.add_0_r, UINTN_small, app_nil_r by lia.
    destruct Entries; rewrite ?Z.add_0_r; reflexivity.
  - cbn [MmpMapIoBufferFragments_pages].
    destruct (Z.eqb_spec (Z.of_nat (S n) * MmPageSize) 0) as [Hz|_]; [nia|].
    assert (Hal1 : IS_ALIGNED pa MmPageSize = true)
      by (apply IS_ALIGNED_multiple; exact Hal).
    assert (Hal2 : IS_ALIGNED (Z.of_nat (S n) * MmPageSize) MmPageSize = true)
      by (apply IS_ALIGNED_multiple, Z_mod_mult).
    unfold bind at 1. unfold ASSERT at 1. rewrite Hal1.
    unfold bind at 1. unfold ASSERT at 1. rewrite Hal2.
    unfold bind at 1. unfold memcall at 1.
    assert (Hsize : UINTN (Z.of_nat (S n) * MmPageSize - MmPageSize)
                    = Z.of_nat n * MmPageSize)
      by (rewrite UINTN_small by lia; lia).
    rewrite pages_from_step by exact Hpa.
    cbn [map MapPageCalls].
    destruct Entries as [E|].
    + destruct (Htab E eq_refl) as [Hlen Hmax].
      destruct (lookup_lt_is_Some_2 E (Z.to_nat idx) ltac:(lia)) as [slot Hslot].
      unfold bind at 1. unfold bind at 1. unfold read at 1. rewrite Hslot.
      rewrite (drop_S E slot (Z.to_nat idx) Hslot). cbn [tail].
      assert (Hnext : UINTN (idx + 1) = idx + 1) by (apply UINTN_small; lia).
      assert (Hrest :
        MmpMapIoBufferFragments_pages n MapFlags (Some E)
          (ULONGLONG (pa + MmPageSize)) (UINTN (va + MmPageSize))
          (Z.of_nat n * MmPageSize) (idx + 1)
          (Calls ++ (length (Log k), CallMmpMapPage pa va MapFlags)
             :: match slot with
                | Some Entry =>
                    [(length (Log k),
                      CallIoSetPageCacheEntryVirtualAddress Entry va)]
                | None => []
                end) k
        = Some ((UINTN (va + Z.of_nat (S n) * MmPageSize),
                 idx + Z.of_nat (S n),
                 (Calls ++ (length (Log k), CallMmpMapPage pa va MapFlags)
                    :: match slot with
                       | Some Entry =>
                           [(length (Log k),
                             CallIoSetPageCacheEntryVirtualAddress Entry va)]
                       | None => []
                       end)
                 ++ map (pair (length (Log k)))
                      (MapPageCalls MapFlags (drop (S (Z.to_nat idx)) E)
                         (UINTN (va + MmPageSize))
                         (map (fun i => ULONGLONG (ULONGLONG (pa + MmPageSize)
                                                   + Z.of_nat i * MmPageSize))
                              (seq 0 n)))), k)).
      { rewrite IH; [|apply ULONGLONG_range | apply ULONGLONG_aligned; exact Hal
                     | apply UINTN_range | lia | lia
                     | intros E' [= <-]; split; lia].
        rewrite UINTN_add_idemp.
        replace (Z.to_nat (idx + 1)) with (S (Z.to_nat idx)) by lia.
        replace (va + MmPageSize + Z.of_nat n * MmPageSize)
          with (va + Z.of_nat (S n) * MmPageSize) by lia.
        replace (idx + 1 + Z.of_nat n) with (idx + Z.of_nat (S n)) by lia.
        reflexivity. }
      destruct slot as [Entry|].
      * unfold bind, memcall, ret.
        cbn [fst snd]. rewrite Hnext, Hsize, <- app_assoc. cbn [app].
        rewrite Hrest. cbn [map app]. rewrite <- !app_assoc. reflexivity.
      * unfold bind, ret.
        cbn [fst snd]. rewrite Hnext, Hsize.
        rewrite Hrest. cbn [map app]. rewrite <- !app_assoc. reflexivity.
    + unfold bind, ret. cbn [fst snd]. rewrite Hsize.
      rewrite IH; [|apply ULONGLONG_range | apply ULONGLONG_aligned; exact Hal
                   | apply UINTN_range | lia | lia | discriminate].
      rewrite UINTN_add_idemp. cbn [map app tail]. rewrite <- !app_assoc.
      replace (va + MmPageSize + Z.of_nat n * MmPageSize)
        with (va + Z.of_nat (S n) * MmPageSize) by lia.
      reflexivity.
Qed.

Lemma MmpMapIoBufferFragments_size_run (b : IO_BUFFER) (k : Kernel)
    (l : list IO_BUFFER_FRAGMENT) :
  forall (FragmentIndex Size : Z),
  0 <= FragmentIndex ->
  FragmentIndex + Z.of_nat (length l) < 2 ^ UINTN_BITS ->
  0 <= Size < 2 ^ UINTN_BITS ->
  (forall j f, l !! j = Some f ->
               Io.Fragment b !! (Z.to_nat FragmentIndex + j)%nat = Some f) ->
  MmpMapIoBufferFragments_size (length l) b FragmentIndex Size k
  = Some (UINTN (Size + SizeOfFragments l), k).
Proof.
  induction l as [|f l IH]; intros idx Size Hidx Hfit Hsize Hseg.
  - cbn. rewrite Z.add_0_r, UINTN_small by lia. reflexivity.
  - cbn [length MmpMapIoBufferFragments_size SizeOfFragments].
    unfold bind, read.
    rewrite <- (Nat.add_0_r (Z.to_nat idx)), (Hseg 0%nat f eq_refl).
    cbn [length] in Hfit.
    rewrite (UINTN_small (idx + 1)) by lia.
    rewrite IH; [|lia | lia | apply UINTN_range |].
    + rewrite UINTN_add_idemp, Z.add_assoc. reflexivity.
    + intros j g Hj. replace (Z.to_nat (idx + 1) + j)%nat
        with (Z.to_nat idx + S j)%nat by lia. apply Hseg. exact Hj.
Qed.

Lemma WholePages_count (f : IO_BUFFER_FRAGMENT) :
  WholePages f ->
  Frag.Size f
  = Z.of_nat (Z.to_nat (Z.shiftr (Frag.Size f) MmPageShift)) * MmPageSize.
Proof.
  intros (_ & _ & Hsize & Hmod). pose proof MmPageSize_pos as Hpos.
  pose proof MmPageShift_range as Hshift.
  rewrite Z.shiftr_div_pow2 by lia. fold MmPageSize.
  rewrite Z2Nat.id by (apply Z.div_pos; lia).
  pose proof (Z.div_mod (Frag.Size f) MmPageSize). lia.
Qed.

Lemma MappedAt_length (l : list IO_BUFFER_FRAGMENT) :
  forall va, length (MappedAt va l) = length l.
Proof. induction l as [|f l IH]; intros va; cbn; [|rewrite IH]; reflexivity. Qed.

Lemma FragmentPages_flat_length (l : list IO_BUFFER_FRAGMENT) :
  Forall WholePages l ->
  Z.of_nat (length (flat_map FragmentPages l)) * MmPageSize = SizeOfFragments l.
Proof.
  induction 1 as [|f l Hf Hl IH]; [reflexivity|].
  cbn [flat_map SizeOfFragments]. rewrite length_app, FragmentPages_length.
  rewrite (WholePages_count f Hf) at 2. lia.
Qed.

(** The [for] loop on the fragments [l] of the table. *)
Lemma MmpMapIoBufferFragments_map_run (MapFlags : list MAP_FLAG)
    (Entries : option (list (option PAGE_CACHE_ENTRY))) (k : Kernel)
    (l : list IO_BUFFER_FRAGMENT) :
  forall (b : IO_BUFFER) (Before After : list IO_BUFFER_FRAGMENT)
         (VirtualAddress PageIndex : Z) (Calls : MemoryLog),
  Io.Fragment b = Before ++ l ++ After ->
  Z.of_nat (length Before) + Z.of_nat (length l) < 2 ^ UINTN_BITS ->
  0 <= VirtualAddress < 2 ^ UINTN_BITS ->
  Forall WholePages l ->
  0 <= PageIndex ->
  (forall E, Entries = Some E ->
             PageIndex + Z.of_nat (length (flat_map FragmentPages l))
             <= Z.of_nat (length E) /\
             Z.of_nat (length E) < 2 ^ UINTN_BITS) ->
  MmpMapIoBufferFragments_map (length l) MapFlags Entries b
    (Z.of_nat (length Before)) VirtualAddress PageIndex Calls k
  = Some ((Io.set_Fragment (Before ++ MappedAt VirtualAddress l ++ After) b,
           Calls ++ map (pair (length (Log k)))
                      (MapPageCalls MapFlags
                         (match Entries with
                          | Some E => drop (Z.to_nat PageIndex) E
                          | None => []
                          end)
                         VirtualAddress (flat_map FragmentPages l))), k).
Proof.
  pose proof MmPageSize_pos as Hpos.
  induction l as [|f l IH];
    intros b Before After va idx Calls Htable Hfit Hva Hall Hidx Htab.
  - cbn. rewrite app_nil_r. destruct b. cbn in *. subst. reflexivity.
  - apply Forall_cons in Hall as [Hf Hall].
    cbn [length MmpMapIoBufferFragments_map].
    assert (Hlook : Io.Fragment b !! Z.to_nat (Z.of_nat (length Before))
                    = Some f).
    { rewrite Nat2Z.id, Htable. apply list_lookup_middle. reflexivity. }
    unfold bind at 1. unfold read. rewrite Hlook.
    unfold bind at 1. unfold write.
    assert (Hin : (Z.to_nat (Z.of_nat (length Before))
                   <? length (Io.Fragment b))%nat = true).
    { apply Nat.ltb_lt. rewrite Nat2Z.id, Htable, !length_app. cbn. lia. }
    rewrite Hin. cbv zeta.
    pose proof (WholePages_count f Hf) as Hcount.
    set (n := Z.to_nat (Z.shiftr (Frag.Size f) MmPageShift)) in *.
    destruct Hf as (Hpa & Hal & Hsize & Hmod).
    cbn [flat_map] in Htab. rewrite length_app, FragmentPages_length in Htab.
    fold n in Htab.
    unfold bind at 1. rewrite Hcount at 1.
    rewrite MmpMapIoBufferFragments_pages_run;
      [|exact Hpa | exact Hal | exact Hva | lia | exact Hidx
       | intros E HE; destruct (Htab E HE); split; lia].
    cbn [fst snd].
    rewrite (UINTN_small (Z.of_nat (length Before) + 1)) by (cbn in Hfit; lia).
    assert (Htable' :
      Io.Fragment
        (Io.set_Fragment
           (<[Z.to_nat (Z.of_nat (length Before)) :=
                Frag.set_VirtualAddress va f]> (Io.Fragment b)) b)
      = (Before ++ [Frag.set_VirtualAddress va f]) ++ l ++ After).
    { cbn [Io.Fragment Io.set_Fragment]. rewrite Nat2Z.id, Htable.
      rewrite insert_app_r_alt, Nat.sub_diag by lia. cbn [app].
      rewrite <- app_assoc. reflexivity. }
    replace (Z.of_nat (length Before) + 1)
      with (Z.of_nat (length (Before ++ [Frag.set_VirtualAddress va f])))
      by (rewrite length_app; cbn; lia).
    rewrite <- Hcount.
    rewrite (IH _ _ After _ _ _ Htable');
      [|rewrite length_app; cbn [length] in *; lia | apply UINTN_range
       | exact Hall
       | destruct Entries; lia
       | intros E HE; destruct (Htab E HE); subst Entries; split; lia].
    cbn [MappedAt flat_map]. unfold FragmentPages at 2. fold n.
    rewrite MapPageCalls_app by exact Hva.
    rewrite length_map, length_seq, <- Hcount, map_app, <- !app_assoc.
    cbn [app Io.set_Fragment].
    destruct Entries as [E|].
    + rewrite drop_drop.
      replace (Z.to_nat idx + n)%nat with (Z.to_nat (idx + Z.of_nat n)) by lia.
      reflexivity.
    + rewrite drop_nil. reflexivity.
Qed.

(** [MmpMapIoBufferFragments] on the fragments [l] of the table, those of
    [Before] ahead of them. *)
Lemma MmpMapIoBufferFragments_run (b : IO_BUFFER)
    (Before l After : list IO_BUFFER_FRAGMENT) (MapFlags : list MAP_FLAG)
    (Calls : MemoryLog) (k : Kernel) :
  Io.Fragment b = Before ++ l ++ After ->
  l <> [] ->
  Z.of_nat (length Before) + Z.of_nat (length l) <= Io.FragmentCount b ->
  Io.FragmentCount b < 2 ^ UINTN_BITS ->
  Forall WholePages l ->
  0 < SizeOfFragments l < 2 ^ UINTN_BITS ->
  0 <= SizeOfFragments Before < 2 ^ UINTN_BITS ->
  SizeOfFragments Before mod MmPageSize = 0 ->
  (flag_set (Io.Flags b) IO_BUFFER_FLAG_PAGE_CACHE_BACKED = true ->
   exists E, Io.PageCacheEntries b = Some E /\
             SizeOfFragments Before + SizeOfFragments l
             <= Z.of_nat (length E) * MmPageSize /\
             Z.of_nat (length E) < 2 ^ UINTN_BITS) ->
  (KSUCCESS (fst (AddressRange k)) = true ->
   KERNEL_VA_START <= snd (AddressRange k) < 2 ^ UINTN_BITS) ->
  let Slots :=
    if flag_set (Io.Flags b) IO_BUFFER_FLAG_PAGE_CACHE_BACKED
    then drop (Z.to_nat (SizeOfFragments Before / MmPageSize))
           (default [] (Io.PageCacheEntries b))
    else [] in
  MmpMapIoBufferFragments b (Z.of_nat (length Before)) (Z.of_nat (length l))
    MapFlags Calls k
  = Some (if KSUCCESS (fst (AddressRange k))
          then mkMapped (fst (AddressRange k))
                 (Io.set_Fragment
                    (Before ++ MappedAt (snd (AddressRange k)) l ++ After) b)
                 (Calls ++ map (pair (S (length (Log k))))
                             (MapPageCalls MapFlags Slots
                                (snd (AddressRange k))
                                (flat_map FragmentPages l)))
          else mkMapped (fst (AddressRange k)) b Calls,
          set_Log (Log k ++ [CallMmpAllocateAddressRange (SizeOfFragments l)
                               MmPageSize]) k).
Proof.
  intros Htable Hne Hcount Hmax Hall Hsize Hbefore Hbal Hcache Hrange Slots.
  pose proof MmPageSize_pos as Hpos. pose proof MmPageShift_range as Hshift.
  pose proof KERNEL_VA_START_range as Hkva.
  assert (Hlen : 0 < Z.of_nat (length l)) by (destruct l; [congruence | cbn; lia]).
  unfold MmpMapIoBufferFragments. cbv zeta.
  destruct (Z.eqb_spec (Z.of_nat (length l)) 0) as [Hz|_]; [lia|].
  unfold bind at 1. unfold ASSERT at 1. cbn [negb].
  rewrite (UINTN_small (Z.of_nat (length Before) + Z.of_nat (length l))) by lia.
  destruct (Z.leb_spec (Z.of_nat (length Before) + Z.of_nat (length l))
              (Io.FragmentCount b)) as [_|Hgt]; [|lia].
  unfold bind at 1. unfold ASSERT at 1.
  replace (Z.to_nat (Z.of_nat (length Before) + Z.of_nat (length l)
                     - Z.of_nat (length Before))) with (length l) by lia.
  assert (Hseg : forall j f, l !! j = Some f ->
            Io.Fragment b !! (Z.to_nat (Z.of_nat (length Before)) + j)%nat
            = Some f).
  { intros j f Hj. rewrite Nat2Z.id, Htable, lookup_app_r by lia.
    replace (length Before + j - length Before)%nat with j by lia.
    apply lookup_app_l_Some. exact Hj. }
  unfold bind at 1.
  rewrite (MmpMapIoBufferFragments_size_run b k l _ 0) by (try exact Hseg; lia).
  rewrite Z.add_0_l, (UINTN_small (SizeOfFragments l)) by lia.
  destruct (Z.eqb_spec (SizeOfFragments l) 0) as [Hz|_]; [lia|].
  unfold bind at 1. unfold ASSERT at 1. cbn [negb].
  assert (Hmul : SizeOfFragments l mod MmPageSize = 0).
  { rewrite <- (FragmentPages_flat_length l Hall). apply Z_mod_mult. }
  assert (Hal : IS_ALIGNED (SizeOfFragments l) MmPageSize = true)
    by (apply IS_ALIGNED_multiple; exact Hmul).
  unfold bind at 1. unfold ASSERT at 1. rewrite Hal.
  unfold bind at 1. unfold MmpAllocateAddressRange at 1.
  set (k1 := set_Log _ k).
  destruct (KSUCCESS (fst (AddressRange k))) eqn:Hok; cbn [negb];
    [|reflexivity].
  specialize (Hrange eq_refl).
  unfold bind at 1. unfold ASSERT at 1.
  destruct (Z.leb_spec KERNEL_VA_START (snd (AddressRange k))) as [_|Hlt];
    [|lia].
  assert (Hlog : length (Log k1) = S (length (Log k)))
    by (unfold k1; cbn; rewrite length_app; cbn; lia).
  unfold bind at 1.
  destruct (flag_set (Io.Flags b) IO_BUFFER_FLAG_PAGE_CACHE_BACKED) eqn:Hcb.
  - destruct (Hcache eq_refl) as (E & HE & Hslots & HlenE).
    rewrite HE. unfold bind at 1. unfold ASSERT at 1.
    rewrite bool_decide_eq_true_2 by (eexists; reflexivity).
    unfold bind at 1.
    assert (Hb0 : Io.Fragment b = [] ++ Before ++ (l ++ After))
      by (rewrite Htable; reflexivity).
    assert (Hseg0 : forall j f, Before !! j = Some f ->
              Io.Fragment b !! (Z.to_nat 0 + j)%nat = Some f).
    { intros j f Hj. rewrite Htable. cbn. apply lookup_app_l_Some. exact Hj. }
    replace (Z.to_nat (Z.of_nat (length Before))) with (length Before) by lia.
    rewrite (MmpMapIoBufferFragments_size_run b k1 Before 0 0)
      by (try exact Hseg0; lia).
    rewrite Z.add_0_l, (UINTN_small (SizeOfFragments Before)) by lia.
    assert (Hal0 : IS_ALIGNED (SizeOfFragments Before) MmPageSize = true)
      by (apply IS_ALIGNED_multiple; exact Hbal).
    unfold bind at 1. unfold ASSERT at 1. rewrite Hal0.
    unfold ret at 1. cbn [fst snd].
    rewrite Z.shiftr_div_pow2 by lia. fold MmPageSize.
    assert (Hq : 0 <= SizeOfFragments Before / MmPageSize)
      by (apply Z.div_pos; lia).
    unfold bind at 1.
    rewrite (MmpMapIoBufferFragments_map_run MapFlags (Some E) k1 l b Before
               After _ _ Calls Htable); [| lia | lia | exact Hall | exact Hq |].
    + unfold ret. rewrite Hlog. unfold Slots. rewrite HE. cbn [fst snd default].
      reflexivity.
    + intros E' [= <-]. split; [|exact HlenE].
      pose proof (FragmentPages_flat_length l Hall) as Hpages.
      pose proof (Z.div_mod (SizeOfFragments Before) MmPageSize). nia.
  - unfold ret at 1. cbn [fst snd]. unfold bind at 1.
    rewrite (MmpMapIoBufferFragments_map_run MapFlags None k1 l b Before
               After _ _ Calls Htable);
      [| lia | lia | exact Hall | lia | discriminate].
    unfold ret. rewrite Hlog. reflexivity.
Qed.

Lemma lor_land_lnot (Flags Mask : Z) :
  Z.lor (Z.land Flags (Z.lnot Mask)) Mask = Z.lor Flags Mask.
Proof.
  apply Z.bits_inj'. intros n Hn.
  rewrite !Z.lor_spec, Z.land_spec, Z.lnot_spec by exact Hn.
  destruct (Z.testbit Flags n), (Z.testbit Mask n); reflexivity.
Qed.

(** [MmpIsIoBufferMapped] on a buffer whose fragments in use are [l]. *)
Lemma MmpIsIoBufferMapped_fragments (b : IO_BUFFER) (VirtuallyContiguous : bool)
    (k : Kernel) (First : IO_BUFFER_FRAGMENT) (l : list IO_BUFFER_FRAGMENT) :
  FragmentsInUse b = First :: l ->
  (Z.to_nat (Io.FragmentCount b) <= length (Io.Fragment b))%nat ->
  0 <= Frag.VirtualAddress First < 2 ^ UINTN_BITS ->
  exists r,
    MmpIsIoBufferMapped b VirtuallyContiguous k = Some (r, k) /\
    (r = true <->
     FragmentsMapped VirtuallyContiguous (Frag.VirtualAddress First)
       (First :: l)).
Proof.
  intros Huse Htable Hptr.
  pose proof (FragmentsInUse_length b Htable) as Hlen.
  rewrite Huse in Hlen. cbn [length] in Hlen.
  assert (Hseg : forall j f, (First :: l) !! j = Some f ->
                             Io.Fragment b !! (Z.to_nat 0 + j)%nat = Some f).
  { intros j f Hj. cbn. apply FragmentsInUse_lookup. rewrite Huse. exact Hj. }
  destruct (MmpIsIoBufferMapped_loop_run b VirtuallyContiguous k (First :: l)
              0 (Frag.VirtualAddress First) ltac:(lia) Hptr Hseg)
    as (r & Hrun & Hr).
  exists r. split; [|exact Hr].
  unfold MmpIsIoBufferMapped.
  destruct (Z.leb_spec 1 (Io.FragmentCount b)) as [_|Hlt]; [|lia].
  unfold bind at 1. unfold ASSERT at 1. unfold bind at 1. unfold read.
  pose proof (Hseg 0%nat First eq_refl) as H0.
  change (Io.Fragment b !! 0%nat = Some First) in H0.
  change (Z.to_nat 0) with 0%nat. rewrite H0.
  cbn [length] in Hrun. rewrite <- Hlen. exact Hrun.
Qed.

Lemma MapFlagsOf_code (WriteThrough NonCached : bool) :
  (let MapFlags := [MAP_FLAG_PRESENT; MAP_FLAG_GLOBAL] in
   let MapFlags :=
     if WriteThrough then MapFlags ++ [MAP_FLAG_WRITE_THROUGH] else MapFlags in
   if NonCached then MapFlags ++ [MAP_FLAG_CACHE_DISABLE] else MapFlags)
  = MapFlagsOf WriteThrough NonCached.
Proof. destruct WriteThrough, NonCached; reflexivity. Qed.

(** A virtually contiguous mapping of a buffer that is not virtually
    contiguous yet, whatever the address space answers. *)
Lemma MmMapIoBuffer_contiguous_run (b : IO_BUFFER)
    (WriteThrough NonCached : bool) (Calls : MemoryLog) (k : Kernel)
    (First : IO_BUFFER_FRAGMENT) (l : list IO_BUFFER_FRAGMENT) :
  FragmentsInUse b = First :: l ->
  Io.FragmentCount b < 2 ^ UINTN_BITS ->
  (Z.to_nat (Io.FragmentCount b) <= length (Io.Fragment b))%nat ->
  Z.land (Io.Flags b) IO_BUFFER_FLAG_USER_MODE = 0 ->
  flag_set (Io.Flags b) IO_BUFFER_FLAG_VIRTUALLY_CONTIGUOUS = false ->
  (flag_set (Io.Flags b) IO_BUFFER_FLAG_MAPPED = true ->
   flag_set (Io.Flags b) IO_BUFFER_FLAG_UNMAP_ON_FREE = true) ->
  Forall WholePages (First :: l) ->
  0 <= Frag.VirtualAddress First < 2 ^ UINTN_BITS ->
  0 < SizeOfFragments (First :: l) < 2 ^ UINTN_BITS ->
  (flag_set (Io.Flags b) IO_BUFFER_FLAG_PAGE_CACHE_BACKED = true ->
   exists E, Io.PageCacheEntries b = Some E /\
             SizeOfFragments (First :: l) <= Z.of_nat (length E) * MmPageSize /\
             Z.of_nat (length E) < 2 ^ UINTN_BITS) ->
  ~ FragmentsMapped true (Frag.VirtualAddress First) (First :: l) ->
  (KSUCCESS (fst (AddressRange k)) = true ->
   KERNEL_VA_START <= snd (AddressRange k) < 2 ^ UINTN_BITS) ->
  let Unmap :=
    if flag_set (Io.Flags b) IO_BUFFER_FLAG_MAPPED
    then [CallMmpFreeAccountingRanges (First :: l)
            (if flag_set (Io.Flags b) IO_BUFFER_FLAG_PAGE_CACHE_BACKED
             then Io.PageCacheEntries b else None)]
    else [] in
  let k' :=
    set_Log (Log k ++ Unmap
             ++ [CallMmpAllocateAddressRange (SizeOfFragments (First :: l))
                   MmPageSize]) k in
  MmMapIoBuffer b WriteThrough NonCached true Calls k
  = Some (if KSUCCESS (fst (AddressRange k))
          then mkMapped STATUS_SUCCESS
                 (Io.set_Flags (Z.lor (Io.Flags b) MappingFlags)
                    (Io.set_Fragment
                       (MappedAt (snd (AddressRange k)) (First :: l)
                        ++ drop (Z.to_nat (Io.FragmentCount b)) (Io.Fragment b))
                       b))
                 (Calls ++ map (pair (length (Log k')))
                             (MapPageCalls (MapFlagsOf WriteThrough NonCached)
                                (PageCacheSlots b) (snd (AddressRange k))
                                (flat_map FragmentPages (First :: l))))
          else mkMapped (fst (AddressRange k))
                 (if flag_set (Io.Flags b) IO_BUFFER_FLAG_MAPPED
                  then Io.set_Flags (Z.land (Io.Flags b) (Z.lnot MappingFlags)) b
                  else b)
                 Calls, k').
Proof.
  intros Huse Hmax Htable Huser Hvc Hunmap Hall Hptr Hsize Hcache Hnot Hrange
         Unmap k'.
  pose proof (FragmentsInUse_length b Htable) as Hlen.
  rewrite Huse in Hlen. cbn [length] in Hlen.
  destruct (MmpIsIoBufferMapped_fragments b true k First l Huse Htable Hptr)
    as (r & Hmapped & Hr).
  assert (r = false) as -> by (destruct r; [exfalso; apply Hnot, Hr|]; reflexivity).
  unfold MmMapIoBuffer. cbv zeta. rewrite MapFlagsOf_code.
  destruct (Z.leb_spec 1 (Io.FragmentCount b)) as [_|Hlt]; [|lia].
  unfold bind at 1. unfold ASSERT at 1.
  rewrite Hvc. unfold bind at 1. unfold bind at 1. rewrite Hmapped.
  unfold ret at 1. rewrite Huser.
  unfold bind at 1. unfold ASSERT at 1. cbn [Z.eqb].
  unfold bind at 1. unfold bind at 1.
  assert (Htab : Io.Fragment b
                 = [] ++ (First :: l)
                   ++ drop (Z.to_nat (Io.FragmentCount b)) (Io.Fragment b)).
  { rewrite <- Huse. unfold FragmentsInUse. cbn [app].
    rewrite take_drop. reflexivity. }
  assert (Hcnt : Io.FragmentCount b = Z.of_nat (length (First :: l)))
    by (cbn [length]; lia).
  set (b0 := if flag_set (Io.Flags b) IO_BUFFER_FLAG_MAPPED
             then Io.set_Flags (Z.land (Io.Flags b) (Z.lnot MappingFlags)) b
             else b).
  set (k0 := set_Log (Log k ++ Unmap) k).
  assert (Hun : (if flag_set (Io.Flags b) IO_BUFFER_FLAG_MAPPED
                 then MmpUnmapIoBuffer b else ret b) k = Some (b0, k0)).
  { unfold b0, k0, Unmap.
    destruct (flag_set (Io.Flags b) IO_BUFFER_FLAG_MAPPED) eqn:Hm.
    - unfold MmpUnmapIoBuffer. rewrite (Hunmap eq_refl).
      unfold bind at 1. unfold ASSERT at 1. unfold bind at 1.
      fold (FragmentsInUse b). rewrite Huse.
      destruct (flag_set (Io.Flags b) IO_BUFFER_FLAG_PAGE_CACHE_BACKED).
      + destruct (Hcache eq_refl) as (E & HE & _). rewrite HE.
        unfold bind at 1. unfold ASSERT at 1.
        rewrite bool_decide_eq_true_2 by (eexists; reflexivity).
        reflexivity.
      + reflexivity.
    - unfold ret. rewrite set_Log_same. reflexivity. }
  rewrite Hun.
  assert (Hb0 : Io.Fragment b0 = Io.Fragment b
                /\ Io.FragmentCount b0 = Io.FragmentCount b
                /\ Io.PageCacheEntries b0 = Io.PageCacheEntries b
                /\ flag_set (Io.Flags b0) IO_BUFFER_FLAG_PAGE_CACHE_BACKED
                   = flag_set (Io.Flags b) IO_BUFFER_FLAG_PAGE_CACHE_BACKED
                /\ Z.lor (Io.Flags b0) MappingFlags
                   = Z.lor (Io.Flags b) MappingFlags).
  { unfold b0. destruct (flag_set (Io.Flags b) IO_BUFFER_FLAG_MAPPED);
      [|repeat split; reflexivity].
    cbn [Io.Fragment Io.FragmentCount Io.PageCacheEntries Io.Flags
         Io.set_Flags].
    split; [reflexivity|]. split; [reflexivity|]. split; [reflexivity|].
    split; [apply flag_set_kept; reflexivity | apply lor_land_lnot]. }
  destruct Hb0 as (Hb1 & Hb2 & Hb3 & Hb4 & Hb5).
  assert (Hk0 : AddressRange k0 = AddressRange k) by reflexivity.
  unfold bind at 1. rewrite Hb2, Hcnt.
  change 0 with (Z.of_nat (length (@nil IO_BUFFER_FRAGMENT))) at 1.
  rewrite (MmpMapIoBufferFragments_run b0 [] (First :: l)
             (drop (Z.to_nat (Io.FragmentCount b)) (Io.Fragment b)));
    [ | rewrite Hb1; exact Htab | discriminate | rewrite Hb2; cbn [length] in *; lia
      | rewrite Hb2; exact Hmax | exact Hall | exact Hsize | cbn; lia
      | apply Z.mod_0_l; pose proof MmPageSize_pos; lia
      | rewrite Hb4, Hb3; cbn [SizeOfFragments]; rewrite Z.add_0_l; exact Hcache
      | rewrite Hk0; exact Hrange ].
  rewrite Hk0, Hb4, Hb3.
  assert (Hk' : set_Log (Log k0 ++ [CallMmpAllocateAddressRange
                                      (SizeOfFragments (First :: l)) MmPageSize])
                  k0 = k').
  { unfold k0, k'. rewrite set_Log_twice. reflexivity. }
  rewrite Hk'.
  assert (Hslots :
    (if flag_set (Io.Flags b) IO_BUFFER_FLAG_PAGE_CACHE_BACKED
     then drop (Z.to_nat (SizeOfFragments [] / MmPageSize))
            (default [] (Io.PageCacheEntries b))
     else []) = PageCacheSlots b).
  { unfold PageCacheSlots. cbn [SizeOfFragments]. rewrite Zdiv_0_l.
    reflexivity. }
  rewrite Hslots.
  assert (Hlog : S (length (Log k0)) = length (Log k')).
  { rewrite <- Hk'. unfold set_Log at 1. cbn [Log].
    rewrite length_app. cbn [length]. lia. }
  rewrite Hlog.
  destruct (KSUCCESS (fst (AddressRange k))) eqn:Hok;
    cbn [m_Status]; rewrite Hok; cbn [negb]; [|reflexivity].
  - unfold ret. cbn [m_IoBuffer m_Calls app].
    f_equal. f_equal. f_equal.
    unfold Io.set_Flags, Io.set_Fragment.
    cbn [Io.Fragment Io.FragmentCount Io.Flags Io.TotalSize Io.CurrentOffset
         Io.MaxFragmentCount Io.PageCount Io.PageCacheEntries].
    rewrite <- Z.lor_assoc.
    change (Z.lor IO_BUFFER_FLAG_VIRTUALLY_CONTIGUOUS
              (Z.lor IO_BUFFER_FLAG_UNMAP_ON_FREE IO_BUFFER_FLAG_MAPPED))
      with MappingFlags.
    rewrite Hb5, Hb2, Hb3, <- ?Hcnt.
    unfold b0. destruct (flag_set (Io.Flags b) IO_BUFFER_FLAG_MAPPED);
      reflexivity.
Qed.

Lemma MappedAt_lookup (l : list IO_BUFFER_FRAGMENT) :
  forall (va : Z) (j : nat) (f : IO_BUFFER_FRAGMENT),
  0 <= va < 2 ^ UINTN_BITS ->
  l !! j = Some f ->
  MappedAt va l !! j
  = Some (Frag.set_VirtualAddress
            (UINTN (va + SizeOfFragments (take j l))) f).
Proof.
  induction l as [|g l IH]; intros va j f Hva Hj; [discriminate|].
  destruct j as [|j].
  - injection Hj as ->. cbn. rewrite Z.add_0_r, UINTN_small by lia.
    reflexivity.
  - cbn [MappedAt take SizeOfFragments]. cbn in Hj.
    change ((Frag.set_VirtualAddress va g
               :: MappedAt (UINTN (va + Frag.Size g)) l) !! S j)
      with (MappedAt (UINTN (va + Frag.Size g)) l !! j).
    rewrite (IH (UINTN (va + Frag.Size g)) j f (UINTN_range _) Hj),
      UINTN_add_idemp, Z.add_assoc.
    reflexivity.
Qed.

Lemma MappedAt_sizes (l : list IO_BUFFER_FRAGMENT) :
  forall va, map Frag.Size (MappedAt va l) = map Frag.Size l.
Proof. induction l as [|f l IH]; intros va; cbn; [|rewrite IH]; reflexivity. Qed.

Lemma MappedAt_physical (l : list IO_BUFFER_FRAGMENT) :
  forall va,
  map Frag.PhysicalAddress (MappedAt va l) = map Frag.PhysicalAddress l.
Proof. induction l as [|f l IH]; intros va; cbn; [|rewrite IH]; reflexivity. Qed.

Lemma SizeOfFragments_sizes (l1 l2 : list IO_BUFFER_FRAGMENT) :
  map Frag.Size l1 = map Frag.Size l2 -> SizeOfFragments l1 = SizeOfFragments l2.
Proof.
  revert l2. induction l1 as [|f l1 IH]; intros [|g l2] H; try discriminate;
    [reflexivity|].
  cbn in H. injection H as Hf Hl. cbn. rewrite Hf, (IH l2 Hl). reflexivity.
Qed.

(** Fragments mapped one after the other in a range that lies above
    address 0 and within the address space follow one another and have an
    address each. *)
Lemma MappedAt_mapped (va : Z) (l : list IO_BUFFER_FRAGMENT) :
  0 < va -> va + SizeOfFragments l <= 2 ^ UINTN_BITS ->
  Forall (fun f => 0 < Frag.Size f) l ->
  FragmentsMapped true va (MappedAt va l).
Proof.
  intros Hva Hfit Hsizes.
  assert (Hnonneg : Forall (fun f => 0 <= Frag.Size f) l)
    by (eapply Forall_impl; [exact Hsizes | cbn; intros; lia]).
  pose proof (SizeOfFragments_nonneg l Hnonneg) as Htotal.
  assert (Hat : forall j f', MappedAt va l !! j = Some f' ->
            Frag.VirtualAddress f' = va + SizeOfFragments (take j l)
            /\ va + SizeOfFragments (take j l) < 2 ^ UINTN_BITS).
  { intros j f' Hj.
    assert (Hlt : (j < length l)%nat)
      by (rewrite <- (MappedAt_length l va); eapply lookup_lt_Some; exact Hj).
    destruct (lookup_lt_is_Some_2 l j Hlt) as [f Hf].
    pose proof (SizeOfFragments_take_S l j f Hf) as HS.
    pose proof (SizeOfFragments_take_all l (S j) Hnonneg) as Hle.
    pose proof (SizeOfFragments_nonneg (take j l)
                  (Forall_take _ j l Hnonneg)) as H0.
    pose proof (Forall_lookup_1 _ _ _ _ Hsizes Hf) as Hpos. cbn in Hpos.
    assert (Hva2 : 0 <= va < 2 ^ UINTN_BITS) by lia.
    rewrite (MappedAt_lookup l va j f Hva2 Hf) in Hj.
    injection Hj as <-.
    cbn [Frag.VirtualAddress Frag.set_VirtualAddress].
    rewrite UINTN_small by lia. lia. }
  split.
  - apply Forall_lookup_2. intros j f' Hj.
    destruct (Hat j f' Hj) as [-> Hlt].
    pose proof (SizeOfFragments_nonneg (take j l)
                  (Forall_take _ j l Hnonneg)).
    unfold NULL. lia.
  - intros _ j f' Hj. destruct (Hat j f' Hj) as [-> Hlt].
    rewrite (SizeOfFragments_sizes (take j (MappedAt va l)) (take j l))
      by (rewrite <- !firstn_map; f_equal; apply MappedAt_sizes).
    pose proof (SizeOfFragments_nonneg (take j l)
                  (Forall_take _ j l Hnonneg)).
    rewrite UINTN_small by lia. reflexivity.
Qed.

(** A buffer whose fragments are mapped as asked is left alone; one that is
    flagged as mapped and is not ends the run. *)
Lemma MmMapIoBuffer_mapped_run (b : IO_BUFFER)
    (WriteThrough NonCached VirtuallyContiguous : bool) (Calls : MemoryLog)
    (k : Kernel) (First : IO_BUFFER_FRAGMENT) (l : list IO_BUFFER_FRAGMENT) :
  FragmentsInUse b = First :: l ->
  (Z.to_nat (Io.FragmentCount b) <= length (Io.Fragment b))%nat ->
  0 <= Frag.VirtualAddress First < 2 ^ UINTN_BITS ->
  let Flag := if VirtuallyContiguous then IO_BUFFER_FLAG_VIRTUALLY_CONTIGUOUS
              else IO_BUFFER_FLAG_MAPPED in
  (FragmentsMapped VirtuallyContiguous (Frag.VirtualAddress First)
     (First :: l) ->
   MmMapIoBuffer b WriteThrough NonCached VirtuallyContiguous Calls k
   = Some (mkMapped STATUS_SUCCESS
             (if flag_set (Io.Flags b) Flag then b
              else Io.set_Flags (Z.lor (Io.Flags b) Flag) b)
             Calls, k)) /\
  (flag_set (Io.Flags b) Flag = true ->
   ~ FragmentsMapped VirtuallyContiguous (Frag.VirtualAddress First)
       (First :: l) ->
   MmMapIoBuffer b WriteThrough NonCached VirtuallyContiguous Calls k = None).
Proof.
  intros Huse Htable Hptr Flag.
  pose proof (FragmentsInUse_length b Htable) as Hlen.
  rewrite Huse in Hlen. cbn [length] in Hlen.
  destruct (MmpIsIoBufferMapped_fragments b VirtuallyContiguous k First l Huse
              Htable Hptr) as (r & Hmapped & Hr).
  rewrite <- Hr. clear Hr.
  unfold MmMapIoBuffer. cbv zeta.
  destruct (Z.leb_spec 1 (Io.FragmentCount b)) as [_|Hlt]; [|lia].
  split.
  - intros ->. unfold bind at 1. unfold ASSERT at 1. unfold bind at 1.
    destruct VirtuallyContiguous; subst Flag; cbv beta iota;
      match goal with
      | |- context [flag_set (Io.Flags b) ?F] =>
          destruct (flag_set (Io.Flags b) F) eqn:Hflag
      end;
      unfold bind at 1; rewrite Hmapped; reflexivity.
  - intros Hflag Hnot. assert (r = false) as ->
      by (destruct r; [exfalso; apply Hnot|]; reflexivity).
    unfold bind at 1. unfold ASSERT at 1. unfold bind at 1.
    destruct VirtuallyContiguous; subst Flag; cbv beta iota in *;
      rewrite Hflag; unfold bind at 1; rewrite Hmapped; reflexivity.
Qed.

Lemma flag_set_lor_mask (Flags Mask Flag : Z) :
  Z.land Mask Flag <> 0 -> flag_set (Z.lor Flags Mask) Flag = true.
Proof.
  intros Hnz. unfold flag_set. rewrite Z.land_lor_distr_l.
  destruct (Z.eqb_spec (Z.lor (Z.land Flags Flag) (Z.land Mask Flag)) 0)
    as [Hz|_]; [|reflexivity].
  apply Z.lor_eq_0_iff in Hz. destruct Hz. contradiction.
Qed.

(** The pages the calls of [MapPageCalls] map, each [MmPageSize] after the
    one before. *)
Lemma MapPageCalls_pages (MapFlags : list MAP_FLAG) (t : nat) (Pages : list Z) :
  forall Slots va,
  0 <= va -> va + Z.of_nat (length Pages) * MmPageSize <= 2 ^ UINTN_BITS ->
  omap MappedPage (map (pair t) (MapPageCalls MapFlags Slots va Pages))
  = imap (fun j pa => (pa, va + Z.of_nat j * MmPageSize)) Pages.
Proof.
  pose proof MmPageSize_pos as Hpos.
  induction Pages as [|pa Pages IH]; intros Slots va Hva Hfit; [reflexivity|].
  cbn [MapPageCalls map length] in *.
  match goal with
  | |- omap MappedPage (?c :: ?r) = _ =>
      change (omap MappedPage (c :: r)) with ((pa, va) :: omap MappedPage r)
  end.
  cbn [imap]. rewrite Z.mul_0_l, Z.add_0_r. f_equal.
  rewrite map_app, omap_app.
  assert (Hnone : omap MappedPage
            (map (pair t)
               match Slots with
               | Some Entry :: _ =>
                   [CallIoSetPageCacheEntryVirtualAddress Entry va]
               | _ => []
               end) = []) by (destruct Slots as [|[e|] ?]; reflexivity).
  rewrite Hnone. cbn [app].
  destruct Pages as [|pa' Pages']; [reflexivity|].
  cbn [length] in Hfit.
  rewrite (UINTN_small (va + MmPageSize)) by nia.
  rewrite IH by (cbn [length]; nia).
  apply imap_ext. intros j x _. cbn. f_equal. lia.
Qed.

(** The page cache entries the calls of [MapPageCalls] tell an address:
    those in the slots of the pages, each with the address of its page. *)
Lemma MapPageCalls_told (MapFlags : list MAP_FLAG) (t : nat) (Pages : list Z) :
  forall Slots va (e : PAGE_CACHE_ENTRY) (a : Z),
  0 <= va -> va + Z.of_nat (length Pages) * MmPageSize <= 2 ^ UINTN_BITS ->
  In (e, a)
    (omap ToldEntry (map (pair t) (MapPageCalls MapFlags Slots va Pages)))
  <-> exists j : nat,
        (j < length Pages)%nat /\ Slots !! j = Some (Some e) /\
        a = va + Z.of_nat j * MmPageSize.
Proof.
  pose proof MmPageSize_pos as Hpos.
  induction Pages as [|pa Pages IH]; intros Slots va e a Hva Hfit.
  - cbn. split; [tauto|]. intros (j & Hj & _). lia.
  - cbn [MapPageCalls map length] in *.
    match goal with
    | |- In _ (omap ToldEntry (?c :: ?r)) <-> _ =>
        change (omap ToldEntry (c :: r)) with (omap ToldEntry r)
    end.
    rewrite map_app, omap_app, in_app_iff.
    assert (Hrest :
      In (e, a)
        (omap ToldEntry
           (map (pair t)
              (MapPageCalls MapFlags (tail Slots) (UINTN (va + MmPageSize))
                 Pages)))
      <-> exists j : nat,
            (j < length Pages)%nat /\ tail Slots !! j = Some (Some e) /\
            a = va + Z.of_nat (S j) * MmPageSize).
    { destruct Pages as [|pa' Pages'].
      - cbn. split; [tauto|]. intros (j & Hj & _). lia.
      - cbn [length] in Hfit.
        rewrite (UINTN_small (va + MmPageSize)) by nia.
        rewrite IH by (cbn [length]; nia).
        split; intros (j & Hj & Hs & ->); exists j;
          (split; [exact Hj|]); (split; [exact Hs|]); lia. }
    rewrite Hrest. clear Hrest IH.
    split.
    + intros [Hhead | (j & Hj & Hs & ->)].
      * destruct Slots as [|[e0|] Slots']; cbn in Hhead; try tauto.
        destruct Hhead as [[= <- <-]|[]].
        exists 0%nat. split; [lia|]. split; [reflexivity|]. lia.
      * exists (S j). split; [lia|]. split; [|reflexivity].
        destruct Slots; [discriminate | exact Hs].
    + intros (j & Hj & Hs & ->). destruct j as [|j].
      * left. destruct Slots as [|[e0|] Slots']; try discriminate.
        injection Hs as ->. cbn. left. f_equal. lia.
      * right. exists j. split; [lia|]. split; [|reflexivity].
        destruct Slots; [discriminate | exact Hs].
Qed.

(** X17.  A buffer of whole pages that is not virtually contiguous yet (not
    a user mode buffer; UNMAP_ON_FREE when MAPPED) is mapped virtually
    contiguous when the address space answers a range within the address
    space: [MmMapIoBuffer] returns STATUS_SUCCESS with the fragments in use
    one after the other from the address of the range on, each with an
    address, their physical addresses and sizes as before; MAPPED,
    UNMAP_ON_FREE and VIRTUALLY_CONTIGUOUS are set and nothing else of the
    buffer changes; the kernel was asked for one range of the size of the
    buffer, after the old ranges were given back when the buffer was
    MAPPED.  A second mapping, of either kind, then leaves the buffer alone
    and calls nothing. *)
Theorem map_contiguous (b : IO_BUFFER) (WriteThrough NonCached : bool)
    (Calls : MemoryLog) (k : Kernel) (First : IO_BUFFER_FRAGMENT) :
  head (FragmentsInUse b) = Some First ->
  Io.FragmentCount b < 2 ^ UINTN_BITS ->
  (Z.to_nat (Io.FragmentCount b) <= length (Io.Fragment b))%nat ->
  Z.land (Io.Flags b) IO_BUFFER_FLAG_USER_MODE = 0 ->
  flag_set (Io.Flags b) IO_BUFFER_FLAG_VIRTUALLY_CONTIGUOUS = false ->
  (flag_set (Io.Flags b) IO_BUFFER_FLAG_MAPPED = true ->
   flag_set (Io.Flags b) IO_BUFFER_FLAG_UNMAP_ON_FREE = true) ->
  Forall WholePages (FragmentsInUse b) ->
  Forall (fun f => 0 < Frag.Size f) (FragmentsInUse b) ->
  0 <= Frag.VirtualAddress First < 2 ^ UINTN_BITS ->
  (flag_set (Io.Flags b) IO_BUFFER_FLAG_PAGE_CACHE_BACKED = true ->
   exists E, Io.PageCacheEntries b = Some E /\
             SizeOfFragments (FragmentsInUse b)
             <= Z.of_nat (length E) * MmPageSize /\
             Z.of_nat (length E) < 2 ^ UINTN_BITS) ->
  ~ FragmentsMapped true (Frag.VirtualAddress First) (FragmentsInUse b) ->
  KSUCCESS (fst (AddressRange k)) = true ->
  KERNEL_VA_START <= snd (AddressRange k) ->
  snd (AddressRange k) + SizeOfFragments (FragmentsInUse b)
  <= 2 ^ UINTN_BITS ->
  exists b' Calls' k',
    MmMapIoBuffer b WriteThrough NonCached true Calls k
    = Some (mkMapped STATUS_SUCCESS b' Calls', k') /\
    FragmentsInUse b' = MappedAt (snd (AddressRange k)) (FragmentsInUse b) /\
    FragmentsMapped true (snd (AddressRange k)) (FragmentsInUse b') /\
    map Frag.PhysicalAddress (Io.Fragment b')
    = map Frag.PhysicalAddress (Io.Fragment b) /\
    map Frag.Size (Io.Fragment b') = map Frag.Size (Io.Fragment b) /\
    b' = Io.set_Flags (Z.lor (Io.Flags b) MappingFlags)
           (Io.set_Fragment (Io.Fragment b') b) /\
    k' = set_Log
           (Log k
            ++ (if flag_set (Io.Flags b) IO_BUFFER_FLAG_MAPPED
                then [CallMmpFreeAccountingRanges (FragmentsInUse b)
                        (if flag_set (Io.Flags b)
                              IO_BUFFER_FLAG_PAGE_CACHE_BACKED
                         then Io.PageCacheEntries b else None)]
                else [])
            ++ [CallMmpAllocateAddressRange
                  (SizeOfFragments (FragmentsInUse b)) MmPageSize]) k /\
    forall WriteThrough' NonCached' VirtuallyContiguous',
      MmMapIoBuffer b' WriteThrough' NonCached' VirtuallyContiguous' Calls' k'
      = Some (mkMapped STATUS_SUCCESS b' Calls', k').
Proof.
  intros Hhead Hmax Htable Huser Hvc Hunmap Hall Hsizes Hptr Hcache Hnot Hok
         Hkva Hfit.
  pose proof KERNEL_VA_START_range as Hstart.
  destruct (FragmentsInUse b) as [|F l] eqn:Huse; [discriminate|].
  injection Hhead as ->.
  assert (Hnonneg : Forall (fun f => 0 <= Frag.Size f) (First :: l))
    by (eapply Forall_impl; [exact Hsizes | cbn; intros; lia]).
  assert (Htotal : 0 < SizeOfFragments (First :: l) < 2 ^ UINTN_BITS).
  { pose proof (Forall_inv Hsizes) as H1. cbn in H1.
    pose proof (SizeOfFragments_nonneg l (Forall_inv_tail Hnonneg)).
    cbn [SizeOfFragments] in *. lia. }
  pose proof (MmMapIoBuffer_contiguous_run b WriteThrough NonCached Calls k
                First l Huse Hmax Htable Huser Hvc Hunmap Hall Hptr Htotal
                Hcache Hnot ltac:(intros _; lia)) as Hrun.
  cbv zeta in Hrun. rewrite Hok in Hrun.
  pose proof (FragmentsInUse_length b Htable) as Hlen. rewrite Huse in Hlen.
  set (va := snd (AddressRange k)) in *.
  set (T := MappedAt va (First :: l)
            ++ drop (Z.to_nat (Io.FragmentCount b)) (Io.Fragment b)) in *.
  assert (Huse' : take (Z.to_nat (Io.FragmentCount b)) T = MappedAt va (First :: l)).
  { unfold T. rewrite take_app_length'; [reflexivity|].
    rewrite MappedAt_length. symmetry. exact Hlen. }
  assert (HT : Io.Fragment b
               = (First :: l) ++ drop (Z.to_nat (Io.FragmentCount b))
                                   (Io.Fragment b)).
  { rewrite <- Huse. unfold FragmentsInUse. rewrite take_drop. reflexivity. }
  pose proof (MappedAt_mapped va (First :: l) ltac:(lia) Hfit Hsizes)
    as Hmapped.
  eexists _, _, _. split; [exact Hrun|].
  split; [exact Huse'|].
  split; [unfold FragmentsInUse;
          cbn [Io.Fragment Io.FragmentCount Io.set_Flags Io.set_Fragment];
          rewrite Huse'; exact Hmapped|].
  split; [cbn [Io.Fragment Io.set_Flags Io.set_Fragment]; unfold T;
          rewrite HT at 2; rewrite !map_app, MappedAt_physical; reflexivity|].
  split; [cbn [Io.Fragment Io.set_Flags Io.set_Fragment]; unfold T;
          rewrite HT at 2; rewrite !map_app, MappedAt_sizes; reflexivity|].
  split; [reflexivity|]. split; [reflexivity|].
  intros WT' NC' VC'.
  set (b' := Io.set_Flags _ _).
  assert (Huse2 : FragmentsInUse b'
                  = Frag.set_VirtualAddress va First
                      :: MappedAt (UINTN (va + Frag.Size First)) l)
    by (unfold FragmentsInUse, b';
        cbn [Io.Fragment Io.FragmentCount Io.set_Flags Io.set_Fragment];
        rewrite Huse'; reflexivity).
  assert (Htable2 : (Z.to_nat (Io.FragmentCount b') <= length (Io.Fragment b'))%nat).
  { unfold b'. cbn [Io.Fragment Io.FragmentCount Io.set_Flags Io.set_Fragment].
    unfold T. rewrite length_app, MappedAt_length. lia. }
  assert (Hptr2 : 0 <= Frag.VirtualAddress (Frag.set_VirtualAddress va First)
                   < 2 ^ UINTN_BITS) by (cbn; lia).
  match goal with
  | |- MmMapIoBuffer _ _ _ _ ?C ?K = _ =>
      destruct (MmMapIoBuffer_mapped_run b' WT' NC' VC' C K _ _ Huse2 Htable2
                  Hptr2) as [Hagain _]
  end.
  rewrite Hagain.
  - assert (Hflag : flag_set (Io.Flags b')
              (if VC' then IO_BUFFER_FLAG_VIRTUALLY_CONTIGUOUS
               else IO_BUFFER_FLAG_MAPPED) = true).
    { cbn [Io.Flags Io.set_Flags b']. apply flag_set_lor_mask.
      destruct VC'; vm_compute; discriminate. }
    rewrite Hflag. reflexivity.
  - cbn [Frag.VirtualAddress Frag.set_VirtualAddress].
    destruct Hmapped as [Hnn Hadj]. split; [exact Hnn|].
    intros _. exact (Hadj eq_refl).
Qed.

Lemma MapPageCalls_flags (MapFlags : list MAP_FLAG) (Pages : list Z) :
  forall Slots va,
  Forall (fun c => forall pa a F, c = CallMmpMapPage pa a F -> F = MapFlags)
    (MapPageCalls MapFlags Slots va Pages).
Proof.
  induction Pages as [|pa Pages IH]; intros Slots va; [constructor|].
  cbn [MapPageCalls]. constructor; [intros ? ? ? [= _ _ <-]; reflexivity|].
  apply Forall_app. split; [|apply IH].
  destruct Slots as [|[e|] ?]; repeat constructor. intros ? ? ?. discriminate.
Qed.

(** X18.  The calls of that virtually contiguous mapping, all made once the
    range is reserved: the pages of the buffer are mapped in order, page [j]
    of the buffer at the address of the range plus [j] pages, with the map
    flags PRESENT and GLOBAL, WRITE_THROUGH and CACHE_DISABLE as asked; and
    the page cache entries told an address are those in the slots of the
    pages of a buffer backed by the page cache, each told the address of
    its page. *)
Theorem map_contiguous_pages (b : IO_BUFFER) (WriteThrough NonCached : bool)
    (Calls : MemoryLog) (k : Kernel) (First : IO_BUFFER_FRAGMENT) :
  head (FragmentsInUse b) = Some First ->
  Io.FragmentCount b < 2 ^ UINTN_BITS ->
  (Z.to_nat (Io.FragmentCount b) <= length (Io.Fragment b))%nat ->
  Z.land (Io.Flags b) IO_BUFFER_FLAG_USER_MODE = 0 ->
  flag_set (Io.Flags b) IO_BUFFER_FLAG_VIRTUALLY_CONTIGUOUS = false ->
  (flag_set (Io.Flags b) IO_BUFFER_FLAG_MAPPED = true ->
   flag_set (Io.Flags b) IO_BUFFER_FLAG_UNMAP_ON_FREE = true) ->
  Forall WholePages (FragmentsInUse b) ->
  Forall (fun f => 0 < Frag.Size f) (FragmentsInUse b) ->
  0 <= Frag.VirtualAddress First < 2 ^ UINTN_BITS ->
  (flag_set (Io.Flags b) IO_BUFFER_FLAG_PAGE_CACHE_BACKED = true ->
   exists E, Io.PageCacheEntries b = Some E /\
             SizeOfFragments (FragmentsInUse b)
             <= Z.of_nat (length E) * MmPageSize /\
             Z.of_nat (length E) < 2 ^ UINTN_BITS) ->
  ~ FragmentsMapped true (Frag.VirtualAddress First) (FragmentsInUse b) ->
  KSUCCESS (fst (AddressRange k)) = true ->
  KERNEL_VA_START <= snd (AddressRange k) ->
  snd (AddressRange k) + SizeOfFragments (FragmentsInUse b)
  <= 2 ^ UINTN_BITS ->
  exists b' New k',
    MmMapIoBuffer b WriteThrough NonCached true Calls k
    = Some (mkMapped STATUS_SUCCESS b' (Calls ++ New), k') /\
    Forall (fun c => fst c = length (Log k')) New /\
    (exists Before,
       Log k' = Before ++ [CallMmpAllocateAddressRange
                             (Z.of_nat (length (BufferPages b)) * MmPageSize)
                             MmPageSize]) /\
    omap MappedPage New
    = imap (fun j pa => (pa, snd (AddressRange k) + Z.of_nat j * MmPageSize))
        (BufferPages b) /\
    Forall (fun c => forall pa a F, snd c = CallMmpMapPage pa a F ->
                                    F = MapFlagsOf WriteThrough NonCached)
      New /\
    forall (e : PAGE_CACHE_ENTRY) (a : Z),
      In (e, a) (omap ToldEntry New)
      <-> exists j : nat,
            (j < length (BufferPages b))%nat /\
            PageCacheSlots b !! j = Some (Some e) /\
            a = snd (AddressRange k) + Z.of_nat j * MmPageSize.
Proof.
  intros Hhead Hmax Htable Huser Hvc Hunmap Hall Hsizes Hptr Hcache Hnot Hok
         Hkva Hfit.
  pose proof KERNEL_VA_START_range as Hstart.
  unfold BufferPages.
  destruct (FragmentsInUse b) as [|F l] eqn:Huse; [discriminate|].
  injection Hhead as ->.
  assert (Hnonneg : Forall (fun f => 0 <= Frag.Size f) (First :: l))
    by (eapply Forall_impl; [exact Hsizes | cbn; intros; lia]).
  assert (Htotal : 0 < SizeOfFragments (First :: l) < 2 ^ UINTN_BITS).
  { pose proof (Forall_inv Hsizes) as H1. cbn in H1.
    pose proof (SizeOfFragments_nonneg l (Forall_inv_tail Hnonneg)).
    cbn [SizeOfFragments] in *. lia. }
  pose proof (MmMapIoBuffer_contiguous_run b WriteThrough NonCached Calls k
                First l Huse Hmax Htable Huser Hvc Hunmap Hall Hptr Htotal
                Hcache Hnot ltac:(intros _; lia)) as Hrun.
  cbv zeta in Hrun. rewrite Hok in Hrun.
  pose proof (FragmentPages_flat_length (First :: l) Hall) as Hpages.
  set (Pages := flat_map FragmentPages (First :: l)) in *.
  set (va := snd (AddressRange k)) in *.
  eexists _, _, _. split; [exact Hrun|].
  split; [apply List.Forall_map, Forall_true; reflexivity|].
  split.
  { eexists. cbn [Log set_Log]. rewrite Hpages, app_assoc. reflexivity. }
  split; [apply MapPageCalls_pages; lia|].
  split.
  { apply List.Forall_map. cbn [snd]. apply MapPageCalls_flags. }
  intros e a. apply MapPageCalls_told; lia.
Qed.

(** X19.  A virtually contiguous mapping that the address space refuses
    leaves a mapped buffer with stale addresses.  On a buffer that is MAPPED
    and UNMAP_ON_FREE, every fragment with an address but not one after the
    other, [MmMapIoBuffer] for a virtually contiguous mapping gives the
    ranges of the buffer back, is refused the new range and returns its
    status: the buffer is no longer flagged MAPPED or UNMAP_ON_FREE, yet
    its fragments keep the addresses given back.  A later [MmMapIoBuffer]
    for a mapping that need not be contiguous finds an address in every
    fragment: it returns STATUS_SUCCESS, flags the buffer MAPPED and maps
    nothing. *)
Theorem failed_remap_keeps_addresses (b : IO_BUFFER)
    (WriteThrough NonCached : bool) (Calls : MemoryLog) (k : Kernel)
    (First : IO_BUFFER_FRAGMENT) :
  head (FragmentsInUse b) = Some First ->
  Io.FragmentCount b < 2 ^ UINTN_BITS ->
  (Z.to_nat (Io.FragmentCount b) <= length (Io.Fragment b))%nat ->
  Z.land (Io.Flags b) IO_BUFFER_FLAG_USER_MODE = 0 ->
  flag_set (Io.Flags b) IO_BUFFER_FLAG_VIRTUALLY_CONTIGUOUS = false ->
  flag_set (Io.Flags b) IO_BUFFER_FLAG_MAPPED = true ->
  flag_set (Io.Flags b) IO_BUFFER_FLAG_UNMAP_ON_FREE = true ->
  flag_set (Io.Flags b) IO_BUFFER_FLAG_PAGE_CACHE_BACKED = false ->
  Forall WholePages (FragmentsInUse b) ->
  Forall (fun f => 0 < Frag.Size f) (FragmentsInUse b) ->
  SizeOfFragments (FragmentsInUse b) < 2 ^ UINTN_BITS ->
  Forall (fun f => Frag.VirtualAddress f <> NULL) (FragmentsInUse b) ->
  0 <= Frag.VirtualAddress First < 2 ^ UINTN_BITS ->
  ~ VirtuallyAdjacent (Frag.VirtualAddress First) (FragmentsInUse b) ->
  KSUCCESS (fst (AddressRange k)) = false ->
  exists b' k',
    MmMapIoBuffer b WriteThrough NonCached true Calls k
    = Some (mkMapped (fst (AddressRange k)) b' Calls, k') /\
    Log k' = Log k
             ++ [CallMmpFreeAccountingRanges (FragmentsInUse b) None;
                 CallMmpAllocateAddressRange
                   (SizeOfFragments (FragmentsInUse b)) MmPageSize] /\
    Io.Fragment b' = Io.Fragment b /\
    flag_set (Io.Flags b') IO_BUFFER_FLAG_MAPPED = false /\
    flag_set (Io.Flags b') IO_BUFFER_FLAG_UNMAP_ON_FREE = false /\
    forall WriteThrough' NonCached' Calls' k'',
      MmMapIoBuffer b' WriteThrough' NonCached' false Calls' k''
      = Some (mkMapped STATUS_SUCCESS
                (Io.set_Flags (Z.lor (Io.Flags b') IO_BUFFER_FLAG_MAPPED) b')
                Calls', k'').
Proof.
  intros Hhead Hmax Htable Huser Hvc Hm Hu Hcb Hall Hsizes Hfit Haddr Hptr
         Hnot Hrefused.
  destruct (FragmentsInUse b) as [|F l] eqn:Huse; [discriminate|].
  injection Hhead as ->.
  assert (Hnonneg : Forall (fun f => 0 <= Frag.Size f) (First :: l))
    by (eapply Forall_impl; [exact Hsizes | cbn; intros; lia]).
  assert (Htotal : 0 < SizeOfFragments (First :: l) < 2 ^ UINTN_BITS).
  { pose proof (Forall_inv Hsizes) as H1. cbn in H1.
    pose proof (SizeOfFragments_nonneg l (Forall_inv_tail Hnonneg)).
    cbn [SizeOfFragments] in *. lia. }
  pose proof (MmMapIoBuffer_contiguous_run b WriteThrough NonCached Calls k
                First l Huse Hmax Htable Huser Hvc ltac:(intros _; exact Hu)
                Hall Hptr Htotal
                ltac:(rewrite Hcb; discriminate)
                ltac:(intros [_ H]; exact (Hnot (H eq_refl)))
                ltac:(rewrite Hrefused; discriminate)) as Hrun.
  cbv zeta in Hrun. rewrite Hrefused, Hm, Hcb in Hrun.
  set (b' := Io.set_Flags (Z.land (Io.Flags b) (Z.lnot MappingFlags)) b) in *.
  eexists _, _. split; [exact Hrun|].
  split; [reflexivity|]. split; [reflexivity|].
  split; [apply flag_set_cleared; reflexivity|].
  split; [apply flag_set_cleared; reflexivity|].
  intros WT' NC' Calls' k''.
  assert (Huse' : FragmentsInUse b' = First :: l) by exact Huse.
  destruct (MmMapIoBuffer_mapped_run b' WT' NC' false Calls' k'' First l Huse'
              Htable Hptr) as [Hlater _].
  rewrite Hlater.
  - assert (Hclear : flag_set (Io.Flags b') IO_BUFFER_FLAG_MAPPED = false)
      by (apply flag_set_cleared; reflexivity).
    rewrite Hclear. reflexivity.
  - split; [exact Haddr | discriminate].
Qed.

(** X20.  [MmMapIoBuffer] leaves a buffer alone whose fragments are mapped
    as asked (each with an address and, for a virtually contiguous mapping,
    one after the other): it returns STATUS_SUCCESS, calls nothing, and
    changes nothing of the buffer but the flag that says so, MAPPED or
    VIRTUALLY_CONTIGUOUS, which it sets.  A buffer that carries that flag
    while its fragments are not mapped so ends the run. *)
Theorem map_mapped_untouched (b : IO_BUFFER)
    (WriteThrough NonCached VirtuallyContiguous : bool) (Calls : MemoryLog)
    (k : Kernel) (First : IO_BUFFER_FRAGMENT) :
  head (FragmentsInUse b) = Some First ->
  (Z.to_nat (Io.FragmentCount b) <= length (Io.Fragment b))%nat ->
  0 <= Frag.VirtualAddress First < 2 ^ UINTN_BITS ->
  let Flag := if VirtuallyContiguous then IO_BUFFER_FLAG_VIRTUALLY_CONTIGUOUS
              else IO_BUFFER_FLAG_MAPPED in
  (FragmentsMapped VirtuallyContiguous (Frag.VirtualAddress First)
     (FragmentsInUse b) ->
   exists b',
     MmMapIoBuffer b WriteThrough NonCached VirtuallyContiguous Calls k
     = Some (mkMapped STATUS_SUCCESS b' Calls, k) /\
     b' = Io.set_Flags (Io.Flags b') b /\
     flag_set (Io.Flags b') Flag = true /\
     (Io.Flags b' = Io.Flags b \/ Io.Flags b' = Z.lor (Io.Flags b) Flag)) /\
  (flag_set (Io.Flags b) Flag = true ->
   ~ FragmentsMapped VirtuallyContiguous (Frag.VirtualAddress First)
       (FragmentsInUse b) ->
   MmMapIoBuffer b WriteThrough NonCached VirtuallyContiguous Calls k = None).
Proof.
  intros Hhead Htable Hptr Flag.
  destruct (FragmentsInUse b) as [|F l] eqn:Huse; [discriminate|].
  injection Hhead as ->.
  destruct (MmMapIoBuffer_mapped_run b WriteThrough NonCached
              VirtuallyContiguous Calls k First l Huse Htable Hptr)
    as [Hmapped Hflagged].
  split; [|exact Hflagged].
  intros H. rewrite (Hmapped H). fold Flag.
  destruct (flag_set (Io.Flags b) Flag) eqn:Hflag.
  - exists b. split; [reflexivity|]. split; [destruct b; reflexivity|].
    split; [exact Hflag | left; reflexivity].
  - eexists. split; [reflexivity|]. split; [reflexivity|].
    split; [|right; reflexivity].
    cbn [Io.Flags Io.set_Flags]. apply flag_set_lor.
    unfold Flag. destruct VirtuallyContiguous; discriminate.
Qed.

(** ** A mapping that need not be contiguous *)

Lemma MappedAt_whole (l : list IO_BUFFER_FRAGMENT) :
  forall va, Forall WholePages l -> Forall WholePages (MappedAt va l).
Proof.
  induction l as [|f l IH]; intros va H; [constructor|].
  apply Forall_cons in H as [Hf Hl]. cbn. constructor; [exact Hf | auto].
Qed.

Lemma MappedAt_positive (l : list IO_BUFFER_FRAGMENT) :
  forall va, Forall (fun f => 0 < Frag.Size f) l ->
             Forall (fun f => 0 < Frag.Size f) (MappedAt va l).
Proof.
  induction l as [|f l IH]; intros va H; [constructor|].
  apply Forall_cons in H as [Hf Hl]. cbn. constructor; [exact Hf | auto].
Qed.

Lemma MappedAt_pages (l : list IO_BUFFER_FRAGMENT) :
  forall va, flat_map FragmentPages (MappedAt va l) = flat_map FragmentPages l.
Proof.
  induction l as [|f l IH]; intros va; [reflexivity|].
  cbn [MappedAt flat_map]. rewrite IH. reflexivity.
Qed.

(** Fragments without an address, mapped one after the other. *)
Lemma MappedAt_fragments (va : Z) (l : list IO_BUFFER_FRAGMENT) :
  0 < va -> va + SizeOfFragments l <= 2 ^ UINTN_BITS ->
  Forall (fun f => 0 < Frag.Size f) l ->
  Forall (fun f => Frag.VirtualAddress f = NULL) l ->
  Forall2 MappedFragment l (MappedAt va l).
Proof.
  intros Hva Hfit Hsizes Hnull.
  destruct (MappedAt_mapped va l Hva Hfit Hsizes) as [Hmapped _].
  apply Forall2_same_length_lookup_2; [symmetry; apply MappedAt_length|].
  intros j f f' Hf Hf'.
  pose proof (Forall_lookup_1 _ _ _ _ Hmapped Hf') as Hnn. cbn in Hnn.
  pose proof (Forall_lookup_1 _ _ _ _ Hnull Hf) as Hn. cbn in Hn.
  assert (Hrange : 0 <= va < 2 ^ UINTN_BITS).
  { pose proof (Forall_lookup_1 _ _ _ _ Hsizes Hf) as Hpos. cbn in Hpos.
    assert (Hnonneg : Forall (fun f => 0 <= Frag.Size f) l)
      by (eapply Forall_impl; [exact Hsizes | cbn; intros; lia]).
    pose proof (SizeOfFragments_take_S l j f Hf).
    pose proof (SizeOfFragments_take_all l (S j) Hnonneg).
    pose proof (SizeOfFragments_nonneg (take j l)
                  (Forall_take _ j l Hnonneg)). lia. }
  rewrite (MappedAt_lookup l va j f Hrange Hf) in Hf'. injection Hf' as <-.
  split; [reflexivity|]. split; [reflexivity|].
  split; [exact Hnn | intros H; contradiction].
Qed.

Lemma MappedFragment_refl (f : IO_BUFFER_FRAGMENT) :
  Frag.VirtualAddress f <> NULL -> MappedFragment f f.
Proof. intros H. repeat split; auto. Qed.

Lemma Unmapped_app (l1 l2 : list IO_BUFFER_FRAGMENT) :
  Unmapped (l1 ++ l2) = Unmapped l1 ++ Unmapped l2.
Proof. apply List.filter_app. Qed.

Lemma Unmapped_all (l : list IO_BUFFER_FRAGMENT) :
  Forall (fun f => Frag.VirtualAddress f = NULL) l -> Unmapped l = l.
Proof.
  induction 1 as [|f l Hf Hl IH]; [reflexivity|].
  unfold Unmapped in *. cbn [List.filter]. rewrite Hf, IH. reflexivity.
Qed.

Lemma imap_pages (g : nat -> Z) (Pages : list Z) :
  map fst (imap (fun j pa => (pa, g j)) Pages) = Pages.
Proof.
  revert g. induction Pages as [|pa Pages IH]; intros g; [reflexivity|].
  cbn [imap map fst]. f_equal. apply (IH (g ∘ S)).
Qed.

(** The pages that the mapping of fragments of whole pages maps. *)
Lemma MapPageCalls_physical (MapFlags : list MAP_FLAG) (t : nat)
    (Slots : list (option PAGE_CACHE_ENTRY)) (va : Z)
    (l : list IO_BUFFER_FRAGMENT) :
  0 <= va -> va + SizeOfFragments l <= 2 ^ UINTN_BITS ->
  Forall WholePages l ->
  map fst (omap MappedPage
             (map (pair t)
                (MapPageCalls MapFlags Slots va (flat_map FragmentPages l))))
  = flat_map FragmentPages l.
Proof.
  intros Hva Hfit Hall.
  rewrite MapPageCalls_pages;
    [apply imap_pages | exact Hva
     | rewrite (FragmentPages_flat_length l Hall); exact Hfit].
Qed.

(** The loop of [MmMapIoBuffer] on the fragments [rest], those of [Done]
    gone by and those of [Pending] met without an address since the last
    one with an address. *)
Lemma MmMapIoBuffer_loop_run (MapFlags : list MAP_FLAG)
    (After : list IO_BUFFER_FRAGMENT) :
  forall (rest : list IO_BUFFER_FRAGMENT) (b : IO_BUFFER)
         (Done Pending : list IO_BUFFER_FRAGMENT) (Start : Z)
         (Calls : MemoryLog) (k : Kernel),
  KSUCCESS (fst (AddressRange k)) = true ->
  KERNEL_VA_START <= snd (AddressRange k) ->
  Io.Fragment b = Done ++ Pending ++ rest ++ After ->
  Z.of_nat (length (Done ++ Pending ++ rest)) = Io.FragmentCount b ->
  Io.FragmentCount b < 2 ^ UINTN_BITS ->
  Forall WholePages (Done ++ Pending ++ rest) ->
  Forall (fun f => 0 < Frag.Size f) (Done ++ Pending ++ rest) ->
  snd (AddressRange k) + SizeOfFragments (Done ++ Pending ++ rest)
  <= 2 ^ UINTN_BITS ->
  Forall (fun f => Frag.VirtualAddress f = NULL) Pending ->
  (Pending <> [] -> Start = Z.of_nat (length Done)) ->
  (flag_set (Io.Flags b) IO_BUFFER_FLAG_PAGE_CACHE_BACKED = true ->
   exists E, Io.PageCacheEntries b = Some E /\
             SizeOfFragments (Done ++ Pending ++ rest)
             <= Z.of_nat (length E) * MmPageSize /\
             Z.of_nat (length E) < 2 ^ UINTN_BITS) ->
  exists (Mapped Pending' Original : list IO_BUFFER_FRAGMENT) (Start' : Z)
         (New : MemoryLog) (ranges : list Event),
    MmMapIoBuffer_loop (length rest) MapFlags
      (mkMapLoop b (Z.of_nat (length (Done ++ Pending)))
         (match Pending with [] => false | _ => true end) Start Calls) k
    = Some (inr (mkMapLoop
                   (Io.set_Fragment (Done ++ Mapped ++ Pending' ++ After) b)
                   (Io.FragmentCount b)
                   (match Pending' with [] => false | _ => true end)
                   Start' (Calls ++ New)),
            set_Log (Log k ++ ranges) k) /\
    Pending ++ rest = Original ++ Pending' /\
    Forall2 MappedFragment Original Mapped /\
    map fst (omap MappedPage New) = flat_map FragmentPages (Unmapped Original) /\
    Forall (fun f => Frag.VirtualAddress f = NULL) Pending' /\
    (Pending' <> [] -> Start' = Z.of_nat (length (Done ++ Mapped))) /\
    Forall (fun e => exists s, e = CallMmpAllocateAddressRange s MmPageSize)
      ranges.
Proof.
  pose proof MmPageSize_pos as Hpos.
  pose proof KERNEL_VA_START_range as Hkva.
  induction rest as [|f rest IH];
    intros b Done Pending Start Calls k Hok Hva Htable Hcount Hmax Hall Hsizes
           Hfit Hnull Hstart Hcache.
  - exists [], Pending, [], Start, [], [].
    cbn [length MmMapIoBuffer_loop app] in *. rewrite !app_nil_r in *.
    replace (set_Log (Log k) k) with k by (destruct k; reflexivity).
    rewrite <- Htable, <- Hcount.
    split; [unfold ret; repeat f_equal; destruct b; reflexivity|].
    split; [reflexivity|]. split; [constructor|]. split; [reflexivity|].
    split; [exact Hnull|]. split; [exact Hstart | constructor].
  - cbn [length MmMapIoBuffer_loop]. cbv zeta. cbn [ml_IoBuffer ml_FragmentIndex
      ml_MapRequired ml_MapFragmentStart ml_Calls].
    assert (Hlook : Io.Fragment b !! Z.to_nat (Z.of_nat (length (Done ++ Pending)))
                    = Some f).
    { rewrite Nat2Z.id, Htable, app_assoc. apply list_lookup_middle.
      reflexivity. }
    unfold bind at 1. unfold read. rewrite Hlook.
    assert (Hnext : UINTN (Z.of_nat (length (Done ++ Pending)) + 1)
                    = Z.of_nat (length (Done ++ Pending ++ [f]))).
    { rewrite UINTN_small; rewrite !length_app in *; cbn [length] in *; lia. }
    rewrite Hnext.
    assert (Hsplit : Forall WholePages Done /\ Forall WholePages Pending
                     /\ WholePages f /\ Forall WholePages rest).
    { apply Forall_app in Hall as [H1 H2]. apply Forall_app in H2 as [H2 H3].
      apply Forall_cons in H3 as [H3 H4]. auto. }
    destruct Hsplit as (HwD & HwP & Hwf & Hwr).
    assert (Hsplit : Forall (fun f => 0 < Frag.Size f) Done
                     /\ Forall (fun f => 0 < Frag.Size f) Pending
                     /\ 0 < Frag.Size f
                     /\ Forall (fun f => 0 < Frag.Size f) rest).
    { apply Forall_app in Hsizes as [H1 H2]. apply Forall_app in H2 as [H2 H3].
      apply Forall_cons in H3 as [H3 H4]. auto. }
    destruct Hsplit as (HsD & HsP & Hsf & Hsr).
    assert (Hnn : forall l, Forall (fun f => 0 < Frag.Size f) l ->
                            0 <= SizeOfFragments l).
    { intros l Hl. apply SizeOfFragments_nonneg.
      eapply Forall_impl; [exact Hl | cbn; intros; lia]. }
    pose proof (Hnn Done HsD) as HnD. pose proof (Hnn Pending HsP) as HnP.
    pose proof (Hnn rest Hsr) as Hnr.
    assert (Htotal : SizeOfFragments (Done ++ Pending ++ f :: rest)
                     = SizeOfFragments Done + SizeOfFragments Pending
                       + Frag.Size f + SizeOfFragments rest).
    { rewrite !SizeOfFragments_app. cbn [SizeOfFragments]. lia. }
    rewrite Htotal in Hfit.
    assert (Hlen : Z.of_nat (length Done) + Z.of_nat (length Pending) + 1
                   + Z.of_nat (length rest) = Io.FragmentCount b).
    { rewrite <- Hcount, !length_app. cbn [length]. lia. }
    destruct (Z.eqb_spec (Frag.VirtualAddress f) NULL) as [Hfnull|Hfmapped];
      cbn [negb].
    + (* one more fragment without an address *)
      set (Start1 := if negb match Pending with [] => false | _ => true end
                     then Z.of_nat (length (Done ++ Pending)) else Start).
      assert (Hstate :
        forall n,
        MmMapIoBuffer_loop n MapFlags
          (mkMapLoop
             (ml_IoBuffer
                (if negb match Pending with [] => false | _ => true end
                 then mkMapLoop b (Z.of_nat (length (Done ++ Pending))) true
                        (Z.of_nat (length (Done ++ Pending))) Calls
                 else mkMapLoop b (Z.of_nat (length (Done ++ Pending)))
                        match Pending with [] => false | _ => true end
                        Start Calls))
             (Z.of_nat (length (Done ++ Pending ++ [f])))
             (ml_MapRequired
                (if negb match Pending with [] => false | _ => true end
                 then mkMapLoop b (Z.of_nat (length (Done ++ Pending))) true
                        (Z.of_nat (length (Done ++ Pending))) Calls
                 else mkMapLoop b (Z.of_nat (length (Done ++ Pending)))
                        match Pending with [] => false | _ => true end
                        Start Calls))
             (ml_MapFragmentStart
                (if negb match Pending with [] => false | _ => true end
                 then mkMapLoop b (Z.of_nat (length (Done ++ Pending))) true
                        (Z.of_nat (length (Done ++ Pending))) Calls
                 else mkMapLoop b (Z.of_nat (length (Done ++ Pending)))
                        match Pending with [] => false | _ => true end
                        Start Calls))
             (ml_Calls
                (if negb match Pending with [] => false | _ => true end
                 then mkMapLoop b (Z.of_nat (length (Done ++ Pending))) true
                        (Z.of_nat (length (Done ++ Pending))) Calls
                 else mkMapLoop b (Z.of_nat (length (Done ++ Pending)))
                        match Pending with [] => false | _ => true end
                        Start Calls))) k
        = MmMapIoBuffer_loop n MapFlags
            (mkMapLoop b (Z.of_nat (length (Done ++ (Pending ++ [f]))))
               (match Pending ++ [f] with [] => false | _ => true end)
               Start1 Calls) k).
      { intros n. unfold Start1. destruct Pending; reflexivity. }
      rewrite Hstate. clear Hstate.
      destruct (IH b Done (Pending ++ [f]) Start1 Calls k Hok Hva)
        as (M & P' & O & S' & New & ranges & Hrun & Horig & Hmapped & Hpages
            & Hnull' & Hstart' & Hranges).
      * rewrite Htable, <- !app_assoc. reflexivity.
      * rewrite <- Hcount, <- !app_assoc. reflexivity.
      * exact Hmax.
      * rewrite <- !app_assoc. exact Hall.
      * rewrite <- !app_assoc. exact Hsizes.
      * rewrite <- !app_assoc. cbn [app]. rewrite Htotal. exact Hfit.
      * apply Forall_app. split; [exact Hnull | repeat constructor; exact Hfnull].
      * intros _. unfold Start1. destruct Pending as [|p Pending'].
        -- cbn. rewrite app_nil_r. reflexivity.
        -- apply Hstart. discriminate.
      * intros Hcb. destruct (Hcache Hcb) as (E & HE & Hslots & HlenE).
        exists E. split; [exact HE|]. split; [|exact HlenE].
        rewrite <- !app_assoc. exact Hslots.
      * exists M, P', O, S', New, ranges.
        split; [exact Hrun|]. split; [rewrite <- Horig, <- app_assoc; reflexivity|].
        auto.
    + destruct Pending as [|p Pending'] eqn:HP; cbn [negb].
      * (* a fragment with an address, none waiting *)
        destruct (IH b (Done ++ [f]) [] Start Calls k Hok Hva)
          as (M & P' & O & S' & New & ranges & Hrun & Horig & Hmapped & Hpages
              & Hnull' & Hstart' & Hranges).
        -- rewrite Htable, <- !app_assoc. reflexivity.
        -- rewrite <- Hcount, <- !app_assoc. reflexivity.
        -- exact Hmax.
        -- rewrite <- !app_assoc. exact Hall.
        -- rewrite <- !app_assoc. exact Hsizes.
        -- rewrite <- !app_assoc. cbn [app]. cbn [app] in Htotal.
           rewrite Htotal. exact Hfit.
        -- constructor.
        -- intros H. contradiction.
        -- intros Hcb. destruct (Hcache Hcb) as (E & HE & Hslots & HlenE).
           exists E. split; [exact HE|]. split; [|exact HlenE].
           rewrite <- !app_assoc. exact Hslots.
        -- exists (f :: M), P', (f :: O), S', New, ranges.
           cbn [app] in Hrun |- *. rewrite app_nil_r in Hrun.
           rewrite <- !app_assoc in Hrun. cbn [app] in Hrun.
           split; [exact Hrun|].
           split; [cbn [app] in Horig; rewrite Horig; reflexivity|].
           split; [constructor; [apply MappedFragment_refl; exact Hfmapped
                                | exact Hmapped]|].
           split.
           { unfold Unmapped in *. cbn [List.filter].
             destruct (Z.eqb_spec (Frag.VirtualAddress f) NULL);
               [contradiction | exact Hpages]. }
           split; [exact Hnull'|]. split; [|exact Hranges].
           intros Hne. rewrite (Hstart' Hne), <- !app_assoc. reflexivity.
      * (* a fragment with an address: the fragments waiting are mapped *)
        set (Pend := p :: Pending') in *.
        assert (HPne : Pend <> []) by discriminate.
        rewrite (Hstart HPne).
        assert (Hcnt : UINTN (Z.of_nat (length (Done ++ Pend))
                              - Z.of_nat (length Done))
                       = Z.of_nat (length Pend)).
        { rewrite length_app, UINTN_small; lia. }
        rewrite Hcnt.
        set (va := snd (AddressRange k)) in *.
        assert (HmD : SizeOfFragments Done mod MmPageSize = 0).
        { rewrite <- (FragmentPages_flat_length Done HwD). apply Z_mod_mult. }
        assert (HposP : 0 < SizeOfFragments Pend).
        { pose proof (Forall_inv HsP) as H1. cbn in H1.
          pose proof (Hnn Pending' (Forall_inv_tail HsP)).
          unfold Pend. cbn [SizeOfFragments]. lia. }
        pose proof (MmpMapIoBufferFragments_run b Done Pend
                      (f :: rest ++ After) MapFlags Calls k Htable HPne
                      ltac:(lia) Hmax HwP ltac:(lia) ltac:(lia) HmD) as Hmap.
        cbv zeta in Hmap. rewrite Hok in Hmap. fold va in Hmap.
        unfold bind at 1. rewrite Hmap; clear Hmap.
        2:{ intros Hcb. destruct (Hcache Hcb) as (E & HE & Hslots & HlenE).
            exists E. split; [exact HE|]. split; [|exact HlenE].
            rewrite Htotal in Hslots. lia. }
        2:{ intros _. lia. }
        cbn [m_Status m_IoBuffer m_Calls]. rewrite Hok. cbn [negb].
        set (b1 := Io.set_Fragment _ b).
        set (k1 := set_Log _ k).
        set (Calls1 := Calls ++ _).
        assert (HMsize : SizeOfFragments (MappedAt va Pend)
                         = SizeOfFragments Pend)
          by (apply SizeOfFragments_sizes, MappedAt_sizes).
        destruct (IH b1 (Done ++ MappedAt va Pend ++ [f]) []
                    (Z.of_nat (length Done)) Calls1 k1 Hok Hva)
          as (M & P' & O & S' & New & ranges & Hrun & Horig & Hmapped & Hpages
              & Hnull' & Hstart' & Hranges).
        -- unfold b1. cbn [Io.Fragment Io.set_Fragment].
           rewrite <- !app_assoc. reflexivity.
        -- unfold b1. cbn [Io.FragmentCount Io.set_Fragment].
           rewrite <- Hlen, !length_app, MappedAt_length. cbn [length]. lia.
        -- exact Hmax.
        -- rewrite <- !app_assoc. cbn [app].
           apply Forall_app. split; [exact HwD|].
           apply Forall_app. split; [apply MappedAt_whole; exact HwP|].
           constructor; assumption.
        -- rewrite <- !app_assoc. cbn [app].
           apply Forall_app. split; [exact HsD|].
           apply Forall_app. split; [apply MappedAt_positive; exact HsP|].
           constructor; assumption.
        -- rewrite <- !app_assoc. cbn [app].
           rewrite !SizeOfFragments_app, HMsize. cbn [SizeOfFragments].
           change (snd (AddressRange k1)) with va. lia.
        -- constructor.
        -- intros H. contradiction.
        -- intros Hcb. destruct (Hcache Hcb) as (E & HE & Hslots & HlenE).
           exists E. split; [exact HE|]. split; [|exact HlenE].
           rewrite <- !app_assoc. cbn [app].
           rewrite !SizeOfFragments_app, HMsize. cbn [SizeOfFragments].
           rewrite Htotal in Hslots. lia.
        -- exists (MappedAt va Pend ++ f :: M), P', (Pend ++ f :: O), S',
             (map (pair (S (length (Log k))))
                (MapPageCalls MapFlags
                   (if flag_set (Io.Flags b) IO_BUFFER_FLAG_PAGE_CACHE_BACKED
                    then drop (Z.to_nat (SizeOfFragments Done / MmPageSize))
                           (default [] (Io.PageCacheEntries b))
                    else [])
                   va (flat_map FragmentPages Pend)) ++ New),
             (CallMmpAllocateAddressRange (SizeOfFragments Pend) MmPageSize
                :: ranges).
           split.
           { replace (Z.of_nat (length (Done ++ Pend ++ [f])))
               with (Z.of_nat (length ((Done ++ MappedAt va Pend ++ [f]) ++ [])))
               by (rewrite !length_app, MappedAt_length; cbn [length]; lia).
             rewrite Hrun. unfold b1, k1, Calls1.
             cbn [Io.set_Fragment Io.Fragment Io.FragmentCount Io.Flags
                  Io.TotalSize Io.CurrentOffset Io.MaxFragmentCount
                  Io.PageCount Io.PageCacheEntries].
             rewrite set_Log_twice, <- !app_assoc. reflexivity. }
           split; [cbn [app] in Horig; rewrite <- app_assoc; cbn [app];
                   rewrite Horig; reflexivity|].
           split.
           { apply Forall2_app.
             - apply MappedAt_fragments; [lia | lia | exact HsP | exact Hnull].
             - constructor; [apply MappedFragment_refl; exact Hfmapped
                            | exact Hmapped]. }
           split.
           { rewrite omap_app, map_app, Hpages.
             rewrite MapPageCalls_physical by (try exact HwP; lia).
             rewrite !Unmapped_app, (Unmapped_all Pend Hnull), flat_map_app.
             f_equal. unfold Unmapped. cbn [List.filter].
             destruct (Z.eqb_spec (Frag.VirtualAddress f) NULL);
               [contradiction | reflexivity]. }
           split; [exact Hnull'|].
           split.
           { intros Hne. rewrite (Hstart' Hne), <- !app_assoc. reflexivity. }
           constructor; [eexists; reflexivity | exact Hranges].
Qed.

Lemma MappedFragment_whole (l l' : list IO_BUFFER_FRAGMENT) :
  Forall2 MappedFragment l l' -> Forall WholePages l -> Forall WholePages l'.
Proof.
  induction 1 as [|f f' l l' Hf Hl IH]; intros H; [constructor|].
  apply Forall_cons in H as [Hw Hall]. constructor; [|auto].
  destruct Hf as (Hpa & Hsize & _). unfold WholePages in *.
  rewrite Hpa, Hsize. exact Hw.
Qed.

Lemma MappedFragment_sizes (l l' : list IO_BUFFER_FRAGMENT) :
  Forall2 MappedFragment l l' -> SizeOfFragments l' = SizeOfFragments l.
Proof.
  induction 1 as [|f f' l l' Hf Hl IH]; [reflexivity|].
  destruct Hf as (_ & Hsize & _). cbn. rewrite Hsize, IH. reflexivity.
Qed.

(** X21.  A buffer of whole pages that is not flagged MAPPED and has a
    fragment without an address (not a user mode buffer) is mapped by
    [MmMapIoBuffer], asked for a mapping that need not be contiguous, when
    the address space answers ranges within the address space: the call
    returns STATUS_SUCCESS, every fragment in use has an address
    afterwards, the fragments that had one keep it, and all keep their
    physical address and size; MAPPED and UNMAP_ON_FREE are set and nothing
    else of the buffer changes.  The pages mapped are those of the
    fragments that had no address, in order, and the kernel is asked for
    address ranges and nothing else. *)
Theorem map_fragments (b : IO_BUFFER) (WriteThrough NonCached : bool)
    (Calls : MemoryLog) (k : Kernel) (First : IO_BUFFER_FRAGMENT) :
  head (FragmentsInUse b) = Some First ->
  Io.FragmentCount b < 2 ^ UINTN_BITS ->
  (Z.to_nat (Io.FragmentCount b) <= length (Io.Fragment b))%nat ->
  Z.land (Io.Flags b) IO_BUFFER_FLAG_USER_MODE = 0 ->
  flag_set (Io.Flags b) IO_BUFFER_FLAG_MAPPED = false ->
  Forall WholePages (FragmentsInUse b) ->
  Forall (fun f => 0 < Frag.Size f) (FragmentsInUse b) ->
  0 <= Frag.VirtualAddress First < 2 ^ UINTN_BITS ->
  Exists (fun f => Frag.VirtualAddress f = NULL) (FragmentsInUse b) ->
  (flag_set (Io.Flags b) IO_BUFFER_FLAG_PAGE_CACHE_BACKED = true ->
   exists E, Io.PageCacheEntries b = Some E /\
             SizeOfFragments (FragmentsInUse b)
             <= Z.of_nat (length E) * MmPageSize /\
             Z.of_nat (length E) < 2 ^ UINTN_BITS) ->
  KSUCCESS (fst (AddressRange k)) = true ->
  KERNEL_VA_START <= snd (AddressRange k) ->
  snd (AddressRange k) + SizeOfFragments (FragmentsInUse b)
  <= 2 ^ UINTN_BITS ->
  exists b' New k' ranges,
    MmMapIoBuffer b WriteThrough NonCached false Calls k
    = Some (mkMapped STATUS_SUCCESS b' (Calls ++ New), k') /\
    Forall2 MappedFragment (FragmentsInUse b) (FragmentsInUse b') /\
    b' = Io.set_Flags
           (Z.lor (Io.Flags b)
              (Z.lor IO_BUFFER_FLAG_UNMAP_ON_FREE IO_BUFFER_FLAG_MAPPED))
           (Io.set_Fragment (Io.Fragment b') b) /\
    drop (Z.to_nat (Io.FragmentCount b)) (Io.Fragment b')
    = drop (Z.to_nat (Io.FragmentCount b)) (Io.Fragment b) /\
    map fst (omap MappedPage New)
    = flat_map FragmentPages (Unmapped (FragmentsInUse b)) /\
    k' = set_Log (Log k ++ ranges) k /\
    Forall (fun e => exists s, e = CallMmpAllocateAddressRange s MmPageSize)
      ranges.
Proof.
  intros Hhead Hmax Htable Huser Hm Hall Hsizes Hptr Hsome Hcache Hok Hkva
         Hfit.
  pose proof KERNEL_VA_START_range as Hstart.
  pose proof MmPageSize_pos as Hpos.
  pose proof (FragmentsInUse_length b Htable) as Hlen.
  destruct (FragmentsInUse b) as [|F l] eqn:Huse; [discriminate|].
  injection Hhead as ->.
  assert (HlenZ : Z.of_nat (length (First :: l)) = Io.FragmentCount b)
    by (cbn [length] in *; lia).
  set (L := First :: l) in *.
  destruct (MmpIsIoBufferMapped_fragments b false k First l Huse Htable Hptr)
    as (r & Hmapped & Hr).
  assert (r = false) as ->.
  { destruct r; [|reflexivity]. destruct Hr as [Hr _].
    destruct (Hr eq_refl) as [Hnn _]. apply Exists_exists in Hsome.
    destruct Hsome as (f & Hin & Hnull). rewrite Forall_forall in Hnn.
    exfalso. exact (Hnn f Hin Hnull). }
  clear Hr.
  assert (HT : Io.Fragment b
               = [] ++ [] ++ L ++ drop (Z.to_nat (Io.FragmentCount b))
                                  (Io.Fragment b)).
  { cbn [app]. rewrite <- Huse. unfold FragmentsInUse.
    rewrite take_drop. reflexivity. }
  destruct (MmMapIoBuffer_loop_run (MapFlagsOf WriteThrough NonCached)
              (drop (Z.to_nat (Io.FragmentCount b)) (Io.Fragment b))
              L b [] [] 0 Calls k Hok Hkva HT)
    as (M & P' & O & S' & New & ranges & Hrun & Horig & HMapped & Hpages
        & Hnull' & Hstart' & Hranges);
    [exact HlenZ | exact Hmax | exact Hall | exact Hsizes | exact Hfit
     | constructor | intros H; contradiction | exact Hcache |].
  cbn [app length] in Hrun, Horig, Hstart'.
  change (Z.of_nat 0) with 0 in Hrun.
  unfold MmMapIoBuffer. cbv zeta. rewrite MapFlagsOf_code.
  destruct (Z.leb_spec 1 (Io.FragmentCount b)) as [_|Hlt];
    [|unfold L in HlenZ; cbn [length] in HlenZ; lia].
  unfold bind at 1. unfold ASSERT at 1.
  rewrite Hm. unfold bind at 1. unfold bind at 1. rewrite Hmapped.
  unfold ret at 1. rewrite Huser.
  unfold bind at 1. unfold ASSERT at 1. cbn [Z.eqb].
  unfold bind at 1. unfold bind at 1.
  rewrite Hlen in Hrun. rewrite Hrun. clear Hrun.
  set (After := drop (Z.to_nat (Io.FragmentCount b)) (Io.Fragment b)) in *.
  assert (HallO : Forall WholePages O /\ Forall WholePages P').
  { rewrite Horig in Hall. apply Forall_app in Hall. exact Hall. }
  destruct HallO as [HwO HwP].
  assert (HsOP : Forall (fun f => 0 < Frag.Size f) O
                 /\ Forall (fun f => 0 < Frag.Size f) P').
  { rewrite Horig in Hsizes. apply Forall_app in Hsizes. exact Hsizes. }
  destruct HsOP as [HsO HsP].
  assert (Hnn : forall l0, Forall (fun f => 0 < Frag.Size f) l0 ->
                           0 <= SizeOfFragments l0).
  { intros l0 Hl. apply SizeOfFragments_nonneg.
    eapply Forall_impl; [exact Hl | cbn; intros; lia]. }
  pose proof (Hnn O HsO) as HnO. pose proof (Hnn P' HsP) as HnP.
  pose proof (MappedFragment_sizes O M HMapped) as HsizeM.
  pose proof (Forall2_length _ _ _ HMapped) as HlenM.
  assert (Htot : SizeOfFragments L = SizeOfFragments O + SizeOfFragments P')
    by (rewrite Horig; apply SizeOfFragments_app).
  assert (HlenL : length L = (length O + length P')%nat)
    by (rewrite Horig; apply length_app).
  set (va := snd (AddressRange k)) in *.
  cbn [ml_MapRequired ml_IoBuffer ml_FragmentIndex ml_MapFragmentStart
       ml_Calls].
  destruct P' as [|p P''] eqn:HP.
  - (* nothing is left to map *)
    unfold ret at 1. cbn [app] in *. rewrite app_nil_r in Horig. subst O.
    exists (Io.set_Flags
              (Z.lor (Io.Flags b)
                 (Z.lor IO_BUFFER_FLAG_UNMAP_ON_FREE IO_BUFFER_FLAG_MAPPED))
              (Io.set_Fragment (M ++ After) b)), New,
      (set_Log (Log k ++ ranges) k), ranges.
    split; [reflexivity|].
    assert (Huse' : take (Z.to_nat (Io.FragmentCount b)) (M ++ After) = M).
    { rewrite take_app_length'; [reflexivity | lia]. }
    split; [unfold FragmentsInUse;
            cbn [Io.Fragment Io.FragmentCount Io.set_Flags Io.set_Fragment];
            rewrite Huse'; exact HMapped|].
    split; [reflexivity|].
    split; [cbn [Io.Fragment Io.FragmentCount Io.set_Flags Io.set_Fragment];
            rewrite drop_app_length' by lia; reflexivity|].
    split; [exact Hpages|]. split; [reflexivity | exact Hranges].
  - (* the last fragments are mapped *)
    set (Pend := p :: P'') in *.
    assert (HPne : Pend <> []) by discriminate.
    rewrite (Hstart' HPne).
    set (b2 := Io.set_Fragment (M ++ Pend ++ After) b).
    set (k2 := set_Log (Log k ++ ranges) k).
    assert (Hcnt : UINTN (Io.FragmentCount b - Z.of_nat (length M))
                   = Z.of_nat (length Pend)).
    { rewrite UINTN_small; lia. }
    rewrite Hcnt.
    assert (HwM : Forall WholePages M)
      by (exact (MappedFragment_whole O M HMapped HwO)).
    assert (HmM : SizeOfFragments M mod MmPageSize = 0).
    { rewrite <- (FragmentPages_flat_length M HwM). apply Z_mod_mult. }
    assert (HposP : 0 < SizeOfFragments Pend).
    { pose proof (Forall_inv HsP) as H1. cbn in H1.
      pose proof (Hnn P'' (Forall_inv_tail HsP)).
      unfold Pend. cbn [SizeOfFragments]. lia. }
    assert (Hc2 : Z.of_nat (length M) + Z.of_nat (length Pend)
                  <= Io.FragmentCount b2)
      by (unfold b2; cbn [Io.FragmentCount Io.set_Fragment]; lia).
    assert (HbP : 0 < SizeOfFragments Pend < 2 ^ UINTN_BITS) by lia.
    assert (HbM : 0 <= SizeOfFragments M < 2 ^ UINTN_BITS) by lia.
    pose proof (MmpMapIoBufferFragments_run b2 M Pend After
                  (MapFlagsOf WriteThrough NonCached) (Calls ++ New) k2
                  eq_refl HPne Hc2 Hmax HwP HbP HbM HmM) as Hmap.
    cbv zeta in Hmap.
    change (AddressRange k2) with (AddressRange k) in Hmap.
    rewrite Hok in Hmap. fold va in Hmap.
    unfold bind at 1. rewrite Hmap; clear Hmap.
    2:{ intros Hcb. destruct (Hcache Hcb) as (E & HE & Hslots & HlenE).
        exists E. split; [exact HE|]. split; [|exact HlenE]. lia. }
    2:{ intros _. lia. }
    cbn [m_Status m_IoBuffer m_Calls]. rewrite Hok. cbn [negb].
    unfold ret.
    eexists _, _, _, (ranges ++ [_]).
    split.
    { unfold k2. rewrite set_Log_twice, <- app_assoc. reflexivity. }
    assert (Huse' : take (Z.to_nat (Io.FragmentCount b))
                      (M ++ MappedAt va Pend ++ After)
                    = M ++ MappedAt va Pend).
    { rewrite app_assoc. rewrite take_app_length'; [reflexivity|].
      rewrite length_app, MappedAt_length. lia. }
    split.
    { unfold FragmentsInUse.
      cbn [Io.Fragment Io.FragmentCount Io.set_Flags Io.set_Fragment b2].
      rewrite Huse', Horig. apply Forall2_app; [exact HMapped|].
      apply MappedAt_fragments; [lia | lia | exact HsP | exact Hnull']. }
    split; [reflexivity|].
    split.
    { cbn [Io.Fragment Io.FragmentCount Io.set_Flags Io.set_Fragment b2].
      rewrite app_assoc, drop_app_length';
        [|rewrite length_app, MappedAt_length; lia].
      reflexivity. }
    split.
    { rewrite omap_app, map_app, Hpages, Horig, Unmapped_app, flat_map_app.
      rewrite (Unmapped_all Pend Hnull').
      rewrite MapPageCalls_physical by (try exact HwP; lia). reflexivity. }
    split; [reflexivity|].
    apply Forall_app. split; [exact Hranges|].
    constructor; [eexists; reflexivity | constructor].
Qed.

(** ** Zeroing and copying *)

Lemma BytesOf_length (a n : Z) : length (BytesOf a n) = Z.to_nat n.
Proof. unfold BytesOf. rewrite length_map, length_seq. reflexivity. Qed.

Lemma map_seq_from (m : nat) :
  forall (a : Z) (k : nat),
    map (fun i => a + Z.of_nat i) (seq k m)
    = map (fun i => a + Z.of_nat k + Z.of_nat i) (seq 0 m).
Proof.
  induction m as [|m IH]; intros a k; [reflexivity|].
  cbn [seq map]. f_equal; [lia|].
  rewrite (IH a (S k)), (IH (a + Z.of_nat k) 1%nat).
  apply map_ext. intros i. lia.
Qed.

Lemma BytesOf_drop (a n s : Z) :
  0 <= s <= n -> drop (Z.to_nat s) (BytesOf a n) = BytesOf (a + s) (n - s).
Proof.
  intros Hs. unfold BytesOf.
  rewrite skipn_map, skipn_seq, map_seq_from.
  replace (Z.to_nat n - Z.to_nat s)%nat with (Z.to_nat (n - s)) by lia.
  apply map_ext. intros i. lia.
Qed.

Lemma BytesOf_take (a n c : Z) :
  0 <= c -> 0 <= n ->
  take (Z.to_nat c) (BytesOf a n) = BytesOf a (Z.min c n).
Proof.
  intros Hc Hn. unfold BytesOf.
  rewrite firstn_map, take_seq.
  replace (Init.Nat.min (Z.to_nat c) (Z.to_nat n)) with (Z.to_nat (Z.min c n))
    by lia.
  reflexivity.
Qed.

Lemma BytesOf_none (a n : Z) : n <= 0 -> BytesOf a n = [].
Proof.
  intros Hn. unfold BytesOf. replace (Z.to_nat n) with 0%nat by lia.
  reflexivity.
Qed.

(** The bytes [s], ..., [s + c - 1] of a buffer whose first fragment holds
    byte [s]: the first of them are in that fragment, the others follow in
    the fragments after it. *)
Lemma BufferRange_here (f : IO_BUFFER_FRAGMENT) (l : list IO_BUFFER_FRAGMENT)
    (s c : Z) :
  0 <= s <= Frag.Size f -> 0 <= c ->
  BufferRange (f :: l) s c
  = BytesOf (Frag.VirtualAddress f + s) (Z.min c (Frag.Size f - s))
    ++ BufferRange l 0 (c - Z.min c (Frag.Size f - s)).
Proof.
  intros Hs Hc. unfold BufferRange, BufferBytes. cbn [flat_map].
  rewrite drop_app_le by (rewrite BytesOf_length; lia).
  rewrite BytesOf_drop by lia.
  rewrite take_app, BytesOf_take, BytesOf_length by lia.
  f_equal. change (Z.to_nat 0) with 0%nat. rewrite drop_0.
  f_equal. lia.
Qed.

(** A fragment that ends at or before byte [s] holds none of them. *)
Lemma BufferRange_skip (f : IO_BUFFER_FRAGMENT) (l : list IO_BUFFER_FRAGMENT)
    (s c : Z) :
  0 <= Frag.Size f <= s ->
  BufferRange (f :: l) s c = BufferRange l (s - Frag.Size f) c.
Proof.
  intros Hs. unfold BufferRange, BufferBytes. cbn [flat_map].
  rewrite drop_app_ge by (rewrite BytesOf_length; lia).
  rewrite BytesOf_length. do 2 f_equal. lia.
Qed.

Lemma BufferRange_none (l : list IO_BUFFER_FRAGMENT) (s : Z) :
  BufferRange l s 0 = [].
Proof. reflexivity. Qed.

Lemma ZeroedBytes_app (l1 l2 : MemoryLog) :
  ZeroedBytes (l1 ++ l2) = ZeroedBytes l1 ++ ZeroedBytes l2.
Proof. unfold ZeroedBytes. apply flat_map_app. Qed.

Lemma CopiedBytes_app (l1 l2 : MemoryLog) :
  CopiedBytes (l1 ++ l2) = CopiedBytes l1 ++ CopiedBytes l2.
Proof. unfold CopiedBytes. apply flat_map_app. Qed.

(** The loop of [MmZeroIoBuffer] on the fragments [Rest] it has not looked
    at, [cur] bytes into the buffer: it zeroes the bytes asked for that are
    left, as they lie in [Rest]. *)
Lemma MmZeroIoBuffer_loop_run (b : IO_BUFFER) (Offset : Z) (k : Kernel)
    (Rest : list IO_BUFFER_FRAGMENT) :
  forall (n Done : nat) (ByteCount cur : Z) (Calls : MemoryLog),
    (forall j f, Rest !! j = Some f ->
                 Io.Fragment b !! (Done + j)%nat = Some f) ->
    Io.FragmentCount b = Z.of_nat (Done + length Rest) ->
    Io.FragmentCount b < 2 ^ UINTN_BITS ->
    Forall InMemory Rest ->
    0 <= Offset -> 0 <= cur ->
    cur + SizeOfFragments Rest < 2 ^ UINTN_BITS ->
    0 <= ByteCount ->
    Z.max 0 (Offset - cur) + ByteCount <= SizeOfFragments Rest ->
    (length Rest <= n)%nat ->
    exists New,
      MmZeroIoBuffer_loop n b Offset ByteCount (Z.of_nat Done) cur Calls k
      = Some ((STATUS_SUCCESS, Calls ++ New), k) /\
      ZeroedBytes New = BufferRange Rest (Z.max 0 (Offset - cur)) ByteCount /\
      Forall (fun c => exists a s,
                c = (length (Log k), CallRtlZeroMemory a s)) New.
Proof.
  induction Rest as [|f Rest IH];
    intros n Done ByteCount cur Calls Hseg Hcount Hsmall Hmem Hoff Hcur Hsum
      Hbytes Hfit Hfuel.
  - cbn [SizeOfFragments] in Hfit. assert (ByteCount = 0) as -> by lia.
    exists []. rewrite app_nil_r.
    split; [destruct n; reflexivity|]. split; [reflexivity | constructor].
  - destruct (Z.eq_dec ByteCount 0) as [->|Hsome].
    { exists []. rewrite app_nil_r.
      split; [destruct n; reflexivity|]. split; [reflexivity | constructor]. }
    destruct n as [|n]; [cbn [length] in Hfuel; lia|].
    cbn [length] in Hfuel, Hcount. cbn [SizeOfFragments] in Hsum, Hfit.
    apply Forall_cons in Hmem as [(Hva & Hsize & Hend) Hmem].
    unfold NULL in Hva.
    pose proof (SizeOfFragments_nonneg Rest
                  (Forall_impl _ _ _ Hmem (fun g Hg => proj1 (proj2 Hg))))
      as Hrest.
    cbn [MmZeroIoBuffer_loop].
    destruct (Z.eqb_spec ByteCount 0) as [?|_]; [lia|].
    destruct (Z.leb_spec (Io.FragmentCount b) (Z.of_nat Done)) as [?|_];
      [lia|].
    unfold bind at 1. unfold read at 1.
    rewrite Nat2Z.id.
    pose proof (Hseg 0%nat f eq_refl) as H0.
    rewrite Nat.add_0_r in H0. rewrite H0.
    rewrite (UINTN_small (Z.of_nat Done + 1)) by lia.
    rewrite (UINTN_small (cur + Frag.Size f)) by lia.
    replace (Z.of_nat Done + 1) with (Z.of_nat (S Done)) by lia.
    assert (Hseg' : forall j g, Rest !! j = Some g ->
                                Io.Fragment b !! (S Done + j)%nat = Some g).
    { intros j g Hj. replace (S Done + j)%nat with (Done + S j)%nat by lia.
      apply Hseg. exact Hj. }
    assert (Hcount' : Io.FragmentCount b = Z.of_nat (S Done + length Rest))
      by lia.
    destruct (Z.leb_spec (cur + Frag.Size f) Offset) as [Hskip|Hhere].
    + destruct (IH n (S Done) ByteCount (cur + Frag.Size f) Calls Hseg'
                  Hcount' Hsmall Hmem Hoff ltac:(lia) ltac:(lia) Hbytes
                  ltac:(lia) ltac:(lia)) as (New & Hrun & Hzero & Hcalls).
      exists New. split; [exact Hrun|]. split; [|exact Hcalls].
      rewrite Hzero, (BufferRange_skip f Rest) by lia.
      f_equal. lia.
    + remember (Z.max 0 (Offset - cur)) as s eqn:Hsdef.
      remember (Z.min ByteCount (Frag.Size f - s)) as c eqn:Hcdef.
      assert (Hs : 0 <= s <= Frag.Size f) by lia.
      assert (Hzsize : forall x, x = Frag.Size f - s ->
                (if ByteCount <? x then ByteCount else x) = c).
      { intros x ->. destruct (Z.ltb_spec ByteCount (Frag.Size f - s)); lia. }
      cbv zeta.
      assert (Hoffset : (if cur <? Offset then UINTN (Offset - cur) else 0)
                        = s).
      { destruct (Z.ltb_spec cur Offset);
          [rewrite UINTN_small by lia|]; lia. }
      rewrite Hoffset.
      rewrite (Hzsize (if cur <? Offset then UINTN (Frag.Size f - s)
                       else Frag.Size f))
        by (destruct (Z.ltb_spec cur Offset);
            [rewrite UINTN_small by lia|]; lia).
      rewrite (UINTN_small (Frag.VirtualAddress f + s)) by lia.
      rewrite (UINTN_small (ByteCount - c)) by lia.
      unfold bind at 1. unfold memcall at 1.
      destruct (IH n (S Done) (ByteCount - c) (cur + Frag.Size f)
                  (Calls ++ [(length (Log k),
                              CallRtlZeroMemory (Frag.VirtualAddress f + s) c)])
                  Hseg' Hcount' Hsmall Hmem Hoff ltac:(lia) ltac:(lia)
                  ltac:(lia) ltac:(lia) ltac:(lia))
        as (New & Hrun & Hzero & Hcalls).
      exists ((length (Log k), CallRtlZeroMemory (Frag.VirtualAddress f + s) c)
              :: New).
      split; [rewrite Hrun, <- app_assoc; reflexivity|].
      split; [|constructor; [eauto | exact Hcalls]].
      rewrite (BufferRange_here f Rest s ByteCount Hs Hbytes).
      rewrite <- Hcdef. unfold ZeroedBytes at 1. cbn [flat_map snd].
      fold (ZeroedBytes New). rewrite Hzero. do 2 f_equal. lia.
Qed.

Lemma FoundMapped_fragments (b : IO_BUFFER) :
  Io.Fragment (FoundMapped b) = Io.Fragment b /\
  Io.FragmentCount (FoundMapped b) = Io.FragmentCount b /\
  flag_set (Io.Flags (FoundMapped b)) IO_BUFFER_FLAG_USER_MODE
  = flag_set (Io.Flags b) IO_BUFFER_FLAG_USER_MODE.
Proof.
  unfold FoundMapped.
  destruct (flag_set (Io.Flags b) IO_BUFFER_FLAG_MAPPED) eqn:H;
    [repeat split|].
  destruct b. cbn. repeat split.
  unfold flag_set. rewrite Z.land_lor_distr_l.
  change (Z.land IO_BUFFER_FLAG_MAPPED IO_BUFFER_FLAG_USER_MODE) with 0.
  rewrite Z.lor_0_r. reflexivity.
Qed.

Lemma InMemory_mapped (First : IO_BUFFER_FRAGMENT)
    (l : list IO_BUFFER_FRAGMENT) :
  Forall InMemory (First :: l) ->
  FragmentsMapped false (Frag.VirtualAddress First) (First :: l) /\
  0 <= Frag.VirtualAddress First < 2 ^ UINTN_BITS /\
  Forall (fun f => 0 <= Frag.Size f) (First :: l).
Proof.
  intros H. split; [split; [|discriminate]|split].
  - eapply Forall_impl; [exact H|]. intros f (Hf & _). unfold NULL in *. lia.
  - apply Forall_inv in H. destruct H as (H & _). unfold NULL in H. lia.
  - eapply Forall_impl; [exact H|]. intros f (_ & Hf & _). exact Hf.
Qed.

(** X22.  On a kernel buffer whose fragments are all in memory and hold its
    total size, zeroing [ByteCount] bytes from [Offset] past the cursor,
    within the buffer, succeeds and leaves the kernel as it was; the calls
    it makes are calls of [RtlZeroMemory], and the bytes they zero are the
    bytes [Offset + CurrentOffset], ... of the buffer, each once and in
    order.  The buffer comes back marked as mapped. *)
Theorem zero_bytes (b : IO_BUFFER) (Offset ByteCount : Z) (Calls : MemoryLog)
    (k : Kernel) (First : IO_BUFFER_FRAGMENT) (l : list IO_BUFFER_FRAGMENT) :
  FragmentsInUse b = First :: l ->
  (Z.to_nat (Io.FragmentCount b) <= length (Io.Fragment b))%nat ->
  Io.FragmentCount b < 2 ^ UINTN_BITS ->
  flag_set (Io.Flags b) IO_BUFFER_FLAG_USER_MODE = false ->
  Forall InMemory (First :: l) ->
  Io.TotalSize b = SizeOfFragments (First :: l) ->
  Io.TotalSize b < 2 ^ UINTN_BITS ->
  0 <= Offset -> 0 <= Io.CurrentOffset b -> 0 <= ByteCount ->
  Offset + Io.CurrentOffset b + ByteCount <= Io.TotalSize b ->
  exists New,
    MmZeroIoBuffer b Offset ByteCount Calls k
    = Some (mkTouched STATUS_SUCCESS (FoundMapped b) (Calls ++ New), k) /\
    ZeroedBytes New
    = BufferRange (First :: l) (Offset + Io.CurrentOffset b) ByteCount /\
    Forall (fun c => exists Buffer Bytes,
              c = (length (Log k), CallRtlZeroMemory Buffer Bytes)) New.
Proof.
  intros Huse Htable Hsmall Hkernel Hmem Htotal Hmax Hoff Hcur Hbytes Hfit.
  destruct (InMemory_mapped First l Hmem) as (Hmapped & Hptr & Hsizes).
  pose proof (FragmentsInUse_length b Htable) as Hlen.
  rewrite Huse in Hlen.
  destruct (FoundMapped_fragments b) as (Hfr & Hfc & _).
  destruct (MmZeroIoBuffer_loop_run (FoundMapped b)
              (Offset + Io.CurrentOffset b) k (First :: l)
              (S (Z.to_nat (Io.FragmentCount b))) 0 ByteCount 0 Calls)
    as (New & Hrun & Hzero & Hcalls);
    try lia; try assumption.
  { intros j f Hj. rewrite Hfr. apply FragmentsInUse_lookup.
    rewrite Huse. exact Hj. }
  { rewrite Hfc. cbn [length] in *. lia. }
  exists New. split; [|split; [|exact Hcalls]].
  - unfold MmZeroIoBuffer. cbv zeta.
    rewrite (UINTN_small (Offset + Io.CurrentOffset b)) by lia.
    rewrite (UINTN_small (Offset + Io.CurrentOffset b + ByteCount)) by lia.
    unfold flag_set in Hkernel.
    destruct (Z.land (Io.Flags b) IO_BUFFER_FLAG_USER_MODE =? 0);
      [|discriminate Hkernel].
    unfold bind at 1. unfold ASSERT at 1.
    destruct (Z.leb_spec (Offset + Io.CurrentOffset b + ByteCount)
                (Io.TotalSize b)) as [_|?]; [|lia].
    rewrite orb_true_r.
    unfold bind at 1. unfold ASSERT at 1.
    destruct (Z.ltb_spec (Io.TotalSize b)
                (Offset + Io.CurrentOffset b + ByteCount)) as [?|_]; [lia|].
    rewrite andb_false_r.
    unfold bind at 1. unfold ret at 1. cbn [fst snd KSUCCESS negb].
    unfold bind at 1.
    rewrite (proj1 (MmMapIoBuffer_mapped_run b false false false Calls k
                      First l Huse Htable Hptr) Hmapped).
    fold (FoundMapped b). cbn [m_Status m_IoBuffer m_Calls KSUCCESS negb].
    rewrite Hfc. unfold bind at 1. change (Z.of_nat 0) with 0 in Hrun.
    rewrite Hrun. reflexivity.
  - rewrite Hzero. f_equal. lia.
Qed.

Lemma BytesOf_split (a n c : Z) :
  0 <= c <= n -> BytesOf a n = BytesOf a c ++ BytesOf (a + c) (n - c).
Proof.
  intros Hc. rewrite <- (take_drop (Z.to_nat c) (BytesOf a n)).
  rewrite BytesOf_take, BytesOf_drop by lia. f_equal. f_equal. lia.
Qed.

Lemma BufferRange_length (l : list IO_BUFFER_FRAGMENT) (s c : Z) :
  Forall (fun f => 0 <= Frag.Size f) l ->
  0 <= s -> 0 <= c -> s + c <= SizeOfFragments l ->
  length (BufferRange l s c) = Z.to_nat c.
Proof.
  intros Hl Hs Hc Hfit. unfold BufferRange.
  rewrite length_take, length_drop.
  assert (length (BufferBytes l) = Z.to_nat (SizeOfFragments l)) as ->; [|lia].
  clear Hfit. induction Hl as [|f l Hf Hl IH]; [reflexivity|].
  unfold BufferBytes in *. cbn [flat_map SizeOfFragments].
  rewrite length_app, BytesOf_length, IH.
  pose proof (SizeOfFragments_nonneg l Hl). lia.
Qed.

(** The pairs of a copy whose first byte is in the first fragment: the
    first of them are in that fragment, the others follow. *)
Lemma CopyPairs_here (f : IO_BUFFER_FRAGMENT) (l : list IO_BUFFER_FRAGMENT)
    (To : bool) (Buffer s c : Z) :
  0 <= s <= Frag.Size f -> 0 <= c ->
  let n := Z.min c (Frag.Size f - s) in
  CopyPairs (f :: l) To Buffer s c
  = (if To then zip (BytesOf (Frag.VirtualAddress f + s) n) (BytesOf Buffer n)
     else zip (BytesOf Buffer n) (BytesOf (Frag.VirtualAddress f + s) n))
    ++ CopyPairs l To (Buffer + n) 0 (c - n).
Proof.
  intros Hs Hc n. unfold CopyPairs.
  rewrite (BufferRange_here f l s c Hs Hc). fold n.
  rewrite (BytesOf_split Buffer c n) by lia.
  destruct To; rewrite zip_with_app by (rewrite !BytesOf_length; reflexivity);
    reflexivity.
Qed.

Lemma CopyPairs_skip (f : IO_BUFFER_FRAGMENT) (l : list IO_BUFFER_FRAGMENT)
    (To : bool) (Buffer s c : Z) :
  0 <= Frag.Size f <= s ->
  CopyPairs (f :: l) To Buffer s c = CopyPairs l To Buffer (s - Frag.Size f) c.
Proof.
  intros Hs. unfold CopyPairs. rewrite (BufferRange_skip f l s c Hs).
  reflexivity.
Qed.

(** One copy of the loop of [MmCopyIoBufferData]. *)
Lemma copy_call_run (b : IO_BUFFER) (To : bool) (Status : KSTATUS)
    (Address Buffer CopySize : Z) (Calls : MemoryLog) (k : Kernel) :
  (if To then
     if flag_set (Io.Flags b) IO_BUFFER_FLAG_USER_MODE
     then MmCopyToUserMode Address Buffer CopySize Calls
     else
       Calls <- memcall (CallRtlCopyMemory Address Buffer CopySize) Calls ;;
       ret (Status, Calls)
   else
     if flag_set (Io.Flags b) IO_BUFFER_FLAG_USER_MODE
     then MmCopyFromUserModeBytes Buffer Address CopySize Calls
     else
       Calls <- memcall (CallRtlCopyMemory Buffer Address CopySize) Calls ;;
       ret (Status, Calls)) k
  = Some ((if flag_set (Io.Flags b) IO_BUFFER_FLAG_USER_MODE then UserCopy k
           else Status,
           Calls ++ [(length (Log k),
                      if To then CopyCall b To Address Buffer CopySize
                      else CopyCall b To Buffer Address CopySize)]), k).
Proof.
  unfold CopyCall.
  destruct To; destruct (flag_set (Io.Flags b) IO_BUFFER_FLAG_USER_MODE);
    reflexivity.
Qed.

(** The loop of [MmCopyIoBufferData] on the fragments [Rest] it has not
    looked at, [cur] bytes into the buffer, when the copies succeed: it
    copies the bytes asked for that are left, as they lie in [Rest]. *)
Lemma MmCopyIoBufferData_loop_run (b : IO_BUFFER) (To : bool) (Offset : Z)
    (k : Kernel) (Rest : list IO_BUFFER_FRAGMENT) :
  (flag_set (Io.Flags b) IO_BUFFER_FLAG_USER_MODE = true ->
   UserCopy k = STATUS_SUCCESS) ->
  forall (n Done : nat) (Buffer Size cur : Z) (Calls : MemoryLog),
    (forall j f, Rest !! j = Some f ->
                 Io.Fragment b !! (Done + j)%nat = Some f) ->
    Io.FragmentCount b = Z.of_nat (Done + length Rest) ->
    Io.FragmentCount b < 2 ^ UINTN_BITS ->
    Forall InMemory Rest ->
    0 <= Offset -> 0 <= cur ->
    cur + SizeOfFragments Rest < 2 ^ UINTN_BITS ->
    0 <= Size -> 0 <= Buffer -> Buffer + Size < 2 ^ UINTN_BITS ->
    Z.max 0 (Offset - cur) + Size <= SizeOfFragments Rest ->
    (length Rest <= n)%nat ->
    exists New,
      MmCopyIoBufferData_loop n b To STATUS_SUCCESS Buffer Offset Size
        (Z.of_nat Done) cur Calls k
      = Some ((STATUS_SUCCESS, Calls ++ New), k) /\
      CopiedBytes New
      = CopyPairs Rest To Buffer (Z.max 0 (Offset - cur)) Size /\
      Forall (fun c => exists d s n,
                c = (length (Log k), CopyCall b To d s n)) New.
Proof.
  intros Huser.
  induction Rest as [|f Rest IH];
    intros n Done Buffer Size cur Calls Hseg Hcount Hsmall Hmem Hoff Hcur Hsum
      Hbytes Hbuf Hbufend Hfit Hfuel.
  - cbn [SizeOfFragments] in Hfit. assert (Size = 0) as -> by lia.
    exists []. rewrite app_nil_r.
    split; [destruct n; reflexivity|].
    split; [destruct To; reflexivity | constructor].
  - destruct (Z.eq_dec Size 0) as [->|Hsome].
    { exists []. rewrite app_nil_r.
      split; [destruct n; reflexivity|].
      split; [destruct To; reflexivity | constructor]. }
    destruct n as [|n]; [cbn [length] in Hfuel; lia|].
    cbn [length] in Hfuel, Hcount. cbn [SizeOfFragments] in Hsum, Hfit.
    apply Forall_cons in Hmem as [(Hva & Hsize & Hend) Hmem].
    unfold NULL in Hva.
    pose proof (SizeOfFragments_nonneg Rest
                  (Forall_impl _ _ _ Hmem (fun g Hg => proj1 (proj2 Hg))))
      as Hrest.
    cbn [MmCopyIoBufferData_loop].
    destruct (Z.eqb_spec Size 0) as [?|_]; [lia|].
    destruct (Z.leb_spec (Io.FragmentCount b) (Z.of_nat Done)) as [?|_];
      [lia|].
    unfold bind at 1. unfold read at 1.
    rewrite Nat2Z.id.
    pose proof (Hseg 0%nat f eq_refl) as H0.
    rewrite Nat.add_0_r in H0. rewrite H0.
    rewrite (UINTN_small (Z.of_nat Done + 1)) by lia.
    rewrite (UINTN_small (cur + Frag.Size f)) by lia.
    replace (Z.of_nat Done + 1) with (Z.of_nat (S Done)) by lia.
    assert (Hseg' : forall j g, Rest !! j = Some g ->
                                Io.Fragment b !! (S Done + j)%nat = Some g).
    { intros j g Hj. replace (S Done + j)%nat with (Done + S j)%nat by lia.
      apply Hseg. exact Hj. }
    assert (Hcount' : Io.FragmentCount b = Z.of_nat (S Done + length Rest))
      by lia.
    destruct (Z.leb_spec (cur + Frag.Size f) Offset) as [Hskip|Hhere].
    + destruct (IH n (S Done) Buffer Size (cur + Frag.Size f) Calls Hseg'
                  Hcount' Hsmall Hmem Hoff ltac:(lia) ltac:(lia) Hbytes
                  Hbuf Hbufend ltac:(lia) ltac:(lia))
        as (New & Hrun & Hcopy & Hcalls).
      exists New. split; [exact Hrun|]. split; [|exact Hcalls].
      rewrite Hcopy, (CopyPairs_skip f Rest) by lia.
      f_equal. lia.
    + remember (Z.max 0 (Offset - cur)) as s eqn:Hsdef.
      remember (Z.min Size (Frag.Size f - s)) as c eqn:Hcdef.
      assert (Hs : 0 <= s <= Frag.Size f) by lia.
      assert (Hcsize : forall x, x = Frag.Size f - s ->
                (if Size <? x then Size else x) = c).
      { intros x ->. destruct (Z.ltb_spec Size (Frag.Size f - s)); lia. }
      cbv zeta.
      assert (Hoffset : (if cur <? Offset then UINTN (Offset - cur) else 0)
                        = s).
      { destruct (Z.ltb_spec cur Offset);
          [rewrite UINTN_small by lia|]; lia. }
      rewrite Hoffset.
      rewrite (Hcsize (if cur <? Offset then UINTN (Frag.Size f - s)
                       else Frag.Size f))
        by (destruct (Z.ltb_spec cur Offset);
            [rewrite UINTN_small by lia|]; lia).
      rewrite (UINTN_small (Frag.VirtualAddress f + s)) by lia.
      rewrite (UINTN_small (Size - c)) by lia.
      rewrite (UINTN_small (Buffer + c)) by lia.
      unfold bind at 1. rewrite copy_call_run.
      cbn [fst snd].
      assert (Hstatus : (if flag_set (Io.Flags b) IO_BUFFER_FLAG_USER_MODE
                         then UserCopy k else STATUS_SUCCESS)
                        = STATUS_SUCCESS).
      { destruct (flag_set (Io.Flags b) IO_BUFFER_FLAG_USER_MODE);
          [apply Huser|]; reflexivity. }
      rewrite Hstatus. cbn [KSUCCESS negb].
      match goal with
      | |- context [Calls ++ [?e]] =>
          destruct (IH n (S Done) (Buffer + c) (Size - c) (cur + Frag.Size f)
                      (Calls ++ [e])
                      Hseg' Hcount' Hsmall Hmem Hoff ltac:(lia) ltac:(lia)
                      ltac:(lia) ltac:(lia) ltac:(lia) ltac:(lia) ltac:(lia))
            as (New & Hrun & Hcopy & Hcalls);
          exists (e :: New)
      end.
      split; [rewrite Hrun, <- app_assoc; reflexivity|].
      split; [|constructor; [destruct To; eauto | exact Hcalls]].
      rewrite (CopyPairs_here f Rest To Buffer s Size Hs Hbytes).
      cbv zeta. rewrite <- Hcdef.
      match goal with
      | |- CopiedBytes (?e :: New) = _ =>
          change (e :: New) with ([e] ++ New); rewrite CopiedBytes_app
      end.
      rewrite Hcopy.
      replace (Z.max 0 (Offset - (cur + Frag.Size f))) with 0 by lia.
      f_equal.
      unfold CopiedBytes, CopyCall. cbn [flat_map snd]. rewrite app_nil_r.
      destruct To; destruct (flag_set (Io.Flags b) IO_BUFFER_FLAG_USER_MODE);
        reflexivity.
Qed.

(** The same loop on a buffer of user mode when the copies fail: the first
    copy ends it. *)
Lemma MmCopyIoBufferData_loop_fails (b : IO_BUFFER) (To : bool) (Offset : Z)
    (k : Kernel) (Rest : list IO_BUFFER_FRAGMENT) :
  flag_set (Io.Flags b) IO_BUFFER_FLAG_USER_MODE = true ->
  KSUCCESS (UserCopy k) = false ->
  forall (n Done : nat) (Status : KSTATUS) (Buffer Size cur : Z)
         (Calls : MemoryLog),
    (forall j f, Rest !! j = Some f ->
                 Io.Fragment b !! (Done + j)%nat = Some f) ->
    Io.FragmentCount b = Z.of_nat (Done + length Rest) ->
    Io.FragmentCount b < 2 ^ UINTN_BITS ->
    Forall InMemory Rest ->
    0 <= Offset -> 0 <= cur ->
    cur + SizeOfFragments Rest < 2 ^ UINTN_BITS ->
    0 < Size ->
    Z.max 0 (Offset - cur) + Size <= SizeOfFragments Rest ->
    (length Rest <= n)%nat ->
    exists New Bytes,
      MmCopyIoBufferData_loop n b To Status Buffer Offset Size
        (Z.of_nat Done) cur Calls k
      = Some ((UserCopy k, Calls ++ [(length (Log k), New)]), k) /\
      0 <= Bytes <= Size /\
      CopiedBytes [(length (Log k), New)]
      = take (Z.to_nat Bytes)
          (CopyPairs Rest To Buffer (Z.max 0 (Offset - cur)) Size) /\
      exists d s, New = CopyCall b To d s Bytes.
Proof.
  intros Huser Hfails.
  induction Rest as [|f Rest IH];
    intros n Done Status Buffer Size cur Calls Hseg Hcount Hsmall Hmem Hoff
      Hcur Hsum Hbytes Hfit Hfuel.
  - cbn [SizeOfFragments] in Hfit. lia.
  - destruct n as [|n]; [cbn [length] in Hfuel; lia|].
    cbn [length] in Hfuel, Hcount. cbn [SizeOfFragments] in Hsum, Hfit.
    apply Forall_cons in Hmem as [(Hva & Hsize & Hend) Hmem].
    unfold NULL in Hva.
    pose proof (SizeOfFragments_nonneg Rest
                  (Forall_impl _ _ _ Hmem (fun g Hg => proj1 (proj2 Hg))))
      as Hrest.
    cbn [MmCopyIoBufferData_loop].
    destruct (Z.eqb_spec Size 0) as [?|_]; [lia|].
    destruct (Z.leb_spec (Io.FragmentCount b) (Z.of_nat Done)) as [?|_];
      [lia|].
    unfold bind at 1. unfold read at 1.
    rewrite Nat2Z.id.
    pose proof (Hseg 0%nat f eq_refl) as H0.
    rewrite Nat.add_0_r in H0. rewrite H0.
    rewrite (UINTN_small (Z.of_nat Done + 1)) by lia.
    rewrite (UINTN_small (cur + Frag.Size f)) by lia.
    replace (Z.of_nat Done + 1) with (Z.of_nat (S Done)) by lia.
    destruct (Z.leb_spec (cur + Frag.Size f) Offset) as [Hskip|Hhere].
    + assert (Hseg' : forall j g, Rest !! j = Some g ->
                                  Io.Fragment b !! (S Done + j)%nat = Some g).
      { intros j g Hj. replace (S Done + j)%nat with (Done + S j)%nat by lia.
        apply Hseg. exact Hj. }
      destruct (IH n (S Done) Status Buffer Size (cur + Frag.Size f) Calls
                  Hseg' ltac:(lia) Hsmall Hmem Hoff ltac:(lia) ltac:(lia)
                  Hbytes ltac:(lia) ltac:(lia))
        as (New & Bytes & Hrun & HB & Hcopy & Hcall).
      exists New, Bytes. split; [exact Hrun|]. split; [exact HB|].
      split; [|exact Hcall].
      rewrite Hcopy, (CopyPairs_skip f Rest) by lia.
      do 2 f_equal. lia.
    + remember (Z.max 0 (Offset - cur)) as s eqn:Hsdef.
      remember (Z.min Size (Frag.Size f - s)) as c eqn:Hcdef.
      assert (Hs : 0 <= s <= Frag.Size f) by lia.
      assert (Hcsize : forall x, x = Frag.Size f - s ->
                (if Size <? x then Size else x) = c).
      { intros x ->. destruct (Z.ltb_spec Size (Frag.Size f - s)); lia. }
      cbv zeta.
      assert (Hoffset : (if cur <? Offset then UINTN (Offset - cur) else 0)
                        = s).
      { destruct (Z.ltb_spec cur Offset);
          [rewrite UINTN_small by lia|]; lia. }
      rewrite Hoffset.
      rewrite (Hcsize (if cur <? Offset then UINTN (Frag.Size f - s)
                       else Frag.Size f))
        by (destruct (Z.ltb_spec cur Offset);
            [rewrite UINTN_small by lia|]; lia).
      rewrite (UINTN_small (Frag.VirtualAddress f + s)) by lia.
      unfold bind at 1. rewrite copy_call_run.
      cbn [fst snd]. rewrite Huser, Hfails. cbn [negb].
      unfold ret.
      match goal with
      | |- context [Calls ++ [(_, ?e)]] => exists e, c
      end.
      split; [reflexivity|]. split; [lia|].
      split; [|destruct To; eauto].
      rewrite (CopyPairs_here f Rest To Buffer s Size Hs ltac:(lia)).
      cbv zeta. rewrite <- Hcdef.
      rewrite take_app_length'
        by (destruct To; rewrite length_zip_with, !BytesOf_length; lia).
      unfold CopiedBytes, CopyCall. cbn [flat_map snd]. rewrite app_nil_r.
      rewrite Huser. destruct To; reflexivity.
Qed.

Lemma CopyCall_FoundMapped (b : IO_BUFFER) (To : bool) (d s n : Z) :
  CopyCall (FoundMapped b) To d s n = CopyCall b To d s n.
Proof.
  unfold CopyCall. rewrite (proj2 (proj2 (FoundMapped_fragments b))).
  reflexivity.
Qed.

(** What [MmCopyIoBufferData] does before its loop, for a copy within a
    buffer whose fragments are in memory. *)
Lemma MmCopyIoBufferData_loop_reached (b : IO_BUFFER)
    (Buffer Offset Size : Z) (To : bool) (Calls : MemoryLog) (k : Kernel)
    (First : IO_BUFFER_FRAGMENT) (l : list IO_BUFFER_FRAGMENT) :
  FragmentsInUse b = First :: l ->
  (Z.to_nat (Io.FragmentCount b) <= length (Io.Fragment b))%nat ->
  Forall InMemory (First :: l) ->
  Io.TotalSize b < 2 ^ UINTN_BITS ->
  KERNEL_VA_START <= Buffer ->
  0 <= Offset -> 0 <= Io.CurrentOffset b -> 0 <= Size ->
  Offset + Io.CurrentOffset b + Size <= Io.TotalSize b ->
  MmCopyIoBufferData b Buffer Offset Size To Calls k
  = match MmCopyIoBufferData_loop (S (Z.to_nat (Io.FragmentCount b)))
            (FoundMapped b) To STATUS_SUCCESS Buffer
            (Offset + Io.CurrentOffset b) Size 0 0 Calls k with
    | Some (z, k') => Some (mkTouched (fst z) (FoundMapped b) (snd z), k')
    | None => None
    end.
Proof.
  intros Huse Htable Hmem Hmax Hbuf Hoff Hcur Hbytes Hfit.
  destruct (InMemory_mapped First l Hmem) as (Hmapped & Hptr & Hsizes).
  destruct (FoundMapped_fragments b) as (Hfr & Hfc & _).
  unfold MmCopyIoBufferData. cbv zeta.
  rewrite (UINTN_small (Offset + Io.CurrentOffset b)) by lia.
  rewrite (UINTN_small (Offset + Io.CurrentOffset b + Size)) by lia.
  destruct (Z.leb_spec KERNEL_VA_START Buffer) as [_|?]; [|lia].
  unfold bind at 1. unfold ASSERT at 1.
  destruct (Z.leb_spec (Offset + Io.CurrentOffset b + Size)
              (Io.TotalSize b)) as [_|?]; [|lia].
  rewrite !orb_true_r.
  unfold bind at 1. unfold ASSERT at 1.
  unfold bind at 1. unfold ASSERT at 1.
  destruct (Z.ltb_spec (Io.TotalSize b)
              (Offset + Io.CurrentOffset b + Size)) as [?|_]; [lia|].
  rewrite andb_false_r.
  unfold bind at 1. unfold ret at 1. cbn [fst snd KSUCCESS negb].
  unfold bind at 1.
  rewrite (proj1 (MmMapIoBuffer_mapped_run b false false false Calls k
                    First l Huse Htable Hptr) Hmapped).
  fold (FoundMapped b). cbn [m_Status m_IoBuffer m_Calls KSUCCESS negb].
  rewrite Hfc. unfold bind at 1. reflexivity.
Qed.

(** X23.  On a buffer whose fragments are all in memory and hold its total
    size, a copy of [Size] bytes between the bytes of the buffer from
    [Offset] past the cursor and the kernel bytes from [Buffer] on, within
    the buffer, succeeds when the copies from and to user mode do (a kernel
    buffer needs none) and leaves the kernel as it was.  Its calls copy byte
    [Offset + CurrentOffset + i] of the buffer to or from byte [Buffer + i],
    in order and each once: with [RtlCopyMemory] for a kernel buffer, with
    [MmCopyToUserMode] or [MmCopyFromUserMode] for a buffer of user mode. *)
Theorem copy_bytes (b : IO_BUFFER) (Buffer Offset Size : Z) (To : bool)
    (Calls : MemoryLog) (k : Kernel) (First : IO_BUFFER_FRAGMENT)
    (l : list IO_BUFFER_FRAGMENT) :
  FragmentsInUse b = First :: l ->
  (Z.to_nat (Io.FragmentCount b) <= length (Io.Fragment b))%nat ->
  Io.FragmentCount b < 2 ^ UINTN_BITS ->
  (flag_set (Io.Flags b) IO_BUFFER_FLAG_USER_MODE = true ->
   UserCopy k = STATUS_SUCCESS) ->
  Forall InMemory (First :: l) ->
  Io.TotalSize b = SizeOfFragments (First :: l) ->
  Io.TotalSize b < 2 ^ UINTN_BITS ->
  KERNEL_VA_START <= Buffer -> Buffer + Size < 2 ^ UINTN_BITS ->
  0 <= Offset -> 0 <= Io.CurrentOffset b -> 0 <= Size ->
  Offset + Io.CurrentOffset b + Size <= Io.TotalSize b ->
  exists New,
    MmCopyIoBufferData b Buffer Offset Size To Calls k
    = Some (mkTouched STATUS_SUCCESS (FoundMapped b) (Calls ++ New), k) /\
    CopiedBytes New
    = CopyPairs (First :: l) To Buffer (Offset + Io.CurrentOffset b) Size /\
    Forall (fun c => exists Destination Source Bytes,
              c = (length (Log k), CopyCall b To Destination Source Bytes))
      New.
Proof.
  intros Huse Htable Hsmall Huser Hmem Htotal Hmax Hbuf Hbufend Hoff Hcur
    Hbytes Hfit.
  pose proof KERNEL_VA_START_range as Hkva.
  pose proof (FragmentsInUse_length b Htable) as Hlen.
  rewrite Huse in Hlen.
  destruct (FoundMapped_fragments b) as (Hfr & Hfc & Hfu).
  destruct (MmCopyIoBufferData_loop_run (FoundMapped b) To
              (Offset + Io.CurrentOffset b) k (First :: l)
              ltac:(rewrite Hfu; exact Huser)
              (S (Z.to_nat (Io.FragmentCount b))) 0 Buffer Size 0 Calls)
    as (New & Hrun & Hcopy & Hcalls);
    try lia; try assumption.
  { intros j f Hj. rewrite Hfr. apply FragmentsInUse_lookup.
    rewrite Huse. exact Hj. }
  { rewrite Hfc. cbn [length] in *. lia. }
  exists New. split; [|split].
  - rewrite (MmCopyIoBufferData_loop_reached b Buffer Offset Size To Calls k
               First l Huse Htable Hmem Hmax Hbuf Hoff Hcur Hbytes Hfit).
    change (Z.of_nat 0) with 0 in Hrun. rewrite Hrun. reflexivity.
  - rewrite Hcopy. f_equal. lia.
  - eapply Forall_impl; [exact Hcalls|]. intros c (d & s & n & ->).
    rewrite CopyCall_FoundMapped. eauto.
Qed.

(** X24.  On a buffer of user mode whose fragments are all in memory and
    hold its total size, when the copies from and to user mode fail, a copy
    of at least one byte within the buffer ends with the status of the
    failed copy after one call, the copy of the first bytes asked for.  The
    kernel is as it was. *)
Theorem copy_stops_at_failed_copy (b : IO_BUFFER) (Buffer Offset Size : Z)
    (To : bool) (Calls : MemoryLog) (k : Kernel) (First : IO_BUFFER_FRAGMENT)
    (l : list IO_BUFFER_FRAGMENT) :
  FragmentsInUse b = First :: l ->
  (Z.to_nat (Io.FragmentCount b) <= length (Io.Fragment b))%nat ->
  Io.FragmentCount b < 2 ^ UINTN_BITS ->
  flag_set (Io.Flags b) IO_BUFFER_FLAG_USER_MODE = true ->
  KSUCCESS (UserCopy k) = false ->
  Forall InMemory (First :: l) ->
  Io.TotalSize b = SizeOfFragments (First :: l) ->
  Io.TotalSize b < 2 ^ UINTN_BITS ->
  KERNEL_VA_START <= Buffer ->
  0 <= Offset -> 0 <= Io.CurrentOffset b -> 0 < Size ->
  Offset + Io.CurrentOffset b + Size <= Io.TotalSize b ->
  exists Destination Source Bytes,
    let New := (length (Log k), CopyCall b To Destination Source Bytes) in
    MmCopyIoBufferData b Buffer Offset Size To Calls k
    = Some (mkTouched (UserCopy k) (FoundMapped b) (Calls ++ [New]), k) /\
    0 <= Bytes <= Size /\
    CopiedBytes [New]
    = take (Z.to_nat Bytes)
        (CopyPairs (First :: l) To Buffer (Offset + Io.CurrentOffset b) Size).
Proof.
  intros Huse Htable Hsmall Huser Hfails Hmem Htotal Hmax Hbuf Hoff Hcur
    Hbytes Hfit.
  pose proof (FragmentsInUse_length b Htable) as Hlen.
  rewrite Huse in Hlen.
  destruct (FoundMapped_fragments b) as (Hfr & Hfc & Hfu).
  destruct (MmCopyIoBufferData_loop_fails (FoundMapped b) To
              (Offset + Io.CurrentOffset b) k (First :: l)
              ltac:(rewrite Hfu; exact Huser) Hfails
              (S (Z.to_nat (Io.FragmentCount b))) 0 STATUS_SUCCESS Buffer Size
              0 Calls)
    as (New & Bytes & Hrun & HB & Hcopy & d & s & ->);
    try lia; try assumption.
  { intros j f Hj. rewrite Hfr. apply FragmentsInUse_lookup.
    rewrite Huse. exact Hj. }
  { rewrite Hfc. cbn [length] in *. lia. }
  rewrite CopyCall_FoundMapped in Hrun, Hcopy.
  exists d, s, Bytes. cbv zeta. split; [|split; [exact HB|]].
  - rewrite (MmCopyIoBufferData_loop_reached b Buffer Offset Size To Calls k
               First l Huse Htable Hmem Hmax Hbuf Hoff Hcur ltac:(lia) Hfit).
    change (Z.of_nat 0) with 0 in Hrun. rewrite Hrun. reflexivity.
  - rewrite Hcopy. do 2 f_equal. lia.
Qed.

Lemma BufferRange_skip_all (Skipped : list IO_BUFFER_FRAGMENT) :
  forall (l : list IO_BUFFER_FRAGMENT) (s c : Z),
    Forall (fun f => 0 <= Frag.Size f) Skipped ->
    SizeOfFragments Skipped <= s ->
    BufferRange (Skipped ++ l) s c
    = BufferRange l (s - SizeOfFragments Skipped) c.
Proof.
  induction Skipped as [|f Skipped IH]; intros l s c Hsizes Hs.
  - cbn. f_equal. lia.
  - apply Forall_cons in Hsizes as [Hf Hsizes].
    pose proof (SizeOfFragments_nonneg Skipped Hsizes).
    cbn [SizeOfFragments app] in *.
    rewrite BufferRange_skip, IH by (assumption || lia).
    f_equal. lia.
Qed.

(** The search of [MmCopyIoBuffer] for the fragment that holds [Offset], on
    the fragments [Rest] it has not looked at, which begin [cum] bytes into
    the buffer. *)
Lemma MmCopyIoBuffer_find_run (b : IO_BUFFER) (Offset : Z) (k : Kernel)
    (Rest : list IO_BUFFER_FRAGMENT) :
  forall (n Done : nat) (cum : Z) (last : option Z),
    TableHolds b Done Rest ->
    Io.FragmentCount b = Z.of_nat (Done + length Rest) ->
    Io.FragmentCount b < 2 ^ UINTN_BITS ->
    Forall (fun f => 0 <= Frag.Size f) Rest ->
    0 <= cum <= Offset -> Offset < cum + SizeOfFragments Rest ->
    cum + SizeOfFragments Rest < 2 ^ UINTN_BITS ->
    (length Rest <= n)%nat ->
    exists Skipped f Rest',
      Rest = Skipped ++ f :: Rest' /\
      MmCopyIoBuffer_find n b Offset (Z.of_nat Done) cum last k
      = Some ((Some (Z.of_nat (Done + length Skipped)),
               Z.of_nat (Done + length Skipped),
               Offset - (cum + SizeOfFragments Skipped)), k) /\
      cum + SizeOfFragments Skipped <= Offset
      < cum + SizeOfFragments Skipped + Frag.Size f.
Proof.
  induction Rest as [|f Rest IH];
    intros n Done cum last Hseg Hcount Hsmall Hsizes Hcum Hoff Hsum Hfuel.
  - cbn [SizeOfFragments] in Hoff. lia.
  - apply Forall_cons in Hsizes as [Hf Hsizes].
    pose proof (SizeOfFragments_nonneg Rest Hsizes) as Hrest.
    destruct n as [|n]; [cbn [length] in Hfuel; lia|].
    cbn [length] in Hfuel, Hcount. cbn [SizeOfFragments] in Hsum, Hoff.
    cbn [MmCopyIoBuffer_find].
    destruct (Z.ltb_spec (Z.of_nat Done) (Io.FragmentCount b)) as [_|?];
      [|lia].
    unfold bind at 1. unfold read at 1. rewrite Nat2Z.id.
    pose proof (Hseg 0%nat f eq_refl) as H0.
    rewrite Nat.add_0_r in H0. rewrite H0.
    rewrite (UINTN_small (cum + Frag.Size f)) by lia.
    destruct (Z.ltb_spec Offset (cum + Frag.Size f)) as [Hhere|Hskip].
    + exists [], f, Rest. split; [reflexivity|].
      cbn [length SizeOfFragments]. rewrite Nat.add_0_r, Z.add_0_r.
      rewrite UINTN_small by lia. split; [reflexivity | lia].
    + rewrite (UINTN_small (Z.of_nat Done + 1)) by lia.
      replace (Z.of_nat Done + 1) with (Z.of_nat (S Done)) by lia.
      destruct (IH n (S Done) (cum + Frag.Size f) (Some (Z.of_nat Done)))
        as (Skipped & g & Rest' & -> & Hrun & Hin);
        try lia; try assumption.
      { intros j g Hj. replace (S Done + j)%nat with (Done + S j)%nat by lia.
        apply Hseg. exact Hj. }
      exists (f :: Skipped), g, Rest'. split; [reflexivity|].
      cbn [length SizeOfFragments].
      replace (Done + S (length Skipped))%nat
        with (S Done + length Skipped)%nat by lia.
      rewrite Hrun. split; [do 3 f_equal; lia | lia].
Qed.

Lemma InMemory_sizes (l : list IO_BUFFER_FRAGMENT) :
  Forall InMemory l -> Forall (fun f => 0 <= Frag.Size f) l.
Proof.
  intros H. eapply Forall_impl; [exact H|]. intros f (_ & Hf & _). exact Hf.
Qed.

(** The first [t] bytes of a range that begins in the first fragment and
    has that many bytes in it. *)
Lemma BufferRange_first (f : IO_BUFFER_FRAGMENT) (l : list IO_BUFFER_FRAGMENT)
    (s c t : Z) :
  0 <= s -> 0 <= t <= Frag.Size f - s -> t <= c ->
  BufferRange (f :: l) s c
  = BytesOf (Frag.VirtualAddress f + s) t
    ++ BufferRange (f :: l) (s + t) (c - t).
Proof.
  intros Hs Ht Hc.
  rewrite <- (Z.min_l t (Frag.Size f - s)) at 1 by lia.
  rewrite <- (app_nil_r (BytesOf _ _)).
  change [] with (BufferRange l 0 0) at 1.
  replace 0 with (t - Z.min t (Frag.Size f - s)) at 2 by lia.
  rewrite <- BufferRange_here by lia.
  unfold BufferRange.
  replace (Z.to_nat c) with (Z.to_nat t + Z.to_nat (c - t))%nat by lia.
  rewrite <- take_take_drop, drop_drop. do 3 f_equal. lia.
Qed.

(** One side of a round of the loop of [MmCopyIoBuffer]: [t] bytes of the
    [n] that are left leave the fragment [f], [fo] bytes into it.  When
    bytes are left after the round the pointer is in [f] or in the fragment
    after it. *)
Lemma MmCopyIoBuffer_advance_run (b : IO_BUFFER) (k : Kernel) (Done : nat)
    (f : IO_BUFFER_FRAGMENT) (Rest : list IO_BUFFER_FRAGMENT) (fo t n : Z) :
  TableHolds b Done (f :: Rest) ->
  Forall InMemory (f :: Rest) ->
  SizeOfFragments (f :: Rest) < 2 ^ UINTN_BITS ->
  0 <= fo <= Frag.Size f -> 0 <= t <= Frag.Size f - fo -> t <= n ->
  fo + n <= SizeOfFragments (f :: Rest) ->
  exists (Done' : nat) (f' : IO_BUFFER_FRAGMENT)
         (Rest' : list IO_BUFFER_FRAGMENT) (fo' : Z),
    MmCopyIoBuffer_advance b (Z.of_nat Done) fo (Frag.Size f - fo) t k
    = Some ((Z.of_nat Done', fo', Frag.Size f' - fo'), k) /\
    (t < n ->
     TableHolds b Done' (f' :: Rest') /\
     Forall InMemory (f' :: Rest') /\
     SizeOfFragments (f' :: Rest') <= SizeOfFragments (f :: Rest) /\
     0 <= fo' <= Frag.Size f' /\
     fo' + (n - t) <= SizeOfFragments (f' :: Rest') /\
     BufferRange (f' :: Rest') fo' (n - t)
     = BufferRange (f :: Rest) (fo + t) (n - t) /\
     (length Rest' <= length Rest)%nat /\
     (t = Frag.Size f - fo -> (length Rest' < length Rest)%nat)).
Proof.
  intros Hseg Hmem Hsum Hfo Ht Htn Hfit.
  pose proof (SizeOfFragments_nonneg _ (InMemory_sizes _ Hmem)) as Hnn.
  pose proof (Forall_inv_tail Hmem) as Hmem'.
  pose proof (SizeOfFragments_nonneg _ (InMemory_sizes _ Hmem')) as Hnn'.
  cbn [SizeOfFragments] in Hsum, Hfit, Hnn.
  unfold MmCopyIoBuffer_advance. cbv zeta.
  rewrite (UINTN_small (fo + t)), (UINTN_small (Frag.Size f - fo - t)) by lia.
  destruct (Z.eqb_spec (Frag.Size f - fo - t) 0) as [Hout|Hin].
  - unfold bind at 1. unfold read at 1. rewrite Nat2Z.id.
    pose proof (Hseg 0%nat f eq_refl) as H0.
    rewrite Nat.add_0_r in H0. rewrite H0.
    destruct (Z.eqb_spec (fo + t) (Frag.Size f)) as [_|?]; [|lia].
    unfold bind at 1. unfold ASSERT at 1. unfold ret at 1.
    replace (Z.of_nat Done + 1) with (Z.of_nat (S Done)) by lia.
    destruct Rest as [|g Rest'].
    + exists (S Done), (Frag.mk 0 0 (SizeAt b (Z.of_nat (S Done)))), [], 0.
      cbn [Frag.Size]. rewrite Z.sub_0_r.
      split; [reflexivity|]. intros Hlt. cbn [SizeOfFragments] in *. lia.
    + assert (Hg : SizeAt b (Z.of_nat (S Done)) = Frag.Size g).
      { unfold SizeAt. rewrite Nat2Z.id.
        replace (S Done) with (Done + 1)%nat by lia.
        rewrite (Hseg 1%nat g eq_refl). reflexivity. }
      rewrite Hg.
      exists (S Done), g, Rest', 0. rewrite Z.sub_0_r.
      split; [reflexivity|]. intros Hlt.
      apply Forall_cons in Hmem' as Hg'. destruct Hg' as [(_ & Hg' & _) _].
      cbn [SizeOfFragments length] in *.
      split.
      { intros j h Hj. replace (S Done + j)%nat with (Done + S j)%nat by lia.
        apply Hseg. exact Hj. }
      split; [exact Hmem'|]. split; [lia|]. split; [lia|]. split; [lia|].
      split; [|lia].
      rewrite (BufferRange_skip f (g :: Rest')) by lia.
      f_equal. lia.
  - exists Done, f, Rest, (fo + t).
    replace (Frag.Size f - (fo + t)) with (Frag.Size f - fo - t) by lia.
    split; [reflexivity|]. intros Hlt. cbn [SizeOfFragments].
    split; [exact Hseg|]. split; [exact Hmem|].
    split; [lia|]. split; [lia|]. split; [lia|].
    split; [reflexivity|]. split; lia.
Qed.

(** The copy of a round of the loop of [MmCopyIoBuffer]. *)
Lemma buffer_copy_call_run (d s : IO_BUFFER) (DVA SVA Bytes : Z)
    (Calls : MemoryLog) (k : Kernel) :
  (if flag_set (Io.Flags d) IO_BUFFER_FLAG_USER_MODE then
     MmCopyToUserMode DVA SVA Bytes Calls
   else if flag_set (Io.Flags s) IO_BUFFER_FLAG_USER_MODE then
     MmCopyFromUserModeBytes DVA SVA Bytes Calls
   else
     Calls <- memcall (CallRtlCopyMemory DVA SVA Bytes) Calls ;;
     ret (STATUS_SUCCESS, Calls)) k
  = Some ((if flag_set (Io.Flags d) IO_BUFFER_FLAG_USER_MODE
              || flag_set (Io.Flags s) IO_BUFFER_FLAG_USER_MODE
           then UserCopy k else STATUS_SUCCESS,
           Calls ++ [(length (Log k), BufferCopyCall d s DVA SVA Bytes)]), k).
Proof.
  unfold BufferCopyCall.
  destruct (flag_set (Io.Flags d) IO_BUFFER_FLAG_USER_MODE);
    destruct (flag_set (Io.Flags s) IO_BUFFER_FLAG_USER_MODE);
    reflexivity.
Qed.

Lemma CopiedBytes_buffer_call (d s : IO_BUFFER) (DVA SVA Bytes : Z) (t : nat) :
  CopiedBytes [(t, BufferCopyCall d s DVA SVA Bytes)]
  = zip (BytesOf DVA Bytes) (BytesOf SVA Bytes).
Proof.
  unfold CopiedBytes, BufferCopyCall. cbn [flat_map snd].
  rewrite app_nil_r.
  destruct (flag_set (Io.Flags d) IO_BUFFER_FLAG_USER_MODE);
    destruct (flag_set (Io.Flags s) IO_BUFFER_FLAG_USER_MODE);
    reflexivity.
Qed.

Lemma BytesOf_UINTN (a t : Z) :
  (0 < t -> 0 <= a < 2 ^ UINTN_BITS) -> BytesOf (UINTN a) t = BytesOf a t.
Proof.
  intros H. destruct (Z.lt_ge_cases 0 t) as [Ht|Ht].
  - rewrite UINTN_small by auto. reflexivity.
  - rewrite !BytesOf_none by lia. reflexivity.
Qed.

(** The loop of [MmCopyIoBuffer] with the destination at byte [dfo] of the
    fragment [df] and the source at byte [sfo] of the fragment [sf], when
    the copies succeed: it pairs the bytes that are left of the two
    buffers. *)
Lemma MmCopyIoBuffer_loop_run (d s : IO_BUFFER) (k : Kernel) :
  (flag_set (Io.Flags d) IO_BUFFER_FLAG_USER_MODE
   || flag_set (Io.Flags s) IO_BUFFER_FLAG_USER_MODE = true ->
   UserCopy k = STATUS_SUCCESS) ->
  forall (n : nat)
         (DDone : nat) (df : IO_BUFFER_FRAGMENT)
         (DRest : list IO_BUFFER_FRAGMENT) (dfo : Z)
         (SDone : nat) (sf : IO_BUFFER_FRAGMENT)
         (SRest : list IO_BUFFER_FRAGMENT) (sfo : Z)
         (ByteCount : Z) (Calls : MemoryLog),
    TableHolds d DDone (df :: DRest) ->
    Forall InMemory (df :: DRest) ->
    SizeOfFragments (df :: DRest) < 2 ^ UINTN_BITS ->
    0 <= dfo <= Frag.Size df ->
    dfo + ByteCount <= SizeOfFragments (df :: DRest) ->
    TableHolds s SDone (sf :: SRest) ->
    Forall InMemory (sf :: SRest) ->
    SizeOfFragments (sf :: SRest) < 2 ^ UINTN_BITS ->
    0 <= sfo <= Frag.Size sf ->
    sfo + ByteCount <= SizeOfFragments (sf :: SRest) ->
    0 <= ByteCount ->
    (length DRest + length SRest < n)%nat ->
    exists New,
      MmCopyIoBuffer_loop n d s STATUS_SUCCESS ByteCount
        (Z.of_nat DDone) dfo (Frag.Size df - dfo)
        (Z.of_nat SDone) sfo (Frag.Size sf - sfo) Calls k
      = Some ((STATUS_SUCCESS, Calls ++ New), k) /\
      CopiedBytes New
      = zip (BufferRange (df :: DRest) dfo ByteCount)
            (BufferRange (sf :: SRest) sfo ByteCount) /\
      Forall (fun c => exists a a' t,
                c = (length (Log k), BufferCopyCall d s a a' t)) New.
Proof.
  intros Huser.
  induction n as [|n IH];
    intros DDone df DRest dfo SDone sf SRest sfo ByteCount Calls
      HsegD HmemD HsumD Hdfo HfitD
      HsegS HmemS HsumS Hsfo HfitS Hbytes Hfuel; [lia|].
  destruct (Z.eq_dec ByteCount 0) as [->|Hsome].
  { exists []. rewrite app_nil_r. split; [reflexivity|].
    split; [reflexivity | constructor]. }
  cbn [MmCopyIoBuffer_loop].
  destruct (Z.eqb_spec ByteCount 0) as [?|_]; [lia|].
  remember (Z.min (Z.min (Frag.Size df - dfo) (Frag.Size sf - sfo)) ByteCount)
    as t eqn:Htdef.
  assert (Ht : (if ByteCount
                   <? (if Frag.Size df - dfo <? Frag.Size sf - sfo
                       then Frag.Size df - dfo else Frag.Size sf - sfo)
                then ByteCount
                else if Frag.Size df - dfo <? Frag.Size sf - sfo
                     then Frag.Size df - dfo else Frag.Size sf - sfo) = t).
  { destruct (Z.ltb_spec (Frag.Size df - dfo) (Frag.Size sf - sfo));
      match goal with
      | |- context [?x <? ?y] => destruct (Z.ltb_spec x y)
      end; lia. }
  cbv zeta. rewrite Ht. clear Ht.
  pose proof (Forall_inv HmemD) as (HvaD & HsizeD & HendD).
  pose proof (Forall_inv HmemS) as (HvaS & HsizeS & HendS).
  unfold NULL in HvaD, HvaS.
  unfold bind at 1. unfold read at 1. rewrite Nat2Z.id.
  pose proof (HsegD 0%nat df eq_refl) as H0.
  rewrite Nat.add_0_r in H0. rewrite H0. clear H0.
  unfold NULL.
  destruct (Z.eqb_spec (Frag.VirtualAddress df) 0) as [?|_]; [lia|].
  unfold bind at 1. unfold ASSERT at 1. cbn [negb].
  unfold bind at 1. unfold read at 1. rewrite Nat2Z.id.
  pose proof (HsegS 0%nat sf eq_refl) as H0.
  rewrite Nat.add_0_r in H0. rewrite H0. clear H0.
  destruct (Z.eqb_spec (Frag.VirtualAddress sf) 0) as [?|_]; [lia|].
  unfold bind at 1. unfold ASSERT at 1. cbn [negb].
  unfold bind at 1. rewrite buffer_copy_call_run. cbn [fst snd].
  assert (Hstatus : (if flag_set (Io.Flags d) IO_BUFFER_FLAG_USER_MODE
                        || flag_set (Io.Flags s) IO_BUFFER_FLAG_USER_MODE
                     then UserCopy k else STATUS_SUCCESS) = STATUS_SUCCESS).
  { destruct (flag_set (Io.Flags d) IO_BUFFER_FLAG_USER_MODE
              || flag_set (Io.Flags s) IO_BUFFER_FLAG_USER_MODE);
      [apply Huser|]; reflexivity. }
  rewrite Hstatus. cbn [KSUCCESS negb].
  destruct (MmCopyIoBuffer_advance_run d k DDone df DRest dfo t ByteCount
              HsegD HmemD HsumD Hdfo ltac:(lia) ltac:(lia) HfitD)
    as (DDone' & df' & DRest' & dfo' & HrunD & HinvD).
  destruct (MmCopyIoBuffer_advance_run s k SDone sf SRest sfo t ByteCount
              HsegS HmemS HsumS Hsfo ltac:(lia) ltac:(lia) HfitS)
    as (SDone' & sf' & SRest' & sfo' & HrunS & HinvS).
  unfold bind at 1. rewrite HrunD. unfold bind at 1. rewrite HrunS.
  cbn [fst snd].
  rewrite (UINTN_small (ByteCount - t)) by lia.
  set (e := (length (Log k),
             BufferCopyCall d s (UINTN (Frag.VirtualAddress df + dfo))
               (UINTN (Frag.VirtualAddress sf + sfo)) t)).
  assert (He : CopiedBytes [e]
               = zip (BytesOf (Frag.VirtualAddress df + dfo) t)
                     (BytesOf (Frag.VirtualAddress sf + sfo) t)).
  { unfold e. rewrite CopiedBytes_buffer_call.
    rewrite !BytesOf_UINTN by lia. reflexivity. }
  rewrite (BufferRange_first df DRest dfo ByteCount t) by lia.
  rewrite (BufferRange_first sf SRest sfo ByteCount t) by lia.
  rewrite zip_with_app by (rewrite !BytesOf_length; reflexivity).
  rewrite <- He.
  destruct (Z.eq_dec t ByteCount) as [Hall|Hmore].
  - exists [e]. rewrite Hall, Z.sub_diag.
    split; [destruct n; reflexivity|].
    split; [rewrite app_nil_r; reflexivity|].
    constructor; [unfold e; eauto | constructor].
  - destruct (HinvD ltac:(lia))
      as (HsegD' & HmemD' & HsumD' & Hdfo' & HfitD' & HrangeD
          & HlenD & HlessD).
    destruct (HinvS ltac:(lia))
      as (HsegS' & HmemS' & HsumS' & Hsfo' & HfitS' & HrangeS
          & HlenS & HlessS).
    assert (Hless : (length DRest' + length SRest' < n)%nat).
    { assert (t = Frag.Size df - dfo \/ t = Frag.Size sf - sfo) as [Hd|Hs]
        by lia; [specialize (HlessD Hd) | specialize (HlessS Hs)]; lia. }
    destruct (IH DDone' df' DRest' dfo' SDone' sf' SRest' sfo' (ByteCount - t)
                (Calls ++ [e])
                HsegD' HmemD' ltac:(lia) Hdfo' HfitD'
                HsegS' HmemS' ltac:(lia) Hsfo' HfitS'
                ltac:(lia) Hless)
      as (New & Hrun & Hcopy & Hcalls).
    exists (e :: New).
    split; [rewrite Hrun, <- app_assoc; reflexivity|].
    split; [|constructor; [unfold e; eauto | exact Hcalls]].
    change (e :: New) with ([e] ++ New). rewrite CopiedBytes_app.
    rewrite Hcopy, HrangeD, HrangeS. reflexivity.
Qed.

Lemma BufferCopyCall_FoundMapped (d s : IO_BUFFER) (a a' t : Z) :
  BufferCopyCall (FoundMapped d) (FoundMapped s) a a' t
  = BufferCopyCall d s a a' t.
Proof.
  unfold BufferCopyCall.
  rewrite (proj2 (proj2 (FoundMapped_fragments d))).
  rewrite (proj2 (proj2 (FoundMapped_fragments s))).
  reflexivity.
Qed.

(** The search of [MmCopyIoBuffer] in one of its buffers, once the buffer
    is found mapped, and what the loop starts with on that side. *)
Lemma MmCopyIoBuffer_side_found (b : IO_BUFFER) (Offset n : Z) (k : Kernel)
    (First : IO_BUFFER_FRAGMENT) (l : list IO_BUFFER_FRAGMENT) :
  FragmentsInUse b = First :: l ->
  (Z.to_nat (Io.FragmentCount b) <= length (Io.Fragment b))%nat ->
  Io.FragmentCount b < 2 ^ UINTN_BITS ->
  Forall InMemory (First :: l) ->
  SizeOfFragments (First :: l) < 2 ^ UINTN_BITS ->
  0 <= Offset < SizeOfFragments (First :: l) ->
  0 <= n -> Offset + n <= SizeOfFragments (First :: l) ->
  exists (Skipped : list IO_BUFFER_FRAGMENT) (f : IO_BUFFER_FRAGMENT)
         (Rest : list IO_BUFFER_FRAGMENT),
    let Done := length Skipped in
    let fo := Offset - SizeOfFragments Skipped in
    First :: l = Skipped ++ f :: Rest /\
    MmCopyIoBuffer_find (Z.to_nat (Io.FragmentCount (FoundMapped b)))
      (FoundMapped b) Offset 0 0 None k
    = Some ((Some (Z.of_nat Done), Z.of_nat Done, fo), k) /\
    Z.of_nat Done <> Io.FragmentCount (FoundMapped b) /\
    TableHolds (FoundMapped b) Done (f :: Rest) /\
    Forall InMemory (f :: Rest) /\
    SizeOfFragments (f :: Rest) < 2 ^ UINTN_BITS /\
    0 <= fo < Frag.Size f /\
    fo + n <= SizeOfFragments (f :: Rest) /\
    BufferRange (f :: Rest) fo n = BufferRange (First :: l) Offset n /\
    (length Rest < length (Io.Fragment (FoundMapped b)))%nat.
Proof.
  intros Huse Htable Hsmall Hmem Hsum Hoff Hn Hfit.
  pose proof (FragmentsInUse_length b Htable) as Hlen.
  rewrite Huse in Hlen.
  destruct (FoundMapped_fragments b) as (Hfr & Hfc & _).
  rewrite Hfr, Hfc.
  assert (Hseg : TableHolds (FoundMapped b) 0 (First :: l)).
  { intros j g Hj. rewrite Hfr. apply FragmentsInUse_lookup.
    rewrite Huse. exact Hj. }
  destruct (MmCopyIoBuffer_find_run (FoundMapped b) Offset k (First :: l)
              (Z.to_nat (Io.FragmentCount b)) 0 0 None Hseg)
    as (Skipped & f & Rest & Hlist & Hrun & Hin);
    try lia; try (rewrite Hfc; cbn [length] in *; lia).
  { apply InMemory_sizes. exact Hmem. }
  change (Z.of_nat 0) with 0 in Hrun.
  rewrite Nat.add_0_l, Z.add_0_l in Hrun. rewrite Z.add_0_l in Hin.
  rewrite Hlist in Hmem, Hsum, Hfit, Hlen, Hseg.
  apply Forall_app in Hmem as [HmemS Hmem].
  pose proof (SizeOfFragments_nonneg _ (InMemory_sizes _ HmemS)) as HnnS.
  rewrite SizeOfFragments_app in Hsum, Hfit.
  rewrite length_app in Hlen. cbn [length] in Hlen.
  exists Skipped, f, Rest. cbv zeta.
  split; [exact Hlist|].
  split; [exact Hrun|]. split; [lia|].
  split.
  { intros j g Hj. apply (Hseg (length Skipped + j)%nat g).
    rewrite lookup_app_r by lia.
    replace (length Skipped + j - length Skipped)%nat with j by lia.
    exact Hj. }
  split; [exact Hmem|]. split; [lia|].
  cbn [SizeOfFragments] in *. split; [lia|]. split; [lia|].
  split; [|lia].
  rewrite Hlist, BufferRange_skip_all
    by (try apply InMemory_sizes; assumption || lia).
  reflexivity.
Qed.

(** What [MmCopyIoBuffer] does before its searches, for a copy within two
    buffers whose fragments are in memory. *)
Lemma MmCopyIoBuffer_searches_reached (Destination Source : IO_BUFFER)
    (DestinationOffset SourceOffset ByteCount : Z) (Calls : MemoryLog)
    (k : Kernel) (DFirst SFirst : IO_BUFFER_FRAGMENT)
    (Dl Sl : list IO_BUFFER_FRAGMENT) :
  let DOffset := DestinationOffset + Io.CurrentOffset Destination in
  let SOffset := SourceOffset + Io.CurrentOffset Source in
  let D := FoundMapped Destination in
  let S' := FoundMapped Source in
  FragmentsInUse Destination = DFirst :: Dl ->
  FragmentsInUse Source = SFirst :: Sl ->
  (Z.to_nat (Io.FragmentCount Destination)
   <= length (Io.Fragment Destination))%nat ->
  (Z.to_nat (Io.FragmentCount Source) <= length (Io.Fragment Source))%nat ->
  flag_set (Io.Flags Destination) IO_BUFFER_FLAG_USER_MODE
  && flag_set (Io.Flags Source) IO_BUFFER_FLAG_USER_MODE = false ->
  Forall InMemory (DFirst :: Dl) -> Forall InMemory (SFirst :: Sl) ->
  Io.TotalSize Destination < 2 ^ UINTN_BITS ->
  Io.TotalSize Source < 2 ^ UINTN_BITS ->
  0 <= DOffset -> 0 <= SOffset -> 0 <= ByteCount ->
  DOffset + ByteCount <= Io.TotalSize Destination ->
  SOffset + ByteCount <= Io.TotalSize Source ->
  MmCopyIoBuffer Destination DestinationOffset Source SourceOffset ByteCount
    Calls k
  = (dst <- MmCopyIoBuffer_find (Z.to_nat (Io.FragmentCount D)) D DOffset 0 0
              None ;;
     DestinationFragment <-
       match fst (fst dst) with Some f => ret f | None => stop end ;;
     ASSERT (negb (snd (fst dst) =? Io.FragmentCount D)) ;;
     src <- MmCopyIoBuffer_find (Z.to_nat (Io.FragmentCount S')) S' SOffset
              0 0 None ;;
     SourceFragment <-
       match fst (fst src) with Some f => ret f | None => stop end ;;
     ASSERT (negb (snd (fst src) =? Io.FragmentCount S')) ;;
     d <- read (Io.Fragment D) DestinationFragment ;;
     s <- read (Io.Fragment S') SourceFragment ;;
     z <- MmCopyIoBuffer_loop
            (S (length (Io.Fragment D) + length (Io.Fragment S')))
            D S' STATUS_SUCCESS ByteCount
            DestinationFragment (snd dst) (UINTN (Frag.Size d - snd dst))
            SourceFragment (snd src) (UINTN (Frag.Size s - snd src)) Calls ;;
     ret (mkCopied (fst z) D S' (snd z))) k.
Proof.
  intros DOffset SOffset D S' HuseD HuseS HtableD HtableS Hnotboth HmemD HmemS
    HmaxD HmaxS HDO HSO Hbytes HDfit HSfit.
  destruct (InMemory_mapped DFirst Dl HmemD) as (HmappedD & HptrD & _).
  destruct (InMemory_mapped SFirst Sl HmemS) as (HmappedS & HptrS & _).
  unfold MmCopyIoBuffer. cbv zeta. fold DOffset SOffset.
  rewrite (UINTN_small DOffset), (UINTN_small SOffset) by lia.
  rewrite (UINTN_small (DOffset + ByteCount)),
    (UINTN_small (SOffset + ByteCount)) by lia.
  destruct (Z.leb_spec (SOffset + ByteCount) (Io.TotalSize Source))
    as [_|?]; [|lia].
  unfold bind at 1. unfold ASSERT at 1.
  destruct (Z.leb_spec (DOffset + ByteCount) (Io.TotalSize Destination))
    as [_|?]; [|lia].
  rewrite orb_true_r. unfold bind at 1. unfold ASSERT at 1.
  destruct (Z.ltb_spec (Io.TotalSize Destination) (DOffset + ByteCount))
    as [?|_]; [lia|].
  rewrite andb_false_r.
  unfold bind at 1. unfold ret at 1. cbn [fst snd KSUCCESS negb].
  assert (Hassert : (Z.land (Io.Flags Destination) IO_BUFFER_FLAG_USER_MODE
                     =? 0)
                    || (Z.land (Io.Flags Source) IO_BUFFER_FLAG_USER_MODE
                        =? 0) = true).
  { unfold flag_set in Hnotboth.
    destruct (Z.land (Io.Flags Destination) IO_BUFFER_FLAG_USER_MODE =? 0);
      destruct (Z.land (Io.Flags Source) IO_BUFFER_FLAG_USER_MODE =? 0);
      (reflexivity || discriminate Hnotboth). }
  rewrite Hassert. unfold bind at 1. unfold ASSERT at 1.
  unfold bind at 1.
  rewrite (proj1 (MmMapIoBuffer_mapped_run Destination false false false
                    Calls k DFirst Dl HuseD HtableD HptrD) HmappedD).
  fold (FoundMapped Destination).
  cbn [m_Status m_IoBuffer m_Calls KSUCCESS negb].
  unfold bind at 1.
  rewrite (proj1 (MmMapIoBuffer_mapped_run Source false false false
                    Calls k SFirst Sl HuseS HtableS HptrS) HmappedS).
  fold (FoundMapped Source).
  cbn [m_Status m_IoBuffer m_Calls KSUCCESS negb].
  reflexivity.
Qed.

(** What [MmCopyIoBuffer] does before its loop, once the searches have
    found their fragments. *)
Lemma MmCopyIoBuffer_loop_reached (Destination Source : IO_BUFFER)
    (DestinationOffset SourceOffset ByteCount : Z) (Calls : MemoryLog)
    (k : Kernel) (DFirst SFirst : IO_BUFFER_FRAGMENT)
    (Dl Sl : list IO_BUFFER_FRAGMENT)
    (DDone SDone : nat) (df sf : IO_BUFFER_FRAGMENT) (dfo sfo : Z) :
  let DOffset := DestinationOffset + Io.CurrentOffset Destination in
  let SOffset := SourceOffset + Io.CurrentOffset Source in
  FragmentsInUse Destination = DFirst :: Dl ->
  FragmentsInUse Source = SFirst :: Sl ->
  (Z.to_nat (Io.FragmentCount Destination)
   <= length (Io.Fragment Destination))%nat ->
  (Z.to_nat (Io.FragmentCount Source) <= length (Io.Fragment Source))%nat ->
  flag_set (Io.Flags Destination) IO_BUFFER_FLAG_USER_MODE
  && flag_set (Io.Flags Source) IO_BUFFER_FLAG_USER_MODE = false ->
  Forall InMemory (DFirst :: Dl) -> Forall InMemory (SFirst :: Sl) ->
  Io.TotalSize Destination < 2 ^ UINTN_BITS ->
  Io.TotalSize Source < 2 ^ UINTN_BITS ->
  0 <= DOffset -> 0 <= SOffset -> 0 <= ByteCount ->
  DOffset + ByteCount <= Io.TotalSize Destination ->
  SOffset + ByteCount <= Io.TotalSize Source ->
  MmCopyIoBuffer_find (Z.to_nat (Io.FragmentCount (FoundMapped Destination)))
    (FoundMapped Destination) DOffset 0 0 None k
  = Some ((Some (Z.of_nat DDone), Z.of_nat DDone, dfo), k) ->
  Z.of_nat DDone <> Io.FragmentCount (FoundMapped Destination) ->
  Io.Fragment (FoundMapped Destination) !! DDone = Some df ->
  0 <= dfo <= Frag.Size df -> Frag.Size df < 2 ^ UINTN_BITS ->
  MmCopyIoBuffer_find (Z.to_nat (Io.FragmentCount (FoundMapped Source)))
    (FoundMapped Source) SOffset 0 0 None k
  = Some ((Some (Z.of_nat SDone), Z.of_nat SDone, sfo), k) ->
  Z.of_nat SDone <> Io.FragmentCount (FoundMapped Source) ->
  Io.Fragment (FoundMapped Source) !! SDone = Some sf ->
  0 <= sfo <= Frag.Size sf -> Frag.Size sf < 2 ^ UINTN_BITS ->
  MmCopyIoBuffer Destination DestinationOffset Source SourceOffset ByteCount
    Calls k
  = match MmCopyIoBuffer_loop
            (S (length (Io.Fragment (FoundMapped Destination))
                + length (Io.Fragment (FoundMapped Source))))
            (FoundMapped Destination) (FoundMapped Source) STATUS_SUCCESS
            ByteCount (Z.of_nat DDone) dfo (Frag.Size df - dfo)
            (Z.of_nat SDone) sfo (Frag.Size sf - sfo) Calls k with
    | Some (z, k') =>
        Some (mkCopied (fst z) (FoundMapped Destination) (FoundMapped Source)
                (snd z), k')
    | None => None
    end.
Proof.
  intros DOffset SOffset HuseD HuseS HtableD HtableS Hnotboth HmemD HmemS
    HmaxD HmaxS HDO HSO Hbytes HDfit HSfit
    HfindD HidxD HdfD Hdfo HdfS HfindS HidxS HsfS Hsfo HsfS'.
  rewrite (MmCopyIoBuffer_searches_reached Destination Source
             DestinationOffset SourceOffset ByteCount Calls k DFirst SFirst
             Dl Sl HuseD HuseS HtableD HtableS Hnotboth HmemD HmemS HmaxD
             HmaxS HDO HSO Hbytes HDfit HSfit).
  fold DOffset SOffset.
  unfold bind at 1. rewrite HfindD. cbn [fst snd].
  unfold bind at 1. unfold ret at 1.
  destruct (Z.eqb_spec (Z.of_nat DDone)
              (Io.FragmentCount (FoundMapped Destination))) as [?|_];
    [contradiction|].
  unfold bind at 1. unfold ASSERT at 1. cbn [negb].
  unfold bind at 1. rewrite HfindS. cbn [fst snd].
  unfold bind at 1. unfold ret at 1.
  destruct (Z.eqb_spec (Z.of_nat SDone)
              (Io.FragmentCount (FoundMapped Source))) as [?|_];
    [contradiction|].
  unfold bind at 1. unfold ASSERT at 1. cbn [negb].
  unfold bind at 1. unfold read at 1. rewrite Nat2Z.id, HdfD.
  unfold bind at 1. unfold read at 1. rewrite Nat2Z.id, HsfS.
  rewrite (UINTN_small (Frag.Size df - dfo)) by lia.
  rewrite (UINTN_small (Frag.Size sf - sfo)) by lia.
  unfold bind at 1. unfold ret. reflexivity.
Qed.

(** The size loaded through a pointer that has left its table is not
    used: with the pointer of the destination or of the source outside its
    table, the loop returns at once when no byte is left and ends the run
    otherwise, whatever the sizes it holds. *)
Lemma MmCopyIoBuffer_loop_outside (n : nat) (d s : IO_BUFFER)
    (Status : KSTATUS) (ByteCount DF dfo MaxD SF sfo MaxS : Z)
    (Calls : MemoryLog) (k : Kernel) :
  Io.Fragment d !! Z.to_nat DF = None \/ Io.Fragment s !! Z.to_nat SF = None ->
  MmCopyIoBuffer_loop n d s Status ByteCount DF dfo MaxD SF sfo MaxS Calls k
  = if ByteCount =? 0 then Some ((Status, Calls), k) else None.
Proof.
  intros Hout.
  destruct n as [|n]; cbn [MmCopyIoBuffer_loop];
    destruct (ByteCount =? 0); try reflexivity.
  cbv zeta. unfold bind at 1. unfold read at 1.
  destruct (Io.Fragment d !! Z.to_nat DF) as [df|] eqn:Hd; [|reflexivity].
  destruct Hout as [Hout|Hout]; [discriminate Hout|].
  unfold bind at 1. unfold ASSERT at 1.
  destruct (negb (Frag.VirtualAddress df =? NULL)); [|reflexivity].
  unfold bind at 1. unfold read at 1. rewrite Hout. reflexivity.
Qed.

(** X25.  Take two buffers, not both of user mode, whose fragments are all
    in memory and hold their total sizes, and a copy of [ByteCount] bytes
    that begins within both buffers, ends within both, and stays clear of
    the end of both fragment tables.  When the copies from and to user mode
    succeed (two kernel buffers need none), the copy succeeds and leaves
    the kernel as it was, and its calls copy byte
    [SourceOffset + CurrentOffset + i] of the source to byte
    [DestinationOffset + CurrentOffset + i] of the destination, in order
    and each once.  Both buffers come back marked as mapped. *)
Theorem copy_between_buffers (Destination Source : IO_BUFFER)
    (DestinationOffset SourceOffset ByteCount : Z) (Calls : MemoryLog)
    (k : Kernel) (DFirst SFirst : IO_BUFFER_FRAGMENT)
    (Dl Sl : list IO_BUFFER_FRAGMENT) :
  let DOffset := DestinationOffset + Io.CurrentOffset Destination in
  let SOffset := SourceOffset + Io.CurrentOffset Source in
  FragmentsInUse Destination = DFirst :: Dl ->
  FragmentsInUse Source = SFirst :: Sl ->
  (Z.to_nat (Io.FragmentCount Destination)
   <= length (Io.Fragment Destination))%nat ->
  (Z.to_nat (Io.FragmentCount Source) <= length (Io.Fragment Source))%nat ->
  Io.FragmentCount Destination < 2 ^ UINTN_BITS ->
  Io.FragmentCount Source < 2 ^ UINTN_BITS ->
  flag_set (Io.Flags Destination) IO_BUFFER_FLAG_USER_MODE
  && flag_set (Io.Flags Source) IO_BUFFER_FLAG_USER_MODE = false ->
  (flag_set (Io.Flags Destination) IO_BUFFER_FLAG_USER_MODE
   || flag_set (Io.Flags Source) IO_BUFFER_FLAG_USER_MODE = true ->
   UserCopy k = STATUS_SUCCESS) ->
  Forall InMemory (DFirst :: Dl) -> Forall InMemory (SFirst :: Sl) ->
  Io.TotalSize Destination = SizeOfFragments (DFirst :: Dl) ->
  Io.TotalSize Source = SizeOfFragments (SFirst :: Sl) ->
  Io.TotalSize Destination < 2 ^ UINTN_BITS ->
  Io.TotalSize Source < 2 ^ UINTN_BITS ->
  0 <= DestinationOffset -> 0 <= Io.CurrentOffset Destination ->
  0 <= SourceOffset -> 0 <= Io.CurrentOffset Source -> 0 <= ByteCount ->
  DOffset < Io.TotalSize Destination ->
  DOffset + ByteCount <= Io.TotalSize Destination ->
  SOffset < Io.TotalSize Source ->
  SOffset + ByteCount <= Io.TotalSize Source ->
  ClearOfTableEnd Destination DOffset ByteCount ->
  ClearOfTableEnd Source SOffset ByteCount ->
  exists New,
    MmCopyIoBuffer Destination DestinationOffset Source SourceOffset ByteCount
      Calls k
    = Some (mkCopied STATUS_SUCCESS (FoundMapped Destination)
              (FoundMapped Source) (Calls ++ New), k) /\
    CopiedBytes New
    = zip (BufferRange (DFirst :: Dl) DOffset ByteCount)
          (BufferRange (SFirst :: Sl) SOffset ByteCount) /\
    Forall (fun c => exists DestinationVirtualAddress SourceVirtualAddress
                            Bytes,
              c = (length (Log k),
                   BufferCopyCall Destination Source
                     DestinationVirtualAddress SourceVirtualAddress Bytes))
      New.
Proof.
  intros DOffset SOffset HuseD HuseS HtableD HtableS HsmallD HsmallS Hnotboth
    Huser HmemD HmemS HtotalD HtotalS HmaxD HmaxS HDO HDcur HSO HScur Hbytes
    HDin HDfit HSin HSfit HDclear HSclear.
  destruct (MmCopyIoBuffer_side_found Destination DOffset ByteCount k DFirst
              Dl HuseD HtableD HsmallD HmemD ltac:(lia) ltac:(lia) Hbytes
              ltac:(lia))
    as (DSkipped & df & DRest & _ & HfindD & HidxD & HsegD & HmemD' & HsumD
        & Hdfo & HfitD & HrangeD & HlenD).
  destruct (MmCopyIoBuffer_side_found Source SOffset ByteCount k SFirst
              Sl HuseS HtableS HsmallS HmemS ltac:(lia) ltac:(lia) Hbytes
              ltac:(lia))
    as (SSkipped & sf & SRest & _ & HfindS & HidxS & HsegS & HmemS' & HsumS
        & Hsfo & HfitS & HrangeS & HlenS).
  remember (length DSkipped) as DDone eqn:HDDone.
  remember (length SSkipped) as SDone eqn:HSDone.
  remember (DOffset - SizeOfFragments DSkipped) as dfo eqn:Hdfodef.
  remember (SOffset - SizeOfFragments SSkipped) as sfo eqn:Hsfodef.
  destruct (FoundMapped_fragments Destination) as (HfrD & HfcD & HfuD).
  destruct (FoundMapped_fragments Source) as (HfrS & HfcS & HfuS).
  destruct (MmCopyIoBuffer_loop_run (FoundMapped Destination)
              (FoundMapped Source) k
              ltac:(rewrite HfuD, HfuS; exact Huser)
              (S (length (Io.Fragment (FoundMapped Destination))
                  + length (Io.Fragment (FoundMapped Source))))
              DDone df DRest dfo SDone sf SRest sfo ByteCount Calls
              HsegD HmemD' HsumD ltac:(lia) HfitD
              HsegS HmemS' HsumS ltac:(lia) HfitS Hbytes ltac:(lia))
    as (New & Hrun & Hcopy & Hcalls).
  pose proof (HsegD 0%nat df eq_refl) as HdfD.
  pose proof (HsegS 0%nat sf eq_refl) as HsfS.
  rewrite Nat.add_0_r in HdfD, HsfS.
  pose proof (SizeOfFragments_nonneg _
                (InMemory_sizes _ (Forall_inv_tail HmemD'))) as HnnD.
  pose proof (SizeOfFragments_nonneg _
                (InMemory_sizes _ (Forall_inv_tail HmemS'))) as HnnS.
  cbn [SizeOfFragments] in HsumD, HsumS.
  exists New. split; [|split].
  - rewrite (MmCopyIoBuffer_loop_reached Destination Source DestinationOffset
               SourceOffset ByteCount Calls k DFirst SFirst Dl Sl DDone SDone
               df sf dfo sfo HuseD HuseS HtableD HtableS Hnotboth HmemD HmemS
               HmaxD HmaxS ltac:(subst DOffset; lia) ltac:(subst SOffset; lia)
               Hbytes HDfit HSfit HfindD HidxD HdfD ltac:(lia) ltac:(lia)
               HfindS HidxS HsfS ltac:(lia) ltac:(lia)).
    rewrite Hrun. reflexivity.
  - rewrite Hcopy, HrangeD, HrangeS. reflexivity.
  - eapply Forall_impl; [exact Hcalls|]. intros c (a & a' & t & ->).
    rewrite BufferCopyCall_FoundMapped. eauto.
Qed.

(** X26.  The same copy without the condition on the ends of the tables.
    When the copy ends with the last byte of a buffer whose table has no
    slot after the fragments in use, lines 1709-1716 or 1720-1727 move the
    pointer to the slot after the table and load a size there; no byte is
    left to copy, the size is not used, and the copy returns
    STATUS_SUCCESS with the same bytes copied as anywhere else in the
    buffers. *)
Theorem copy_to_end_of_table (Destination Source : IO_BUFFER)
    (DestinationOffset SourceOffset ByteCount : Z) (Calls : MemoryLog)
    (k : Kernel) (DFirst SFirst : IO_BUFFER_FRAGMENT)
    (Dl Sl : list IO_BUFFER_FRAGMENT) :
  let DOffset := DestinationOffset + Io.CurrentOffset Destination in
  let SOffset := SourceOffset + Io.CurrentOffset Source in
  FragmentsInUse Destination = DFirst :: Dl ->
  FragmentsInUse Source = SFirst :: Sl ->
  (Z.to_nat (Io.FragmentCount Destination)
   <= length (Io.Fragment Destination))%nat ->
  (Z.to_nat (Io.FragmentCount Source) <= length (Io.Fragment Source))%nat ->
  Io.FragmentCount Destination < 2 ^ UINTN_BITS ->
  Io.FragmentCount Source < 2 ^ UINTN_BITS ->
  flag_set (Io.Flags Destination) IO_BUFFER_FLAG_USER_MODE
  && flag_set (Io.Flags Source) IO_BUFFER_FLAG_USER_MODE = false ->
  (flag_set (Io.Flags Destination) IO_BUFFER_FLAG_USER_MODE
   || flag_set (Io.Flags Source) IO_BUFFER_FLAG_USER_MODE = true ->
   UserCopy k = STATUS_SUCCESS) ->
  Forall InMemory (DFirst :: Dl) -> Forall InMemory (SFirst :: Sl) ->
  Io.TotalSize Destination = SizeOfFragments (DFirst :: Dl) ->
  Io.TotalSize Source = SizeOfFragments (SFirst :: Sl) ->
  Io.TotalSize Destination < 2 ^ UINTN_BITS ->
  Io.TotalSize Source < 2 ^ UINTN_BITS ->
  0 <= DestinationOffset -> 0 <= Io.CurrentOffset Destination ->
  0 <= SourceOffset -> 0 <= Io.CurrentOffset Source -> 0 <= ByteCount ->
  DOffset < Io.TotalSize Destination ->
  DOffset + ByteCount <= Io.TotalSize Destination ->
  SOffset < Io.TotalSize Source ->
  SOffset + ByteCount <= Io.TotalSize Source ->
  exists New,
    MmCopyIoBuffer Destination DestinationOffset Source SourceOffset ByteCount
      Calls k
    = Some (mkCopied STATUS_SUCCESS (FoundMapped Destination)
              (FoundMapped Source) (Calls ++ New), k) /\
    CopiedBytes New
    = zip (BufferRange (DFirst :: Dl) DOffset ByteCount)
          (BufferRange (SFirst :: Sl) SOffset ByteCount) /\
    Forall (fun c => exists DestinationVirtualAddress SourceVirtualAddress
                            Bytes,
              c = (length (Log k),
                   BufferCopyCall Destination Source
                     DestinationVirtualAddress SourceVirtualAddress Bytes))
      New.
Proof.
  intros DOffset SOffset HuseD HuseS HtableD HtableS HsmallD HsmallS Hnotboth
    Huser HmemD HmemS HtotalD HtotalS HmaxD HmaxS HDO HDcur HSO HScur Hbytes
    HDin HDfit HSin HSfit.
  destruct (MmCopyIoBuffer_side_found Destination DOffset ByteCount k DFirst
              Dl HuseD HtableD HsmallD HmemD ltac:(lia) ltac:(lia) Hbytes
              ltac:(lia))
    as (DSkipped & df & DRest & _ & HfindD & HidxD & HsegD & HmemD' & HsumD
        & Hdfo & HfitD & HrangeD & HlenD).
  destruct (MmCopyIoBuffer_side_found Source SOffset ByteCount k SFirst
              Sl HuseS HtableS HsmallS HmemS ltac:(lia) ltac:(lia) Hbytes
              ltac:(lia))
    as (SSkipped & sf & SRest & _ & HfindS & HidxS & HsegS & HmemS' & HsumS
        & Hsfo & HfitS & HrangeS & HlenS).
  remember (length DSkipped) as DDone eqn:HDDone.
  remember (length SSkipped) as SDone eqn:HSDone.
  remember (DOffset - SizeOfFragments DSkipped) as dfo eqn:Hdfodef.
  remember (SOffset - SizeOfFragments SSkipped) as sfo eqn:Hsfodef.
  destruct (FoundMapped_fragments Destination) as (HfrD & HfcD & HfuD).
  destruct (FoundMapped_fragments Source) as (HfrS & HfcS & HfuS).
  destruct (MmCopyIoBuffer_loop_run (FoundMapped Destination)
              (FoundMapped Source) k
              ltac:(rewrite HfuD, HfuS; exact Huser)
              (S (length (Io.Fragment (FoundMapped Destination))
                  + length (Io.Fragment (FoundMapped Source))))
              DDone df DRest dfo SDone sf SRest sfo ByteCount Calls
              HsegD HmemD' HsumD ltac:(lia) HfitD
              HsegS HmemS' HsumS ltac:(lia) HfitS Hbytes ltac:(lia))
    as (New & Hrun & Hcopy & Hcalls).
  pose proof (HsegD 0%nat df eq_refl) as HdfD.
  pose proof (HsegS 0%nat sf eq_refl) as HsfS.
  rewrite Nat.add_0_r in HdfD, HsfS.
  pose proof (SizeOfFragments_nonneg _
                (InMemory_sizes _ (Forall_inv_tail HmemD'))) as HnnD.
  pose proof (SizeOfFragments_nonneg _
                (InMemory_sizes _ (Forall_inv_tail HmemS'))) as HnnS.
  cbn [SizeOfFragments] in HsumD, HsumS.
  exists New. split; [|split].
  - rewrite (MmCopyIoBuffer_loop_reached Destination Source DestinationOffset
               SourceOffset ByteCount Calls k DFirst SFirst Dl Sl DDone SDone
               df sf dfo sfo HuseD HuseS HtableD HtableS Hnotboth HmemD HmemS
               HmaxD HmaxS ltac:(subst DOffset; lia) ltac:(subst SOffset; lia)
               Hbytes HDfit HSfit HfindD HidxD HdfD ltac:(lia) ltac:(lia)
               HfindS HidxS HsfS ltac:(lia) ltac:(lia)).
    rewrite Hrun. reflexivity.
  - rewrite Hcopy, HrangeD, HrangeS. reflexivity.
  - eapply Forall_impl; [exact Hcalls|]. intros c (a & a' & t & ->).
    rewrite BufferCopyCall_FoundMapped. eauto.
Qed.

(** The search of [MmCopyIoBuffer] for an offset at or past the last byte
    of the fragments: it looks at them all and finds none. *)
Lemma MmCopyIoBuffer_find_none (b : IO_BUFFER) (Offset : Z) (k : Kernel)
    (Rest : list IO_BUFFER_FRAGMENT) :
  forall (n Done : nat) (cum : Z) (last : option Z),
    TableHolds b Done Rest ->
    Io.FragmentCount b = Z.of_nat (Done + length Rest) ->
    Io.FragmentCount b < 2 ^ UINTN_BITS ->
    Forall (fun f => 0 <= Frag.Size f) Rest ->
    0 <= cum -> cum + SizeOfFragments Rest <= Offset ->
    Offset < 2 ^ UINTN_BITS ->
    (length Rest <= n)%nat ->
    exists last',
      MmCopyIoBuffer_find n b Offset (Z.of_nat Done) cum last k
      = Some ((last', Io.FragmentCount b, cum + SizeOfFragments Rest), k).
Proof.
  induction Rest as [|f Rest IH];
    intros n Done cum last Hseg Hcount Hsmall Hsizes Hcum Hoff Hmax Hfuel.
  - cbn [length SizeOfFragments] in *. exists last.
    rewrite Nat.add_0_r in Hcount. rewrite <- Hcount, Z.add_0_r.
    destruct n; cbn [MmCopyIoBuffer_find]; rewrite Z.ltb_irrefl; reflexivity.
  - apply Forall_cons in Hsizes as [Hf Hsizes].
    pose proof (SizeOfFragments_nonneg Rest Hsizes) as Hrest.
    destruct n as [|n]; [cbn [length] in Hfuel; lia|].
    cbn [length] in Hfuel, Hcount. cbn [SizeOfFragments] in Hoff.
    cbn [MmCopyIoBuffer_find SizeOfFragments].
    destruct (Z.ltb_spec (Z.of_nat Done) (Io.FragmentCount b)) as [_|?];
      [|lia].
    unfold bind at 1. unfold read at 1. rewrite Nat2Z.id.
    pose proof (Hseg 0%nat f eq_refl) as H0.
    rewrite Nat.add_0_r in H0. rewrite H0.
    rewrite (UINTN_small (cum + Frag.Size f)) by lia.
    destruct (Z.ltb_spec Offset (cum + Frag.Size f)) as [?|_]; [lia|].
    rewrite (UINTN_small (Z.of_nat Done + 1)) by lia.
    replace (Z.of_nat Done + 1) with (Z.of_nat (S Done)) by lia.
    destruct (IH n (S Done) (cum + Frag.Size f) (Some (Z.of_nat Done)))
      as (last' & Hrun); try lia; try assumption.
    { intros j g Hj. replace (S Done + j)%nat with (Done + S j)%nat by lia.
      apply Hseg. exact Hj. }
    exists last'. rewrite Hrun. do 3 f_equal. lia.
Qed.

(** The same search in a buffer found mapped, for the offset of its last
    byte and one more. *)
Lemma MmCopyIoBuffer_side_not_found (b : IO_BUFFER) (k : Kernel)
    (First : IO_BUFFER_FRAGMENT) (l : list IO_BUFFER_FRAGMENT) :
  FragmentsInUse b = First :: l ->
  (Z.to_nat (Io.FragmentCount b) <= length (Io.Fragment b))%nat ->
  Io.FragmentCount b < 2 ^ UINTN_BITS ->
  Forall InMemory (First :: l) ->
  SizeOfFragments (First :: l) < 2 ^ UINTN_BITS ->
  exists last fo,
    MmCopyIoBuffer_find (Z.to_nat (Io.FragmentCount (FoundMapped b)))
      (FoundMapped b) (SizeOfFragments (First :: l)) 0 0 None k
    = Some ((last, Io.FragmentCount (FoundMapped b), fo), k).
Proof.
  intros Huse Htable Hsmall Hmem Hsum.
  pose proof (FragmentsInUse_length b Htable) as Hlen.
  rewrite Huse in Hlen.
  destruct (FoundMapped_fragments b) as (Hfr & Hfc & _).
  pose proof (SizeOfFragments_nonneg _ (InMemory_sizes _ Hmem)) as Hnn.
  destruct (MmCopyIoBuffer_find_none (FoundMapped b)
              (SizeOfFragments (First :: l)) k (First :: l)
              (Z.to_nat (Io.FragmentCount (FoundMapped b))) 0 0 None)
    as (last & Hrun); try lia;
    try (rewrite Hfc; cbn [length] in *; lia).
  { intros j g Hj. rewrite Hfr. apply FragmentsInUse_lookup.
    rewrite Huse. exact Hj. }
  { apply InMemory_sizes. exact Hmem. }
  change (Z.of_nat 0) with 0 in Hrun. eauto.
Qed.

(** X27.  Take two buffers as before.  A copy of no bytes that begins at the
    end of the destination or of the source, where the cursor of a buffer
    that was worked through stands, finds no fragment for that offset in
    the search of lines 1620-1635 or 1642-1653, and the assertion after the
    search fails: [MmCopyIoBuffer] does not return. *)
Theorem copy_nothing_at_end (Destination Source : IO_BUFFER)
    (DestinationOffset SourceOffset : Z) (Calls : MemoryLog)
    (k : Kernel) (DFirst SFirst : IO_BUFFER_FRAGMENT)
    (Dl Sl : list IO_BUFFER_FRAGMENT) :
  let DOffset := DestinationOffset + Io.CurrentOffset Destination in
  let SOffset := SourceOffset + Io.CurrentOffset Source in
  FragmentsInUse Destination = DFirst :: Dl ->
  FragmentsInUse Source = SFirst :: Sl ->
  (Z.to_nat (Io.FragmentCount Destination)
   <= length (Io.Fragment Destination))%nat ->
  (Z.to_nat (Io.FragmentCount Source) <= length (Io.Fragment Source))%nat ->
  Io.FragmentCount Destination < 2 ^ UINTN_BITS ->
  Io.FragmentCount Source < 2 ^ UINTN_BITS ->
  flag_set (Io.Flags Destination) IO_BUFFER_FLAG_USER_MODE
  && flag_set (Io.Flags Source) IO_BUFFER_FLAG_USER_MODE = false ->
  Forall InMemory (DFirst :: Dl) -> Forall InMemory (SFirst :: Sl) ->
  Io.TotalSize Destination = SizeOfFragments (DFirst :: Dl) ->
  Io.TotalSize Source = SizeOfFragments (SFirst :: Sl) ->
  Io.TotalSize Destination < 2 ^ UINTN_BITS ->
  Io.TotalSize Source < 2 ^ UINTN_BITS ->
  0 <= DestinationOffset -> 0 <= Io.CurrentOffset Destination ->
  0 <= SourceOffset -> 0 <= Io.CurrentOffset Source ->
  DOffset <= Io.TotalSize Destination ->
  SOffset <= Io.TotalSize Source ->
  DOffset = Io.TotalSize Destination \/ SOffset = Io.TotalSize Source ->
  MmCopyIoBuffer Destination DestinationOffset Source SourceOffset 0 Calls k
  = None.
Proof.
  intros DOffset SOffset HuseD HuseS HtableD HtableS HsmallD HsmallS Hnotboth
    HmemD HmemS HtotalD HtotalS HmaxD HmaxS HDO HDcur HSO HScur HDfit HSfit
    Hend.
  rewrite (MmCopyIoBuffer_searches_reached Destination Source
             DestinationOffset SourceOffset 0 Calls k DFirst SFirst
             Dl Sl HuseD HuseS HtableD HtableS Hnotboth HmemD HmemS HmaxD
             HmaxS ltac:(subst DOffset; lia) ltac:(subst SOffset; lia)
             ltac:(lia) ltac:(fold DOffset; lia) ltac:(fold SOffset; lia)).
  fold DOffset SOffset.
  destruct (Z.eq_dec DOffset (Io.TotalSize Destination)) as [HD|HD].
  - destruct (MmCopyIoBuffer_side_not_found Destination k DFirst Dl HuseD
                HtableD HsmallD HmemD ltac:(lia)) as (last & fo & Hfind).
    rewrite HD, HtotalD.
    unfold bind at 1. rewrite Hfind. cbn [fst snd].
    destruct last as [f|]; [|reflexivity].
    unfold bind at 1. unfold ret at 1.
    rewrite Z.eqb_refl. reflexivity.
  - destruct Hend as [?|HS]; [contradiction|].
    destruct (MmCopyIoBuffer_side_found Destination DOffset 0 k DFirst
                Dl HuseD HtableD HsmallD HmemD ltac:(lia)
                ltac:(subst DOffset; lia) ltac:(lia) ltac:(lia))
      as (DSkipped & df & DRest & _ & HfindD & HidxD & _).
    destruct (MmCopyIoBuffer_side_not_found Source k SFirst Sl HuseS
                HtableS HsmallS HmemS ltac:(lia)) as (last & fo & Hfind).
    unfold bind at 1. rewrite HfindD. cbn [fst snd].
    unfold bind at 1. unfold ret at 1.
    destruct (Z.eqb_spec (Z.of_nat (length DSkipped))
                (Io.FragmentCount (FoundMapped Destination))) as [?|_];
      [contradiction|].
    unfold bind at 1. unfold ASSERT at 1. cbn [negb].
    rewrite HS, HtotalS.
    unfold bind at 1. rewrite Hfind. cbn [fst snd].
    destruct last as [f|]; [|reflexivity].
    unfold bind at 1. unfold ret at 1.
    rewrite Z.eqb_refl. reflexivity.
Qed.
End Properties.


(** * The scenarios *)

Section Scenarios.

#[local] Existing Instance Machine32.

(** The cursor law on three moves over [TwoFragments], the last of them to
    the very end. *)
Lemma cursor_law_witness :
  let calls := [Advance 0x1000; Rewind 0x1800; Advance 0x3000] in
  let b' := Io.set_CurrentOffset 0x3000 TwoFragments in
  Io.TotalSize TwoFragments < 2 ^ UINTN_BITS /\
  0 <= Io.CurrentOffset TwoFragments <= Io.TotalSize TwoFragments /\
  CursorStays calls (Io.CurrentOffset TwoFragments)
    (Io.TotalSize TwoFragments) = true /\
  CursorCalls calls TwoFragments Kernel32 = Some (b', Kernel32) /\
  0 <= Io.CurrentOffset b' <= Io.TotalSize b' /\
  Io.TotalSize b' = Io.TotalSize TwoFragments /\
  MmGetIoBufferSize b' = Io.TotalSize b' - Io.CurrentOffset b'.
Proof.
  intros calls b'.
  assert (H1 : Io.TotalSize TwoFragments < 2 ^ UINTN_BITS) by (vm_compute; reflexivity).
  assert (H2 : 0 <= Io.CurrentOffset TwoFragments <= Io.TotalSize TwoFragments)
    by (vm_compute; split; discriminate).
  assert (H3 : CursorStays calls (Io.CurrentOffset TwoFragments)
                 (Io.TotalSize TwoFragments) = true) by (vm_compute; reflexivity).
  exact (conj H1 (conj H2 (conj H3
           (cursor_law calls TwoFragments Kernel32 H1 H2 H3)))).
Defined.

(** C4, the claim as stated: an advance of 0x3000 bytes on [TwoFragments],
    whose cursor stands at 0x800 of 0x3000 bytes, is a sequence of one call
    on a buffer with its cursor inside it.  The addition of line 2714 moves
    the cursor to 0x3800, past the end; nothing clamps or refuses it, and
    the assertion of line 2715 is all that notices. *)
Lemma cursor_leaves_buffer :
  0 <= Io.CurrentOffset TwoFragments <= Io.TotalSize TwoFragments /\
  UINTN (Io.CurrentOffset TwoFragments + 0x3000) = 0x3800 /\
  Io.TotalSize TwoFragments = 0x3000 /\
  CursorCalls [Advance 0x3000] TwoFragments Kernel32 = None.
Proof.
  split; [vm_compute; split; discriminate|].
  split; [vm_compute; reflexivity|].
  split; vm_compute; reflexivity.
Qed.

(** The physical address inside the second fragment of [TwoFragments], and
    past its end. *)
Lemma physical_address_at_witness :
  (Z.to_nat (Io.FragmentCount TwoFragments)
   <= length (Io.Fragment TwoFragments))%nat /\
  Forall (fun f => 0 <= Frag.Size f) (FragmentsInUse TwoFragments) /\
  SizeOfFragments (FragmentsInUse TwoFragments) < 2 ^ UINTN_BITS /\
  MmGetIoBufferPhysicalAddress TwoFragments 0x900 Kernel32
  = Some (0x30100, Kernel32) /\
  MmGetIoBufferPhysicalAddress TwoFragments 0x2800 Kernel32
  = Some (INVALID_PHYSICAL_ADDRESS, Kernel32).
Proof.
  assert (H1 : (Z.to_nat (Io.FragmentCount TwoFragments)
                <= length (Io.Fragment TwoFragments))%nat)
    by (vm_compute; lia).
  assert (H2 : Forall (fun f => 0 <= Frag.Size f) (FragmentsInUse TwoFragments))
    by (repeat constructor; vm_compute; discriminate).
  assert (H3 : SizeOfFragments (FragmentsInUse TwoFragments) < 2 ^ UINTN_BITS)
    by (vm_compute; reflexivity).
  refine (conj H1 (conj H2 (conj H3 (conj _ _)))).
  - refine (proj1 (proj1 (physical_address_at TwoFragments 0x900 Kernel32 H1 H2 H3)
                     1%nat (Frag.mk 0 0x30000 0x2000) eq_refl _)).
    vm_compute. split; [discriminate | reflexivity].
  - refine (proj2 (physical_address_at TwoFragments 0x2800 Kernel32 H1 H2 H3) _).
    vm_compute. discriminate.
Defined.

(** C3, the claim as stated: on [TwoFragments], whose cursor stands at
    0x800, the offset 0xFFFFF800 plus the cursor is 0x100000000, past the
    end of the last fragment, where the claim answers INVALID.  Line 2788
    adds the two in a [UINTN]: the sum is 0, and the answer is the physical
    address of the first byte of the buffer. *)
Lemma physical_address_at_wraps :
  SizeOfFragments (FragmentsInUse TwoFragments)
  <= Io.CurrentOffset TwoFragments + 0xFFFFF800 /\
  0 <= 0xFFFFF800 < 2 ^ UINTN_BITS /\
  MmGetIoBufferPhysicalAddress TwoFragments 0xFFFFF800 Kernel32
  = Some (0x10000, Kernel32) /\
  0x10000 <> INVALID_PHYSICAL_ADDRESS.
Proof.
  split; [vm_compute; discriminate|].
  split; [vm_compute; split; [discriminate | reflexivity]|].
  split; [vm_compute; reflexivity | vm_compute; discriminate].
Qed.

(** The free of [OwnedBuffer]: its third page is the page cache's. *)
Lemma free_owned_pages_witness :
  let k' := set_Log (OwnedBufferRelease ++ [CallMmFreeNonPagedPool]) Kernel32 in
  flag_set (Io.Flags OwnedBuffer) IO_BUFFER_FLAG_MEMORY_OWNED = true /\
  Forall (fun f => 0 <= Frag.PhysicalAddress f < 2 ^ 64)
    (FragmentsInUse OwnedBuffer) /\
  MmFreeIoBuffer OwnedBuffer Kernel32 = Some (None, k') /\
  exists calls,
    Log k' = Log Kernel32 ++ calls /\
    length (List.filter PageAction calls) = 3%nat /\
    List.filter PageAction calls !! 0%nat = Some (CallMmFreePhysicalPage 0x10000) /\
    List.filter PageAction calls !! 2%nat
    = Some (CallIoPageCacheEntryReleaseReference CachedPage).
Proof.
  intros k'.
  assert (H1 : flag_set (Io.Flags OwnedBuffer) IO_BUFFER_FLAG_MEMORY_OWNED = true)
    by (vm_compute; reflexivity).
  assert (H2 : Forall (fun f => 0 <= Frag.PhysicalAddress f < 2 ^ 64)
                 (FragmentsInUse OwnedBuffer))
    by (repeat constructor; vm_compute; try discriminate; reflexivity).
  assert (H3 : MmFreeIoBuffer OwnedBuffer Kernel32 = Some (None, k'))
    by (vm_compute; reflexivity).
  refine (conj H1 (conj H2 (conj H3 _))).
  destruct (free_owned_pages OwnedBuffer Kernel32 None k' H1 H2 H3)
    as (calls & Hlog & Hlen & Hpage).
  exists calls. split; [exact Hlog|]. split; [exact Hlen|].
  split; [exact (Hpage 0%nat 0x10000 eq_refl) | exact (Hpage 2%nat 0x31000 eq_refl)].
Defined.

(** The reset of [OwnedBuffer]. *)
Lemma reset_frame_witness :
  let b' :=
    Io.mk [Frag.zero; Frag.zero] 0
      (Z.lor IO_BUFFER_FLAG_MEMORY_OWNED IO_BUFFER_FLAG_NON_PAGED) 0 0 2 3
      (Some [None; None; None]) in
  let k' := set_Log OwnedBufferRelease Kernel32 in
  MmResetIoBuffer OwnedBuffer Kernel32 = Some (b', k') /\
  flag_set (Io.Flags b') IO_BUFFER_FLAG_MEMORY_OWNED = true /\
  Io.FragmentCount b' = 0 /\ Io.TotalSize b' = 0 /\ Io.CurrentOffset b' = 0 /\
  Io.MaxFragmentCount b' = Io.MaxFragmentCount OwnedBuffer /\
  Io.PageCount b' = Io.PageCount OwnedBuffer.
Proof.
  intros b' k'.
  assert (H1 : MmResetIoBuffer OwnedBuffer Kernel32 = Some (b', k'))
    by (vm_compute; reflexivity).
  pose proof (reset_frame OwnedBuffer Kernel32 b' k' H1)
    as (_ & _ & Hkept & Hcount & Htotal & Hcur & _ & _ & _ & Hmax & Hpc).
  split; [exact H1|].
  split; [exact (Hkept IO_BUFFER_FLAG_MEMORY_OWNED (or_introl eq_refl))|].
  split; [exact Hcount|]. split; [exact Htotal|]. split; [exact Hcur|].
  split; [exact Hmax | exact Hpc].
Defined.

(** Scenario 6: one slot, two pages asked for. *)
Lemma extension_too_small_witness :
  MmAllocateUninitializedIoBuffer 4096 false Kernel32
  = Some (Some OneSlot, set_PoolAvailable 3 Kernel32) /\
  flag_set (Io.Flags OneSlot) IO_BUFFER_FLAG_EXTENDABLE = true /\
  0 <= Io.FragmentCount OneSlot <= Io.MaxFragmentCount OneSlot /\
  Io.MaxFragmentCount OneSlot < 2 ^ UINTN_BITS /\
  0 <= 8192 /\ 8192 + MmPageSize <= 2 ^ UINTN_BITS /\
  Io.MaxFragmentCount OneSlot - Io.FragmentCount OneSlot
  < (8192 + MmPageSize - 1) / MmPageSize /\
  MmpExtendIoBuffer OneSlot 0 MAX_ULONGLONG 0 8192 false OnePageLeft
  = Some ((STATUS_BUFFER_TOO_SMALL, OneSlot), OnePageLeft).
Proof.
  assert (H0 : MmAllocateUninitializedIoBuffer 4096 false Kernel32
               = Some (Some OneSlot, set_PoolAvailable 3 Kernel32))
    by (vm_compute; reflexivity).
  assert (H1 : flag_set (Io.Flags OneSlot) IO_BUFFER_FLAG_EXTENDABLE = true)
    by (vm_compute; reflexivity).
  assert (H2 : 0 <= Io.FragmentCount OneSlot <= Io.MaxFragmentCount OneSlot)
    by (vm_compute; split; discriminate).
  assert (H3 : Io.MaxFragmentCount OneSlot < 2 ^ UINTN_BITS)
    by (vm_compute; reflexivity).
  assert (H4 : 0 <= 8192) by lia.
  assert (H5 : 8192 + MmPageSize <= 2 ^ UINTN_BITS) by (vm_compute; discriminate).
  assert (H6 : Io.MaxFragmentCount OneSlot - Io.FragmentCount OneSlot
               < (8192 + MmPageSize - 1) / MmPageSize)
    by (vm_compute; reflexivity).
  exact (conj H0 (conj H1 (conj H2 (conj H3 (conj H4 (conj H5 (conj H6
           (extension_too_small OneSlot 0 MAX_ULONGLONG 0 8192 false OnePageLeft
              H1 eq_refl (or_intror eq_refl) H2 H3 H4 H5 H6)))))))).
Defined.

(** C1, the failure half: the extension of [TwoSlots] by two pages that need
    not be contiguous, with one page left in the allocator, answers
    STATUS_NO_MEMORY and leaves the first page attached: the total size, the
    fragment count and the fragment table have changed, the flags have not,
    so that the free that follows gives no page back. *)
Theorem extension_out_of_pages :
  let k1 := set_PhysicalPages []
              (set_Log [CallMmpAllocatePhysicalPages 1 0;
                        CallMmpAllocatePhysicalPages 1 0] OnePageLeft) in
  MmAllocateUninitializedIoBuffer 8192 false Kernel32
  = Some (Some TwoSlots, set_PoolAvailable 3 Kernel32) /\
  MmpExtendIoBuffer TwoSlots 0 MAX_ULONGLONG 0 8192 false OnePageLeft
  = Some ((STATUS_NO_MEMORY, HalfExtended), k1) /\
  Io.TotalSize HalfExtended <> Io.TotalSize TwoSlots /\
  Io.FragmentCount HalfExtended <> Io.FragmentCount TwoSlots /\
  Io.Fragment HalfExtended <> Io.Fragment TwoSlots /\
  Io.Flags HalfExtended = Io.Flags TwoSlots /\
  flag_set (Io.Flags HalfExtended) IO_BUFFER_FLAG_MEMORY_OWNED = false /\
  MmFreeIoBuffer HalfExtended k1
  = Some (None, set_Log (Log k1 ++ [CallMmFreeNonPagedPool]) k1).
Proof.
  intros k1.
  split; [vm_compute; reflexivity|].
  split; [vm_compute; reflexivity|].
  split; [vm_compute; discriminate|].
  split; [vm_compute; discriminate|].
  split; [vm_compute; discriminate|].
  split; [reflexivity|].
  split; vm_compute; reflexivity.
Qed.

(** The page of [CachedPage] appended to an empty cache-backed buffer. *)
Lemma append_page_witness :
  MmAllocateUninitializedIoBuffer 8192 true Kernel32
  = Some (Some TwoCachedSlots, set_PoolAvailable 3 Kernel32) /\
  exists b' k',
    MmIoBufferAppendPage TwoCachedSlots (Some CachedPage) 0
      INVALID_PHYSICAL_ADDRESS Kernel32
    = Some (b', k') /\
    Io.TotalSize b' = 4096 /\
    Log k' = [CallIoPageCacheEntryAddReference CachedPage] /\
    Io.PageCacheEntries b' = Some [Some CachedPage; None] /\
    Io.Flags b' = Io.Flags TwoCachedSlots /\
    flag_set (Io.Flags TwoCachedSlots) IO_BUFFER_FLAG_PAGE_CACHE_BACKED = true.
Proof.
  split; [vm_compute; reflexivity|].
  eexists. eexists. split; [vm_compute; reflexivity|].
  pose proof (append_page TwoCachedSlots (Some CachedPage) 0
                INVALID_PHYSICAL_ADDRESS Kernel32 _ _ eq_refl)
    as (_ & Htotal & _ & Hflags & Hlog & _ & _ & Hflag).
  split; [exact Htotal|]. split; [exact Hlog|].
  split; [reflexivity|]. split; [exact Hflags | exact Hflag].
Defined.

(** C8, the claim as stated: on [TwoUnflaggedSlots], an EXTENDABLE buffer
    with a free slot and an empty table of page cache entries that does not
    carry PAGE_CACHE_BACKED, the append of [CachedPage] does not set the
    flag: it stops at the assertion of lines 2509-2510.  The same append on
    [TwoCachedSlots], which differs by that flag alone, completes with its
    flags as they were.  Nor does the buffer [TwoSlots] of the allocator,
    EXTENDABLE and without a table, take the entry (lines 2418-2419). *)
Lemma append_page_flag_asserted :
  flag_set (Io.Flags TwoUnflaggedSlots) IO_BUFFER_FLAG_EXTENDABLE = true /\
  flag_set (Io.Flags TwoUnflaggedSlots) IO_BUFFER_FLAG_PAGE_CACHE_BACKED
  = false /\
  Io.set_Flags (Io.Flags TwoCachedSlots) TwoUnflaggedSlots = TwoCachedSlots /\
  MmIoBufferAppendPage TwoUnflaggedSlots (Some CachedPage) 0
    INVALID_PHYSICAL_ADDRESS Kernel32 = None /\
  (exists b' k',
     MmIoBufferAppendPage TwoCachedSlots (Some CachedPage) 0
       INVALID_PHYSICAL_ADDRESS Kernel32 = Some (b', k') /\
     Io.Flags b' = Io.Flags TwoCachedSlots) /\
  flag_set (Io.Flags TwoSlots) IO_BUFFER_FLAG_EXTENDABLE = true /\
  MmIoBufferAppendPage TwoSlots (Some CachedPage) 0
    INVALID_PHYSICAL_ADDRESS Kernel32 = None.
Proof.
  split; [reflexivity|]. split; [reflexivity|]. split; [reflexivity|].
  split; [vm_compute; reflexivity|].
  split; [eexists; eexists; split; vm_compute; reflexivity|].
  split; [reflexivity | vm_compute; reflexivity].
Qed.

(** Scenario 3. *)
Lemma create_from_vector_witness :
  RunLevel Kernel32 = RunLevelLow /\
  (0 < length Scenario3)%nat /\
  Z.of_nat (length Scenario3) <= MAX_IO_VECTOR_COUNT /\
  Forall ValidVector Scenario3 /\
  UserCopy Kernel32 = STATUS_SUCCESS /\
  (2 <= PoolAvailable Kernel32)%nat /\
  exists b k',
    MmCreateIoBufferFromVector Scenario3 false 3 Kernel32
    = Some ((STATUS_SUCCESS, Some b), k') /\
    FragmentsInUse b = [Frag.mk 0x1000 0 300; Frag.mk 0x2000 0 50] /\
    Io.FragmentCount b = 2 /\
    Io.TotalSize b = 350.
Proof.
  assert (H1 : RunLevel Kernel32 = RunLevelLow) by reflexivity.
  assert (H2 : (0 < length Scenario3)%nat) by (vm_compute; lia).
  assert (H3 : Z.of_nat (length Scenario3) <= MAX_IO_VECTOR_COUNT)
    by (vm_compute; discriminate).
  assert (H4 : Forall ValidVector Scenario3)
    by (repeat constructor; vm_compute; try discriminate; reflexivity).
  assert (H5 : UserCopy Kernel32 = STATUS_SUCCESS) by reflexivity.
  assert (H6 : (2 <= PoolAvailable Kernel32)%nat) by (vm_compute; lia).
  refine (conj H1 (conj H2 (conj H3 (conj H4 (conj H5 (conj H6 _)))))).
  destruct (create_from_vector Scenario3 false Kernel32 H1 H2 H3 H4
              (fun _ => H5) H6)
    as (b & k' & Hrun & Hfrags & Hcount & _ & _ & Htotal & _).
  exists b, k'. split; [exact Hrun|]. split; [exact Hfrags|].
  split; [exact Hcount|]. apply Htotal. vm_compute. reflexivity.
Defined.

(** C5, the claim as stated: [TwoHalves] is a valid array, two entries of
    2 GiB each within user space, and the call succeeds with two fragments
    of 4 GiB together; line 1037 adds the lengths up in a [UINTN], and the
    total size of the buffer is 0. *)
Lemma create_from_vector_wraps :
  Forall ValidVector TwoHalves /\
  0 < Z.of_nat (length TwoHalves) <= MAX_IO_VECTOR_COUNT /\
  VectorLength TwoHalves = 0x100000000 /\
  exists b k',
    MmCreateIoBufferFromVector TwoHalves true 2 Kernel32
    = Some ((STATUS_SUCCESS, Some b), k') /\
    FragmentsInUse b = [Frag.mk 0 0 0x80000000; Frag.mk 0 0 0x80000000] /\
    Io.TotalSize b = 0.
Proof.
  split; [repeat constructor; vm_compute; try discriminate; reflexivity|].
  split; [vm_compute; split; [reflexivity | discriminate]|].
  split; [vm_compute; reflexivity|].
  eexists. eexists. split; [vm_compute; reflexivity|].
  split; vm_compute; reflexivity.
Qed.

(** C10, the claim as stated: an array of one empty entry at the first
    kernel address has a valid count and only entries of length zero, and is
    refused. *)
Lemma create_from_empty_kernel_vector :
  Forall (fun v => Vec.Length v = 0) EmptyKernelVector /\
  0 < Z.of_nat (length EmptyKernelVector) <= MAX_IO_VECTOR_COUNT /\
  MmCreateIoBufferFromVector EmptyKernelVector true 1 Kernel32
  = Some ((STATUS_ACCESS_VIOLATION, None),
          mkKernel [CallMmFreePagedPool] RunLevelLow [] 3 STATUS_SUCCESS
            (STATUS_SUCCESS, 0xC0000000) STATUS_SUCCESS (PageTable Kernel32)).
Proof.
  split; [repeat constructor|].
  split; [vm_compute; split; [reflexivity | discriminate]|].
  vm_compute. reflexivity.
Defined.

(** Two empty entries in user space. *)
Lemma create_from_empty_vector_witness :
  RunLevel Kernel32 = RunLevelLow /\
  (0 < length EmptyUserVector)%nat /\
  Z.of_nat (length EmptyUserVector) <= MAX_IO_VECTOR_COUNT /\
  Forall (fun v => Vec.Length v = 0 /\ 0 <= Vec.Data v < KERNEL_VA_START)
    EmptyUserVector /\
  (2 <= PoolAvailable Kernel32)%nat /\
  exists b k',
    MmCreateIoBufferFromVector EmptyUserVector true 2 Kernel32
    = Some ((STATUS_SUCCESS, Some b), k') /\
    Io.FragmentCount b = 0 /\ Io.TotalSize b = 0 /\ Io.Flags b = 0xC0.
Proof.
  assert (H1 : RunLevel Kernel32 = RunLevelLow) by reflexivity.
  assert (H2 : (0 < length EmptyUserVector)%nat) by (vm_compute; lia).
  assert (H3 : Z.of_nat (length EmptyUserVector) <= MAX_IO_VECTOR_COUNT)
    by (vm_compute; discriminate).
  assert (H4 : Forall (fun v => Vec.Length v = 0
                                /\ 0 <= Vec.Data v < KERNEL_VA_START)
                 EmptyUserVector)
    by (repeat constructor; vm_compute; try discriminate; reflexivity).
  assert (H6 : (2 <= PoolAvailable Kernel32)%nat) by (vm_compute; lia).
  refine (conj H1 (conj H2 (conj H3 (conj H4 (conj H6 _))))).
  destruct (create_from_empty_vector EmptyUserVector true Kernel32 H1 H2 H3 H4
              (fun H => match H with end) H6)
    as (b & k' & Hrun & Hcount & _ & Htotal & Hflags).
  exists b, k'. split; [exact Hrun|]. split; [exact Hcount|].
  split; [exact Htotal | exact Hflags].
Defined.

(** Scenario 5 as the spec has it: the minimum 0x100000000 does not pass the
    assertion of line 263. *)
Example scenario_5_asserts :
  MmValidateIoBuffer 0x100000000 MAX_ULONGLONG 0 0x1000 false (Some UserBuffer)
    Kernel32
  = None.
Proof. vm_compute. reflexivity. Qed.

(** Two pages at the alignment of a page for [UserBuffer]. *)
Lemma validate_user_buffer_witness :
  flag_set (Io.Flags UserBuffer) IO_BUFFER_FLAG_USER_MODE = true /\
  Io.CurrentOffset UserBuffer + 0x2000 <= Io.TotalSize UserBuffer /\
  AllocationSucceeds Kernel32 = true /\
  PhysicalRuns Kernel32 0xC0000000 0x2000 0x1000 0x1000 /\
  exists New k',
    MmValidateIoBuffer 0 MAX_ULONG 0 0x2000 false (Some UserBuffer) Kernel32
    = Some (mkValidated STATUS_SUCCESS (Some UserBuffer) (Some New), k') /\
    Io.Flags New = NonPagedFlags /\
    Io.TotalSize New = 0x2000 /\
    SizeOfFragments (FragmentsInUse New) = 0x2000 /\
    Forall (AlignedFragment 0x1000) (FragmentsInUse New).
Proof.
  assert (H1 : flag_set (Io.Flags UserBuffer) IO_BUFFER_FLAG_USER_MODE = true)
    by (vm_compute; reflexivity).
  assert (H2 : 0 <= Io.CurrentOffset UserBuffer
               /\ Io.CurrentOffset UserBuffer + 0x2000 <= Io.TotalSize UserBuffer
               /\ Io.TotalSize UserBuffer < 2 ^ UINTN_BITS)
    by (vm_compute; repeat split; discriminate).
  assert (H3 : AllocationSucceeds Kernel32 = true) by (vm_compute; reflexivity).
  assert (H4 : PhysicalRuns Kernel32 0xC0000000 0x2000 0x1000 0x1000).
  { intros Page Hpage Hsize. change MmPageSize with 0x1000 in *.
    assert (Hcases : Page = 0 \/ Page = 1) by lia.
    destruct Hcases as [-> | ->]; vm_compute;
      (split; [discriminate|]); (split; [discriminate|]);
      (split; [reflexivity|]); (split; [reflexivity|]);
      intros H; exfalso; apply H; reflexivity. }
  assert (H5 : RunAlignment 0 < 2 ^ UINTN_BITS) by (vm_compute; reflexivity).
  assert (H6 : AlignedSize 0 0x2000 < 2 ^ UINTN_BITS)
    by (vm_compute; reflexivity).
  assert (H7 : AllocationSucceeds Kernel32 = true ->
               0 <= snd (AddressRange Kernel32) /\
               snd (AddressRange Kernel32) + AlignedSize 0 0x2000
               <= 2 ^ UINTN_BITS /\
               PhysicalRuns Kernel32 (snd (AddressRange Kernel32))
                 (AlignedSize 0 0x2000) (RunAlignment 0)
                 (RunSize 0 0x2000 false)).
  { intros _. split; [vm_compute; discriminate|].
    split; [vm_compute; discriminate|].
    assert (E1 : AlignedSize 0 0x2000 = 0x2000) by (vm_compute; reflexivity).
    assert (E2 : RunAlignment 0 = 0x1000) by (vm_compute; reflexivity).
    assert (E3 : RunSize 0 0x2000 false = 0x1000) by (vm_compute; reflexivity).
    rewrite E1, E2, E3. exact H4. }
  refine (conj H1 (conj (proj1 (proj2 H2)) (conj H3 (conj H4 _)))).
  destruct (validate_user_buffer UserBuffer 0 MAX_ULONG 0 0x2000 false Kernel32
              H1 (or_introl H2) eq_refl (or_introl eq_refl)
              (Z.le_refl 0) H5 eq_refl H6 H7) as (v & k' & Hrun & Hrest).
  rewrite H3 in Hrest.
  destruct Hrest as (Hbuffer & Hstatus & New & Hnew & Hflags & _ & _ & Htotal
                     & _ & Hsum & Haligned & _).
  destruct v as [Status Buffer NewBuffer].
  cbn [v_Status v_Buffer v_NewBuffer] in Hbuffer, Hstatus, Hnew.
  subst Status Buffer NewBuffer.
  exists New, k'. split; [exact Hrun|]. split; [exact Hflags|].
  assert (E1 : AlignedSize 0 0x2000 = 0x2000) by (vm_compute; reflexivity).
  rewrite E1 in Htotal.
  split; [exact Htotal|]. split; [rewrite Hsum; exact Htotal|].
  apply (Haligned 0x1000); [lia | vm_compute; reflexivity].
Defined.

End Scenarios.

(** * A scenario on the 64-bit machine *)

Section Scenarios64.

#[local] Existing Instance Machine64.

(** C6, the claim as stated: on the 64-bit machine a USER_MODE buffer of
    two pages is validated for one page below 4 GiB, minimum 0 and maximum
    MAX_ULONG; the call succeeds and the replacement lies at 4 GiB, above the
    maximum. *)
Lemma validate_user_buffer_above_maximum :
  flag_set (Io.Flags UserBuffer) IO_BUFFER_FLAG_USER_MODE = true /\
  Io.CurrentOffset UserBuffer + 0x1000 <= Io.TotalSize UserBuffer /\
  MmValidateIoBuffer 0 MAX_ULONG 0 0x1000 false (Some UserBuffer) HighMemory
  = Some (mkValidated STATUS_SUCCESS (Some UserBuffer) (Some HighBuffer),
          set_PoolAvailable 3
            (set_Log [CallMmpAllocateAddressRange 0x1000 0x1000;
                      CallMmpMapRange 0xFFFF800000100000 0x1000 0x1000 0x1000
                        false false] HighMemory)) /\
  FragmentsInUse HighBuffer = [Frag.mk 0xFFFF800000100000 0x100000000 0x1000] /\
  ~ Forall (WithinPhysicalRange 0 MAX_ULONG) (FragmentsInUse HighBuffer).
Proof.
  split; [vm_compute; reflexivity|].
  split; [vm_compute; discriminate|].
  split; [vm_compute; reflexivity|].
  split; [reflexivity|].
  intros H. apply Forall_inv in H. destruct H as [_ H].
  vm_compute in H. apply H. reflexivity.
Qed.

End Scenarios64.

(** * More scenarios *)

Section MoreScenarios.

#[local] Existing Instance Machine32.

(** [OwnedBuffer] is mapped at 0xC0000000, its second fragment where the
    first one ends. *)
Lemma is_mapped_exactly_witness :
  1 <= Io.FragmentCount OwnedBuffer /\
  (Z.to_nat (Io.FragmentCount OwnedBuffer)
   <= length (Io.Fragment OwnedBuffer))%nat /\
  Forall (fun f => 0 <= Frag.VirtualAddress f < 2 ^ UINTN_BITS)
    (FragmentsInUse OwnedBuffer) /\
  MmpIsIoBufferMapped OwnedBuffer true Kernel32 = Some (true, Kernel32) /\
  FragmentsMapped true 0xC0000000 (FragmentsInUse OwnedBuffer).
Proof.
  assert (H1 : 1 <= Io.FragmentCount OwnedBuffer) by (vm_compute; discriminate).
  assert (H2 : (Z.to_nat (Io.FragmentCount OwnedBuffer)
                <= length (Io.Fragment OwnedBuffer))%nat) by (vm_compute; lia).
  assert (H3 : Forall (fun f => 0 <= Frag.VirtualAddress f < 2 ^ UINTN_BITS)
                 (FragmentsInUse OwnedBuffer))
    by (repeat constructor; vm_compute; try discriminate; reflexivity).
  assert (H4 : MmpIsIoBufferMapped OwnedBuffer true Kernel32
               = Some (true, Kernel32)) by (vm_compute; reflexivity).
  refine (conj H1 (conj H2 (conj H3 (conj H4 _)))).
  destruct (is_mapped_exactly OwnedBuffer true Kernel32 H1 H2 H3)
    as (r & First & Hhead & Hrun & Hiff).
  injection Hhead as <-. rewrite H4 in Hrun. injection Hrun as <-.
  exact (proj1 Hiff eq_refl).
Defined.

(** The entry of the page 0x31000 goes into the second slot of
    [LockedPages]. *)
Lemma page_cache_entry_set_get_witness :
  let b' :=
    Io.mk [Frag.mk 0 0x30000 0x2000] 1
      (Z.lor IO_BUFFER_FLAG_MEMORY_LOCKED IO_BUFFER_FLAG_PAGE_CACHE_BACKED)
      0x2000 0 1 2 (Some [None; Some CachedPage]) in
  let k' := set_Log [CallIoPageCacheEntryAddReference CachedPage] Kernel32 in
  MmSetIoBufferPageCacheEntry LockedPages 0x1000 CachedPage Kernel32
  = Some (b', k') /\
  Log k' = Log Kernel32 ++ [CallIoPageCacheEntryAddReference CachedPage] /\
  MmGetIoBufferPageCacheEntry b' 0x1000 k' = Some (Some CachedPage, k') /\
  flag_set (Io.Flags b') IO_BUFFER_FLAG_PAGE_CACHE_BACKED = true.
Proof.
  intros b' k'.
  assert (H1 : MmSetIoBufferPageCacheEntry LockedPages 0x1000 CachedPage
                 Kernel32 = Some (b', k')) by (vm_compute; reflexivity).
  pose proof (page_cache_entry_set_get LockedPages 0x1000 CachedPage Kernel32
                b' k' H1) as (Hlog & _ & Hflag & Hget & _).
  exact (conj H1 (conj Hlog (conj Hget Hflag))).
Defined.

(** The free of [OwnedBuffer] releases what it holds and gives the structure
    back to the non-paged pool. *)
Lemma free_gives_structure_back_witness :
  let k' := set_Log (OwnedBufferRelease ++ [CallMmFreeNonPagedPool]) Kernel32 in
  MmFreeIoBuffer OwnedBuffer Kernel32 = Some (None, k') /\
  exists calls,
    Forall (fun e => ReleaseCall e = true) calls /\
    k' = set_Log (Log Kernel32 ++ calls ++ [CallMmFreeNonPagedPool]) Kernel32.
Proof.
  intros k'.
  assert (H1 : MmFreeIoBuffer OwnedBuffer Kernel32 = Some (None, k'))
    by (vm_compute; reflexivity).
  split; [exact H1|].
  destruct (free_gives_structure_back OwnedBuffer Kernel32 None k' H1)
    as (calls & Hcalls & Hif).
  assert (E1 : (Z.land (Io.Flags OwnedBuffer)
                  IO_BUFFER_FLAG_STRUCTURE_NOT_OWNED =? 0) = true)
    by (vm_compute; reflexivity).
  assert (E2 : flag_set (Io.Flags OwnedBuffer) IO_BUFFER_FLAG_NON_PAGED = true)
    by (vm_compute; reflexivity).
  rewrite E1, E2 in Hif.
  exists calls. exact (conj Hcalls (proj2 Hif)).
Defined.

(** The 512 bytes at 0xC0002000, the physical address looked up. *)
Lemma initialize_one_fragment_witness :
  0 <= 0x200 < 2 ^ UINTN_BITS /\
  MmInitializeIoBuffer 0xC0002000 INVALID_PHYSICAL_ADDRESS 0x200 false false
    Kernel32 = Some (MappedBytes, Kernel32) /\
  FragmentsInUse MappedBytes = [Frag.mk 0xC0002000 0xC0002000 0x200] /\
  Io.TotalSize MappedBytes = 0x200 /\
  MmGetIoBufferPhysicalAddress MappedBytes 0x10 Kernel32
  = Some (0xC0002010, Kernel32).
Proof.
  assert (H1 : 0 <= 0x200 < 2 ^ UINTN_BITS)
    by (vm_compute; split; [discriminate | reflexivity]).
  assert (H2 : MmInitializeIoBuffer 0xC0002000 INVALID_PHYSICAL_ADDRESS 0x200
                 false false Kernel32 = Some (MappedBytes, Kernel32))
    by (vm_compute; reflexivity).
  pose proof (initialize_one_fragment 0xC0002000 INVALID_PHYSICAL_ADDRESS 0x200
                false false Kernel32 MappedBytes Kernel32 H1 H2)
    as (_ & _ & _ & _ & _ & Hif).
  assert (E1 : (INVALID_PHYSICAL_ADDRESS =? INVALID_PHYSICAL_ADDRESS) = true)
    by (vm_compute; reflexivity).
  assert (E2 : (0xC0002000 =? NULL) = false) by (vm_compute; reflexivity).
  assert (E3 : PageTable Kernel32 0xC0002000 = 0xC0002000) by reflexivity.
  assert (E4 : (0xC0002000 =? INVALID_PHYSICAL_ADDRESS) = false)
    by (vm_compute; reflexivity).
  rewrite E1, E2, E3, E4 in Hif.
  destruct Hif as (_ & Huse & Htotal & Hpa).
  refine (conj H1 (conj H2 (conj Huse (conj Htotal _)))).
  assert (E5 : ULONGLONG (0xC0002000 + 0x10) = 0xC0002010)
    by (vm_compute; reflexivity).
  rewrite <- E5. apply Hpa. vm_compute. split; [discriminate | reflexivity].
Defined.

(** The same bytes, said to be locked: the buffer cannot be freed. *)
Lemma initialize_locked_release_stops_witness :
  let b := Io.set_Flags (Z.lor (Io.Flags MappedBytes) IO_BUFFER_FLAG_MEMORY_LOCKED)
             MappedBytes in
  MmInitializeIoBuffer 0xC0002000 INVALID_PHYSICAL_ADDRESS 0x200 false true
    Kernel32 = Some (b, Kernel32) /\
  MmFreeIoBuffer b Kernel32 = None /\ MmResetIoBuffer b Kernel32 = None.
Proof.
  intros b.
  assert (H1 : MmInitializeIoBuffer 0xC0002000 INVALID_PHYSICAL_ADDRESS 0x200
                 false true Kernel32 = Some (b, Kernel32))
    by (vm_compute; reflexivity).
  pose proof (initialize_locked_release_stops 0xC0002000
                INVALID_PHYSICAL_ADDRESS 0x200 Kernel32 b Kernel32 H1)
    as (_ & _ & _ & Hfree & Hreset).
  exact (conj H1 (conj Hfree Hreset)).
Defined.

(** An array of one entry in kernel space: the buffer that was allocated for
    it is given back. *)
Lemma create_from_vector_balanced_witness :
  let k' := set_Log [CallMmFreePagedPool] (set_PoolAvailable 3 Kernel32) in
  MmCreateIoBufferFromVector EmptyKernelVector true 1 Kernel32
  = Some ((STATUS_ACCESS_VIOLATION, None), k') /\
  exists calls,
    Log k' = Log Kernel32 ++ calls /\
    PoolAvailable Kernel32
    = (PoolAvailable k' + length (List.filter PoolCall calls) + 0)%nat.
Proof.
  intros k'.
  assert (H1 : MmCreateIoBufferFromVector EmptyKernelVector true 1 Kernel32
               = Some ((STATUS_ACCESS_VIOLATION, None), k'))
    by (vm_compute; reflexivity).
  split; [exact H1|].
  destruct (create_from_vector_balanced EmptyKernelVector true 1 Kernel32
              STATUS_ACCESS_VIOLATION None k' H1)
    as (_ & (calls & Hlog & _ & Hpool) & _).
  exists calls. exact (conj Hlog Hpool).
Defined.

(** The second entry of [PartlyKernelVector] is empty, and in kernel space. *)
Lemma create_from_vector_outside_user_space_witness :
  RunLevel Kernel32 = RunLevelLow /\
  (0 < length PartlyKernelVector)%nat /\
  Z.of_nat (length PartlyKernelVector) <= MAX_IO_VECTOR_COUNT /\
  Forall (fun v => 0 <= Vec.Data v < 2 ^ UINTN_BITS
                   /\ 0 <= Vec.Length v < 2 ^ UINTN_BITS)
    PartlyKernelVector /\
  UserCopy Kernel32 = STATUS_SUCCESS /\
  (2 <= PoolAvailable Kernel32)%nat /\
  Exists (fun v => ~ ValidVector v) PartlyKernelVector /\
  exists k',
    MmCreateIoBufferFromVector PartlyKernelVector false
      (Z.of_nat (length PartlyKernelVector)) Kernel32
    = Some ((STATUS_ACCESS_VIOLATION, None), k').
Proof.
  assert (H1 : RunLevel Kernel32 = RunLevelLow) by reflexivity.
  assert (H2 : (0 < length PartlyKernelVector)%nat) by (vm_compute; lia).
  assert (H3 : Z.of_nat (length PartlyKernelVector) <= MAX_IO_VECTOR_COUNT)
    by (vm_compute; discriminate).
  assert (H4 : Forall (fun v => 0 <= Vec.Data v < 2 ^ UINTN_BITS
                                /\ 0 <= Vec.Length v < 2 ^ UINTN_BITS)
                 PartlyKernelVector)
    by (repeat constructor; vm_compute; try discriminate; reflexivity).
  assert (H5 : UserCopy Kernel32 = STATUS_SUCCESS) by reflexivity.
  assert (H6 : (2 <= PoolAvailable Kernel32)%nat) by (vm_compute; lia).
  assert (H7 : Exists (fun v => ~ ValidVector v) PartlyKernelVector).
  { apply Exists_cons_tl, Exists_cons_hd. intros [[_ H] _].
    vm_compute in H. discriminate. }
  exact (conj H1 (conj H2 (conj H3 (conj H4 (conj H5 (conj H6 (conj H7
           (create_from_vector_outside_user_space PartlyKernelVector false
              Kernel32 H1 H2 H3 H4 (fun _ => H5) H6 H7)))))))).
Defined.

(** The validation of the empty [OneSlot] for one page extends it by the
    page the allocator holds. *)
Lemma validate_success_holds_size_witness :
  let v := mkValidated STATUS_SUCCESS (Some OnePageAttached) None in
  let k' := set_PhysicalPages []
              (set_Log [CallMmpAllocatePhysicalPages 1 0] OnePageLeft) in
  0 <= Io.CurrentOffset OneSlot <= Io.TotalSize OneSlot /\
  0 < 4096 /\
  Io.CurrentOffset OneSlot + 4096 + MmPageSize <= 2 ^ UINTN_BITS /\
  RunAlignment 0 < 2 ^ UINTN_BITS /\
  AlignedSize 0 4096 < 2 ^ UINTN_BITS /\
  MmValidateIoBuffer 0 MAX_ULONGLONG 0 4096 false (Some OneSlot) OnePageLeft
  = Some (v, k') /\
  exists b', v_Buffer v = Some b' /\
             Io.CurrentOffset b' = Io.CurrentOffset OneSlot /\
             Io.CurrentOffset OneSlot + 4096 <= Io.TotalSize b'.
Proof.
  intros v k'.
  assert (H1 : 0 <= Io.CurrentOffset OneSlot <= Io.TotalSize OneSlot)
    by (vm_compute; split; discriminate).
  assert (H2 : 0 < 4096) by lia.
  assert (H3 : Io.CurrentOffset OneSlot + 4096 + MmPageSize <= 2 ^ UINTN_BITS)
    by (vm_compute; discriminate).
  assert (H4 : 0 <= 0) by lia.
  assert (H5 : RunAlignment 0 < 2 ^ UINTN_BITS) by (vm_compute; reflexivity).
  assert (H6 : AlignedSize 0 4096 < 2 ^ UINTN_BITS) by (vm_compute; reflexivity).
  assert (H7 : MmValidateIoBuffer 0 MAX_ULONGLONG 0 4096 false (Some OneSlot)
                 OnePageLeft = Some (v, k')) by (vm_compute; reflexivity).
  refine (conj H1 (conj H2 (conj H3 (conj H5 (conj H6 (conj H7 _)))))).
  destruct (validate_success_holds_size OneSlot 0 MAX_ULONGLONG 0 4096 false
              OnePageLeft v k' H1 H2 H3 H4 H5 H6 H7) as (_ & Hsuccess & _).
  exact (Hsuccess eq_refl).
Defined.

(** [TwoFragments] is left in place for 0x1800 bytes aligned to 0x800: its
    first fragment was checked from the cursor on. *)
Lemma validate_kept_buffer_checked_witness :
  let v := mkValidated STATUS_SUCCESS (Some TwoFragments) None in
  flag_set (Io.Flags TwoFragments) IO_BUFFER_FLAG_USER_MODE = false /\
  Forall (fun f => 0 < Frag.Size f /\ 0 <= Frag.PhysicalAddress f
                   /\ Frag.PhysicalAddress f + Frag.Size f < 2 ^ 64)
    (FragmentsInUse TwoFragments) /\
  SizeOfFragments (FragmentsInUse TwoFragments) = Io.TotalSize TwoFragments /\
  Io.TotalSize TwoFragments < 2 ^ UINTN_BITS /\
  0 <= Io.CurrentOffset TwoFragments < Io.TotalSize TwoFragments /\
  Io.CurrentOffset TwoFragments + 0x1800 < 2 ^ UINTN_BITS /\
  MmValidateIoBuffer 0 MAX_ULONG 0x800 0x1800 false (Some TwoFragments) Kernel32
  = Some (v, Kernel32) /\
  IS_ALIGNED (0x10000 + 0x800) 0x800 = true /\
  IS_ALIGNED (0x1000 - 0x800) 0x800 = true /\
  0 <= 0x10000 + 0x800 /\ 0x10000 + 0x1000 <= MAX_ULONG.
Proof.
  intros v.
  assert (H1 : flag_set (Io.Flags TwoFragments) IO_BUFFER_FLAG_USER_MODE
               = false) by (vm_compute; reflexivity).
  assert (H2 : Forall (fun f => 0 < Frag.Size f /\ 0 <= Frag.PhysicalAddress f
                          /\ Frag.PhysicalAddress f + Frag.Size f < 2 ^ 64)
                 (FragmentsInUse TwoFragments))
    by (repeat constructor; vm_compute; try discriminate; reflexivity).
  assert (H3 : SizeOfFragments (FragmentsInUse TwoFragments)
               = Io.TotalSize TwoFragments) by (vm_compute; reflexivity).
  assert (H4 : Io.TotalSize TwoFragments < 2 ^ UINTN_BITS)
    by (vm_compute; reflexivity).
  assert (H5 : 0 <= Io.CurrentOffset TwoFragments < Io.TotalSize TwoFragments)
    by (vm_compute; split; [discriminate | reflexivity]).
  assert (H6 : 0 < 0x1800) by lia.
  assert (H7 : Io.CurrentOffset TwoFragments + 0x1800 < 2 ^ UINTN_BITS)
    by (vm_compute; reflexivity).
  assert (H8 : MmValidateIoBuffer 0 MAX_ULONG 0x800 0x1800 false
                 (Some TwoFragments) Kernel32 = Some (v, Kernel32))
    by (vm_compute; reflexivity).
  refine (conj H1 (conj H2 (conj H3 (conj H4 (conj H5 (conj H7 (conj H8 _))))))).
  destruct (validate_kept_buffer_checked TwoFragments 0 MAX_ULONG 0x800 0x1800
              false Kernel32 v Kernel32 H1 H2 H3 H4 H5 H6 H7 H8 eq_refl eq_refl)
    as [Hchecked _].
  refine (Hchecked 0%nat (Frag.mk 0 0x10000 0x1000) eq_refl _ _);
    vm_compute; reflexivity.
Defined.

(** The page of [CachedPage] appended to the empty [TwoCachedSlots] is found
    at offset 0. *)
Lemma append_page_found_witness :
  let k' := set_Log [CallIoPageCacheEntryAddReference CachedPage] Kernel32 in
  0 <= Io.FragmentCount TwoCachedSlots /\
  Io.MaxFragmentCount TwoCachedSlots < 2 ^ UINTN_BITS /\
  Forall (fun f => 0 < Frag.Size f) (FragmentsInUse TwoCachedSlots) /\
  SizeOfFragments (FragmentsInUse TwoCachedSlots)
  = Io.TotalSize TwoCachedSlots /\
  Io.TotalSize TwoCachedSlots + MmPageSize < 2 ^ UINTN_BITS /\
  0 <= Io.CurrentOffset TwoCachedSlots <= Io.TotalSize TwoCachedSlots /\
  Pce.PhysicalAddress CachedPage <> 0 /\
  Io.Fragment TwoCachedSlots !! 0%nat = Some Frag.zero /\
  MmIoBufferAppendPage TwoCachedSlots (Some CachedPage) 0
    INVALID_PHYSICAL_ADDRESS Kernel32 = Some (OneCachedPage, k') /\
  SizeOfFragments (FragmentsInUse OneCachedPage) = Io.TotalSize OneCachedPage /\
  MmGetIoBufferPhysicalAddress OneCachedPage 0x10 k' = Some (0x31010, k').
Proof.
  intros k'.
  assert (H1 : 0 <= Io.FragmentCount TwoCachedSlots) by (vm_compute; discriminate).
  assert (H2 : Io.MaxFragmentCount TwoCachedSlots < 2 ^ UINTN_BITS)
    by (vm_compute; reflexivity).
  assert (H3 : Forall (fun f => 0 < Frag.Size f) (FragmentsInUse TwoCachedSlots))
    by constructor.
  assert (H4 : SizeOfFragments (FragmentsInUse TwoCachedSlots)
               = Io.TotalSize TwoCachedSlots) by reflexivity.
  assert (H5 : Io.TotalSize TwoCachedSlots + MmPageSize < 2 ^ UINTN_BITS)
    by (vm_compute; reflexivity).
  assert (H6 : 0 <= Io.CurrentOffset TwoCachedSlots
               <= Io.TotalSize TwoCachedSlots)
    by (vm_compute; split; discriminate).
  assert (H7 : Pce.PhysicalAddress CachedPage <> 0) by (vm_compute; discriminate).
  assert (H8 : Io.Fragment TwoCachedSlots !! 0%nat = Some Frag.zero)
    by reflexivity.
  assert (H9 : MmIoBufferAppendPage TwoCachedSlots (Some CachedPage) 0
                 INVALID_PHYSICAL_ADDRESS Kernel32 = Some (OneCachedPage, k'))
    by (vm_compute; reflexivity).
  refine (conj H1 (conj H2 (conj H3 (conj H4 (conj H5 (conj H6 (conj H7
            (conj H8 (conj H9 _))))))))).
  destruct (append_page_found TwoCachedSlots (Some CachedPage) 0
              INVALID_PHYSICAL_ADDRESS Kernel32 OneCachedPage k'
              H1 H2 H3 H4 H5 H6 (fun _ => conj H7 H8) H9)
    as (_ & _ & Hsum & _ & Hfound).
  split; [exact Hsum|].
  assert (H10 : 0 <= 0x10 < MmPageSize)
    by (vm_compute; split; [discriminate | reflexivity]).
  exact (Hfound 0x10 H10).
Defined.

(** [OwnedBuffer] reset, then freed: the free gives the structure back and
    releases nothing. *)
Lemma reset_then_free_witness :
  let k' := set_Log OwnedBufferRelease Kernel32 in
  MmResetIoBuffer OwnedBuffer Kernel32 = Some (OwnedBufferReset, k') /\
  MmFreeIoBuffer OwnedBufferReset k'
  = Some (None, set_Log (Log k' ++ [CallMmFreeNonPagedPool]) k').
Proof.
  intros k'.
  assert (H1 : MmResetIoBuffer OwnedBuffer Kernel32
               = Some (OwnedBufferReset, k')) by (vm_compute; reflexivity).
  split; [exact H1|].
  exact (reset_then_free OwnedBuffer Kernel32 OwnedBufferReset k' H1).
Defined.

(** [TwoSlots] extended by two pages that lie next to one another: they make
    one fragment. *)
Lemma extension_success_witness :
  let k' := set_PhysicalPages []
              (set_Log [CallMmpAllocatePhysicalPages 1 0;
                        CallMmpAllocatePhysicalPages 1 0] TwoPagesLeft) in
  0 < 8192 /\ 8192 + MmPageSize <= 2 ^ UINTN_BITS /\
  0 <= Io.FragmentCount TwoSlots <= Io.MaxFragmentCount TwoSlots /\
  Io.MaxFragmentCount TwoSlots < 2 ^ UINTN_BITS /\
  Forall (fun f => 0 < Frag.Size f) (FragmentsInUse TwoSlots) /\
  SizeOfFragments (FragmentsInUse TwoSlots) = Io.TotalSize TwoSlots /\
  Io.TotalSize TwoSlots + (8192 + MmPageSize - 1) / MmPageSize * MmPageSize
  < 2 ^ UINTN_BITS /\
  (exists f, Io.Fragment TwoSlots !! 0%nat = Some f /\ Frag.Size f = 0) /\
  MmpExtendIoBuffer TwoSlots 0 MAX_ULONGLONG 0 8192 false TwoPagesLeft
  = Some ((STATUS_SUCCESS, TwoPagesAttached), k') /\
  Io.TotalSize TwoPagesAttached
  = Io.TotalSize TwoSlots + (8192 + MmPageSize - 1) / MmPageSize * MmPageSize /\
  SizeOfFragments (FragmentsInUse TwoPagesAttached)
  = Io.TotalSize TwoPagesAttached /\
  flag_set (Io.Flags TwoPagesAttached) IO_BUFFER_FLAG_MEMORY_OWNED = true /\
  flag_set (Io.Flags TwoPagesAttached) IO_BUFFER_FLAG_MAPPED = false.
Proof.
  intros k'.
  assert (H1 : 0 < 8192) by lia.
  assert (H2 : 8192 + MmPageSize <= 2 ^ UINTN_BITS) by (vm_compute; discriminate).
  assert (H3 : 0 <= Io.FragmentCount TwoSlots <= Io.MaxFragmentCount TwoSlots)
    by (vm_compute; split; discriminate).
  assert (H4 : Io.MaxFragmentCount TwoSlots < 2 ^ UINTN_BITS)
    by (vm_compute; reflexivity).
  assert (H5 : Forall (fun f => 0 < Frag.Size f) (FragmentsInUse TwoSlots))
    by constructor.
  assert (H6 : SizeOfFragments (FragmentsInUse TwoSlots) = Io.TotalSize TwoSlots)
    by reflexivity.
  assert (H7 : Io.TotalSize TwoSlots
               + (8192 + MmPageSize - 1) / MmPageSize * MmPageSize
               < 2 ^ UINTN_BITS) by (vm_compute; reflexivity).
  assert (H8 : exists f, Io.Fragment TwoSlots !! 0%nat = Some f
                         /\ Frag.Size f = 0)
    by (exists Frag.zero; split; reflexivity).
  assert (H9 : MmpExtendIoBuffer TwoSlots 0 MAX_ULONGLONG 0 8192 false
                 TwoPagesLeft = Some ((STATUS_SUCCESS, TwoPagesAttached), k'))
    by (vm_compute; reflexivity).
  refine (conj H1 (conj H2 (conj H3 (conj H4 (conj H5 (conj H6 (conj H7
            (conj H8 (conj H9 _))))))))).
  destruct (extension_success TwoSlots 0 MAX_ULONGLONG 0 8192 false
              TwoPagesLeft TwoPagesAttached k' H1 H2 H3 H4 H5 H6 H7
              (fun _ => H8) H9)
    as (Htotal & Hsum & _ & _ & _ & Howned & Hmapped & _).
  exact (conj Htotal (conj Hsum (conj Howned Hmapped))).
Defined.

(** Two pages from [Kernel32], whose address space answers 0xC0000000. *)
Lemma allocate_non_paged_mapped_witness :
  AllocationSucceeds Kernel32 = true /\
  PhysicalRuns Kernel32 0xC0000000 0x2000 0x1000 0x1000 /\
  exists b k' First,
    MmAllocateNonPagedIoBuffer 0 MAX_ULONG 0 0x2000 false false false Kernel32
    = Some (Some b, k') /\
    flag_set (Io.Flags b) IO_BUFFER_FLAG_MAPPED = true /\
    flag_set (Io.Flags b) IO_BUFFER_FLAG_VIRTUALLY_CONTIGUOUS = true /\
    head (FragmentsInUse b) = Some First /\
    Frag.VirtualAddress First = 0xC0000000 /\
    MmpIsIoBufferMapped b true k' = Some (true, k').
Proof.
  assert (H1 : 0 <= 0) by lia.
  assert (H2 : RunAlignment 0 < 2 ^ UINTN_BITS) by (vm_compute; reflexivity).
  assert (H3 : 0 < 0x2000) by lia.
  assert (H4 : AlignedSize 0 0x2000 < 2 ^ UINTN_BITS)
    by (vm_compute; reflexivity).
  assert (H5 : AllocationSucceeds Kernel32 = true) by (vm_compute; reflexivity).
  assert (H6 : 0 < snd (AddressRange Kernel32)) by (vm_compute; reflexivity).
  assert (H7 : snd (AddressRange Kernel32) + AlignedSize 0 0x2000
               <= 2 ^ UINTN_BITS) by (vm_compute; discriminate).
  assert (H8 : PhysicalRuns Kernel32 0xC0000000 0x2000 0x1000 0x1000).
  { intros Page Hpage Hsize. change MmPageSize with 0x1000 in *.
    assert (Hcases : Page = 0 \/ Page = 1) by lia.
    destruct Hcases as [-> | ->]; vm_compute;
      (split; [discriminate|]); (split; [discriminate|]);
      (split; [reflexivity|]); (split; [reflexivity|]);
      intros H; exfalso; apply H; reflexivity. }
  assert (H9 : PhysicalRuns Kernel32 (snd (AddressRange Kernel32))
                 (AlignedSize 0 0x2000) (RunAlignment 0)
                 (RunSize 0 0x2000 false)).
  { assert (E1 : AlignedSize 0 0x2000 = 0x2000) by (vm_compute; reflexivity).
    assert (E2 : RunAlignment 0 = 0x1000) by (vm_compute; reflexivity).
    assert (E3 : RunSize 0 0x2000 false = 0x1000) by (vm_compute; reflexivity).
    rewrite E1, E2, E3. exact H8. }
  refine (conj H5 (conj H8 _)).
  exact (allocate_non_paged_mapped MAX_ULONG 0 0x2000 false Kernel32
           (or_introl eq_refl) H1 H2 H3 H4 H5 H6 H7 H9).
Defined.

(** Two pages from [MapperRefuses]: the range that was reserved is given
    back, the structure goes back to the pool, and the pool holds as much as
    before less the one that the caller would have got. *)
Lemma allocate_non_paged_balanced_witness :
  let calls := [CallMmpAllocateAddressRange 0x2000 0x1000;
                CallMmpMapRange 0xC0000000 0x2000 0x1000 0x1000 false false;
                CallMmpFreeAccountingRange 0xC0000000 0x2000;
                CallMmFreeNonPagedPool] in
  let k' := set_PoolAvailable 3 (set_Log calls MapperRefuses) in
  MmAllocateNonPagedIoBuffer 0 MAX_ULONG 0 0x2000 false false false
    MapperRefuses = Some (None, k') /\
  exists calls,
    Log k' = Log MapperRefuses ++ calls /\
    PoolAvailable MapperRefuses
    = (PoolAvailable k' + length (List.filter PoolCall calls) + 0)%nat /\
    AllocationSucceeds MapperRefuses = false /\
    (PoolAvailable MapperRefuses = 0%nat -> calls = []) /\
    forall Reserved Aligned,
      In (CallMmpAllocateAddressRange Reserved Aligned) calls ->
      snd (AddressRange MapperRefuses) <> NULL ->
      In (CallMmpFreeAccountingRange (snd (AddressRange MapperRefuses))
            Reserved) calls.
Proof.
  intros calls k'.
  assert (H1 : MmAllocateNonPagedIoBuffer 0 MAX_ULONG 0 0x2000 false false
                 false MapperRefuses = Some (None, k'))
    by (vm_compute; reflexivity).
  split; [exact H1|].
  exact (allocate_non_paged_balanced 0 MAX_ULONG 0 0x2000 false false false
           MapperRefuses None k' H1).
Defined.

(** [LockedAcrossPages] freed: the page 0x30000 is unlocked and the
    reference of the entry of the page 0x31000 is released. *)
Lemma free_locked_pages_witness :
  let k' := set_Log [CallMmpUnlockPhysicalPages 0x30000 1;
                     CallIoPageCacheEntryReleaseReference CachedPage;
                     CallMmFreePagedPool] Kernel32 in
  flat_map TouchedPages (FragmentsInUse LockedAcrossPages)
  = [0x30000; 0x31000] /\
  MmFreeIoBuffer LockedAcrossPages Kernel32 = Some (None, k') /\
  exists calls,
    Log k' = Log Kernel32 ++ calls /\
    length (List.filter PageAction calls) = 2%nat /\
    List.filter PageAction calls !! 0%nat
    = Some (CallMmpUnlockPhysicalPages 0x30000 1) /\
    List.filter PageAction calls !! 1%nat
    = Some (CallIoPageCacheEntryReleaseReference CachedPage).
Proof.
  intros k'.
  assert (H0 : flat_map TouchedPages (FragmentsInUse LockedAcrossPages)
               = [0x30000; 0x31000]) by (vm_compute; reflexivity).
  assert (H1 : flag_set (Io.Flags LockedAcrossPages)
                 IO_BUFFER_FLAG_MEMORY_OWNED = false)
    by (vm_compute; reflexivity).
  assert (H2 : flag_set (Io.Flags LockedAcrossPages)
                 IO_BUFFER_FLAG_PAGE_CACHE_BACKED = false)
    by (vm_compute; reflexivity).
  assert (H3 : flag_set (Io.Flags LockedAcrossPages)
                 IO_BUFFER_FLAG_MEMORY_LOCKED = true)
    by (vm_compute; reflexivity).
  assert (H4 : Forall (fun f =>
                 0 <= Frag.PhysicalAddress f /\ 0 <= Frag.Size f /\
                 Frag.PhysicalAddress f + Frag.Size f + MmPageSize <= 2 ^ 64
                 /\ Frag.Size f + 2 * MmPageSize <= 2 ^ UINTN_BITS)
               (FragmentsInUse LockedAcrossPages)).
  { repeat constructor; vm_compute; discriminate. }
  assert (H5 : forall Entries,
             Io.PageCacheEntries LockedAcrossPages = Some Entries ->
             Z.of_nat (length Entries) < 2 ^ UINTN_BITS).
  { intros Entries [= <-]. vm_compute. reflexivity. }
  assert (H6 : MmFreeIoBuffer LockedAcrossPages Kernel32 = Some (None, k'))
    by (vm_compute; reflexivity).
  refine (conj H0 (conj H6 _)).
  destruct (free_locked_pages LockedAcrossPages Kernel32 None k'
              H1 H2 H3 H4 H5 H6) as (calls & Hlog & Hlen & Hat).
  exists calls. rewrite H0 in Hlen, Hat.
  split; [exact Hlog|]. split; [exact Hlen|].
  split; [exact (Hat 0%nat 0x30000 eq_refl) | exact (Hat 1%nat 0x31000 eq_refl)].
Defined.

(** Closed facts of a scenario, by evaluation. *)
Ltac evaluated := vm_compute; first [reflexivity | discriminate].


(** [TwoFragments], which has no address, mapped virtually contiguous at
    0xC0000000; a second mapping leaves it alone. *)
Lemma map_contiguous_witness :
  let k' := set_Log [CallMmpAllocateAddressRange 0x3000 0x1000] Kernel32 in
  let Calls' :=
    [(1%nat, CallMmpMapPage 0x10000 0xC0000000
               [MAP_FLAG_PRESENT; MAP_FLAG_GLOBAL]);
     (1%nat, CallMmpMapPage 0x30000 0xC0001000
               [MAP_FLAG_PRESENT; MAP_FLAG_GLOBAL]);
     (1%nat, CallMmpMapPage 0x31000 0xC0002000
               [MAP_FLAG_PRESENT; MAP_FLAG_GLOBAL])] in
  MmMapIoBuffer TwoFragments false false true [] Kernel32
  = Some (mkMapped STATUS_SUCCESS TwoFragmentsMapped Calls', k') /\
  FragmentsMapped true 0xC0000000 (FragmentsInUse TwoFragmentsMapped) /\
  MmMapIoBuffer TwoFragmentsMapped true true false Calls' k'
  = Some (mkMapped STATUS_SUCCESS TwoFragmentsMapped Calls', k').
Proof.
  intros k' Calls'.
  assert (H1 : head (FragmentsInUse TwoFragments)
               = Some (Frag.mk 0 0x10000 0x1000)) by reflexivity.
  assert (H2 : Io.FragmentCount TwoFragments < 2 ^ UINTN_BITS) by evaluated.
  assert (H3 : (Z.to_nat (Io.FragmentCount TwoFragments)
                <= length (Io.Fragment TwoFragments))%nat) by (vm_compute; lia).
  assert (H4 : Z.land (Io.Flags TwoFragments) IO_BUFFER_FLAG_USER_MODE = 0)
    by reflexivity.
  assert (H5 : flag_set (Io.Flags TwoFragments)
                 IO_BUFFER_FLAG_VIRTUALLY_CONTIGUOUS = false) by reflexivity.
  assert (H6 : flag_set (Io.Flags TwoFragments) IO_BUFFER_FLAG_MAPPED = true ->
               flag_set (Io.Flags TwoFragments) IO_BUFFER_FLAG_UNMAP_ON_FREE
               = true) by (vm_compute; discriminate).
  assert (H7 : Forall WholePages (FragmentsInUse TwoFragments))
    by (repeat constructor; evaluated).
  assert (H8 : Forall (fun f => 0 < Frag.Size f) (FragmentsInUse TwoFragments))
    by (repeat constructor).
  assert (H9 : 0 <= Frag.VirtualAddress (Frag.mk 0 0x10000 0x1000)
               < 2 ^ UINTN_BITS) by (split; evaluated).
  assert (H10 : flag_set (Io.Flags TwoFragments)
                  IO_BUFFER_FLAG_PAGE_CACHE_BACKED = true ->
                exists E, Io.PageCacheEntries TwoFragments = Some E /\
                          SizeOfFragments (FragmentsInUse TwoFragments)
                          <= Z.of_nat (length E) * MmPageSize /\
                          Z.of_nat (length E) < 2 ^ UINTN_BITS)
    by (intros H; vm_compute in H; discriminate H).
  assert (H11 : ~ FragmentsMapped true
                    (Frag.VirtualAddress (Frag.mk 0 0x10000 0x1000))
                    (FragmentsInUse TwoFragments)).
  { intros [Hall _]. apply Forall_inv in Hall. apply Hall. reflexivity. }
  assert (H12 : KSUCCESS (fst (AddressRange Kernel32)) = true) by reflexivity.
  assert (H13 : KERNEL_VA_START <= snd (AddressRange Kernel32)) by evaluated.
  assert (H14 : snd (AddressRange Kernel32)
                + SizeOfFragments (FragmentsInUse TwoFragments)
                <= 2 ^ UINTN_BITS) by evaluated.
  assert (H15 : MmMapIoBuffer TwoFragments false false true [] Kernel32
                = Some (mkMapped STATUS_SUCCESS TwoFragmentsMapped Calls', k'))
    by (vm_compute; reflexivity).
  split; [exact H15|].
  destruct (map_contiguous TwoFragments false false [] Kernel32 _
              H1 H2 H3 H4 H5 H6 H7 H8 H9 H10 H11 H12 H13 H14)
    as (b' & C' & k'' & Hrun & _ & Hmapped & _ & _ & _ & _ & Hagain).
  rewrite H15 in Hrun. injection Hrun as <- <- <-.
  split; [exact Hmapped | exact (Hagain true true false)].
Defined.

(** [OneCachedPage] mapped write through: its page is mapped at 0xC0000000
    and the page cache entry of the page is told that address. *)
Lemma map_contiguous_pages_witness :
  exists b' New k',
    MmMapIoBuffer OneCachedPage true false true [] Kernel32
    = Some (mkMapped STATUS_SUCCESS b' ([] ++ New), k') /\
    omap MappedPage New = [(0x31000, 0xC0000000)] /\
    (forall e a, In (e, a) (omap ToldEntry New)
                 <-> exists j : nat,
                       (j < 1)%nat /\
                       PageCacheSlots OneCachedPage !! j = Some (Some e) /\
                       a = 0xC0000000 + Z.of_nat j * MmPageSize) /\
    In (CachedPage, 0xC0000000) (omap ToldEntry New).
Proof.
  assert (H1 : head (FragmentsInUse OneCachedPage)
               = Some (Frag.mk 0 0x31000 0x1000)) by reflexivity.
  assert (H2 : Io.FragmentCount OneCachedPage < 2 ^ UINTN_BITS) by evaluated.
  assert (H3 : (Z.to_nat (Io.FragmentCount OneCachedPage)
                <= length (Io.Fragment OneCachedPage))%nat)
    by (vm_compute; lia).
  assert (H4 : Z.land (Io.Flags OneCachedPage) IO_BUFFER_FLAG_USER_MODE = 0)
    by reflexivity.
  assert (H5 : flag_set (Io.Flags OneCachedPage)
                 IO_BUFFER_FLAG_VIRTUALLY_CONTIGUOUS = false) by reflexivity.
  assert (H6 : flag_set (Io.Flags OneCachedPage) IO_BUFFER_FLAG_MAPPED = true ->
               flag_set (Io.Flags OneCachedPage) IO_BUFFER_FLAG_UNMAP_ON_FREE
               = true) by (vm_compute; discriminate).
  assert (H7 : Forall WholePages (FragmentsInUse OneCachedPage))
    by (repeat constructor; evaluated).
  assert (H8 : Forall (fun f => 0 < Frag.Size f)
                 (FragmentsInUse OneCachedPage)) by (repeat constructor).
  assert (H9 : 0 <= Frag.VirtualAddress (Frag.mk 0 0x31000 0x1000)
               < 2 ^ UINTN_BITS) by (split; evaluated).
  assert (H10 : flag_set (Io.Flags OneCachedPage)
                  IO_BUFFER_FLAG_PAGE_CACHE_BACKED = true ->
                exists E, Io.PageCacheEntries OneCachedPage = Some E /\
                          SizeOfFragments (FragmentsInUse OneCachedPage)
                          <= Z.of_nat (length E) * MmPageSize /\
                          Z.of_nat (length E) < 2 ^ UINTN_BITS).
  { intros _. exists [Some CachedPage; None].
    split; [reflexivity|]. split; evaluated. }
  assert (H11 : ~ FragmentsMapped true
                    (Frag.VirtualAddress (Frag.mk 0 0x31000 0x1000))
                    (FragmentsInUse OneCachedPage)).
  { intros [Hall _]. apply Forall_inv in Hall. apply Hall. reflexivity. }
  assert (H12 : KSUCCESS (fst (AddressRange Kernel32)) = true) by reflexivity.
  assert (H13 : KERNEL_VA_START <= snd (AddressRange Kernel32)) by evaluated.
  assert (H14 : snd (AddressRange Kernel32)
                + SizeOfFragments (FragmentsInUse OneCachedPage)
                <= 2 ^ UINTN_BITS) by evaluated.
  destruct (map_contiguous_pages OneCachedPage true false [] Kernel32 _
              H1 H2 H3 H4 H5 H6 H7 H8 H9 H10 H11 H12 H13 H14)
    as (b' & New & k' & Hrun & _ & _ & Hpages & _ & Htold).
  exists b', New, k'. split; [exact Hrun|]. split; [exact Hpages|].
  split; [exact Htold|].
  apply Htold. exists 0%nat.
  split; [vm_compute; lia|]. split; reflexivity.
Defined.

(** [MappedApart] asked to be virtually contiguous when the address space
    is full: its ranges are given back and its fragments keep their
    addresses, so that a later mapping finds it mapped. *)
Lemma failed_remap_keeps_addresses_witness :
  let k' := set_Log [CallMmpFreeAccountingRanges
                       (FragmentsInUse MappedApart) None;
                     CallMmpAllocateAddressRange 0x2000 0x1000]
              AddressSpaceFull in
  MmMapIoBuffer MappedApart false false true [] AddressSpaceFull
  = Some (mkMapped STATUS_INSUFFICIENT_RESOURCES MappedApartGivenBack [], k') /\
  MmMapIoBuffer MappedApartGivenBack false false false [] Kernel32
  = Some (mkMapped STATUS_SUCCESS
            (Io.set_Flags
               (Z.lor (Io.Flags MappedApartGivenBack) IO_BUFFER_FLAG_MAPPED)
               MappedApartGivenBack) [], Kernel32).
Proof.
  intros k'.
  assert (H1 : head (FragmentsInUse MappedApart)
               = Some (Frag.mk 0xC0005000 0x10000 0x1000)) by reflexivity.
  assert (H2 : Io.FragmentCount MappedApart < 2 ^ UINTN_BITS) by evaluated.
  assert (H3 : (Z.to_nat (Io.FragmentCount MappedApart)
                <= length (Io.Fragment MappedApart))%nat) by (vm_compute; lia).
  assert (H4 : Z.land (Io.Flags MappedApart) IO_BUFFER_FLAG_USER_MODE = 0)
    by reflexivity.
  assert (H5 : flag_set (Io.Flags MappedApart)
                 IO_BUFFER_FLAG_VIRTUALLY_CONTIGUOUS = false) by reflexivity.
  assert (H6 : flag_set (Io.Flags MappedApart) IO_BUFFER_FLAG_MAPPED = true)
    by reflexivity.
  assert (H7 : flag_set (Io.Flags MappedApart) IO_BUFFER_FLAG_UNMAP_ON_FREE
               = true) by reflexivity.
  assert (H8 : flag_set (Io.Flags MappedApart) IO_BUFFER_FLAG_PAGE_CACHE_BACKED
               = false) by reflexivity.
  assert (H9 : Forall WholePages (FragmentsInUse MappedApart))
    by (repeat constructor; evaluated).
  assert (H10 : Forall (fun f => 0 < Frag.Size f) (FragmentsInUse MappedApart))
    by (repeat constructor).
  assert (H11 : SizeOfFragments (FragmentsInUse MappedApart) < 2 ^ UINTN_BITS)
    by evaluated.
  assert (H12 : Forall (fun f => Frag.VirtualAddress f <> NULL)
                  (FragmentsInUse MappedApart))
    by (repeat constructor; evaluated).
  assert (H13 : 0 <= Frag.VirtualAddress (Frag.mk 0xC0005000 0x10000 0x1000)
                < 2 ^ UINTN_BITS) by (split; evaluated).
  assert (H14 : ~ VirtuallyAdjacent
                    (Frag.VirtualAddress (Frag.mk 0xC0005000 0x10000 0x1000))
                    (FragmentsInUse MappedApart)).
  { intros H. specialize (H 1%nat (Frag.mk 0xC0009000 0x30000 0x1000) eq_refl).
    vm_compute in H. discriminate H. }
  assert (H15 : KSUCCESS (fst (AddressRange AddressSpaceFull)) = false)
    by reflexivity.
  assert (H16 : MmMapIoBuffer MappedApart false false true [] AddressSpaceFull
                = Some (mkMapped STATUS_INSUFFICIENT_RESOURCES
                          MappedApartGivenBack [], k'))
    by (vm_compute; reflexivity).
  split; [exact H16|].
  destruct (failed_remap_keeps_addresses MappedApart false false []
              AddressSpaceFull _ H1 H2 H3 H4 H5 H6 H7 H8 H9 H10 H11 H12 H13
              H14 H15)
    as (b' & k'' & Hrun & _ & _ & _ & _ & Hlater).
  rewrite H16 in Hrun. injection Hrun as <- <-.
  exact (Hlater false false [] Kernel32).
Defined.

(** [MappedBytes], which [MmInitializeIoBuffer] left mapped, is left
    alone. *)
Lemma map_mapped_untouched_witness :
  FragmentsMapped false 0xC0002000 (FragmentsInUse MappedBytes) /\
  exists b',
    MmMapIoBuffer MappedBytes false false false [] Kernel32
    = Some (mkMapped STATUS_SUCCESS b' [], Kernel32) /\
    b' = Io.set_Flags (Io.Flags b') MappedBytes /\
    flag_set (Io.Flags b') IO_BUFFER_FLAG_MAPPED = true /\
    (Io.Flags b' = Io.Flags MappedBytes \/
     Io.Flags b' = Z.lor (Io.Flags MappedBytes) IO_BUFFER_FLAG_MAPPED).
Proof.
  assert (H1 : head (FragmentsInUse MappedBytes)
               = Some (Frag.mk 0xC0002000 0xC0002000 0x200)) by reflexivity.
  assert (H2 : (Z.to_nat (Io.FragmentCount MappedBytes)
                <= length (Io.Fragment MappedBytes))%nat) by (vm_compute; lia).
  assert (H3 : 0 <= Frag.VirtualAddress (Frag.mk 0xC0002000 0xC0002000 0x200)
               < 2 ^ UINTN_BITS) by (split; evaluated).
  assert (H4 : FragmentsMapped false 0xC0002000 (FragmentsInUse MappedBytes)).
  { split; [repeat constructor; evaluated | discriminate]. }
  split; [exact H4|].
  exact (proj1 (map_mapped_untouched MappedBytes false false false []
                  Kernel32 _ H1 H2 H3) H4).
Defined.

(** [HalfMapped]: the fragment without an address is mapped at 0xC0000000,
    the other keeps its address. *)
Lemma map_fragments_witness :
  let k' := set_Log [CallMmpAllocateAddressRange 0x2000 0x1000] Kernel32 in
  let New :=
    [(1%nat, CallMmpMapPage 0x30000 0xC0000000
               [MAP_FLAG_PRESENT; MAP_FLAG_GLOBAL]);
     (1%nat, CallMmpMapPage 0x31000 0xC0001000
               [MAP_FLAG_PRESENT; MAP_FLAG_GLOBAL])] in
  MmMapIoBuffer HalfMapped false false false [] Kernel32
  = Some (mkMapped STATUS_SUCCESS HalfMappedMapped New, k') /\
  Forall2 MappedFragment (FragmentsInUse HalfMapped)
    (FragmentsInUse HalfMappedMapped) /\
  map fst (omap MappedPage New)
  = flat_map FragmentPages (Unmapped (FragmentsInUse HalfMapped)).
Proof.
  intros k' New.
  assert (H1 : head (FragmentsInUse HalfMapped)
               = Some (Frag.mk 0xC0005000 0x10000 0x1000)) by reflexivity.
  assert (H2 : Io.FragmentCount HalfMapped < 2 ^ UINTN_BITS) by evaluated.
  assert (H3 : (Z.to_nat (Io.FragmentCount HalfMapped)
                <= length (Io.Fragment HalfMapped))%nat) by (vm_compute; lia).
  assert (H4 : Z.land (Io.Flags HalfMapped) IO_BUFFER_FLAG_USER_MODE = 0)
    by reflexivity.
  assert (H5 : flag_set (Io.Flags HalfMapped) IO_BUFFER_FLAG_MAPPED = false)
    by reflexivity.
  assert (H6 : Forall WholePages (FragmentsInUse HalfMapped))
    by (repeat constructor; evaluated).
  assert (H7 : Forall (fun f => 0 < Frag.Size f) (FragmentsInUse HalfMapped))
    by (repeat constructor).
  assert (H8 : 0 <= Frag.VirtualAddress (Frag.mk 0xC0005000 0x10000 0x1000)
               < 2 ^ UINTN_BITS) by (split; evaluated).
  assert (H9 : Exists (fun f => Frag.VirtualAddress f = NULL)
                 (FragmentsInUse HalfMapped))
    by (apply Exists_cons_tl, Exists_cons_hd; reflexivity).
  assert (H10 : flag_set (Io.Flags HalfMapped)
                  IO_BUFFER_FLAG_PAGE_CACHE_BACKED = true ->
                exists E, Io.PageCacheEntries HalfMapped = Some E /\
                          SizeOfFragments (FragmentsInUse HalfMapped)
                          <= Z.of_nat (length E) * MmPageSize /\
                          Z.of_nat (length E) < 2 ^ UINTN_BITS)
    by (intros H; vm_compute in H; discriminate H).
  assert (H11 : KSUCCESS (fst (AddressRange Kernel32)) = true) by reflexivity.
  assert (H12 : KERNEL_VA_START <= snd (AddressRange Kernel32)) by evaluated.
  assert (H13 : snd (AddressRange Kernel32)
                + SizeOfFragments (FragmentsInUse HalfMapped)
                <= 2 ^ UINTN_BITS) by evaluated.
  assert (H14 : MmMapIoBuffer HalfMapped false false false [] Kernel32
                = Some (mkMapped STATUS_SUCCESS HalfMappedMapped New, k'))
    by (vm_compute; reflexivity).
  split; [exact H14|].
  destruct (map_fragments HalfMapped false false [] Kernel32 _
              H1 H2 H3 H4 H5 H6 H7 H8 H9 H10 H11 H12 H13)
    as (b' & New' & k'' & ranges & Hrun & Hfragments & _ & _ & Hpages & _).
  rewrite H14 in Hrun. injection Hrun as <- <- <-.
  split; [exact Hfragments | exact Hpages].
Defined.

(** [MappedApart], zeroed over the sixteen bytes on either side of the
    boundary of its two fragments. *)
Lemma zero_bytes_witness :
  exists New,
    MmZeroIoBuffer MappedApart 0xFF0 0x20 [] Kernel32
    = Some (mkTouched STATUS_SUCCESS (FoundMapped MappedApart) ([] ++ New),
            Kernel32) /\
    ZeroedBytes New
    = BufferRange (FragmentsInUse MappedApart)
        (0xFF0 + Io.CurrentOffset MappedApart) 0x20 /\
    Forall (fun c => exists Buffer Bytes,
              c = (length (Log Kernel32), CallRtlZeroMemory Buffer Bytes)) New.
Proof.
  assert (H1 : FragmentsInUse MappedApart
               = [Frag.mk 0xC0005000 0x10000 0x1000;
                  Frag.mk 0xC0009000 0x30000 0x1000]) by reflexivity.
  assert (H2 : (Z.to_nat (Io.FragmentCount MappedApart)
                <= length (Io.Fragment MappedApart))%nat) by (vm_compute; lia).
  assert (H3 : Io.FragmentCount MappedApart < 2 ^ UINTN_BITS) by evaluated.
  assert (H4 : flag_set (Io.Flags MappedApart) IO_BUFFER_FLAG_USER_MODE
               = false) by reflexivity.
  assert (H5 : Forall InMemory [Frag.mk 0xC0005000 0x10000 0x1000;
                                Frag.mk 0xC0009000 0x30000 0x1000])
    by (repeat constructor; evaluated).
  assert (H6 : Io.TotalSize MappedApart
               = SizeOfFragments [Frag.mk 0xC0005000 0x10000 0x1000;
                                  Frag.mk 0xC0009000 0x30000 0x1000])
    by reflexivity.
  assert (H7 : Io.TotalSize MappedApart < 2 ^ UINTN_BITS) by evaluated.
  assert (H8 : 0 <= 0xFF0) by evaluated.
  assert (H9 : 0 <= Io.CurrentOffset MappedApart) by evaluated.
  assert (H10 : 0 <= 0x20) by evaluated.
  assert (H11 : 0xFF0 + Io.CurrentOffset MappedApart + 0x20
                <= Io.TotalSize MappedApart) by evaluated.
  rewrite H1.
  exact (zero_bytes MappedApart 0xFF0 0x20 [] Kernel32 _ _ H1 H2 H3 H4 H5 H6
           H7 H8 H9 H10 H11).
Defined.

(** Thirty-two bytes at 0xC0100000 copied into [MappedApart] across the
    boundary of its two fragments. *)
Lemma copy_bytes_witness :
  exists New,
    MmCopyIoBufferData MappedApart 0xC0100000 0xFF0 0x20 true [] Kernel32
    = Some (mkTouched STATUS_SUCCESS (FoundMapped MappedApart) ([] ++ New),
            Kernel32) /\
    CopiedBytes New
    = CopyPairs (FragmentsInUse MappedApart) true 0xC0100000
        (0xFF0 + Io.CurrentOffset MappedApart) 0x20 /\
    Forall (fun c => exists Destination Source Bytes,
              c = (length (Log Kernel32),
                   CopyCall MappedApart true Destination Source Bytes)) New.
Proof.
  assert (H1 : FragmentsInUse MappedApart
               = [Frag.mk 0xC0005000 0x10000 0x1000;
                  Frag.mk 0xC0009000 0x30000 0x1000]) by reflexivity.
  assert (H2 : (Z.to_nat (Io.FragmentCount MappedApart)
                <= length (Io.Fragment MappedApart))%nat) by (vm_compute; lia).
  assert (H3 : Io.FragmentCount MappedApart < 2 ^ UINTN_BITS) by evaluated.
  assert (H4 : flag_set (Io.Flags MappedApart) IO_BUFFER_FLAG_USER_MODE = true
               -> UserCopy Kernel32 = STATUS_SUCCESS)
    by (intros _; reflexivity).
  assert (H5 : Forall InMemory [Frag.mk 0xC0005000 0x10000 0x1000;
                                Frag.mk 0xC0009000 0x30000 0x1000])
    by (repeat constructor; evaluated).
  assert (H6 : Io.TotalSize MappedApart
               = SizeOfFragments [Frag.mk 0xC0005000 0x10000 0x1000;
                                  Frag.mk 0xC0009000 0x30000 0x1000])
    by reflexivity.
  assert (H7 : Io.TotalSize MappedApart < 2 ^ UINTN_BITS) by evaluated.
  assert (H8 : KERNEL_VA_START <= 0xC0100000) by evaluated.
  assert (H9 : 0xC0100000 + 0x20 < 2 ^ UINTN_BITS) by evaluated.
  assert (H10 : 0 <= 0xFF0) by evaluated.
  assert (H11 : 0 <= Io.CurrentOffset MappedApart) by evaluated.
  assert (H12 : 0 <= 0x20) by evaluated.
  assert (H13 : 0xFF0 + Io.CurrentOffset MappedApart + 0x20
                <= Io.TotalSize MappedApart) by evaluated.
  rewrite H1.
  exact (copy_bytes MappedApart 0xC0100000 0xFF0 0x20 true [] Kernel32 _ _ H1
           H2 H3 H4 H5 H6 H7 H8 H9 H10 H11 H12 H13).
Defined.

(** [UserBuffer] read into the kernel bytes at 0xC0100000 on
    [UserMemoryGone]. *)
Lemma copy_stops_at_failed_copy_witness :
  exists Destination Source Bytes,
    let New := (length (Log UserMemoryGone),
                CopyCall UserBuffer false Destination Source Bytes) in
    MmCopyIoBufferData UserBuffer 0xC0100000 0x10 0x20 false [] UserMemoryGone
    = Some (mkTouched (UserCopy UserMemoryGone) (FoundMapped UserBuffer)
              ([] ++ [New]), UserMemoryGone) /\
    0 <= Bytes <= 0x20 /\
    CopiedBytes [New]
    = take (Z.to_nat Bytes)
        (CopyPairs (FragmentsInUse UserBuffer) false 0xC0100000
           (0x10 + Io.CurrentOffset UserBuffer) 0x20).
Proof.
  assert (H1 : FragmentsInUse UserBuffer = [Frag.mk 0x1000 0 0x2000])
    by reflexivity.
  assert (H2 : (Z.to_nat (Io.FragmentCount UserBuffer)
                <= length (Io.Fragment UserBuffer))%nat) by (vm_compute; lia).
  assert (H3 : Io.FragmentCount UserBuffer < 2 ^ UINTN_BITS) by evaluated.
  assert (H4 : flag_set (Io.Flags UserBuffer) IO_BUFFER_FLAG_USER_MODE = true)
    by reflexivity.
  assert (H5 : KSUCCESS (UserCopy UserMemoryGone) = false) by reflexivity.
  assert (H6 : Forall InMemory [Frag.mk 0x1000 0 0x2000])
    by (repeat constructor; evaluated).
  assert (H7 : Io.TotalSize UserBuffer
               = SizeOfFragments [Frag.mk 0x1000 0 0x2000]) by reflexivity.
  assert (H8 : Io.TotalSize UserBuffer < 2 ^ UINTN_BITS) by evaluated.
  assert (H9 : KERNEL_VA_START <= 0xC0100000) by evaluated.
  assert (H10 : 0 <= 0x10) by evaluated.
  assert (H11 : 0 <= Io.CurrentOffset UserBuffer) by evaluated.
  assert (H12 : 0 < 0x20) by evaluated.
  assert (H13 : 0x10 + Io.CurrentOffset UserBuffer + 0x20
                <= Io.TotalSize UserBuffer) by evaluated.
  rewrite H1.
  exact (copy_stops_at_failed_copy UserBuffer 0xC0100000 0x10 0x20 false []
           UserMemoryGone _ _ H1 H2 H3 H4 H5 H6 H7 H8 H9 H10 H11 H12 H13).
Defined.

(** Thirty-two bytes of [TwoFragmentsMapped], sixteen on either side of the
    boundary of its fragments, copied into [MappedApart] eight bytes before
    the boundary of its own. *)
Lemma copy_between_buffers_witness :
  exists New,
    MmCopyIoBuffer MappedApart 0xFF8 TwoFragmentsMapped 0x7F0 0x20 [] Kernel32
    = Some (mkCopied STATUS_SUCCESS (FoundMapped MappedApart)
              (FoundMapped TwoFragmentsMapped) ([] ++ New), Kernel32) /\
    CopiedBytes New
    = zip (BufferRange (FragmentsInUse MappedApart)
             (0xFF8 + Io.CurrentOffset MappedApart) 0x20)
          (BufferRange (FragmentsInUse TwoFragmentsMapped)
             (0x7F0 + Io.CurrentOffset TwoFragmentsMapped) 0x20) /\
    Forall (fun c => exists DestinationVirtualAddress SourceVirtualAddress
                            Bytes,
              c = (length (Log Kernel32),
                   BufferCopyCall MappedApart TwoFragmentsMapped
                     DestinationVirtualAddress SourceVirtualAddress Bytes))
      New.
Proof.
  assert (H1 : FragmentsInUse MappedApart
               = [Frag.mk 0xC0005000 0x10000 0x1000;
                  Frag.mk 0xC0009000 0x30000 0x1000]) by reflexivity.
  assert (H2 : FragmentsInUse TwoFragmentsMapped
               = [Frag.mk 0xC0000000 0x10000 0x1000;
                  Frag.mk 0xC0001000 0x30000 0x2000]) by reflexivity.
  assert (H3 : (Z.to_nat (Io.FragmentCount MappedApart)
                <= length (Io.Fragment MappedApart))%nat) by (vm_compute; lia).
  assert (H4 : (Z.to_nat (Io.FragmentCount TwoFragmentsMapped)
                <= length (Io.Fragment TwoFragmentsMapped))%nat)
    by (vm_compute; lia).
  assert (H5 : Io.FragmentCount MappedApart < 2 ^ UINTN_BITS) by evaluated.
  assert (H6 : Io.FragmentCount TwoFragmentsMapped < 2 ^ UINTN_BITS)
    by evaluated.
  assert (H7 : flag_set (Io.Flags MappedApart) IO_BUFFER_FLAG_USER_MODE
               && flag_set (Io.Flags TwoFragmentsMapped)
                    IO_BUFFER_FLAG_USER_MODE = false) by reflexivity.
  assert (H8 : flag_set (Io.Flags MappedApart) IO_BUFFER_FLAG_USER_MODE
               || flag_set (Io.Flags TwoFragmentsMapped)
                    IO_BUFFER_FLAG_USER_MODE = true ->
               UserCopy Kernel32 = STATUS_SUCCESS)
    by (intros _; reflexivity).
  assert (H9 : Forall InMemory [Frag.mk 0xC0005000 0x10000 0x1000;
                                Frag.mk 0xC0009000 0x30000 0x1000])
    by (repeat constructor; evaluated).
  assert (H10 : Forall InMemory [Frag.mk 0xC0000000 0x10000 0x1000;
                                 Frag.mk 0xC0001000 0x30000 0x2000])
    by (repeat constructor; evaluated).
  assert (H11 : Io.TotalSize MappedApart
                = SizeOfFragments [Frag.mk 0xC0005000 0x10000 0x1000;
                                   Frag.mk 0xC0009000 0x30000 0x1000])
    by reflexivity.
  assert (H12 : Io.TotalSize TwoFragmentsMapped
                = SizeOfFragments [Frag.mk 0xC0000000 0x10000 0x1000;
                                   Frag.mk 0xC0001000 0x30000 0x2000])
    by reflexivity.
  assert (H13 : Io.TotalSize MappedApart < 2 ^ UINTN_BITS) by evaluated.
  assert (H14 : Io.TotalSize TwoFragmentsMapped < 2 ^ UINTN_BITS)
    by evaluated.
  assert (H15 : 0 <= 0xFF8) by evaluated.
  assert (H16 : 0 <= Io.CurrentOffset MappedApart) by evaluated.
  assert (H17 : 0 <= 0x7F0) by evaluated.
  assert (H18 : 0 <= Io.CurrentOffset TwoFragmentsMapped) by evaluated.
  assert (H19 : 0 <= 0x20) by evaluated.
  assert (H20 : 0xFF8 + Io.CurrentOffset MappedApart
                < Io.TotalSize MappedApart) by evaluated.
  assert (H21 : 0xFF8 + Io.CurrentOffset MappedApart + 0x20
                <= Io.TotalSize MappedApart) by evaluated.
  assert (H22 : 0x7F0 + Io.CurrentOffset TwoFragmentsMapped
                < Io.TotalSize TwoFragmentsMapped) by evaluated.
  assert (H23 : 0x7F0 + Io.CurrentOffset TwoFragmentsMapped + 0x20
                <= Io.TotalSize TwoFragmentsMapped) by evaluated.
  assert (H24 : ClearOfTableEnd MappedApart
                  (0xFF8 + Io.CurrentOffset MappedApart) 0x20)
    by (left; evaluated).
  assert (H25 : ClearOfTableEnd TwoFragmentsMapped
                  (0x7F0 + Io.CurrentOffset TwoFragmentsMapped) 0x20)
    by (left; evaluated).
  rewrite H1, H2.
  exact (copy_between_buffers MappedApart TwoFragmentsMapped 0xFF8 0x7F0 0x20
           [] Kernel32 _ _ _ _ H1 H2 H3 H4 H5 H6 H7 H8 H9 H10 H11 H12 H13 H14
           H15 H16 H17 H18 H19 H20 H21 H22 H23 H24 H25).
Defined.

(** The second page of [MappedApart], whose table has two slots, both in
    use, filled from the first page of [HalfMappedMapped]: one call copies
    the page, the pointer of the destination moves to the slot after its
    table, and the copy succeeds. *)
Lemma copy_to_end_of_table_witness :
  let New := [(0%nat, CallRtlCopyMemory 0xC0009000 0xC0005000 0x1000)] in
  Z.to_nat (Io.FragmentCount MappedApart) = length (Io.Fragment MappedApart) /\
  0x1000 + Io.CurrentOffset MappedApart + 0x1000 = Io.TotalSize MappedApart /\
  MmCopyIoBuffer MappedApart 0x1000 HalfMappedMapped 0 0x1000 [] Kernel32
  = Some (mkCopied STATUS_SUCCESS MappedApart HalfMappedMapped New,
          Kernel32) /\
  CopiedBytes New
  = zip (BufferRange (FragmentsInUse MappedApart)
           (0x1000 + Io.CurrentOffset MappedApart) 0x1000)
        (BufferRange (FragmentsInUse HalfMappedMapped)
           (0 + Io.CurrentOffset HalfMappedMapped) 0x1000).
Proof.
  intros New.
  assert (H1 : FragmentsInUse MappedApart
               = [Frag.mk 0xC0005000 0x10000 0x1000;
                  Frag.mk 0xC0009000 0x30000 0x1000]) by reflexivity.
  assert (H2 : FragmentsInUse HalfMappedMapped
               = [Frag.mk 0xC0005000 0x10000 0x1000;
                  Frag.mk 0xC0000000 0x30000 0x2000]) by reflexivity.
  assert (H3 : (Z.to_nat (Io.FragmentCount MappedApart)
                <= length (Io.Fragment MappedApart))%nat) by (vm_compute; lia).
  assert (H4 : (Z.to_nat (Io.FragmentCount HalfMappedMapped)
                <= length (Io.Fragment HalfMappedMapped))%nat)
    by (vm_compute; lia).
  assert (H5 : Io.FragmentCount MappedApart < 2 ^ UINTN_BITS) by evaluated.
  assert (H6 : Io.FragmentCount HalfMappedMapped < 2 ^ UINTN_BITS)
    by evaluated.
  assert (H7 : flag_set (Io.Flags MappedApart) IO_BUFFER_FLAG_USER_MODE
               && flag_set (Io.Flags HalfMappedMapped)
                    IO_BUFFER_FLAG_USER_MODE = false) by reflexivity.
  assert (H8 : flag_set (Io.Flags MappedApart) IO_BUFFER_FLAG_USER_MODE
               || flag_set (Io.Flags HalfMappedMapped)
                    IO_BUFFER_FLAG_USER_MODE = true ->
               UserCopy Kernel32 = STATUS_SUCCESS)
    by (intros _; reflexivity).
  assert (H9 : Forall InMemory [Frag.mk 0xC0005000 0x10000 0x1000;
                                Frag.mk 0xC0009000 0x30000 0x1000])
    by (repeat constructor; evaluated).
  assert (H10 : Forall InMemory [Frag.mk 0xC0005000 0x10000 0x1000;
                                 Frag.mk 0xC0000000 0x30000 0x2000])
    by (repeat constructor; evaluated).
  assert (H11 : Io.TotalSize MappedApart
                = SizeOfFragments [Frag.mk 0xC0005000 0x10000 0x1000;
                                   Frag.mk 0xC0009000 0x30000 0x1000])
    by reflexivity.
  assert (H12 : Io.TotalSize HalfMappedMapped
                = SizeOfFragments [Frag.mk 0xC0005000 0x10000 0x1000;
                                   Frag.mk 0xC0000000 0x30000 0x2000])
    by reflexivity.
  assert (H13 : Io.TotalSize MappedApart < 2 ^ UINTN_BITS) by evaluated.
  assert (H14 : Io.TotalSize HalfMappedMapped < 2 ^ UINTN_BITS)
    by evaluated.
  assert (H15 : 0 <= 0x1000) by evaluated.
  assert (H16 : 0 <= Io.CurrentOffset MappedApart) by evaluated.
  assert (H17 : 0 <= 0) by evaluated.
  assert (H18 : 0 <= Io.CurrentOffset HalfMappedMapped) by evaluated.
  assert (H19 : 0 <= 0x1000) by evaluated.
  assert (H20 : 0x1000 + Io.CurrentOffset MappedApart
                < Io.TotalSize MappedApart) by evaluated.
  assert (H21 : 0x1000 + Io.CurrentOffset MappedApart + 0x1000
                <= Io.TotalSize MappedApart) by evaluated.
  assert (H22 : 0 + Io.CurrentOffset HalfMappedMapped
                < Io.TotalSize HalfMappedMapped) by evaluated.
  assert (H23 : 0 + Io.CurrentOffset HalfMappedMapped + 0x1000
                <= Io.TotalSize HalfMappedMapped) by evaluated.
  assert (Hrun' : MmCopyIoBuffer MappedApart 0x1000 HalfMappedMapped 0
                    0x1000 [] Kernel32
                  = Some (mkCopied STATUS_SUCCESS MappedApart
                            HalfMappedMapped New, Kernel32))
    by (vm_compute; reflexivity).
  split; [reflexivity|]. split; [reflexivity|]. split; [exact Hrun'|].
  destruct (copy_to_end_of_table MappedApart HalfMappedMapped 0x1000 0
              0x1000 [] Kernel32 _ _ _ _ H1 H2 H3 H4 H5 H6 H7 H8 H9 H10 H11
              H12 H13 H14 H15 H16 H17 H18 H19 H20 H21 H22 H23)
    as (New' & Hrun & Hcopy & _).
  rewrite Hrun' in Hrun. injection Hrun as <-.
  rewrite H1, H2. exact Hcopy.
Defined.

(** Nothing copied to the end of [MappedApart]. *)
Lemma copy_nothing_at_end_witness :
  MmCopyIoBuffer MappedApart 0x2000 TwoFragmentsMapped 0 0 [] Kernel32 = None.
Proof.
  assert (H1 : FragmentsInUse MappedApart
               = [Frag.mk 0xC0005000 0x10000 0x1000;
                  Frag.mk 0xC0009000 0x30000 0x1000]) by reflexivity.
  assert (H2 : FragmentsInUse TwoFragmentsMapped
               = [Frag.mk 0xC0000000 0x10000 0x1000;
                  Frag.mk 0xC0001000 0x30000 0x2000]) by reflexivity.
  assert (H3 : (Z.to_nat (Io.FragmentCount MappedApart)
                <= length (Io.Fragment MappedApart))%nat) by (vm_compute; lia).
  assert (H4 : (Z.to_nat (Io.FragmentCount TwoFragmentsMapped)
                <= length (Io.Fragment TwoFragmentsMapped))%nat)
    by (vm_compute; lia).
  assert (H5 : Io.FragmentCount MappedApart < 2 ^ UINTN_BITS) by evaluated.
  assert (H6 : Io.FragmentCount TwoFragmentsMapped < 2 ^ UINTN_BITS)
    by evaluated.
  assert (H7 : flag_set (Io.Flags MappedApart) IO_BUFFER_FLAG_USER_MODE
               && flag_set (Io.Flags TwoFragmentsMapped)
                    IO_BUFFER_FLAG_USER_MODE = false) by reflexivity.
  assert (H9 : Forall InMemory [Frag.mk 0xC0005000 0x10000 0x1000;
                                Frag.mk 0xC0009000 0x30000 0x1000])
    by (repeat constructor; evaluated).
  assert (H10 : Forall InMemory [Frag.mk 0xC0000000 0x10000 0x1000;
                                 Frag.mk 0xC0001000 0x30000 0x2000])
    by (repeat constructor; evaluated).
  assert (H12 : Io.TotalSize MappedApart
                = SizeOfFragments [Frag.mk 0xC0005000 0x10000 0x1000;
                                   Frag.mk 0xC0009000 0x30000 0x1000])
    by reflexivity.
  assert (H13 : Io.TotalSize TwoFragmentsMapped
                = SizeOfFragments [Frag.mk 0xC0000000 0x10000 0x1000;
                                   Frag.mk 0xC0001000 0x30000 0x2000])
    by reflexivity.
  assert (H14 : Io.TotalSize MappedApart < 2 ^ UINTN_BITS) by evaluated.
  assert (H15 : Io.TotalSize TwoFragmentsMapped < 2 ^ UINTN_BITS)
    by evaluated.
  assert (H16 : 0 <= 0x2000) by evaluated.
  assert (H17 : 0 <= Io.CurrentOffset MappedApart) by evaluated.
  assert (H18 : 0 <= 0) by evaluated.
  assert (H19 : 0 <= Io.CurrentOffset TwoFragmentsMapped) by evaluated.
  assert (H20 : 0x2000 + Io.CurrentOffset MappedApart
                <= Io.TotalSize MappedApart) by evaluated.
  assert (H21 : 0 + Io.CurrentOffset TwoFragmentsMapped
                <= Io.TotalSize TwoFragmentsMapped) by evaluated.
  assert (H22 : 0x2000 + Io.CurrentOffset MappedApart
                = Io.TotalSize MappedApart \/
                0 + Io.CurrentOffset TwoFragmentsMapped
                = Io.TotalSize TwoFragmentsMapped) by (left; reflexivity).
  exact (copy_nothing_at_end MappedApart TwoFragmentsMapped 0x2000 0 []
           Kernel32 _ _ _ _ H1 H2 H3 H4 H5 H6 H7 H9 H10 H12 H13 H14 H15 H16
           H17 H18 H19 H20 H21 H22).
Defined.

End MoreScenarios.
